(* ===== verification/_CoqProject ===== *)
-Q . S2P
Prelude.v
Text.v
Lww.v
Types.v
Ratchet.v
Signing.v
Concrete.v
RatchetNet.v
RatchetSafety.v
RatchetTheorems.v
SigningTheorems.v
Validation.v
Store.v
ConcreteStore.v
Social.v
Moderation.v
SocialTheorems.v
Posts.v
Interactions.v
Notifications.v
ContentTheorems.v
Peers.v
Messaging.v
Merge.v
Handler.v
Ingest.v
Gossip.v
GossipTheorems.v
Framing.v
Sync.v
DeviceSync.v
ConcreteWire.v
SyncTheorems.v
DeviceSyncTheorems.v
Noise.v
Dm.v
ConcreteDm.v
DmTheorems.v
Audio.v
AudioTheorems.v
StageAuth.v
StageAuthTheorems.v
Topology.v
Stage.v
StageActor.v
StageHandle.v
StageTheorems.v
FollowRequests.v
Peer.v
PeerTheorems.v
Link.v
LinkTheorems.v
Accept.v
OutboxTheorems.v
Server.v
ServerIngest.v
ServerStart.v
ServerApi.v
ServerSafety.v
ServerTheorems.v
Trending.v
TrendingTheorems.v
Effects.v
Call.v
CallSafety.v
CallTheorems.v
Identity.v
IdentityTheorems.v
Servers.v
Service.v
Commands.v
ServiceSafety.v
ServiceTheorems.v
RegistrationTheorems.v
Orchestration.v
OrchestrationTheorems.v
Mixing.v
MixingTheorems.v
Pipeline.v
PipelineTheorems.v
