(* ===== verification/Prelude.v ===== *)
(** * A verification library for Proscenium

    Proscenium is a peer-to-peer social network: every user's node keeps its own
    database, publishes signed posts and likes over gossip topics, lets followers
    pull what they missed, exchanges end-to-end encrypted direct messages, makes
    voice calls, keeps the user's devices in step and hosts live audio rooms
    ("stages").  A community server optionally aggregates registered users behind
    a web page.  This library models the Rust code of the repository, function by
    function, and proves what makes it correct -- and, where the code does not
    keep a promise of its documentation, proves that instead.

    ** How the program is modelled

    - A function of the source is a definition with the name of the source (two
      files with the same name are told apart by the file, as in
      [Posts.insert_post] and [Server.insert_post]).  Structs are records whose
      fields carry a short prefix; enums are inductive types.
    - Integers are [Z].  Where a cast or an overflow can be seen it is written:
      [as_i64], [as_u64], [add_u32] and the like are in this file.  Floating
      point (the samples of the mixers, the scores of the server) is that of
      IEEE 754 in the standard library, [SpecFloat].
    - [Result] is [result], with [?] as its bind; an operation on the database
      takes the database and returns it ([Store.Db]: one finite map per table,
      keyed by the primary key; unique indices and foreign keys are written into
      the statements that can violate them).
    - A panic is a value.  A handler of the client is in the monad of
      [Handler.v], whose outcome [Done] or [Panicked] carries the database and
      the events up to that point, so that what was written before a panic stays;
      services and actors are in that of [Effects.v], which threads a state and
      emits the effects on the rest of the program in order ([None] is a panic);
      a task of the server is in that of [ServerIngest.v].
    - The clock, random bytes and what the network answers are arguments.  A
      stream is the list of bytes still to be read.  Tasks, timers and channels
      of tokio are steps of a system ([Call.v], [Service.v], [StageActor.v]) or
      an argument that says what a channel delivers ([Mixing.v], [Pipeline.v]).
    - An operation of the client runs as one step.  In the source another task
      can run where it awaits the database or the network; steps that the source
      guards by a lock (the node of [Service.v], the queue of a stage actor, the
      phases of a call in [Call.v]) are as atomic there, but the handlers of
      gossip, sync, pushes and messages are not.  Most of their effects are single SQL
      statements or transactions; where overlapping operations do harm this is
      proved apart: [DmTheorems.concurrent_sends_reuse] (a session is loaded, used
      and saved without a lock).  Likewise [select!] drops the branches that
      lose: for the reads of a relay this is modelled ([Pipeline.run_relay_commands]
      and [PipelineTheorems.relay_commands]); in the other loops that read frames
      the only other branch ends the loop.
    - Loops over data are structural; a loop whose end depends on the database or
      a stream has fuel, and the fuel given by its caller is proved enough or is
      enough because each round consumes a byte (the frames of a stream), a
      character (hashtags, mentions) or a row (the pages of a sync).
    - Crates are classes of operations with their documented laws: [RatchetPrims]
      (HKDF, X25519, ChaCha20-Poly1305), [Ed25519], [HexCodec], [JsonCodec],
      [Serde] and [Wire] (serde_json), [SnowLib] (Noise), [Sha] and [Sha256],
      [Bip39], [OpusLib], [OpusDecoding], [Aec3] and [RingLib] (opus, aec3,
      ringbuf), [Fts] (the full-text index of SQLite); [SqlOrder] is the order
      SQLite gives to rows with equal keys, [HashOrder] that of a [HashMap],
      [UnicodeLib] the character classes of Unicode.  The [Concrete*.v] files and
      the ends of the theorem files instantiate them, so that the hypotheses of
      the theorems are seen to hold and the witnesses can run the code.

    ** The files

    Shared: [Prelude.v] (results, machine integers, sorting, byte strings,
    tactics and hints), [Text.v] (characters, UTF-8, decimal numbers), [Types.v]
    (types.rs, delegation.rs, protocol.rs, dm.rs, stage.rs of proscenium-types),
    [Store.v] (the tables of the client and the SQL used on them), [Handler.v]
    and [Effects.v] (the two monads, with the rules that carry an invariant or a
    trace through an operation), [Lww.v] (the abstract last-writer-wins replica
    that device synchronisation refines, as an interface that three tables
    implement).

    Cryptography: [Ratchet.v] models src-tauri/src/crypto/ratchet.rs;
    [RatchetNet.v] is the step relation of two parties on a network that
    reorders and loses; [RatchetSafety.v] proves its invariant and
    [RatchetTheorems.v] the delivery, bound and termination theorems.
    [Noise.v] models crypto/noise.rs.  [Signing.v] and [SigningTheorems.v]
    model signing.rs and registration.rs and the delegation chain: signed things
    verify, and no signature can be moved to another object.

    Storage and content of the client: [Validation.v], [Social.v],
    [Moderation.v], [Posts.v], [Interactions.v], [Notifications.v], [Peers.v],
    [Messaging.v], [FollowRequests.v], [Servers.v] and [Merge.v] model
    src-tauri/src/storage/*.rs with validation.rs; [SocialTheorems.v] and
    [ContentTheorems.v] hold the invariants and the theorem on the feed.

    Exchange between nodes: [Ingest.v] and [Gossip.v] (ingest.rs,
    gossip/handlers.rs) with [GossipTheorems.v]: isolation, authenticity and no
    rollback of identities, also by a message that panics; [Framing.v] and
    [Sync.v] (framing.rs, sync/*.rs) with [SyncTheorems.v]: a session with a client
    that has missed no deletion transfers exactly what is missing, and only to
    whom the visibility admits;
    [Orchestration.v] (sync/orchestration.rs, tasks/*.rs) with
    [OrchestrationTheorems.v]: a pull from one of several nodes is complete under
    the same condition, and a round of the loop visits every followed user; [DeviceSync.v]
    (device_sync.rs) with [DeviceSyncTheorems.v]: two devices converge to the
    join, and the challenge proves nothing; [Peer.v] (peer/*.rs, push.rs,
    gossip/own_feed.rs) with [PeerTheorems.v]: pushes, follow requests and the
    poisoning of identities; [Link.v] (peer/linking.rs, commands/devices.rs) with
    [LinkTheorems.v]: what the secret of a session protects (the bundle) and what
    it does not (the list of devices); [Accept.v]: the connections of peer/mod.rs, their
    dispatch, and what a connection can do to a node.

    The node as a whole: [Identity.v] (the key material of state.rs and setup.rs,
    recovery in commands/identity.rs) with [IdentityTheorems.v]; [Service.v]
    (gossip/{mod,broadcast,subscriptions,health,own_feed}.rs: the subscriptions,
    their tasks, broadcasts and pushes) and [Commands.v] (commands/*.rs) with
    [ServiceSafety.v] and [ServiceTheorems.v]: one listener per feed, and what
    publishing, following and changing the visibility do at the followers;
    [RegistrationTheorems.v]: a node registers with a server, both ends modelled.

    Direct messages: [Dm.v] (dm/*.rs, commands/dm.rs) with [DmTheorems.v]: two
    databases and the envelopes between them refine the sessions of
    [RatchetNet.v]; [OutboxTheorems.v]: a flush terminates and empties the
    outbox when it can.

    Calls: [Call.v] (call/*.rs: the handler with its timers, tasks and sessions,
    and the sound of a session) with [CallSafety.v] (its invariant) and
    [CallTheorems.v]: a call connects and ends, what is heard is what was said,
    and a caller can be connected without an answer.

    Audio and stages: [Audio.v] (audio/{transport,codec,aec}.rs) with
    [AudioTheorems.v]; [StageAuth.v] (stage/auth.rs) with
    [StageAuthTheorems.v]: what an authenticated stream guarantees to a
    listener; [Topology.v] (stage/topology.rs), [Stage.v] (the state, the
    control messages), [StageActor.v] (the commands, moderation.rs,
    lifecycle.rs), [StageHandle.v] (the task of the actor and its handle,
    command.rs, commands/stage.rs) with [StageTheorems.v]: the
    well-formedness of every reachable actor and what ends its task, what a
    sender without a role can do, and how it gives itself one;
    [Mixing.v] (stage/mixer.rs, speaker_mixer.rs, audio/playback.rs) with
    [MixingTheorems.v]: bounds of the mixer, the stream it makes, a lost voice;
    [Pipeline.v] (stage/pipeline.rs, fanout.rs, relay.rs) with
    [PipelineTheorems.v]: the host's mix reaches a listener through relays.

    Community server: [Server.v] (server/src/storage.rs), [ServerIngest.v]
    and [ServerStart.v] (ingestion.rs, with the start-up and the periodic tasks),
    [ServerApi.v] (api/*.rs) with [ServerSafety.v]: where the content of any
    reachable server comes from, and how registration lets anybody become a
    user's key; and [ServerTheorems.v]: the first pull, the later pulls, the feed,
    the withdrawal of a user, and how one registration stops the server;
    [Trending.v] (trending.rs) with [TrendingTheorems.v]: the table of hashtags is exact.

    ** What the theorems show

    Refinement: direct messages refine the ratchet session; device
    synchronisation refines the last-writer-wins join.  Invariants: the ratchet
    session, the stage actor, the routing table, the listeners of a node, the
    content of the server.  Safety: isolation and authenticity of gossip and
    pushes, visibility, handshakes, the streams of a stage; and proofs of the
    attacks the code admits (replays, echoes, poisoned caches, self-promotion,
    registration takeover, unanswered calls).  Functional, across components: a
    post is stored by every follower, a synchronisation and the first pull of a
    server are complete, a message is delivered, a call is heard, a stage reaches
    its listeners, a registration is accepted.  Termination and liveness: the
    skipping loop, the flush of the outbox, the rounds of the synchronisation.
    Round trips, equivalence and bounds: recovery, chunking of audio, stored
    message keys, the buffers of the mixer.  Errors: lost but acknowledged
    messages, device linking, repeated pulls of the server, a speaker that
    reconnects, a broken microphone stream, names that panic the server or the
    stage actor.

    ** Not modelled

    The user interface (Svelte), the commands that only read or only call one
    modelled operation, and blobs; sound devices and Android bindings; the HTML
    pages, routing, configuration and most of the start-up of both programs, the
    schema of the databases apart from its constraints; the waits between rounds
    of a loop, and the bounds of queues; log lines below the level of the applications.
    Disk failures of SQLite and failures to write to a connection are not
    modelled except where the code acts on them: a statement fails only on its
    data, and a reply that is computed is sent. *)

From stdpp Require Export prelude strings gmap fin_maps sorting.

Local Open Scope Z_scope.

(** ** Results *)

(** Rust's [Result<A, E>].  The bind is the [?] operator. *)
Inductive result (E A : Type) : Type :=
| Ok (a : A)
| Err (e : E).
Arguments Ok {E A} a.
Arguments Err {E A} e.

#[export] Instance result_ret E : MRet (result E) := fun A a => Ok a.
#[export] Instance result_bind E : MBind (result E) :=
  fun A B f m => match m with Ok a => f a | Err e => Err e end.
#[export] Instance result_fmap E : FMap (result E) :=
  fun A B f m => match m with Ok a => Ok (f a) | Err e => Err e end.

#[export] Instance result_eq_dec {E A} `{EqDecision E, EqDecision A} :
  EqDecision (result E A).
Proof. solve_decision. Defined.

(** [Option::ok_or] and [Result::ok]. *)
Definition ok_or {E A} (o : option A) (e : E) : result E A :=
  match o with Some a => Ok a | None => Err e end.
Definition res_ok {E A} (r : result E A) : option A :=
  match r with Ok a => Some a | Err _ => None end.
Definition is_ok {E A} (r : result E A) : bool :=
  match r with Ok _ => true | Err _ => false end.
(** [if b { return Err(e) }]. *)
Definition bail_if {E} (b : bool) (e : E) : result E unit :=
  if b then Err e else Ok tt.

Lemma bind_Ok {E A B} (m : result E A) (f : A -> result E B) b :
  (m ≫= f) = Ok b <-> exists a, m = Ok a /\ f a = Ok b.
Proof. destruct m; cbn; split; [by eauto|by intros (? & [= ->] & ?)|done|by intros (? & ? & ?)]. Qed.

Lemma bail_if_Ok {E} b (e : E) u : bail_if b e = Ok u <-> b = false.
Proof. destruct b, u; cbn; naive_solver. Qed.

Lemma ok_or_Ok {E A} (o : option A) (e : E) a : ok_or o e = Ok a <-> o = Some a.
Proof. destruct o; cbn; naive_solver. Qed.

(** ** Machine integers

    A [w]-bit integer is a [Z]; casts write the wrap-around out. *)

Definition is_u8 (x : Z) : Prop := 0 <= x < 2 ^ 8.
Definition is_u32 (x : Z) : Prop := 0 <= x < 2 ^ 32.
Definition is_u64 (x : Z) : Prop := 0 <= x < 2 ^ 64.
Definition is_i64 (x : Z) : Prop := - 2 ^ 63 <= x < 2 ^ 63.

Definition u64_MAX : Z := 2 ^ 64 - 1.

(** [x as u16], [x as u32] and [x as u64] for an integer [x] of any width. *)
Definition as_u16 (x : Z) : Z := x mod 2 ^ 16.
Definition as_u32 (x : Z) : Z := x mod 2 ^ 32.
Definition as_u64 (x : Z) : Z := x mod 2 ^ 64.
(** [x as i64]. *)
Definition as_i64 (x : Z) : Z :=
  let y := x mod 2 ^ 64 in if y <? 2 ^ 63 then y else y - 2 ^ 64.

(** [a + b] on [u32] and [u64] in a release build (no overflow checks). *)
Definition add_u32 (a b : Z) : Z := (a + b) mod 2 ^ 32.
Definition add_u64 (a b : Z) : Z := (a + b) mod 2 ^ 64.
(** [a.saturating_sub(b)] on unsigned integers. *)
Definition saturating_sub (a b : Z) : Z := Z.max 0 (a - b).

Lemma as_u64_as_i64 x : is_u64 x -> as_u64 (as_i64 x) = x.
Proof.
  unfold is_u64, as_u64, as_i64. intros Hx. rewrite (Z.mod_small x) by lia.
  destruct (Z.ltb_spec x (2 ^ 63)).
  - rewrite Z.mod_small; lia.
  - replace (x - 2 ^ 64) with (x + (-1) * 2 ^ 64) by lia.
    rewrite Z.mod_add by lia. rewrite Z.mod_small; lia.
Qed.

Lemma as_i64_as_u64 x : is_i64 x -> as_i64 (as_u64 x) = x.
Proof.
  unfold is_i64, as_u64, as_i64. intros Hx. rewrite Z.mod_mod by lia.
  destruct (Z_lt_le_dec x 0).
  - rewrite <-(Z.mod_add x 1), Z.mod_small by lia.
    destruct (Z.ltb_spec (x + 1 * 2 ^ 64) (2 ^ 63)); lia.
  - rewrite Z.mod_small by lia. destruct (Z.ltb_spec x (2 ^ 63)); lia.
Qed.

(** Below [2^63] a [u64] keeps its value, hence its order, as a SQL integer. *)
Lemma as_i64_small x : 0 <= x < 2 ^ 63 -> as_i64 x = x.
Proof.
  intros Hx. unfold as_i64. rewrite Z.mod_small by lia.
  destruct (Z.ltb_spec x (2 ^ 63)); lia.
Qed.

Lemma as_u64_small x : is_u64 x -> as_u64 x = x.
Proof. intros; unfold as_u64, is_u64 in *; apply Z.mod_small; lia. Qed.

Lemma as_u64_range x : is_u64 (as_u64 x).
Proof. unfold is_u64, as_u64. apply Z.mod_pos_bound. lia. Qed.

Lemma add_u32_range a b : is_u32 (add_u32 a b).
Proof. unfold is_u32, add_u32. apply Z.mod_pos_bound. lia. Qed.
Lemma add_u32_small a b : 0 <= a + b < 2 ^ 32 -> add_u32 a b = a + b.
Proof. intros; unfold add_u32; apply Z.mod_small; lia. Qed.

Lemma as_i64_range x : is_i64 (as_i64 x).
Proof.
  unfold is_i64, as_i64. pose proof (Z.mod_pos_bound x (2 ^ 64)).
  destruct (Z.ltb_spec (x mod 2 ^ 64) (2 ^ 63)); lia.
Qed.

(** ** Bytes

    A byte is a [Z]; [Forall is_u8] says that the list holds bytes. *)
Abbreviation bytes := (list Z).

(** [x.to_be_bytes()] of an [8 * n]-bit integer. *)
Fixpoint be_bytes (n : nat) (x : Z) : bytes :=
  match n with
  | O => []
  | S k => (x / 256 ^ Z.of_nat k) mod 256 :: be_bytes k x
  end.

(** [from_be_bytes]. *)
Definition from_be (l : bytes) : Z := fold_left (fun acc b => acc * 256 + b) l 0.

Lemma length_be_bytes n x : length (be_bytes n x) = n.
Proof. induction n; cbn; congruence. Qed.

Lemma be_bytes_u8 n x : Forall is_u8 (be_bytes n x).
Proof.
  induction n; cbn; constructor; [|done].
  unfold is_u8. apply Z.mod_pos_bound. lia.
Qed.

Lemma from_be_acc l acc :
  fold_left (fun a b => a * 256 + b) l acc = acc * 256 ^ Z.of_nat (length l) + from_be l.
Proof.
  unfold from_be. revert acc. induction l as [|b l IH]; intros acc; cbn -[Z.pow].
  - change (256 ^ Z.of_nat 0) with 1. lia.
  - rewrite IH, (IH (0 * 256 + b)).
    rewrite Nat2Z.inj_succ, Z.pow_succ_r by lia. lia.
Qed.

Lemma from_be_be_bytes n x : from_be (be_bytes n x) = x mod 256 ^ Z.of_nat n.
Proof.
  induction n as [|k IH].
  - cbn. rewrite Z.mod_1_r. done.
  - cbn [be_bytes]. unfold from_be. cbn [fold_left]. rewrite from_be_acc, IH, length_be_bytes.
    rewrite Nat2Z.inj_succ, Z.pow_succ_r by lia.
    rewrite (Z.mul_comm 256), Z.rem_mul_r by lia. lia.
Qed.

(** The bytes of a string (Rust strings are UTF-8 byte sequences; a model
    string is the sequence of its bytes). *)
Definition str_bytes (s : string) : bytes :=
  map (fun a => Z.of_N (Ascii.N_of_ascii a)) (String.list_ascii_of_string s).

(** [s.len()] counts bytes. *)
Definition str_len (s : string) : Z := Z.of_nat (String.length s).

Lemma length_str_bytes s : length (str_bytes s) = String.length s.
Proof.
  unfold str_bytes. rewrite length_map. induction s as [|c s IH]; cbn; [done|]. by rewrite IH.
Qed.

#[export] Instance str_bytes_inj : Inj (=) (=) str_bytes.
Proof.
  intros s. induction s as [|c s IH]; intros [|c' s'] E; try discriminate E; [done|].
  injection E as Ec%N2Z.inj E. f_equal; [|by apply IH].
  by rewrite <-(Ascii.ascii_N_embedding c), Ec, Ascii.ascii_N_embedding.
Qed.

(** ** Lists *)

(** [LIMIT n OFFSET k] of an ordered query result. *)
Definition page {A} (limit offset : nat) (l : list A) : list A := take limit (drop offset l).

Section lists.
Context {A B : Type}.
Implicit Types (l k : list A).

Lemma page_nil limit offset l :
  (0 < limit)%nat -> page limit offset l = [] <-> (length l <= offset)%nat.
Proof.
  intros Hl. unfold page. split.
  - intros H%(f_equal length). rewrite length_take, length_drop in H. cbn in H. lia.
  - intros H. rewrite drop_ge by done. by destruct limit.
Qed.

Lemma filter_nil_iff (P : A -> Prop) `{!forall x, Decision (P x)} l :
  filter P l = [] <-> Forall (fun x => ~ P x) l.
Proof.
  induction l as [|x l IH]; [done|].
  rewrite filter_cons, Forall_cons. destruct (decide (P x)); [|tauto].
  split; [done|by intros []].
Qed.

Lemma NoDup_fmap_filter (f : A -> B) (P : A -> Prop) `{!forall x, Decision (P x)} l :
  NoDup (f <$> l) -> NoDup (f <$> filter P l).
Proof.
  induction l as [|x l IH]; [done|]. rewrite filter_cons, fmap_cons.
  intros [Hx Hl]%NoDup_cons. case_decide; [|by apply IH].
  rewrite fmap_cons. apply NoDup_cons. split; [|by apply IH].
  intros (y & Ey & Hy)%list_elem_of_fmap. apply Hx. rewrite Ey. apply list_elem_of_fmap_2.
  by apply list_elem_of_filter in Hy as [_ ?].
Qed.

Lemma NoDup_subset_length l k :
  NoDup l -> (forall x, x ∈ l -> x ∈ k) -> (length l <= length k)%nat.
Proof. intros Hl Hs. apply submseteq_length, NoDup_submseteq; done. Qed.

(** A duplicate-free list included in another of the same length is a
    permutation of it. *)
Lemma NoDup_subset_Permutation l k :
  NoDup l -> NoDup k -> (forall x, x ∈ l -> x ∈ k) -> length l = length k -> l ≡ₚ k.
Proof.
  intros Hl Hk Hs Hlen. apply submseteq_length_Permutation; [|lia].
  apply NoDup_submseteq; done.
Qed.
End lists.

(** ** Automation *)

Create HintDb proscenium.
Create Rewrite HintDb result.
#[export] Hint Rewrite @bind_Ok @bail_if_Ok @ok_or_Ok : result.
#[export] Hint Resolve as_u64_as_i64 as_i64_as_u64 as_i64_small as_u64_small as_u64_range : proscenium.
#[export] Hint Resolve length_be_bytes be_bytes_u8 : proscenium.

(** Reduces a successful chain of [?]s to the facts that made it succeed. *)
Ltac inv_ok :=
  repeat match goal with
  | H : _ |- _ => progress autorewrite with result in H
  | H : exists _, _ |- _ => destruct H
  | H : _ /\ _ |- _ => destruct H
  | H : Ok _ = Ok _ |- _ => injection H as H
  | H : Err _ = Ok _ |- _ => discriminate H
  | u : unit |- _ => destruct u
  | _ => progress simplify_eq/=
  end.

(** Case analysis on the first [match], [if] or [decide] of the goal. *)
Ltac case_goal := repeat (case_match || case_decide); simplify_eq/=; try done.
