(* ===== verification/Text.v ===== *)
(** * Text

    Characters, white space, UTF-8 and decimal numbers: what the sources use of
    the strings of the standard library.  A string is its UTF-8 bytes. *)

From stdpp Require Import pretty.
From S2P Require Import Prelude.

Local Open Scope Z_scope.

(** ** UTF-8 *)

(** [std::str::from_utf8]: the well-formed sequences of the Unicode standard. *)
Definition utf8_cont (b : Z) : bool := (128 <=? b) && (b <=? 191).
Fixpoint utf8_valid (l : bytes) : bool :=
  match l with
  | [] => true
  | a :: r =>
      if (0 <=? a) && (a <=? 127) then utf8_valid r
      else match r with
      | [] => false
      | b :: r =>
          if (194 <=? a) && (a <=? 223) then utf8_cont b && utf8_valid r
          else match r with
          | [] => false
          | c :: r =>
              if (224 <=? a) && (a <=? 239) then
                utf8_cont b && (negb (a =? 224) || (160 <=? b)) && (negb (a =? 237) || (b <=? 159)) &&
                utf8_cont c && utf8_valid r
              else match r with
              | [] => false
              | d :: r =>
                  (240 <=? a) && (a <=? 244) && utf8_cont b &&
                  (negb (a =? 240) || (144 <=? b)) && (negb (a =? 244) || (b <=? 143)) &&
                  utf8_cont c && utf8_cont d && utf8_valid r
              end
          end
      end
  end.

Definition bytes_str (l : bytes) : string :=
  String.string_of_list_ascii (map (fun b => Ascii.ascii_of_N (Z.to_N b)) l).
(** [String::from_utf8]. *)
Definition string_from_utf8 (l : bytes) : option string :=
  if utf8_valid l then Some (bytes_str l) else None.

(** ** Characters *)

(** A character is its UTF-8 bytes. *)
Fixpoint chars_of (s : string) : list string :=
  match s with
  | EmptyString => []
  | String a r =>
      match chars_of r with
      | (String b _ as c) :: cs =>
          if ((128 <=? Ascii.N_of_ascii b) && (Ascii.N_of_ascii b <=? 191))%N
          then String a c :: cs else String a EmptyString :: c :: cs
      | cs => String a EmptyString :: cs
      end
  end.

(** The characters [str::trim] removes, in UTF-8. *)
Definition utf8_char (code : list N) : string :=
  String.string_of_list_ascii (Ascii.ascii_of_N <$> code).
Definition white_space : list string :=
  utf8_char <$>
    ([[9]; [10]; [11]; [12]; [13]; [32]; [194; 133]; [194; 160]; [225; 154; 128]] ++
     ((fun b => [226; 128; b]) <$> [128; 129; 130; 131; 132; 133; 134; 135; 136; 137; 138; 168; 169; 175]) ++
     [[226; 129; 159]; [227; 128; 128]])%N.

Fixpoint trim_start (cs : list string) : list string :=
  match cs with
  | c :: r => if decide (c ∈ white_space) then trim_start r else cs
  | [] => []
  end.
Definition trim (s : string) : string :=
  String.concat "" (reverse (trim_start (reverse (trim_start (chars_of s))))).

(** ** Decimal numbers *)

Definition digit (a : Ascii.ascii) : option Z :=
  let b := Z.of_N (Ascii.N_of_ascii a) in if (48 <=? b) && (b <=? 57) then Some (b - 48) else None.

Fixpoint parse_digits (acc : Z) (s : string) : option Z :=
  match s with
  | EmptyString => Some acc
  | String a s =>
      d ← digit a;
      if acc * 10 + d <? 2 ^ 32 then parse_digits (acc * 10 + d) s else None
  end.
(** [str::parse::<u32>]: a sign [+] may precede the digits. *)
Definition parse_u32 (s : string) : option Z :=
  match s with
  | EmptyString => None
  | String a (String _ _ as r) => if (Ascii.N_of_ascii a =? 43)%N then parse_digits 0 r else parse_digits 0 s
  | String _ EmptyString => parse_digits 0 s
  end.

(** ** Facts *)

Lemma bytes_str_bytes s : bytes_str (str_bytes s) = s.
Proof.
  unfold bytes_str, str_bytes. rewrite map_map.
  rewrite (map_ext _ (fun a => a)); [by rewrite map_id, String.string_of_list_ascii_of_string|].
  intros a. by rewrite N2Z.id, Ascii.ascii_N_embedding.
Qed.

(** ** Strings of digits *)

Fixpoint all_digits (s : string) : bool :=
  match s with EmptyString => true | String a s => bool_decide (is_Some (digit a)) && all_digits s end.

Lemma digit_char (n : N) : (n < 10)%N -> digit (pretty_N_char n) = Some (Z.of_N n).
Proof.
  intros Hn. destruct n as [|p]; [done|].
  do 4 (try destruct p as [p|p|]); first [done|lia].
Qed.

Lemma digit_range a z : digit a = Some z ->
  (48 <= Ascii.N_of_ascii a <= 57)%N /\ z = Z.of_N (Ascii.N_of_ascii a) - 48.
Proof.
  unfold digit. destruct (_ && _) eqn:E; [|done]. intros [= <-].
  apply andb_true_iff in E as [?%Z.leb_le ?%Z.leb_le]. lia.
Qed.

Lemma pretty_go_digits x s : all_digits s = true -> all_digits (pretty_N_go x s) = true.
Proof.
  revert s. induction (N.lt_wf_0 x) as [x _ IH]; intros s Hs.
  destruct (decide (0 < x)%N); [|by assert (x = 0%N) as -> by lia].
  rewrite pretty_N_go_step by done. apply IH; [by apply N.div_lt|]. cbn.
  rewrite digit_char by by apply N.mod_lt. by rewrite bool_decide_true by done.
Qed.

Lemma parse_pretty_go x s : Z.of_N x < 2 ^ 32 ->
  parse_digits 0 (pretty_N_go x s) = parse_digits (Z.of_N x) s.
Proof.
  revert s. induction (N.lt_wf_0 x) as [x _ IH]; intros s Hx.
  destruct (decide (0 < x)%N); [|by assert (x = 0%N) as -> by lia].
  rewrite pretty_N_go_step by done.
  pose proof (N.div_lt x 10 ltac:(done) ltac:(lia)) as Hdiv. rewrite IH by (done || lia).
  cbn. rewrite digit_char by by apply N.mod_lt. cbn.
  assert (Z.of_N (x / 10) * 10 + Z.of_N (x mod 10) = Z.of_N x) as ->.
  { pose proof (N.div_mod x 10). lia. }
  by rewrite (proj2 (Z.ltb_lt _ _)).
Qed.

(** The text of a number of 32 bits. *)
Lemma pretty_text (n : Z) : 0 <= n < 2 ^ 32 ->
  all_digits (pretty n) = true /\ pretty n <> ""%string /\ parse_digits 0 (pretty n) = Some n.
Proof.
  intros Hn. destruct n as [|p|p]; [by split_and!| |lia].
  change (pretty (Z.pos p)) with (pretty (N.pos p)). unfold pretty, pretty_N. rewrite decide_False by done.
  split_and!; [by apply pretty_go_digits| |by rewrite parse_pretty_go by lia].
  intros E. pose proof (parse_pretty_go (N.pos p) "" ltac:(lia)) as Hp. rewrite E in Hp.
  injection Hp as Hp. lia.
Qed.

Lemma parse_u32_digits s z : all_digits s = true -> s <> ""%string -> parse_digits 0 s = Some z ->
  parse_u32 s = Some z.
Proof.
  destruct s as [|a [|b r]]; cbn; [done|done|]. intros Hd _ Hp.
  apply andb_true_iff in Hd as [[d Hda]%bool_decide_eq_true_1 _]. apply digit_range in Hda as [? _].
  by rewrite (proj2 (N.eqb_neq _ _)) by lia.
Qed.

Lemma digits_utf8 s : all_digits s = true -> utf8_valid (str_bytes s) = true.
Proof.
  induction s as [|a s IH]; [done|]. cbn. intros [[d Hd]%bool_decide_eq_true_1 Hs]%andb_true_iff.
  apply digit_range in Hd as [? _].
  assert ((0 <=? Z.of_N (Ascii.N_of_ascii a)) && (Z.of_N (Ascii.N_of_ascii a) <=? 127) = true) as -> by lia.
  by apply IH.
Qed.

(** Digits are characters of their own, and none is white space. *)
Definition digit_strings (s : string) : list string :=
  (fun a => String a EmptyString) <$> String.list_ascii_of_string s.

Lemma chars_of_digits s : all_digits s = true -> chars_of s = digit_strings s.
Proof.
  induction s as [|a s IH]; [done|]. cbn [all_digits chars_of].
  intros [_ Hs]%andb_true_iff. rewrite IH by done. destruct s as [|b s]; [done|]. cbn.
  apply andb_true_iff in Hs as [[d Hd]%bool_decide_eq_true_1 _]. apply digit_range in Hd as [? _].
  by rewrite (proj2 (N.leb_gt 128 _)) by lia.
Qed.

Lemma trim_start_digits cs : Forall (fun c => c ∉ white_space) cs -> trim_start cs = cs.
Proof. destruct 1 as [|c cs Hc _]; [done|]. cbn. by rewrite decide_False. Qed.

Lemma digit_not_white a : is_Some (digit a) -> String a EmptyString ∉ white_space.
Proof.
  intros [d [Hd _]%digit_range] Hin. unfold white_space in Hin.
  apply list_elem_of_fmap in Hin as (code & E & Hin). unfold utf8_char in E.
  destruct code as [|x [|y code]]; cbn in E; [done| |done]. injection E as ->.
  assert (Forall (fun c => match c with [x] => (x < 33)%N | _ => True end)
    ([[9]; [10]; [11]; [12]; [13]; [32]; [194; 133]; [194; 160]; [225; 154; 128]] ++
     ((fun b => [226; 128; b]) <$> [128; 129; 130; 131; 132; 133; 134; 135; 136; 137; 138; 168; 169; 175]) ++
     [[226; 129; 159]; [227; 128; 128]])%N) as Hall by (cbn; repeat constructor).
  rewrite Forall_forall in Hall. specialize (Hall _ Hin). cbn in Hall.
  rewrite Ascii.N_ascii_embedding in Hd by lia. lia.
Qed.

Lemma concat_digit_strings s : String.concat "" (digit_strings s) = s.
Proof.
  induction s as [|a s IH]; [done|]. destruct s as [|b s]; [done|].
  change (String a (String.concat "" (digit_strings (String b s))) = String a (String b s)). by rewrite IH.
Qed.

Lemma trim_digits s : all_digits s = true -> trim s = s.
Proof.
  intros Hs. unfold trim. rewrite chars_of_digits by done.
  assert (Forall (fun c => c ∉ white_space) (digit_strings s)) as Hw.
  { induction s as [|a s IH]; [constructor|]. cbn in Hs. apply andb_true_iff in Hs as [Ha Hs].
    apply bool_decide_eq_true_1 in Ha. constructor; [by apply digit_not_white|by apply IH]. }
  rewrite (trim_start_digits _ Hw), trim_start_digits by by rewrite Forall_reverse.
  rewrite reverse_involutive. apply concat_digit_strings.
Qed.
