(* ===== verification/Lww.v ===== *)
(** * Last-writer-wins replicas

    The abstract specification of the merges of linked devices: a replica maps
    keys to stamped values, and merging an entry keeps the later stamp.
    [LwwReplica] is what a table promises; its clients ([merge_deltas]) are
    proved against it. *)

From S2P Require Import Prelude.

Local Open Scope Z_scope.

(** ** The join *)

(** The local value wins on equal stamps. *)
Definition lww {V} (local remote : option (V * Z)) : option (V * Z) :=
  match local, remote with
  | Some (_, t), Some (_, u) => if t <? u then remote else local
  | None, _ => remote
  | _, None => local
  end.

(** Equal stamps belong to equal values. *)
Definition no_tie {V} (a b : option (V * Z)) : Prop :=
  match a, b with Some (v, t), Some (w, u) => t = u -> v = w | _, _ => True end.

Section join.
Context {V : Type}.
Implicit Types (a b c : option (V * Z)).

Lemma lww_None_l a : lww None a = a.
Proof. done. Qed.
Lemma lww_None_r a : lww a None = a.
Proof. by destruct a as [[]|]. Qed.
Lemma lww_idem a : lww a a = a.
Proof. destruct a as [[v t]|]; [|done]. cbn. by destruct (t <? t). Qed.
Lemma lww_assoc a b c : lww a (lww b c) = lww (lww a b) c.
Proof.
  destruct a as [[v t]|], b as [[w u]|], c as [[x z]|]; cbn; try done.
  - destruct (Z.ltb_spec u z), (Z.ltb_spec t u); cbn;
      repeat (case_match; try done); rewrite ?Z.ltb_lt, ?Z.ltb_ge in *; lia.
  - by destruct (t <? u).
Qed.
(** The two orders of a merge agree exactly when no tie separates the values. *)
Lemma lww_comm_iff a b : lww a b = lww b a <-> no_tie a b.
Proof.
  destruct a as [[v t]|], b as [[w u]|]; cbn; try done.
  destruct (Z.ltb_spec t u), (Z.ltb_spec u t); split; intros E; try lia; try done.
  - by injection E.
  - assert (t = u) as -> by lia. by rewrite E.
Qed.
Lemma lww_either a b : lww a b = a \/ lww a b = b.
Proof. destruct a as [[v t]|], b as [[w u]|]; cbn; auto. destruct (t <? u); auto. Qed.
(** Joining a replica with a join it is part of. *)
Lemma lww_absorb a b : lww a (lww b a) = lww a b.
Proof.
  destruct a as [[v t]|], b as [[w u]|]; cbn; try done; [|by destruct (t <? t)].
  destruct (Z.ltb_spec u t), (Z.ltb_spec t u); try lia; cbn.
  - by destruct (Z.ltb_spec t t); [lia|].
  - by destruct (Z.ltb_spec t u); [|lia].
  - by destruct (Z.ltb_spec t u); [lia|].
Qed.
(** An entry that is not newer changes nothing. *)
Lemma lww_stale (v w : V) t u : u <= t -> lww (Some (v, t)) (Some (w, u)) = Some (v, t).
Proof. intros. cbn. by destruct (Z.ltb_spec t u); [lia|]. Qed.
End join.

(** ** Tables that merge entry by entry *)

(** [S] is the state, [A] the entries on the wire: [rep_put] merges one. *)
Class LwwReplica (S A K V : Type) := {
  rep_get : S -> K -> option (V * Z);
  rep_put : S -> A -> S;
  rep_key : A -> K;
  rep_val : A -> V * Z;
  rep_typed : A -> Prop;
}.
Class LwwReplicaLaws (S A K V : Type) `{LwwReplica S A K V, EqDecision K} := {
  rep_get_put (s : S) (a : A) (k : K) :
    rep_typed a ->
    rep_get (rep_put s a) k =
      if decide (rep_key a = k) then lww (rep_get s k) (Some (rep_val a)) else rep_get s k;
}.

Section replica.
Context {S A K V : Type} `{LwwReplicaLaws S A K V}.
Implicit Types (s : S) (a : A) (k : K) (l : list A).

Definition merge_all (s : S) (l : list A) : S := fold_left rep_put l s.

Lemma merge_all_cons s a l : merge_all s (a :: l) = merge_all (rep_put s a) l.
Proof. done. Qed.

Lemma merge_all_other l s k :
  Forall rep_typed l -> k ∉ rep_key <$> l -> rep_get (merge_all s l) k = rep_get s k.
Proof.
  intros Hl. revert s. induction Hl as [|a l Ha _ IH]; intros s Hk; [done|].
  rewrite merge_all_cons. apply not_elem_of_cons in Hk as [Hne Hk]. rewrite IH by done.
  by rewrite rep_get_put, decide_False by auto.
Qed.

(** Merging a list without repeated keys joins each entry once. *)
Lemma merge_all_hit l s a :
  Forall rep_typed l -> NoDup (rep_key <$> l) -> a ∈ l ->
  rep_get (merge_all s l) (rep_key a) = lww (rep_get s (rep_key a)) (Some (rep_val a)).
Proof.
  intros Hl. revert s. induction Hl as [|b l Hb Hl IH]; intros s; [by intros _ ?%elem_of_nil|].
  rewrite merge_all_cons. intros [Hnot Hnd]%NoDup_cons [->|Hin]%elem_of_cons.
  - rewrite merge_all_other by done.
    by rewrite rep_get_put, decide_True.
  - rewrite IH by done.
    rewrite rep_get_put by done. rewrite decide_False; [done|].
    intros E. apply Hnot. rewrite E. by apply list_elem_of_fmap_2.
Qed.

(** [l] describes the remote replica up to what the local one already has. *)
Record deltas_for (s : S) (remote : K -> option (V * Z)) (l : list A) : Prop := {
  df_typed : Forall rep_typed l;
  df_nodup : NoDup (rep_key <$> l);
  df_sound : forall a, a ∈ l -> remote (rep_key a) = Some (rep_val a);
  df_complete : forall k w u, remote k = Some (w, u) -> k ∉ rep_key <$> l ->
    exists v t, rep_get s k = Some (v, t) /\ u <= t;
}.

(** Sending only what the receiver lacks loses nothing. *)
Lemma merge_deltas s remote l k :
  deltas_for s remote l -> rep_get (merge_all s l) k = lww (rep_get s k) (remote k).
Proof.
  intros [Ht Hnd Hs Hc]. destruct (decide (k ∈ rep_key <$> l)) as [Hin|Hout].
  - apply list_elem_of_fmap in Hin as (a & -> & Ha). rewrite (Hs a Ha).
    by apply merge_all_hit.
  - rewrite merge_all_other by done. destruct (remote k) as [[w u]|] eqn:E; [|by rewrite lww_None_r].
    destruct (Hc k w u E Hout) as (v & t & -> & Hle). by rewrite lww_stale.
Qed.

(** The filter of [send_deltas]: an exported list, without the entries the
    receiver reports at the same or a later stamp. *)
Lemma filtered_deltas s (remote : K -> option (V * Z)) (export : list A) (keep : A -> bool) :
  Forall rep_typed export -> NoDup (rep_key <$> export) ->
  (forall k w u, remote k = Some (w, u) <->
     exists a, a ∈ export /\ rep_key a = k /\ rep_val a = (w, u)) ->
  (forall a, a ∈ export ->
     keep a = match rep_get s (rep_key a) with Some (_, t) => t <? (rep_val a).2 | None => true end) ->
  deltas_for s remote (filter keep export).
Proof.
  intros Ht Hnd Hexp Hkeep. split.
  - apply Forall_forall. intros a [_ Ha]%list_elem_of_filter. rewrite Forall_forall in Ht. by apply Ht.
  - by apply NoDup_fmap_filter.
  - intros a [_ Ha]%list_elem_of_filter. destruct (rep_val a) as [w u] eqn:E. apply Hexp. eauto.
  - intros k w u (a & Ha & <- & Ev)%Hexp Hout. pose proof (Hkeep a Ha) as Hk.
    rewrite Ev in Hk. cbn in Hk.
    destruct (rep_get s (rep_key a)) as [[v t]|] eqn:E.
    + exists v, t. split; [done|]. destruct (Z.ltb_spec t u); [|done].
      exfalso. apply Hout, list_elem_of_fmap_2, list_elem_of_filter. by rewrite Hk.
    + exfalso. apply Hout, list_elem_of_fmap_2, list_elem_of_filter. by rewrite Hk.
Qed.
End replica.
