(* ===== verification/Types.v ===== *)
(** * Shared data types

    The records and enums of the crate [proscenium-types] that the other files
    use: [crates/proscenium-types/src/{types,delegation,protocol,stage,dm}.rs].
    A field [f] of a struct [S] is written [s_f] (a short prefix for [S]),
    because Rocq projections share one name space; integers are [Z] with the
    width of the source named in the comment where it is not [u64]. *)

From S2P Require Import Prelude.

(** ** types.rs *)

Inductive Visibility : Type := Public | Listed | Private.

#[export] Instance Visibility_eq_dec : EqDecision Visibility.
Proof. solve_decision. Defined.

(** [Visibility::default]. *)
Definition visibility_default : Visibility := Public.

(** [impl Display for Visibility]. *)
Definition visibility_to_string (v : Visibility) : string :=
  match v with
  | Public => "public"
  | Listed => "listed"
  | Private => "private"
  end.

(** [impl FromStr for Visibility]. *)
Definition visibility_from_str (s : string) : result string Visibility :=
  if decide (s = "public"%string) then Ok Public
  else if decide (s = "listed"%string) then Ok Listed
  else if decide (s = "private"%string) then Ok Private
  else Err ("unknown visibility: " +:+ s).

Record Profile : Type := {
  pr_display_name : string;
  pr_bio : string;
  pr_avatar_hash : option string;
  pr_avatar_ticket : option string;
  pr_visibility : Visibility;
  pr_signature : string;
}.

Record MediaAttachment : Type := {
  ma_hash : string;
  ma_ticket : string;
  ma_mime_type : string;
  ma_filename : string;
  ma_size : Z;
}.

Record Post : Type := {
  post_id : string;
  post_author : string;
  post_content : string;
  post_timestamp : Z;
  post_media : list MediaAttachment;
  post_reply_to : option string;
  post_reply_to_author : option string;
  post_quote_of : option string;
  post_quote_of_author : option string;
  post_signature : string;
}.

Inductive InteractionKind : Type := Like.

Record Interaction : Type := {
  in_id : string;
  in_author : string;
  in_kind : InteractionKind;
  in_target_post_id : string;
  in_target_author : string;
  in_timestamp : Z;
  in_signature : string;
}.

Record DeviceEntry : Type := {
  de_node_id : string;
  de_device_name : string;
  de_is_primary : bool;
  de_added_at : Z;
}.

Record SocialGraphEntry : Type := {
  sg_pubkey : string;
  sg_followed_at : Z;
  sg_first_seen : Z;
  sg_last_seen : Z;
  sg_is_online : bool;
}.

Record RatchetSessionExport : Type := {
  rx_peer_pubkey : string;
  rx_state_json : string;
  rx_updated_at : Z;
}.

Record FollowEntry : Type := {
  fe_pubkey : string;
  fe_followed_at : Z;
  fe_state : string;
  fe_last_changed_at : Z;
}.

Record ModerationEntry : Type := {
  me_pubkey : string;
  me_kind : string;
  me_created_at : Z;
  me_state : string;
  me_last_changed_at : Z;
}.

Record RatchetSyncEntry : Type := {
  rs_peer_pubkey : string;
  rs_updated_at : Z;
}.

Record PostCounts : Type := {
  pc_likes : Z; (* u32 *)
  pc_replies : Z; (* u32 *)
  pc_reposts : Z; (* u32 *)
  pc_liked_by_me : bool;
  pc_reposted_by_me : bool;
}.

Record Notification : Type := {
  no_id : string;
  no_kind : string;
  no_actor : string;
  no_target_post_id : option string;
  no_post_id : option string;
  no_timestamp : Z;
  no_read : bool;
}.

Record DeviceSyncVector : Type := {
  sv_post_count : Z;
  sv_newest_post_ts : Z;
  sv_interaction_count : Z;
  sv_newest_interaction_ts : Z;
  sv_follows : list FollowEntry;
  sv_moderation : list ModerationEntry;
  sv_bookmarks : list string;
  sv_ratchet_summaries : list RatchetSyncEntry;
  sv_dm_newest_ts : Z;
}.

(** ** delegation.rs *)

Record SigningKeyDelegation : Type := {
  dl_master_pubkey : string;
  dl_signing_pubkey : string;
  dl_key_index : Z; (* u32 *)
  dl_dm_pubkey : string;
  dl_dm_key_index : Z; (* u32 *)
  dl_issued_at : Z;
  dl_signature : string;
}.

Record SigningKeyRotation : Type := {
  rt_master_pubkey : string;
  rt_old_signing_pubkey : string;
  rt_new_signing_pubkey : string;
  rt_new_key_index : Z; (* u32 *)
  rt_timestamp : Z;
  rt_signature : string;
  rt_new_delegation : SigningKeyDelegation;
}.

(** ** stage.rs (data) *)

Inductive StageRole : Type := Host | CoHost | Speaker | Listener.

#[export] Instance StageRole_eq_dec : EqDecision StageRole.
Proof. solve_decision. Defined.

Inductive StageControl : Type :=
| Announce (stage_id title host_pubkey : string) (started_at : Z)
| End_ (stage_id : string)
| Presence (stage_id pubkey : string) (role : StageRole) (timestamp : Z)
    (node_id : option string)
| RelayVolunteer (stage_id relay_pubkey relay_node_id : string) (capacity : Z)
| RelayAssignment (stage_id relay_pubkey relay_node_id : string)
    (listener_pubkeys : list string)
| RaiseHand (stage_id pubkey : string)
| LowerHand (stage_id pubkey : string)
| PromoteSpeaker (stage_id pubkey : string)
| DemoteSpeaker (stage_id pubkey : string)
| MuteSpeaker (stage_id pubkey : string)
| SelfMuteToggle (stage_id pubkey : string) (muted : bool)
| Kick (stage_id pubkey : string)
| Ban (stage_id pubkey : string)
| Reaction (stage_id pubkey emoji : string)
| Chat (stage_id pubkey text : string).

Record SignedStageControl : Type := {
  sc_sender_pubkey : string;
  sc_control : StageControl;
  sc_timestamp : Z;
  sc_signature : string;
}.

Record StageTicket : Type := {
  tk_stage_id : string;
  tk_host_pubkey : string;
  tk_host_node_id : string;
  tk_title : string;
}.

Record StageParticipant : Type := {
  sp_pubkey : string;
  sp_role : StageRole;
  sp_display_name : option string;
  sp_avatar_hash : option string;
  sp_hand_raised : bool;
  sp_self_muted : bool;
  sp_host_muted : bool;
}.

Record StageState : Type := {
  ss_stage_id : string;
  ss_title : string;
  ss_host_pubkey : string;
  ss_my_pubkey : string;
  ss_my_role : StageRole;
  ss_participants : list StageParticipant;
  ss_started_at : Z;
  ss_ticket : option string;
}.

Inductive StageEvent : Type :=
| EvStateSnapshot (state : StageState)
| EvParticipantJoined (pubkey : string) (role : StageRole)
| EvParticipantLeft (pubkey : string)
| EvRoleChanged (pubkey : string) (role : StageRole)
| EvMuteChanged (pubkey : string) (self_muted host_muted : bool)
| EvHandRaised (pubkey : string)
| EvHandLowered (pubkey : string)
| EvReaction (pubkey emoji : string)
| EvChat (pubkey text : string)
| EvEnded (stage_id : string)
| EvKicked
| EvAuthFailed (source reason : string).

(** ** protocol.rs (data) *)

Record LinkedDevicesAnnouncement : Type := {
  an_master_pubkey : string;
  an_delegation : SigningKeyDelegation;
  an_devices : list DeviceEntry;
  an_version : Z;
  an_timestamp : Z;
  an_signature : string;
}.

Inductive GossipMessage : Type :=
| NewPost (post : Post)
| DeletePost (id author signature : string)
| ProfileUpdate (profile : Profile)
| NewInteraction (interaction : Interaction)
| DeleteInteraction (id author signature : string)
| LinkedDevices (announcement : LinkedDevicesAnnouncement)
| RotateSigningKey (rotation : SigningKeyRotation)
| Heartbeat
| StageAnnounced (stage_id title : string) (ticket : StageTicket)
    (host_pubkey : string) (started_at : Z)
| StageEnded (stage_id : string).

Record IdentityResponse : Type := {
  ir_master_pubkey : string;
  ir_delegation : SigningKeyDelegation;
  ir_transport_node_ids : list string;
  ir_profile : option Profile;
}.

Record FollowRequest : Type := {
  fr_requester : string;
  fr_timestamp : Z;
  fr_signature : string;
  fr_delegation : SigningKeyDelegation;
}.

Record SyncRequest : Type := {
  sq_author : string;
  sq_post_count : Z;
  sq_interaction_count : Z;
  sq_newest_timestamp : Z;
  sq_newest_interaction_timestamp : Z;
}.

Record StageAnnouncement : Type := {
  sa_stage_id : string;
  sa_title : string;
  sa_ticket : StageTicket;
  sa_host_pubkey : string;
  sa_started_at : Z;
}.

Inductive SyncMode : Type := UpToDate | TimestampCatchUp | NeedIdDiff.

#[export] Instance SyncMode_eq_dec : EqDecision SyncMode.
Proof. solve_decision. Defined.

Record SyncSummary : Type := {
  sm_server_post_count : Z;
  sm_server_interaction_count : Z;
  sm_posts_after_count : Z;
  sm_interactions_after_count : Z;
  sm_mode : SyncMode;
  sm_profile : option Profile;
  sm_active_stage : option StageAnnouncement;
}.

Inductive SyncFrame : Type :=
| SfPosts (posts : list Post)
| SfInteractions (interactions : list Interaction)
| SfDeviceAnnouncements (announcements : list LinkedDevicesAnnouncement).

Inductive DeviceSyncFrame : Type :=
| DfPosts (posts : list Post)
| DfInteractions (interactions : list Interaction)
| DfFollows (entries : list FollowEntry)
| DfModeration (entries : list ModerationEntry)
| DfBookmarks (ids : list string)
| DfRatchetSessions (sessions : list RatchetSessionExport).

(** ** registration.rs (data) *)

Record RegistrationPayload : Type := {
  rp_master_pubkey : string;
  rp_transport_node_id : string;
  rp_server_url : string;
  rp_timestamp : Z;
  rp_visibility : Visibility;
  rp_action : option string;
}.

Record RegistrationRequest : Type := {
  rr_master_pubkey : string;
  rr_transport_node_id : string;
  rr_server_url : string;
  rr_timestamp : Z;
  rr_visibility : Visibility;
  rr_action : option string;
  rr_signature : string;
  rr_delegation : SigningKeyDelegation;
}.

(** ** dm.rs *)

Record RatchetHeaderWire : Type := {
  rw_dh_public : string;
  rw_message_number : Z; (* u32 *)
  rw_previous_chain_length : Z; (* u32 *)
}.

Record EncryptedEnvelope : Type := {
  env_sender : string;
  env_ratchet_header : RatchetHeaderWire;
  env_ciphertext : bytes;
}.

Record DirectMessage : Type := {
  dm_id : string;
  dm_content : string;
  dm_timestamp : Z;
  dm_media : list MediaAttachment;
  dm_reply_to : option string;
}.

Inductive DmPayload : Type :=
| Message (msg : DirectMessage)
| Typing
| Read (message_id : string)
| Delivered (message_id : string)
| CallOffer (call_id : string) (video : bool)
| CallAnswer (call_id : string)
| CallReject (call_id : string)
| CallHangup (call_id : string).

Record ConversationMeta : Type := {
  cm_peer_pubkey : string;
  cm_last_message_at : Z;
  cm_last_message_preview : string;
  cm_unread_count : Z; (* u32 *)
}.

Record StoredMessage : Type := {
  st_id : string;
  st_conversation_id : string;
  st_from_pubkey : string;
  st_to_pubkey : string;
  st_content : string;
  st_timestamp : Z;
  st_media : list MediaAttachment;
  st_read : bool;
  st_delivered : bool;
  st_reply_to : option string;
}.

(** ** Decidable equality *)

#[export] Instance MediaAttachment_eq_dec : EqDecision MediaAttachment.
Proof. solve_decision. Defined.
#[export] Instance Profile_eq_dec : EqDecision Profile.
Proof. solve_decision. Defined.
#[export] Instance Post_eq_dec : EqDecision Post.
Proof. solve_decision. Defined.
#[export] Instance InteractionKind_eq_dec : EqDecision InteractionKind.
Proof. solve_decision. Defined.
#[export] Instance Interaction_eq_dec : EqDecision Interaction.
Proof. solve_decision. Defined.
#[export] Instance DeviceEntry_eq_dec : EqDecision DeviceEntry.
Proof. solve_decision. Defined.
#[export] Instance SigningKeyDelegation_eq_dec : EqDecision SigningKeyDelegation.
Proof. solve_decision. Defined.
#[export] Instance StageTicket_eq_dec : EqDecision StageTicket.
Proof. solve_decision. Defined.
#[export] Instance StageControl_eq_dec : EqDecision StageControl.
Proof. solve_decision. Defined.

(** The printed name of a visibility parses back to it, so the text column of
    the profiles table loses nothing. *)
Lemma visibility_from_to_string v : visibility_from_str (visibility_to_string v) = Ok v.
Proof. by destruct v. Qed.
