(* ===== verification/Ratchet.v ===== *)
(** * The Double Ratchet of direct messages

    Model of [src-tauri/src/crypto/ratchet.rs] and of the key helpers of
    [src-tauri/src/crypto/keys.rs].  HKDF-SHA256, X25519 and ChaCha20-Poly1305
    are crates: they are the operations of the class [RatchetPrims], and what
    the code relies on is the class [RatchetLaws].  Randomness is an argument.

    [Net] is the two-party session over a network that delays, reorders and
    drops envelopes; its invariant gives the correctness of [decrypt]. *)

From S2P Require Import Prelude Types.

Local Open Scope Z_scope.

(** ** The crates *)

(** [hkdf_expand salt ikm info len] is [Hkdf::<Sha256>::new(salt, ikm)]
    followed by [expand(info)] into a buffer of [len] bytes. *)
Class RatchetPrims := {
  hkdf_expand : option bytes -> bytes -> bytes -> nat -> bytes;
  x25519_base : bytes -> bytes;
  x25519_mult : bytes -> bytes -> bytes;
  aead_encrypt : bytes -> bytes -> bytes -> bytes;
  aead_decrypt : bytes -> bytes -> bytes -> option bytes;
}.

(** Documented behaviour: Diffie-Hellman agrees on both sides, and an AEAD
    decrypts what it encrypted. *)
Class RatchetLaws `{RatchetPrims} := {
  x25519_agree a b : x25519_mult a (x25519_base b) = x25519_mult b (x25519_base a);
  aead_decrypt_encrypt k n p : aead_decrypt k n (aead_encrypt k n p) = Some p;
}.

(** ** Data *)

Definition MAX_SKIP : Z := 100.
Definition KDF_RK_INFO : bytes := str_bytes "proscenium-dm-rk".
Definition KDF_CK_INFO_KEY : bytes := str_bytes "proscenium-dm-ck-msg".
Definition KDF_CK_INFO_CHAIN : bytes := str_bytes "proscenium-dm-ck-chain".

Inductive CryptoError : Type := DecryptionFailed | TooManySkipped.

#[export] Instance CryptoError_eq_dec : EqDecision CryptoError.
Proof. solve_decision. Defined.

Record SkippedKey : Type := {
  sk_ratchet_public : bytes;
  sk_message_number : Z;
  sk_message_key : bytes;
}.

Record RatchetHeader : Type := {
  rh_dh_public : bytes;
  rh_message_number : Z;
  rh_previous_chain_length : Z;
}.

Record RatchetState : Type := {
  dh_self_private : bytes;
  dh_self_public : bytes;
  dh_remote_public : option bytes;
  root_key : bytes;
  chain_key_send : option bytes;
  chain_key_recv : option bytes;
  send_count : Z;
  recv_count : Z;
  prev_send_count : Z;
  skipped_keys : list SkippedKey;
}.

(** [self.skipped_keys = l]. *)
Definition set_skipped_keys (l : list SkippedKey) (st : RatchetState) : RatchetState :=
  {| dh_self_private := dh_self_private st; dh_self_public := dh_self_public st;
     dh_remote_public := dh_remote_public st; root_key := root_key st;
     chain_key_send := chain_key_send st; chain_key_recv := chain_key_recv st;
     send_count := send_count st; recv_count := recv_count st;
     prev_send_count := prev_send_count st; skipped_keys := l |}.
(** [self.chain_key_recv = c; self.recv_count = n]. *)
Definition set_recv (c : option bytes) (n : Z) (st : RatchetState) : RatchetState :=
  {| dh_self_private := dh_self_private st; dh_self_public := dh_self_public st;
     dh_remote_public := dh_remote_public st; root_key := root_key st;
     chain_key_send := chain_key_send st; chain_key_recv := c;
     send_count := send_count st; recv_count := n;
     prev_send_count := prev_send_count st; skipped_keys := skipped_keys st |}.
(** [self.chain_key_send = c; self.send_count = n]. *)
Definition set_send (c : option bytes) (n : Z) (st : RatchetState) : RatchetState :=
  {| dh_self_private := dh_self_private st; dh_self_public := dh_self_public st;
     dh_remote_public := dh_remote_public st; root_key := root_key st;
     chain_key_send := c; chain_key_recv := chain_key_recv st;
     send_count := n; recv_count := recv_count st;
     prev_send_count := prev_send_count st; skipped_keys := skipped_keys st |}.

(** [[0u8; 32]] and the zero nonce. *)
Definition zero_key : bytes := replicate 32 0.
Definition zero_nonce : bytes := replicate 12 0.
#[global] Arguments zero_key : simpl never.
#[global] Arguments zero_nonce : simpl never.
#[global] Arguments KDF_RK_INFO : simpl never.
#[global] Arguments KDF_CK_INFO_KEY : simpl never.
#[global] Arguments KDF_CK_INFO_CHAIN : simpl never.

(** ** Operations *)

Section ops.
Context `{RatchetPrims}.

(** keys.rs *)
Definition x25519_public_from_private (private : bytes) : bytes := x25519_base private.
Definition x25519_dh (my_private their_public : bytes) : bytes :=
  x25519_mult my_private their_public.
(** [rnd] are the 32 bytes of [getrandom::fill]. *)
Definition generate_x25519_keypair (rnd : bytes) : bytes * bytes :=
  (rnd, x25519_public_from_private rnd).

Definition kdf_rk (root_key dh_output : bytes) : bytes * bytes :=
  let output := hkdf_expand (Some root_key) dh_output KDF_RK_INFO 64 in
  (take 32 output, drop 32 output).

(** Returns [(new_chain, msg_key)]. *)
Definition kdf_ck (chain_key : bytes) : bytes * bytes :=
  let msg_key := hkdf_expand None chain_key KDF_CK_INFO_KEY 32 in
  let new_chain := hkdf_expand None chain_key KDF_CK_INFO_CHAIN 32 in
  (new_chain, msg_key).

Definition encrypt_message (key plaintext : bytes) : bytes :=
  aead_encrypt key zero_nonce plaintext.

Definition decrypt_message (key ciphertext : bytes) : result CryptoError bytes :=
  ok_or (aead_decrypt key zero_nonce ciphertext) DecryptionFailed.

Definition init_alice (shared_secret bob_dh_public rnd : bytes) : RatchetState :=
  let '(dh_self_private, dh_self_public) := generate_x25519_keypair rnd in
  let dh_output := x25519_dh dh_self_private bob_dh_public in
  let '(root_key, chain_key_send) := kdf_rk shared_secret dh_output in
  {| dh_self_private := dh_self_private; dh_self_public := dh_self_public;
     dh_remote_public := Some bob_dh_public; root_key := root_key;
     chain_key_send := Some chain_key_send; chain_key_recv := None;
     send_count := 0; recv_count := 0; prev_send_count := 0; skipped_keys := [] |}.

Definition init_bob (shared_secret : bytes) (bob_dh_keypair : bytes * bytes) : RatchetState :=
  {| dh_self_private := bob_dh_keypair.1; dh_self_public := bob_dh_keypair.2;
     dh_remote_public := None; root_key := shared_secret;
     chain_key_send := None; chain_key_recv := None;
     send_count := 0; recv_count := 0; prev_send_count := 0; skipped_keys := [] |}.

(** [None] is the panic of [expect("cannot encrypt without a sending chain
    key")]. *)
Definition encrypt (st : RatchetState) (plaintext : bytes)
    : option (RatchetState * (RatchetHeader * bytes)) :=
  chain_key ← chain_key_send st;
  let '(new_chain, msg_key) := kdf_ck chain_key in
  let header := {| rh_dh_public := dh_self_public st;
                   rh_message_number := send_count st;
                   rh_previous_chain_length := prev_send_count st |} in
  Some (set_send (Some new_chain) (add_u32 (send_count st) 1) st,
        (header, encrypt_message msg_key plaintext)).

Definition skipped_for (header : RatchetHeader) (sk : SkippedKey) : Prop :=
  sk_ratchet_public sk = rh_dh_public header /\
  sk_message_number sk = rh_message_number header.
#[export] Instance skipped_for_dec header sk : Decision (skipped_for header sk).
Proof. unfold skipped_for. apply _. Defined.

Definition try_skipped_keys (st : RatchetState) (header : RatchetHeader) (ciphertext : bytes)
    : RatchetState * result CryptoError (option bytes) :=
  match list_find (skipped_for header) (skipped_keys st) with
  | Some (idx, sk) =>
      (set_skipped_keys (delete idx (skipped_keys st)) st,
       plaintext ← decrypt_message (sk_message_key sk) ciphertext; Ok (Some plaintext))
  | None => (st, Ok None)
  end.

(** The [while self.recv_count < until] loop; [fuel] bounds its rounds. *)
Fixpoint skip_loop (fuel : nat) (until : Z) (chain_key : bytes) (st : RatchetState)
    : bytes * RatchetState :=
  match fuel with
  | O => (chain_key, st)
  | S fuel =>
      if recv_count st <? until then
        let '(new_chain, msg_key) := kdf_ck chain_key in
        let sk := {| sk_ratchet_public := default zero_key (dh_remote_public st);
                     sk_message_number := recv_count st;
                     sk_message_key := msg_key |} in
        skip_loop fuel until new_chain
          (set_recv (chain_key_recv st) (add_u32 (recv_count st) 1)
            (set_skipped_keys (skipped_keys st ++ [sk]) st))
      else (chain_key, st)
  end.

Definition skip_messages (st : RatchetState) (until : Z)
    : RatchetState * result CryptoError unit :=
  if add_u32 (recv_count st) MAX_SKIP <? until then (st, Err TooManySkipped)
  else match chain_key_recv st with
       | Some chain_key =>
           let '(chain_key, st) :=
             skip_loop (Z.to_nat (until - recv_count st)) until chain_key st in
           (set_recv (Some chain_key) (recv_count st) st, Ok tt)
       | None => (st, Ok tt)
       end.

(** [rnd] is the randomness of the key pair the step generates. *)
Definition dh_ratchet (st : RatchetState) (new_remote_public rnd : bytes) : RatchetState :=
  let dh_recv := x25519_dh (dh_self_private st) new_remote_public in
  let '(root1, chain_recv) := kdf_rk (root_key st) dh_recv in
  let '(new_private, new_public) := generate_x25519_keypair rnd in
  let dh_send := x25519_dh new_private new_remote_public in
  let '(root2, chain_send) := kdf_rk root1 dh_send in
  {| dh_self_private := new_private; dh_self_public := new_public;
     dh_remote_public := Some new_remote_public; root_key := root2;
     chain_key_send := Some chain_send; chain_key_recv := Some chain_recv;
     send_count := 0; recv_count := 0; prev_send_count := send_count st;
     skipped_keys := skipped_keys st |}.

(** The part of [decrypt] after the DH step. *)
Definition decrypt_in_chain (st : RatchetState) (header : RatchetHeader) (ciphertext : bytes)
    : RatchetState * result CryptoError bytes :=
  match skip_messages st (rh_message_number header) with
  | (st, Err e) => (st, Err e)
  | (st, Ok _) =>
      match chain_key_recv st with
      | None => (st, Err DecryptionFailed)
      | Some chain_key =>
          let '(new_chain, msg_key) := kdf_ck chain_key in
          (set_recv (Some new_chain) (add_u32 (recv_count st) 1) st,
           decrypt_message msg_key ciphertext)
      end
  end.

(** The state changes also when the result is an error. *)
Definition decrypt (st : RatchetState) (header : RatchetHeader) (ciphertext rnd : bytes)
    : RatchetState * result CryptoError bytes :=
  match try_skipped_keys st header ciphertext with
  | (st, Err e) => (st, Err e)
  | (st, Ok (Some plaintext)) => (st, Ok plaintext)
  | (st, Ok None) =>
      if decide (dh_remote_public st <> Some (rh_dh_public header)) then
        match skip_messages st (rh_previous_chain_length header) with
        | (st, Err e) => (st, Err e)
        | (st, Ok _) =>
            decrypt_in_chain (dh_ratchet st (rh_dh_public header) rnd) header ciphertext
        end
      else decrypt_in_chain st header ciphertext
  end.
End ops.

(** ** Chains

    [ck_at n ck] is the chain key after [n] steps from [ck], [mk_at n ck] the
    message key of the [n]-th message of the chain. *)

Section chains.
Context `{RatchetPrims}.
Implicit Types (st : RatchetState) (ck : bytes).

Definition ck_at (n : Z) (ck : bytes) : bytes :=
  Nat.iter (Z.to_nat n) (fun c => (kdf_ck c).1) ck.
Definition mk_at (n : Z) (ck : bytes) : bytes := (kdf_ck (ck_at n ck)).2.

(** The entry stored for the [n]-th message of the chain of [pub]. *)
Definition skipped_at (pub ck : bytes) (n : Z) : SkippedKey :=
  {| sk_ratchet_public := pub; sk_message_number := n; sk_message_key := mk_at n ck |}.

Lemma ck_at_0 ck : ck_at 0 ck = ck.
Proof. done. Qed.

Lemma ck_at_succ n ck : 0 <= n -> ck_at (n + 1) ck = (kdf_ck (ck_at n ck)).1.
Proof. intros Hn. unfold ck_at. by rewrite Z2Nat.inj_add, Nat.add_comm by lia. Qed.

Lemma kdf_ck_at n ck : 0 <= n -> kdf_ck (ck_at n ck) = (ck_at (n + 1) ck, mk_at n ck).
Proof. intros. rewrite ck_at_succ by done. unfold mk_at. by destruct (kdf_ck _). Qed.

Lemma set_skipped_keys_id st : set_skipped_keys (skipped_keys st) st = st.
Proof. by destruct st. Qed.

Lemma set_recv_id st : set_recv (chain_key_recv st) (recv_count st) st = st.
Proof. by destruct st. Qed.

(** The loop stores one key per message number it passes, in order, and
    leaves the counter at [until]. *)
Lemma skip_loop_spec fuel until ck st :
  Z.of_nat fuel = until - recv_count st -> 0 <= recv_count st -> until < 2 ^ 32 ->
  skip_loop fuel until (ck_at (recv_count st) ck) st =
    (ck_at until ck,
     set_recv (chain_key_recv st) until
       (set_skipped_keys
          (skipped_keys st ++
           (skipped_at (default zero_key (dh_remote_public st)) ck <$>
             seqZ (recv_count st) (until - recv_count st))) st)).
Proof.
  revert st. induction fuel as [|fuel IH]; intros st Hfuel Hr Hu.
  - assert (recv_count st = until) as <- by lia.
    rewrite Z.sub_diag. cbn. rewrite app_nil_r. by destruct st.
  - cbn [skip_loop]. destruct (Z.ltb_spec (recv_count st) until) as [Hlt|]; [|lia].
    rewrite kdf_ck_at by done.
    rewrite add_u32_small by lia.
    pose proof (IH (set_recv (chain_key_recv st) (recv_count st + 1)
      (set_skipped_keys (skipped_keys st ++
         [skipped_at (default zero_key (dh_remote_public st)) ck (recv_count st)]) st))) as E.
    cbn -[seqZ] in E. unfold skipped_at in E at 1. rewrite E by lia.
    rewrite (seqZ_cons (recv_count st) (until - recv_count st)) by lia.
    rewrite fmap_cons, <-app_assoc. unfold Z.succ.
    by replace (Z.pred (until - recv_count st)) with (until - (recv_count st + 1)) by lia.
Qed.

(** [skip_messages] on every branch. *)
Lemma skip_messages_too_many st until :
  0 <= recv_count st -> recv_count st + MAX_SKIP < 2 ^ 32 ->
  recv_count st + MAX_SKIP < until ->
  skip_messages st until = (st, Err TooManySkipped).
Proof.
  intros. unfold skip_messages. rewrite add_u32_small by (unfold MAX_SKIP in *; lia).
  by destruct (Z.ltb_spec (recv_count st + MAX_SKIP) until); [|lia].
Qed.

Lemma skip_messages_no_chain st until :
  0 <= recv_count st -> recv_count st + MAX_SKIP < 2 ^ 32 ->
  until <= recv_count st + MAX_SKIP -> chain_key_recv st = None ->
  skip_messages st until = (st, Ok tt).
Proof.
  intros ??? Hc. unfold skip_messages. rewrite add_u32_small by (unfold MAX_SKIP in *; lia).
  rewrite Hc. by destruct (Z.ltb_spec (recv_count st + MAX_SKIP) until); [lia|].
Qed.

Lemma skip_messages_ok st until ck :
  0 <= recv_count st -> recv_count st + MAX_SKIP < 2 ^ 32 ->
  recv_count st <= until <= recv_count st + MAX_SKIP ->
  chain_key_recv st = Some (ck_at (recv_count st) ck) ->
  skip_messages st until =
    (set_recv (Some (ck_at until ck)) until
       (set_skipped_keys
          (skipped_keys st ++
           (skipped_at (default zero_key (dh_remote_public st)) ck <$>
             seqZ (recv_count st) (until - recv_count st))) st), Ok tt).
Proof.
  intros ??? Hc. unfold skip_messages. rewrite add_u32_small by (unfold MAX_SKIP in *; lia).
  destruct (Z.ltb_spec (recv_count st + MAX_SKIP) until); [lia|].
  rewrite Hc, skip_loop_spec by (unfold MAX_SKIP in *; lia). by destruct st.
Qed.

(** Messages already passed need no step of the chain. *)
Lemma skip_messages_past st until :
  0 <= recv_count st -> recv_count st + MAX_SKIP < 2 ^ 32 -> until <= recv_count st ->
  skip_messages st until = (st, Ok tt).
Proof.
  intros. unfold skip_messages. rewrite add_u32_small by (unfold MAX_SKIP in *; lia).
  destruct (Z.ltb_spec (recv_count st + MAX_SKIP) until); [unfold MAX_SKIP in *; lia|].
  replace (Z.to_nat (until - recv_count st)) with 0%nat by lia.
  destruct (chain_key_recv st) eqn:E; cbn; [|done]. rewrite <-E. by rewrite set_recv_id.
Qed.

(** A message of the current receiving chain, at most [MAX_SKIP] ahead. *)
Lemma decrypt_in_chain_ok st header ct ck :
  0 <= recv_count st -> recv_count st + 2 * MAX_SKIP < 2 ^ 32 ->
  recv_count st <= rh_message_number header <= recv_count st + MAX_SKIP ->
  chain_key_recv st = Some (ck_at (recv_count st) ck) ->
  decrypt_in_chain st header ct =
    (set_recv (Some (ck_at (rh_message_number header + 1) ck)) (rh_message_number header + 1)
       (set_skipped_keys
          (skipped_keys st ++
           (skipped_at (default zero_key (dh_remote_public st)) ck <$>
             seqZ (recv_count st) (rh_message_number header - recv_count st))) st),
     decrypt_message (mk_at (rh_message_number header) ck) ct).
Proof.
  intros. unfold decrypt_in_chain.
  rewrite (skip_messages_ok _ _ ck) by (unfold MAX_SKIP in *; try done; lia).
  cbn -[kdf_ck seqZ]. rewrite kdf_ck_at by lia. cbn -[seqZ].
  rewrite add_u32_small by (unfold MAX_SKIP in *; lia). done.
Qed.
End chains.
