(* ===== verification/Signing.v ===== *)
(** * Canonical bytes, signatures and delegation chains

    Model of [crates/proscenium-types/src/signing.rs], the signing parts of
    [delegation.rs], [protocol.rs], [stage.rs] and [registration.rs].  Ed25519
    keys (iroh), hex and JSON printing are crates: the classes [Ed25519],
    [HexCodec] and [JsonCodec], whose laws are their documented behaviour. *)

From stdpp Require Import pretty.
From S2P Require Import Prelude Types.

Local Open Scope Z_scope.

(** ** The crates *)

(** [serde_json::Value]. *)
Inductive Json : Type :=
| JNull
| JBool (b : bool)
| JNum (n : Z)
| JStr (s : string)
| JArr (l : list Json)
| JObj (fields : list (string * Json)).

Class Ed25519 := {
  SecretKey : Type;
  PublicKey : Type;
  Signature : Type;
  sk_public : SecretKey -> PublicKey;
  sk_sign : SecretKey -> bytes -> Signature;
  pk_verify : PublicKey -> bytes -> Signature -> bool;
  pk_to_string : PublicKey -> string;
  pk_parse : string -> result string PublicKey;
  sig_to_bytes : Signature -> bytes;
  sig_from_bytes : bytes -> Signature;
}.
Class Ed25519Laws `{Ed25519} := {
  verify_sign k m : pk_verify (sk_public k) m (sk_sign k m) = true;
  pk_parse_to_string p : pk_parse (pk_to_string p) = Ok p;
  sig_from_to_bytes s : sig_from_bytes (sig_to_bytes s) = s;
  sig_to_bytes_length s : length (sig_to_bytes s) = 64%nat;
  sig_to_bytes_u8 s : Forall is_u8 (sig_to_bytes s);
}.

Class HexCodec := {
  hex_encode : bytes -> string;
  hex_decode : string -> result string bytes;
}.
Class HexLaws `{HexCodec} := {
  hex_decode_encode b : Forall is_u8 b -> hex_decode (hex_encode b) = Ok b;
  hex_encode_length b : str_len (hex_encode b) = 2 * Z.of_nat (length b);
}.

(** [serde_json::to_vec] of a value; the text of an object starts with ['{']. *)
Class JsonCodec := { json_to_vec : Json -> bytes }.
Class JsonLaws `{JsonCodec} := {
  json_to_vec_inj : Inj (=) (=) json_to_vec;
  json_to_vec_obj fs : head (json_to_vec (JObj fs)) = Some 123;
}.
#[export] Existing Instance json_to_vec_inj.

(** ** [Serialize] of the data types

    [json!] and the derived implementations build a [BTreeMap]: the fields are
    kept sorted by key. *)

Fixpoint obj_insert (k : string) (v : Json) (fs : list (string * Json)) : list (string * Json) :=
  match fs with
  | [] => [(k, v)]
  | (k', v') :: r =>
      if String.ltb k k' then (k, v) :: fs
      else if decide (k = k') then (k, v) :: r
      else (k', v') :: obj_insert k v r
  end.

Definition json_obj (fs : list (string * Json)) : Json :=
  JObj (fold_left (fun m kv => obj_insert kv.1 kv.2 m) fs []).

Definition json_opt_str (o : option string) : Json :=
  match o with Some s => JStr s | None => JNull end.

Definition json_media (m : MediaAttachment) : Json :=
  json_obj [("hash", JStr (ma_hash m)); ("ticket", JStr (ma_ticket m));
            ("mime_type", JStr (ma_mime_type m)); ("filename", JStr (ma_filename m));
            ("size", JNum (ma_size m))]%string.

Definition json_visibility (v : Visibility) : Json := JStr (visibility_to_string v).

Definition json_kind (k : InteractionKind) : Json := match k with Like => JStr "Like" end.

Definition json_device (d : DeviceEntry) : Json :=
  json_obj [("node_id", JStr (de_node_id d)); ("device_name", JStr (de_device_name d));
            ("is_primary", JBool (de_is_primary d)); ("added_at", JNum (de_added_at d))]%string.

Definition json_role (r : StageRole) : Json :=
  JStr match r with
       | Host => "Host" | CoHost => "CoHost" | Speaker => "Speaker" | Listener => "Listener"
       end.

(** An enum variant with fields is an object with the variant as its key. *)
Definition json_stage_control (c : StageControl) : Json :=
  let v tag fs := JObj [(tag, json_obj fs)] in
  match c with
  | Announce sid t h s =>
      v "Announce" [("stage_id", JStr sid); ("title", JStr t); ("host_pubkey", JStr h);
                    ("started_at", JNum s)]
  | End_ sid => v "End" [("stage_id", JStr sid)]
  | Presence sid p r ts n =>
      v "Presence" [("stage_id", JStr sid); ("pubkey", JStr p); ("role", json_role r);
                    ("timestamp", JNum ts); ("node_id", json_opt_str n)]
  | RelayVolunteer sid p n c =>
      v "RelayVolunteer" [("stage_id", JStr sid); ("relay_pubkey", JStr p);
                          ("relay_node_id", JStr n); ("capacity", JNum c)]
  | RelayAssignment sid p n l =>
      v "RelayAssignment" [("stage_id", JStr sid); ("relay_pubkey", JStr p);
                           ("relay_node_id", JStr n); ("listener_pubkeys", JArr (JStr <$> l))]
  | RaiseHand sid p => v "RaiseHand" [("stage_id", JStr sid); ("pubkey", JStr p)]
  | LowerHand sid p => v "LowerHand" [("stage_id", JStr sid); ("pubkey", JStr p)]
  | PromoteSpeaker sid p => v "PromoteSpeaker" [("stage_id", JStr sid); ("pubkey", JStr p)]
  | DemoteSpeaker sid p => v "DemoteSpeaker" [("stage_id", JStr sid); ("pubkey", JStr p)]
  | MuteSpeaker sid p => v "MuteSpeaker" [("stage_id", JStr sid); ("pubkey", JStr p)]
  | SelfMuteToggle sid p m =>
      v "SelfMuteToggle" [("stage_id", JStr sid); ("pubkey", JStr p); ("muted", JBool m)]
  | Kick sid p => v "Kick" [("stage_id", JStr sid); ("pubkey", JStr p)]
  | Ban sid p => v "Ban" [("stage_id", JStr sid); ("pubkey", JStr p)]
  | Reaction sid p e =>
      v "Reaction" [("stage_id", JStr sid); ("pubkey", JStr p); ("emoji", JStr e)]
  | Chat sid p t => v "Chat" [("stage_id", JStr sid); ("pubkey", JStr p); ("text", JStr t)]
  end%string.

(** ** Canonical values *)

Definition post_signing_value (post : Post) : Json :=
  json_obj [("id", JStr (post_id post)); ("author", JStr (post_author post));
            ("content", JStr (post_content post)); ("timestamp", JNum (post_timestamp post));
            ("media", JArr (json_media <$> post_media post));
            ("reply_to", json_opt_str (post_reply_to post));
            ("reply_to_author", json_opt_str (post_reply_to_author post));
            ("quote_of", json_opt_str (post_quote_of post));
            ("quote_of_author", json_opt_str (post_quote_of_author post))]%string.

Definition interaction_signing_value (i : Interaction) : Json :=
  json_obj [("id", JStr (in_id i)); ("author", JStr (in_author i)); ("kind", json_kind (in_kind i));
            ("target_post_id", JStr (in_target_post_id i));
            ("target_author", JStr (in_target_author i));
            ("timestamp", JNum (in_timestamp i))]%string.

Definition profile_signing_value (p : Profile) : Json :=
  json_obj [("display_name", JStr (pr_display_name p)); ("bio", JStr (pr_bio p));
            ("avatar_hash", json_opt_str (pr_avatar_hash p));
            ("avatar_ticket", json_opt_str (pr_avatar_ticket p));
            ("visibility", json_visibility (pr_visibility p))]%string.

Definition delete_post_signing_value (id author : string) : Json :=
  json_obj [("action", JStr "delete_post"); ("id", JStr id); ("author", JStr author)]%string.

Definition delete_interaction_signing_value (id author : string) : Json :=
  json_obj [("action", JStr "delete_interaction"); ("id", JStr id);
            ("author", JStr author)]%string.

Definition linked_devices_signing_value (a : LinkedDevicesAnnouncement) : Json :=
  json_obj [("master_pubkey", JStr (an_master_pubkey a));
            ("devices", JArr (json_device <$> an_devices a));
            ("version", JNum (an_version a)); ("timestamp", JNum (an_timestamp a))]%string.

Definition delegation_signing_value (master_pubkey signing_pubkey : string) (key_index : Z)
    (dm_pubkey : string) (dm_key_index issued_at : Z) : Json :=
  json_obj [("master_pubkey", JStr master_pubkey); ("signing_pubkey", JStr signing_pubkey);
            ("key_index", JNum key_index); ("dm_pubkey", JStr dm_pubkey);
            ("dm_key_index", JNum dm_key_index); ("issued_at", JNum issued_at)]%string.

Definition rotation_signing_value (master_pubkey old_signing_pubkey new_signing_pubkey : string)
    (new_key_index timestamp : Z) : Json :=
  json_obj [("action", JStr "signing_key_rotation"); ("master_pubkey", JStr master_pubkey);
            ("old_signing_pubkey", JStr old_signing_pubkey);
            ("new_signing_pubkey", JStr new_signing_pubkey);
            ("new_key_index", JNum new_key_index); ("timestamp", JNum timestamp)]%string.

Definition registration_signing_value (master_pubkey transport_node_id server_url : string)
    (timestamp : Z) (visibility : Visibility) (action : option string) : Json :=
  json_obj [("action", json_opt_str action); ("master_pubkey", JStr master_pubkey);
            ("server_url", JStr server_url); ("timestamp", JNum timestamp);
            ("transport_node_id", JStr transport_node_id);
            ("visibility", json_visibility visibility)]%string.

Definition follow_request_signing_value (requester : string) (timestamp : Z) : Json :=
  json_obj [("requester", JStr requester); ("timestamp", JNum timestamp)]%string.

Definition stage_control_signing_value (sender_pubkey : string) (control : StageControl)
    (timestamp : Z) : Json :=
  json_obj [("sender_pubkey", JStr sender_pubkey); ("control", json_stage_control control);
            ("timestamp", JNum timestamp)]%string.

Definition device_sync_challenge_signing_bytes (challenge : bytes) : bytes :=
  str_bytes "proscenium-device-sync-v1:" ++ challenge.

(** ** Signing and verification *)

Section sign.
Context `{Ed25519, HexCodec, JsonCodec}.

Definition post_signing_bytes (p : Post) : bytes := json_to_vec (post_signing_value p).
Definition interaction_signing_bytes (i : Interaction) : bytes :=
  json_to_vec (interaction_signing_value i).
Definition profile_signing_bytes (p : Profile) : bytes :=
  json_to_vec (profile_signing_value p).
Definition delete_post_signing_bytes (id author : string) : bytes :=
  json_to_vec (delete_post_signing_value id author).
Definition delete_interaction_signing_bytes (id author : string) : bytes :=
  json_to_vec (delete_interaction_signing_value id author).
Definition linked_devices_signing_bytes (a : LinkedDevicesAnnouncement) : bytes :=
  json_to_vec (linked_devices_signing_value a).
Definition delegation_signing_bytes (m s : string) (i : Z) (d : string) (di t : Z) : bytes :=
  json_to_vec (delegation_signing_value m s i d di t).
Definition rotation_signing_bytes (m o n : string) (i t : Z) : bytes :=
  json_to_vec (rotation_signing_value m o n i t).
Definition registration_signing_bytes (m t s : string) (ts : Z) (v : Visibility)
    (a : option string) : bytes :=
  json_to_vec (registration_signing_value m t s ts v a).
Definition follow_request_signing_bytes (r : string) (ts : Z) : bytes :=
  json_to_vec (follow_request_signing_value r ts).
Definition stage_control_signing_bytes (s : string) (c : StageControl) (ts : Z) : bytes :=
  json_to_vec (stage_control_signing_value s c ts).

Definition signature_to_hex (sig : Signature) : string := hex_encode (sig_to_bytes sig).

Definition hex_to_signature (hex_str : string) : result string Signature :=
  _ ← bail_if (bool_decide (str_len hex_str <> 128))
        ("invalid signature hex length: " +:+ pretty (str_len hex_str));
  bytes ← match hex_decode hex_str with
          | Ok b => Ok b
          | Err e => Err ("invalid hex: " +:+ e)
          end;
  _ ← bail_if (bool_decide (length bytes <> 64%nat)) "invalid signature length"%string;
  Ok (sig_from_bytes bytes).

(** [signer.verify(&bytes, &sig).map_err(|_| err)]. *)
Definition verify_or (signer : PublicKey) (bytes : bytes) (sig : Signature) (err : string)
    : result string unit :=
  bail_if (negb (pk_verify signer bytes sig)) err.

(** [s.parse::<PublicKey>().map_err(|e| format!("{what}: {e}"))]. *)
Definition parse_pubkey (what s : string) : result string PublicKey :=
  match pk_parse s with
  | Ok pk => Ok pk
  | Err e => Err (what +:+ ": " +:+ e)
  end.

Definition set_post_signature (s : string) (p : Post) : Post :=
  {| post_id := post_id p; post_author := post_author p; post_content := post_content p;
     post_timestamp := post_timestamp p; post_media := post_media p;
     post_reply_to := post_reply_to p; post_reply_to_author := post_reply_to_author p;
     post_quote_of := post_quote_of p; post_quote_of_author := post_quote_of_author p;
     post_signature := s |}.
Definition set_in_signature (s : string) (i : Interaction) : Interaction :=
  {| in_id := in_id i; in_author := in_author i; in_kind := in_kind i;
     in_target_post_id := in_target_post_id i; in_target_author := in_target_author i;
     in_timestamp := in_timestamp i; in_signature := s |}.
Definition set_pr_signature (s : string) (p : Profile) : Profile :=
  {| pr_display_name := pr_display_name p; pr_bio := pr_bio p;
     pr_avatar_hash := pr_avatar_hash p; pr_avatar_ticket := pr_avatar_ticket p;
     pr_visibility := pr_visibility p; pr_signature := s |}.
Definition set_an_signature (s : string) (a : LinkedDevicesAnnouncement)
    : LinkedDevicesAnnouncement :=
  {| an_master_pubkey := an_master_pubkey a; an_delegation := an_delegation a;
     an_devices := an_devices a; an_version := an_version a;
     an_timestamp := an_timestamp a; an_signature := s |}.

Definition sign_post (post : Post) (secret_key : SecretKey) : Post :=
  set_post_signature (signature_to_hex (sk_sign secret_key (post_signing_bytes post))) post.

Definition sign_interaction (i : Interaction) (secret_key : SecretKey) : Interaction :=
  set_in_signature (signature_to_hex (sk_sign secret_key (interaction_signing_bytes i))) i.

Definition sign_profile (p : Profile) (secret_key : SecretKey) : Profile :=
  set_pr_signature (signature_to_hex (sk_sign secret_key (profile_signing_bytes p))) p.

Definition sign_delete_post (id author : string) (secret_key : SecretKey) : string :=
  signature_to_hex (sk_sign secret_key (delete_post_signing_bytes id author)).

Definition sign_delete_interaction (id author : string) (secret_key : SecretKey) : string :=
  signature_to_hex (sk_sign secret_key (delete_interaction_signing_bytes id author)).

Definition sign_linked_devices_announcement (a : LinkedDevicesAnnouncement)
    (secret_key : SecretKey) : LinkedDevicesAnnouncement :=
  set_an_signature (signature_to_hex (sk_sign secret_key (linked_devices_signing_bytes a))) a.

Definition sign_delegation (master_secret : SecretKey) (signing_pubkey : PublicKey)
    (key_index : Z) (dm_pubkey : string) (dm_key_index issued_at : Z) : SigningKeyDelegation :=
  let master_pubkey := pk_to_string (sk_public master_secret) in
  let signing_pubkey_str := pk_to_string signing_pubkey in
  let bytes := delegation_signing_bytes master_pubkey signing_pubkey_str key_index
                 dm_pubkey dm_key_index issued_at in
  {| dl_master_pubkey := master_pubkey; dl_signing_pubkey := signing_pubkey_str;
     dl_key_index := key_index; dl_dm_pubkey := dm_pubkey; dl_dm_key_index := dm_key_index;
     dl_issued_at := issued_at;
     dl_signature := signature_to_hex (sk_sign master_secret bytes) |}.

Definition sign_rotation (master_secret : SecretKey)
    (old_signing_pubkey new_signing_pubkey : PublicKey) (new_key_index timestamp : Z)
    (new_delegation : SigningKeyDelegation) : SigningKeyRotation :=
  let master_pubkey := pk_to_string (sk_public master_secret) in
  let old_str := pk_to_string old_signing_pubkey in
  let new_str := pk_to_string new_signing_pubkey in
  let bytes := rotation_signing_bytes master_pubkey old_str new_str new_key_index timestamp in
  {| rt_master_pubkey := master_pubkey; rt_old_signing_pubkey := old_str;
     rt_new_signing_pubkey := new_str; rt_new_key_index := new_key_index;
     rt_timestamp := timestamp; rt_signature := signature_to_hex (sk_sign master_secret bytes);
     rt_new_delegation := new_delegation |}.

Definition sign_registration (p : RegistrationPayload) (signing_secret_key : SecretKey) : string :=
  signature_to_hex (sk_sign signing_secret_key
    (registration_signing_bytes (rp_master_pubkey p) (rp_transport_node_id p)
       (rp_server_url p) (rp_timestamp p) (rp_visibility p) (rp_action p))).

Definition sign_follow_request (requester : string) (timestamp : Z) (secret_key : SecretKey)
    : string :=
  signature_to_hex (sk_sign secret_key (follow_request_signing_bytes requester timestamp)).

Definition sign_device_sync_challenge (challenge : bytes) (secret_key : SecretKey) : string :=
  signature_to_hex (sk_sign secret_key (device_sync_challenge_signing_bytes challenge)).

Definition sign_stage_control (control : StageControl) (sender_pubkey : string)
    (signing_key : SecretKey) (timestamp : Z) : SignedStageControl :=
  {| sc_sender_pubkey := sender_pubkey; sc_control := control; sc_timestamp := timestamp;
     sc_signature := signature_to_hex (sk_sign signing_key
       (stage_control_signing_bytes sender_pubkey control timestamp)) |}.

Definition verify_post_signature (post : Post) (signer_pubkey : PublicKey)
    : result string unit :=
  sig ← hex_to_signature (post_signature post);
  verify_or signer_pubkey (post_signing_bytes post) sig "post signature verification failed".

Definition verify_interaction_signature (i : Interaction) (signer_pubkey : PublicKey)
    : result string unit :=
  sig ← hex_to_signature (in_signature i);
  verify_or signer_pubkey (interaction_signing_bytes i) sig
    "interaction signature verification failed".

Definition verify_profile_signature (p : Profile) (signer_pubkey : PublicKey)
    : result string unit :=
  sig ← hex_to_signature (pr_signature p);
  verify_or signer_pubkey (profile_signing_bytes p) sig
    "profile signature verification failed".

Definition verify_delete_post_signature (id author signature : string)
    (signer_pubkey : PublicKey) : result string unit :=
  sig ← hex_to_signature signature;
  verify_or signer_pubkey (delete_post_signing_bytes id author) sig
    "delete post signature verification failed".

Definition verify_delete_interaction_signature (id author signature : string)
    (signer_pubkey : PublicKey) : result string unit :=
  sig ← hex_to_signature signature;
  verify_or signer_pubkey (delete_interaction_signing_bytes id author) sig
    "delete interaction signature verification failed".

Definition verify_delegation (d : SigningKeyDelegation) : result string unit :=
  sig ← hex_to_signature (dl_signature d);
  master_pubkey ← parse_pubkey "invalid master pubkey" (dl_master_pubkey d);
  _ ← parse_pubkey "invalid signing pubkey" (dl_signing_pubkey d);
  verify_or master_pubkey
    (delegation_signing_bytes (dl_master_pubkey d) (dl_signing_pubkey d) (dl_key_index d)
       (dl_dm_pubkey d) (dl_dm_key_index d) (dl_issued_at d)) sig
    "delegation signature verification failed".

Definition verify_rotation (r : SigningKeyRotation) : result string unit :=
  sig ← hex_to_signature (rt_signature r);
  master_pubkey ← parse_pubkey "invalid master pubkey" (rt_master_pubkey r);
  _ ← verify_or master_pubkey
        (rotation_signing_bytes (rt_master_pubkey r) (rt_old_signing_pubkey r)
           (rt_new_signing_pubkey r) (rt_new_key_index r) (rt_timestamp r)) sig
        "rotation signature verification failed";
  _ ← verify_delegation (rt_new_delegation r);
  _ ← bail_if (bool_decide (dl_master_pubkey (rt_new_delegation r) <> rt_master_pubkey r))
        "rotation delegation master_pubkey mismatch"%string;
  _ ← bail_if (bool_decide (dl_signing_pubkey (rt_new_delegation r) <> rt_new_signing_pubkey r))
        "rotation delegation signing_pubkey mismatch"%string;
  bail_if (bool_decide (dl_key_index (rt_new_delegation r) <> rt_new_key_index r))
    "rotation delegation key_index mismatch"%string.

Definition verify_linked_devices_announcement (a : LinkedDevicesAnnouncement)
    : result string unit :=
  _ ← verify_delegation (an_delegation a);
  _ ← bail_if (bool_decide (dl_master_pubkey (an_delegation a) <> an_master_pubkey a))
        "announcement master_pubkey does not match delegation"%string;
  signer ← parse_pubkey "invalid signing pubkey in delegation"
             (dl_signing_pubkey (an_delegation a));
  sig ← hex_to_signature (an_signature a);
  verify_or signer (linked_devices_signing_bytes a) sig
    "linked devices announcement signature verification failed".

Definition verify_registration_signature (r : RegistrationRequest) : result string unit :=
  sig ← hex_to_signature (rr_signature r);
  signing_pubkey ← parse_pubkey "invalid signing pubkey in delegation"
                     (dl_signing_pubkey (rr_delegation r));
  verify_or signing_pubkey
    (registration_signing_bytes (rr_master_pubkey r) (rr_transport_node_id r)
       (rr_server_url r) (rr_timestamp r) (rr_visibility r) (rr_action r)) sig
    "registration signature verification failed".

Definition verify_follow_request (req : FollowRequest) (signer_pubkey : PublicKey)
    : result string unit :=
  sig ← hex_to_signature (fr_signature req);
  verify_or signer_pubkey (follow_request_signing_bytes (fr_requester req) (fr_timestamp req))
    sig "follow request signature verification failed".

Definition verify_device_sync_challenge (challenge : bytes) (signature : string)
    (signer_pubkey : PublicKey) : result string unit :=
  sig ← hex_to_signature signature;
  verify_or signer_pubkey (device_sync_challenge_signing_bytes challenge) sig
    "device sync challenge verification failed".

Definition verify_stage_control (signed : SignedStageControl) (signer_pubkey : PublicKey)
    : result string unit :=
  sig ← hex_to_signature (sc_signature signed);
  verify_or signer_pubkey
    (stage_control_signing_bytes (sc_sender_pubkey signed) (sc_control signed)
       (sc_timestamp signed)) sig
    "stage control signature verification failed".
End sign.
