(* ===== verification/Concrete.v ===== *)
(** * Concrete instances of the crates' interfaces

    Small executable instances of [RatchetPrims], [Ed25519], [HexCodec] and
    [JsonCodec] that satisfy the laws.  They show that the hypotheses of the
    theorems can hold and let the witnesses run the definitions.  The hex codec
    is the real one; the keys, ciphers and the JSON text are toys. *)

From Stdlib Require Import Ascii.
From stdpp Require Import countable.
From S2P Require Import Prelude Types Ratchet Signing.

Local Open Scope Z_scope.

(** ** Ratchet primitives *)

Definition toy_sum (b : bytes) : Z := fold_right Z.add 0 b.

(** A polynomial hash of 16 bits. *)
Definition toy_digest (b : bytes) : Z :=
  fold_left (fun acc x => Z.land (acc * 31 + x + 1) 65535) b 7.

#[export] Instance toy_ratchet : RatchetPrims := {
  hkdf_expand salt ikm info len :=
    replicate len (toy_digest (default [] salt ++ ikm ++ info) mod 256);
  x25519_base b := replicate 31 0 ++ [toy_sum b mod 256];
  x25519_mult a b := [toy_sum a mod 256 * toy_sum b];
  aead_encrypt k n p := toy_digest k :: p;
  aead_decrypt k n c :=
    match c with
    | tag :: p => if decide (tag = toy_digest k) then Some p else None
    | [] => None
    end;
}.

#[export] Instance toy_ratchet_laws : RatchetLaws.
Proof.
  split; cbn; intros.
  - f_equal. lia.
  - by rewrite decide_True.
Qed.

(** ** Hex *)

Definition hex_digit (n : Z) : Ascii.ascii :=
  Ascii.ascii_of_N (Z.to_N (if n <? 10 then 48 + n else 87 + n)).
Definition hex_value (c : Ascii.ascii) : option Z :=
  let n := Z.of_N (Ascii.N_of_ascii c) in
  if (48 <=? n) && (n <=? 57) then Some (n - 48)
  else if (97 <=? n) && (n <=? 102) then Some (n - 87)
  else if (65 <=? n) && (n <=? 70) then Some (n - 55)
  else None.

Fixpoint concrete_hex_encode (b : bytes) : string :=
  match b with
  | [] => ""
  | x :: r => String (hex_digit (x / 16)) (String (hex_digit (x mod 16)) (concrete_hex_encode r))
  end.

Fixpoint concrete_hex_decode (s : string) : result string bytes :=
  match s with
  | EmptyString => Ok []
  | String a (String b r) =>
      match hex_value a, hex_value b with
      | Some x, Some y =>
          match concrete_hex_decode r with Ok l => Ok (x * 16 + y :: l) | Err e => Err e end
      | _, _ => Err "Invalid character"%string
      end
  | String _ EmptyString => Err "Odd number of digits"%string
  end.

#[export] Instance concrete_hex : HexCodec := {
  hex_encode := concrete_hex_encode;
  hex_decode := concrete_hex_decode;
}.

Lemma hex_value_digit n : 0 <= n < 16 -> hex_value (hex_digit n) = Some n.
Proof.
  intros Hn. assert (n ∈ seqZ 0 16) as Hin by (apply elem_of_seqZ; lia).
  cbn in Hin. repeat (apply elem_of_cons in Hin as [->|Hin]; [done|]). by apply elem_of_nil in Hin.
Qed.

#[export] Instance concrete_hex_laws : HexLaws.
Proof.
  split; cbn.
  - intros b Hb. induction Hb as [|x b Hx Hb IH]; [done|]. unfold is_u8 in Hx. cbn.
    rewrite !hex_value_digit by (split; [apply Z.div_pos||apply Z.mod_pos_bound; lia|];
      try (apply Z.div_lt_upper_bound; lia); apply Z.mod_pos_bound; lia).
    rewrite IH. do 2 f_equal. pose proof (Z.div_mod x 16). lia.
  - intros b. induction b as [|x b IH]; [done|]. unfold str_len in *. cbn in *. lia.
Qed.

(** ** Ed25519 *)

Definition toy_byte (n : Z) : Byte.byte := default Byte.x00 (Byte.of_N (Z.to_N (n mod 256))).

Definition toy_sign (k : string) (m : bytes) : Byte.byte := toy_byte (toy_digest (str_bytes k ++ m)).

(** The public key of [k] is printed with a leading letter k; any other text does not parse. *)
#[export] Instance toy_ed25519 : Ed25519 := {
  SecretKey := string;
  PublicKey := string;
  Signature := Byte.byte;
  sk_public k := k;
  sk_sign := toy_sign;
  pk_verify k m s := bool_decide (Byte.to_N (toy_sign k m) = Byte.to_N s);
  pk_to_string k := String "k"%char k;
  pk_parse s := match s with String "k" k => Ok k | _ => Err "invalid key"%string end;
  sig_to_bytes s := Z.of_N (Byte.to_N s) :: replicate 63 0;
  sig_from_bytes b := toy_byte (default 0 (head b));
}.

Lemma toy_byte_to_N s : toy_byte (Z.of_N (Byte.to_N s)) = s.
Proof. by destruct s. Qed.

#[export] Instance toy_ed25519_laws : Ed25519Laws.
Proof.
  split; cbn.
  - intros k m. by apply bool_decide_eq_true_2.
  - done.
  - intros s. by apply toy_byte_to_N.
  - done.
  - intros s. constructor; [|by repeat constructor].
    unfold is_u8. pose proof (Byte.to_N_bounded s). lia.
Qed.

(** ** JSON text *)

Definition str_tokens (s : string) : bytes := str_len s :: str_bytes s.

(** A prefix code: a tag, a length, the parts.  Numbers are one token. *)
Fixpoint json_tokens (j : Json) : bytes :=
  match j with
  | JNull => [0]
  | JBool b => [1; Z.b2z b]
  | JNum n => [2; n]
  | JStr s => 3 :: str_tokens s
  | JArr l => 4 :: Z.of_nat (length l) :: concat (json_tokens <$> l)
  | JObj fs =>
      123 :: Z.of_nat (length fs) :: concat ((fun '(k, v) => str_tokens k ++ json_tokens v) <$> fs)
  end.

(** Induction through the nested lists. *)
Lemma json_ind' (P : Json -> Prop) :
  P JNull -> (forall b, P (JBool b)) -> (forall n, P (JNum n)) -> (forall s, P (JStr s)) ->
  (forall l, Forall P l -> P (JArr l)) ->
  (forall fs, Forall (fun kv => P kv.2) fs -> P (JObj fs)) -> forall j, P j.
Proof.
  intros Hn Hb Hz Hs Ha Ho. fix IH 1. intros [|b|n|s|l|fs];
    [apply Hn|apply Hb|apply Hz|apply Hs| |].
  - apply Ha. induction l; constructor; auto.
  - apply Ho. induction fs as [|[k v] fs IHfs]; constructor; cbn; auto.
Qed.

Lemma str_bytes_app_inj s s' r r' :
  length (str_bytes s) = length (str_bytes s') -> str_bytes s ++ r = str_bytes s' ++ r' ->
  s = s' /\ r = r'.
Proof. intros Hl [E ->]%app_inj_1; [|done]. split; [by apply (inj str_bytes)|done]. Qed.

Lemma str_tokens_prefix s s' r r' :
  str_tokens s ++ r = str_tokens s' ++ r' -> s = s' /\ r = r'.
Proof.
  unfold str_tokens. cbn. intros [= El E]. apply str_bytes_app_inj; [|done].
  unfold str_len in El. rewrite !length_str_bytes. lia.
Qed.

(** Two sequences of as many parts with a prefix code. *)
Lemma concat_prefix {A} (f : A -> bytes) (l l' : list A) r r' :
  Forall (fun x => forall x' r r', f x ++ r = f x' ++ r' -> x = x' /\ r = r') l ->
  length l = length l' -> concat (f <$> l) ++ r = concat (f <$> l') ++ r' -> l = l' /\ r = r'.
Proof.
  intros Hl. revert l' r. induction Hl as [|x l Hx _ IH]; intros [|x' l'] r; cbn; try done.
  rewrite <-!app_assoc. intros [= Hlen] E. apply Hx in E as [-> E].
  by apply IH in E as [-> ->].
Qed.

Lemma json_tokens_prefix j : forall j' r r',
  json_tokens j ++ r = json_tokens j' ++ r' -> j = j' /\ r = r'.
Proof.
  induction j as [|b|n|s|l Hl|fs Hfs] using json_ind'; intros [|b'|n'|s'|l'|fs'] r r' E;
    try discriminate E.
  - by injection E.
  - injection E as Eb ->. by destruct b, b'.
  - by injection E as -> ->.
  - injection E as E1 E2. destruct (str_tokens_prefix s s' r r') as [-> ->]; [|done].
    unfold str_tokens. cbn. by rewrite E1, E2.
  - injection E as Hlen%Nat2Z.inj E. by destruct (concat_prefix _ _ _ _ _ Hl Hlen E) as [-> ->].
  - injection E as Hlen%Nat2Z.inj E.
    apply (concat_prefix (fun '(k, v) => str_tokens k ++ json_tokens v)) in E as [-> ->]; [done| |done].
    eapply Forall_impl; [exact Hfs|]. intros [k v] Hv [k' v'] r1 r2. cbn in Hv.
    intros E1. rewrite <-!app_assoc in E1.
    apply str_tokens_prefix in E1 as [-> E1]. by apply Hv in E1 as [-> ->].
Qed.

#[export] Instance toy_json : JsonCodec := { json_to_vec := json_tokens }.

#[export] Instance toy_json_laws : JsonLaws.
Proof.
  split; [|done]. intros j j' E. cbn in E. apply (json_tokens_prefix j j' [] []). by rewrite !app_nil_r.
Qed.

Example hex_example : hex_encode [0; 171; 255] = "00abff"%string.
Proof. reflexivity. Qed.
