(* ===== verification/RatchetNet.v ===== *)
(** * Two parties and a network that delays, reorders and drops

    The session of [dm/]: the initiator runs [init_alice], the responder
    [init_bob]; envelopes in flight are delivered in any order, any number of
    them may be lost.  [inv] is the invariant of the reachable sessions. *)

From S2P Require Import Prelude Types Ratchet.

Local Open Scope Z_scope.

(** ** The session as a step relation *)

Section net.
Context `{RatchetPrims}.

(** An envelope in flight, with the plaintext its sender encrypted. *)
Record flight : Type := {
  fl_header : RatchetHeader;
  fl_ciphertext : bytes;
  fl_plaintext : bytes;
}.

(** [used] are the DH public keys generated so far. *)
Record net : Type := {
  na : RatchetState;
  nb : RatchetState;
  to_b : list flight;
  to_a : list flight;
  used : list bytes;
}.

Definition swap (n : net) : net :=
  {| na := nb n; nb := na n; to_b := to_a n; to_a := to_b n; used := used n |}.

(** The steps in which [na] sends, or an envelope to [nb] arrives or is
    lost.  A delivery that fails leaves the stored session as it was, so it
    is a loss.  A chain is used for fewer than [2^32 - 2 * MAX_SKIP] messages. *)
Inductive half_step : net -> net -> Prop :=
| step_send n a' header ct pt :
    send_count (na n) + 1 + 2 * MAX_SKIP < 2 ^ 32 ->
    encrypt (na n) pt = Some (a', (header, ct)) ->
    half_step n {| na := a'; nb := nb n;
      to_b := to_b n ++ [{| fl_header := header; fl_ciphertext := ct; fl_plaintext := pt |}];
      to_a := to_a n; used := used n |}
| step_deliver n l1 f l2 rnd b' pt :
    to_b n = l1 ++ f :: l2 ->
    x25519_base rnd ∉ used n ->
    decrypt (nb n) (fl_header f) (fl_ciphertext f) rnd = (b', Ok pt) ->
    half_step n {| na := na n; nb := b'; to_b := l1 ++ l2; to_a := to_a n;
                   used := x25519_base rnd :: used n |}
| step_lose n l1 f l2 :
    to_b n = l1 ++ f :: l2 ->
    half_step n {| na := na n; nb := nb n; to_b := l1 ++ l2; to_a := to_a n; used := used n |}.

Definition net_step (n n' : net) : Prop := half_step n n' \/ half_step (swap n) (swap n').

(** The session right after the Noise handshake: [rnd] is the randomness of
    the initiator's ratchet key, [bob] the responder's DM private key. *)
Definition net_init (shared_secret rnd bob : bytes) : net :=
  {| na := init_alice shared_secret (x25519_base bob) rnd;
     nb := init_bob shared_secret (bob, x25519_base bob);
     to_b := []; to_a := []; used := [x25519_base rnd; x25519_base bob] |}.

Definition net_reachable (n : net) : Prop :=
  exists ss rnd bob, x25519_base rnd <> x25519_base bob /\
    rtc net_step (net_init ss rnd bob) n.
End net.

(** ** What an envelope in flight can be *)

Section inv.
Context `{RatchetPrims, !RatchetLaws}.
Implicit Types (P Q R : RatchetState) (f g : flight) (w : list flight) (U : list bytes).

Definition skey (sk : SkippedKey) : bytes * Z := (sk_ratchet_public sk, sk_message_number sk).
Definition fnum (f : flight) : Z := rh_message_number (fl_header f).
Definition fpub (f : flight) : bytes := rh_dh_public (fl_header f).
Definition fkey (f : flight) : bytes * Z := (fpub f, fnum f).

(** The receiver stored the key of [f] when it skipped [f]. *)
Definition stored (R : RatchetState) (f : flight) : Prop :=
  exists sk, sk ∈ skipped_keys R /\ skey sk = fkey f /\
    fl_ciphertext f = encrypt_message (sk_message_key sk) (fl_plaintext f).

(** [f] is a message [lo <= n < hi] of the chain [ck] of the key [pub]. *)
Definition on_chain (pub ck : bytes) (lo hi : Z) (f : flight) : Prop :=
  fpub f = pub /\ lo <= fnum f < hi /\
  fl_ciphertext f = encrypt_message (mk_at (fnum f) ck) (fl_plaintext f).

Definition skipped_ok (R : RatchetState) (pub : bytes) : Prop :=
  NoDup (skey <$> skipped_keys R) /\
  forall sk, sk ∈ skipped_keys R -> sk_ratchet_public sk = pub ->
    0 <= sk_message_number sk < recv_count R.

(** [P] has made a DH step that [Q] has not seen yet. *)
Record inv (ckP ckQ ckO : bytes) P Q wQ wP U : Prop := {
  i_P_key : dh_self_public P = x25519_base (dh_self_private P);
  i_Q_key : dh_self_public Q = x25519_base (dh_self_private Q);
  i_P_used : dh_self_public P ∈ U;
  i_Q_used : dh_self_public Q ∈ U;
  i_P_remote : dh_remote_public P = Some (dh_self_public Q);
  i_Q_remote : dh_remote_public Q <> Some (dh_self_public P);
  i_Q_remote_used : forall r, dh_remote_public Q = Some r -> r ∈ U;
  i_root : kdf_rk (root_key Q) (x25519_dh (dh_self_private Q) (dh_self_public P)) =
    (root_key P, ckP);
  i_P_chain : chain_key_send P = Some (ck_at (send_count P) ckP);
  i_Q_chain : (chain_key_send Q = None /\ chain_key_recv P = None /\ send_count Q = 0) \/
    (chain_key_send Q = Some (ck_at (send_count Q) ckQ) /\
     chain_key_recv P = Some (ck_at (recv_count P) ckQ));
  i_O_chain : (chain_key_recv Q = None /\ prev_send_count P = 0) \/
    (exists pub, dh_remote_public Q = Some pub /\
      chain_key_recv Q = Some (ck_at (recv_count Q) ckO));
  i_P_count : 0 <= send_count P /\ send_count P + 2 * MAX_SKIP < 2 ^ 32;
  i_Q_count : 0 <= recv_count P <= send_count Q /\ send_count Q + 2 * MAX_SKIP < 2 ^ 32;
  i_O_count : 0 <= recv_count Q <= prev_send_count P /\
    prev_send_count P + 2 * MAX_SKIP < 2 ^ 32;
  i_Q_skipped : skipped_ok Q (default zero_key (dh_remote_public Q));
  i_Q_skipped_used : forall sk, sk ∈ skipped_keys Q ->
    sk_ratchet_public sk ∈ U /\ sk_ratchet_public sk <> dh_self_public P;
  i_P_skipped : skipped_ok P (dh_self_public Q);
  i_P_skipped_used : forall sk, sk ∈ skipped_keys P -> sk_ratchet_public sk ∈ U;
  i_wQ : forall f, f ∈ wQ -> stored Q f \/
    (on_chain (dh_self_public P) ckP 0 (send_count P) f /\
     rh_previous_chain_length (fl_header f) = prev_send_count P) \/
    (dh_remote_public Q = Some (fpub f) /\
     on_chain (fpub f) ckO (recv_count Q) (prev_send_count P) f);
  i_wP : forall f, f ∈ wP -> stored P f \/
    on_chain (dh_self_public Q) ckQ (recv_count P) (send_count Q) f;
  i_wQ_nodup : NoDup (fkey <$> wQ);
  i_wP_nodup : NoDup (fkey <$> wP);
}.

Definition net_inv (n : net) : Prop :=
  exists ckP ckQ ckO,
    inv ckP ckQ ckO (na n) (nb n) (to_b n) (to_a n) (used n) \/
    inv ckP ckQ ckO (nb n) (na n) (to_a n) (to_b n) (used n).

(** ** Lookups of skipped keys *)

Lemma skipped_for_skey header sk :
  skipped_for header sk <-> skey sk = (rh_dh_public header, rh_message_number header).
Proof. unfold skipped_for, skey. split; [intros []; congruence | by intros [= ??]]. Qed.

Lemma try_skipped_none R f :
  (forall sk, sk ∈ skipped_keys R -> skey sk <> fkey f) ->
  try_skipped_keys R (fl_header f) (fl_ciphertext f) = (R, Ok None).
Proof.
  intros Hno. unfold try_skipped_keys.
  destruct (list_find _ _) as [[idx sk]|] eqn:E; [|done].
  apply list_find_Some in E as (Hi & Hk & _).
  apply skipped_for_skey in Hk. apply list_elem_of_lookup_2 in Hi. by destruct (Hno sk Hi).
Qed.

(** A stored message decrypts to its plaintext and consumes exactly its key. *)
Lemma try_skipped_stored R f :
  NoDup (skey <$> skipped_keys R) -> stored R f ->
  exists sk l', skipped_keys R ≡ₚ sk :: l' /\ skey sk = fkey f /\ l' ⊆ skipped_keys R /\
    NoDup (skey <$> l') /\
    try_skipped_keys R (fl_header f) (fl_ciphertext f) =
      (set_skipped_keys l' R, Ok (Some (fl_plaintext f))).
Proof.
  intros Hnd (sk & Hsk & Hkey & Hct). unfold try_skipped_keys.
  destruct (list_find _ _) as [[idx sk']|] eqn:E.
  - apply list_find_Some in E as (Hi & Hk & _). apply skipped_for_skey in Hk.
    assert (sk' = sk) as ->.
    { apply list_elem_of_lookup_2 in Hi.
      apply list_elem_of_lookup in Hsk as [j Hj], Hi as [k Hk'].
      assert (j = k) as ->; [|congruence].
      eapply (NoDup_lookup _ _ _ (fkey f) Hnd); rewrite list_lookup_fmap.
      - by rewrite Hj; cbn; f_equal.
      - by rewrite Hk'; cbn; f_equal. }
    exists sk, (delete idx (skipped_keys R)).
    pose proof (delete_Permutation _ _ _ Hi) as Hp.
    split_and!; try done.
    + intros x Hx. rewrite Hp. by right.
    + rewrite Hp in Hnd. by apply NoDup_cons in Hnd as [_ ?].
    + unfold decrypt_message. rewrite Hct. unfold encrypt_message.
      by rewrite aead_decrypt_encrypt.
  - exfalso. apply list_find_None in E. rewrite Forall_forall in E.
    apply (E sk Hsk). by apply skipped_for_skey.
Qed.

Lemma stored_other R R' sk f g :
  skipped_keys R ≡ₚ sk :: skipped_keys R' -> skey sk = fkey f -> fkey g <> fkey f ->
  stored R g -> stored R' g.
Proof.
  intros Hp Hk Hne (sk' & Hin & Hk' & Hct). exists sk'. split_and!; try done.
  rewrite Hp in Hin. apply elem_of_cons in Hin as [->|]; congruence.
Qed.

Lemma stored_mono R R' f :
  skipped_keys R ⊆ skipped_keys R' -> stored R f -> stored R' f.
Proof. intros Hs (sk & ? & ?). exists sk; eauto. Qed.

(** ** Moving along a receiving chain *)

(** [R] after the messages below [m] of its chain were skipped. *)
Definition advance (pub ck : bytes) (m : Z) (R : RatchetState) : RatchetState :=
  set_recv (Some (ck_at m ck)) m
    (set_skipped_keys
       (skipped_keys R ++ (skipped_at pub ck <$> seqZ (recv_count R) (m - recv_count R))) R).

Lemma elem_of_advance pub ck m R sk :
  sk ∈ skipped_keys (advance pub ck m R) <->
  sk ∈ skipped_keys R \/
  exists n, sk = skipped_at pub ck n /\ recv_count R <= n < m.
Proof.
  cbn -[seqZ]. rewrite elem_of_app, list_elem_of_fmap. setoid_rewrite elem_of_seqZ.
  split; (intros [?|(n & -> & ?)]; [by left|right; exists n; split; [done|lia]]).
Qed.

Lemma advance_skipped_ok pub ck m R :
  0 <= recv_count R <= m -> skipped_ok R pub -> skipped_ok (advance pub ck m R) pub.
Proof.
  intros Hm [Hnd Hlt]. split.
  - cbn -[seqZ]. rewrite fmap_app, <-list_fmap_compose. apply NoDup_app. split_and!; [done| |].
    + intros k Hk1 Hk2. apply list_elem_of_fmap in Hk1 as (sk & -> & Hsk).
      apply list_elem_of_fmap in Hk2 as (n & Hn & Hin%elem_of_seqZ). injection Hn as Hp Hnum.
      specialize (Hlt sk Hsk Hp). lia.
    + apply NoDup_fmap_2; [|apply NoDup_seqZ]. intros x y. by intros [= ?].
  - intros sk [Hsk|(n & -> & ?)]%elem_of_advance Hp; cbn; [|lia].
    specialize (Hlt sk Hsk Hp). lia.
Qed.

Lemma advance_stored pub ck m hi R f :
  on_chain pub ck (recv_count R) hi f -> fnum f < m -> stored (advance pub ck m R) f.
Proof.
  intros (Hp & Hn & Hct) Hm. exists (skipped_at pub ck (fnum f)). split_and!; [|by unfold skey, fkey; cbn; congruence|done].
  apply elem_of_advance. right. exists (fnum f). split; [done|lia].
Qed.

Lemma advance_stored_mono pub ck m R f : stored R f -> stored (advance pub ck m R) f.
Proof. apply stored_mono. intros sk ?. apply elem_of_advance. by left. Qed.

(** A message of the current chain whose key was not stored: it decrypts to
    its plaintext, or it is more than [MAX_SKIP] ahead. *)
Lemma decrypt_on_chain R pub ck hi f rnd :
  dh_remote_public R = Some pub -> chain_key_recv R = Some (ck_at (recv_count R) ck) ->
  skipped_ok R pub -> 0 <= recv_count R -> hi + 2 * MAX_SKIP < 2 ^ 32 ->
  on_chain pub ck (recv_count R) hi f ->
  decrypt R (fl_header f) (fl_ciphertext f) rnd =
    if decide (fnum f <= recv_count R + MAX_SKIP) then
      (set_recv (Some (ck_at (fnum f + 1) ck)) (fnum f + 1) (advance pub ck (fnum f) R),
       Ok (fl_plaintext f))
    else (R, Err TooManySkipped).
Proof.
  intros Hr Hc [_ Hlt] Hpos Hhi (Hp & Hn & Hct). unfold decrypt.
  rewrite try_skipped_none; cycle 1.
  { intros sk Hsk [= Hsp Hsn]. unfold fnum in *.
    specialize (Hlt sk Hsk). rewrite Hsp, Hsn in Hlt. specialize (Hlt Hp). lia. }
  rewrite decide_False; [|rewrite Hr; intros []; unfold fpub in Hp; congruence].
  unfold MAX_SKIP in *. case_decide.
  - rewrite (decrypt_in_chain_ok _ _ _ ck) by (unfold MAX_SKIP, fnum in *; try done; lia).
    rewrite Hr, Hct. unfold decrypt_message, encrypt_message.
    fold (fnum f). rewrite aead_decrypt_encrypt. done.
  - unfold decrypt_in_chain.
    by rewrite skip_messages_too_many by (unfold MAX_SKIP, fnum in *; lia).
Qed.
End inv.
