(* ===== verification/RatchetSafety.v ===== *)
(** * The invariant of the session is preserved

    Each send, delivery and loss keeps [RatchetNet.net_inv]; the theorems on
    the reachable sessions follow by rule induction. *)

From S2P Require Import Prelude Types Ratchet RatchetNet.

Local Open Scope Z_scope.

(** Linear arithmetic with the bound on skipped keys unfolded. *)
Ltac slia := unfold MAX_SKIP in *; lia.

Section preservation.
Context `{RatchetPrims, !RatchetLaws}.
Implicit Types (P Q R : RatchetState) (f g : flight) (w : list flight) (U : list bytes).

Lemma wire_remove (l1 l2 : list flight) f :
  NoDup (fkey <$> l1 ++ f :: l2) ->
  NoDup (fkey <$> l1 ++ l2) /\ forall g, g ∈ l1 ++ l2 -> g ∈ l1 ++ f :: l2 /\ fkey g <> fkey f.
Proof.
  intros Hnd. assert (l1 ++ f :: l2 ≡ₚ f :: l1 ++ l2) as Hp by (by rewrite Permutation_middle).
  rewrite Hp in Hnd. apply NoDup_cons in Hnd as [Hf Hnd]. split; [done|].
  intros g Hg. split; [rewrite Hp; by right|].
  intros Hk. apply Hf. rewrite <-Hk. by apply list_elem_of_fmap_2.
Qed.

Lemma wire_add w f :
  NoDup (fkey <$> w) -> (forall g, g ∈ w -> fkey g <> fkey f) -> NoDup (fkey <$> w ++ [f]).
Proof.
  intros Hnd Hf. rewrite fmap_app. apply NoDup_app. split_and!; [done| |apply NoDup_singleton].
  intros k (g & -> & Hg)%list_elem_of_fmap Hk. apply list_elem_of_singleton in Hk. by destruct (Hf g).
Qed.

Lemma inv_used ckP ckQ ckO P Q wQ wP U x :
  inv ckP ckQ ckO P Q wQ wP U -> inv ckP ckQ ckO P Q wQ wP (x :: U).
Proof.
  intros []. split; try done; try (by right); intros; try (right; by eauto).
  destruct (i_Q_skipped_used sk); [done|]. split; [by right|done].
Qed.

Lemma inv_lose ckP ckQ ckO P Q wQ wP U w1 w2 :
  inv ckP ckQ ckO P Q wQ wP U ->
  w1 ⊆ wQ -> w2 ⊆ wP -> NoDup (fkey <$> w1) -> NoDup (fkey <$> w2) ->
  inv ckP ckQ ckO P Q w1 w2 U.
Proof. intros [] ????. split; try done; intros; eauto. Qed.

(** ** Sending *)

Lemma encrypt_chain R pt ck R' header ct :
  0 <= send_count R -> send_count R + 1 < 2 ^ 32 ->
  chain_key_send R = Some (ck_at (send_count R) ck) ->
  encrypt R pt = Some (R', (header, ct)) ->
  R' = set_send (Some (ck_at (send_count R + 1) ck)) (send_count R + 1) R /\
  header = {| rh_dh_public := dh_self_public R; rh_message_number := send_count R;
              rh_previous_chain_length := prev_send_count R |} /\
  ct = encrypt_message (mk_at (send_count R) ck) pt.
Proof.
  intros ?? Hc. unfold encrypt. rewrite Hc. cbn -[kdf_ck]. rewrite kdf_ck_at by done.
  rewrite add_u32_small by lia. by intros [= <- <- <-].
Qed.

Lemma inv_send_ahead ckP ckQ ckO P Q wQ wP U P' header ct pt :
  inv ckP ckQ ckO P Q wQ wP U -> send_count P + 1 + 2 * MAX_SKIP < 2 ^ 32 ->
  encrypt P pt = Some (P', (header, ct)) ->
  inv ckP ckQ ckO P' Q
    (wQ ++ [{| fl_header := header; fl_ciphertext := ct; fl_plaintext := pt |}]) wP U.
Proof.
  intros [] Hb He. unfold MAX_SKIP in *.
  eapply encrypt_chain in He as (-> & -> & ->); [|slia|slia|done].
  split; try done; cbn -[mk_at]; try done; try slia.
  - intros f [Hf| ->%list_elem_of_singleton]%elem_of_app.
    + destruct (i_wQ f Hf) as [?|[[(?&?&?) ?]|?]]; [by left| |by right; right].
      right; left. split; [|done]. split_and!; [done|lia|lia|done].
    + right; left. split; [|done]. split_and!; cbn; [done|lia|lia|done].
  - apply wire_add; [done|]. intros g Hg [= Hp Hn]. unfold fnum in *; cbn in *.
    destruct (i_wQ g Hg) as [(sk & Hsk & [= Hk1 Hk2] & _)|[[(?&?&?) _]|[Hr (?&?&?)]]].
    + apply i_Q_skipped_used in Hsk as [_ Hne]. apply Hne. unfold fpub in *; cbn in *; congruence.
    + unfold fnum in *. lia.
    + apply i_Q_remote. unfold fpub in *; cbn in *; congruence.
Qed.

Lemma inv_send_behind ckP ckQ ckO P Q wQ wP U Q' header ct pt :
  inv ckP ckQ ckO P Q wQ wP U -> send_count Q + 1 + 2 * MAX_SKIP < 2 ^ 32 ->
  encrypt Q pt = Some (Q', (header, ct)) ->
  inv ckP ckQ ckO P Q' wQ
    (wP ++ [{| fl_header := header; fl_ciphertext := ct; fl_plaintext := pt |}]) U.
Proof.
  intros [] Hb He.
  destruct i_Q_chain as [(Hn & _)|[Hc Hc']].
  { unfold encrypt in He. by rewrite Hn in He. }
  eapply encrypt_chain in He as (-> & -> & ->); [|slia|slia|done].
  split; try done; cbn -[mk_at]; try done; try slia.
  - by right.
  - intros f [Hf| ->%list_elem_of_singleton]%elem_of_app.
    + destruct (i_wP f Hf) as [?|(?&?&?)]; [by left|].
      right. split_and!; [done|lia|lia|done].
    + right. split_and!; cbn; [done|lia|lia|done].
  - apply wire_add; [done|]. intros g Hg [= Hp Hn]. unfold fnum in *; cbn in *.
    destruct (i_wP g Hg) as [(sk & Hsk & [= Hk1 Hk2] & _)|(?&?&?)].
    + destruct i_P_skipped as [_ Hlt]. specialize (Hlt sk Hsk).
      unfold fpub, fnum in *. rewrite Hk1, Hk2, Hp, Hn in Hlt. specialize (Hlt eq_refl). lia.
    + unfold fnum in *. lia.
Qed.

(** ** Receiving

    [within_skip R header]: the gaps [decrypt] has to skip are at most
    [MAX_SKIP]. *)

Definition within_skip (R : RatchetState) (header : RatchetHeader) : Prop :=
  if decide (dh_remote_public R = Some (rh_dh_public header))
  then rh_message_number header <= recv_count R + MAX_SKIP
  else rh_previous_chain_length header <= recv_count R + MAX_SKIP /\
       rh_message_number header <= MAX_SKIP.

Lemma skipped_ok_subset R pub l :
  skipped_ok R pub -> l ⊆ skipped_keys R -> NoDup (skey <$> l) ->
  skipped_ok (set_skipped_keys l R) pub.
Proof. intros [_ Hlt] Hl Hnd. split; [done|]. intros sk Hsk. apply Hlt, Hl, Hsk. Qed.

Lemma decrypt_stored R f rnd :
  NoDup (skey <$> skipped_keys R) -> stored R f ->
  exists sk l, skipped_keys R ≡ₚ sk :: l /\ skey sk = fkey f /\ l ⊆ skipped_keys R /\
    NoDup (skey <$> l) /\
    decrypt R (fl_header f) (fl_ciphertext f) rnd =
      (set_skipped_keys l R, Ok (fl_plaintext f)).
Proof.
  intros Hnd (sk & l & ? & ? & ? & ? & E)%try_skipped_stored; [|done].
  exists sk, l. split_and!; try done. unfold decrypt. by rewrite E.
Qed.

(** After a message of the chain [ck]: what was stored stays stored, the
    messages passed are stored, the later ones are still ahead. *)
Definition received (pub ck : bytes) (f : flight) (R : RatchetState) : RatchetState :=
  set_recv (Some (ck_at (fnum f + 1) ck)) (fnum f + 1) (advance pub ck (fnum f) R).

Lemma received_rest pub ck hi f R :
  on_chain pub ck (recv_count R) hi f -> 0 <= recv_count R -> skipped_ok R pub ->
  skipped_ok (received pub ck f R) pub /\
  (forall g, stored R g -> stored (received pub ck f R) g) /\
  (forall g, on_chain pub ck (recv_count R) hi g -> fkey g <> fkey f ->
     stored (received pub ck f R) g \/ on_chain pub ck (fnum f + 1) hi g).
Proof.
  intros (Hp & Hn & _) H1 Hok. split_and!.
  - destruct (advance_skipped_ok pub ck (fnum f) R) as [Hnd Hlt]; [lia|done|].
    split; [done|]. intros sk Hsk Hpk. specialize (Hlt sk Hsk Hpk). cbn in *. lia.
  - intros g Hg. by apply (advance_stored_mono pub ck (fnum f)) in Hg.
  - intros g Hg Hne. pose proof Hg as (Hpg & Hng & Hct).
    assert (fnum g <> fnum f) by (unfold fkey in Hne; congruence).
    destruct (decide (fnum g < fnum f)).
    + left. by eapply (advance_stored pub ck (fnum f)) in Hg.
    + right. split_and!; try done; lia.
Qed.

Lemma received_count pub ck f R : recv_count (received pub ck f R) = fnum f + 1.
Proof. done. Qed.

Lemma received_elem pub ck f R sk :
  sk ∈ skipped_keys (received pub ck f R) -> sk ∈ skipped_keys R \/ sk_ratchet_public sk = pub.
Proof. intros [?|(? & -> & _)]%(elem_of_advance pub ck (fnum f)); [by left|by right]. Qed.

Lemma recv_ahead ckP ckQ ckO P Q wQ l1 f l2 U rnd :
  inv ckP ckQ ckO P Q wQ (l1 ++ f :: l2) U ->
  (~ within_skip P (fl_header f) /\
   decrypt P (fl_header f) (fl_ciphertext f) rnd = (P, Err TooManySkipped)) \/
  exists P', decrypt P (fl_header f) (fl_ciphertext f) rnd = (P', Ok (fl_plaintext f)) /\
    inv ckP ckQ ckO P' Q wQ (l1 ++ l2) U.
Proof.
  intros []. destruct (wire_remove _ _ _ i_wP_nodup) as [Hnd Hrest].
  destruct (i_wP f) as [Hst|Hon]; [apply elem_of_app; right; by left| |].
  - right. destruct (decrypt_stored P f rnd) as (sk & l & Hp & Hk & Hl & Hndl & ->);
      [apply i_P_skipped|done|].
    eexists. split; [done|].
    split; try done; try (by apply skipped_ok_subset); cbn -[skipped_ok] in *; [by eauto|].
    intros f0 Hf0. destruct (Hrest f0) as [Hin Hne]; [done|].
    destruct (i_wP f0 Hin); [left|by right]. by eapply (stored_other P).
  - destruct i_Q_chain as [(_ & _ & ?)|[Hc Hc']]; [destruct Hon as (_ & ? & _); lia|].
    rewrite (decrypt_on_chain P (dh_self_public Q) ckQ (send_count Q)) by (done || lia || apply i_Q_count).
    destruct (decide (fnum f <= recv_count P + MAX_SKIP)) as [Hw|Hw]; cycle 1.
    { left. split; [|done]. unfold within_skip. destruct Hon as (Hpf & _). unfold fpub in Hpf.
      rewrite decide_True by congruence. done. }
    right. eexists. split; [done|]. fold (received (dh_self_public Q) ckQ f P).
    destruct (received_rest (dh_self_public Q) ckQ (send_count Q) f P) as (Hok & Hst & Hch);
      [done|lia|done|].
    destruct Hon as (Hpf & Hnf & Hcf).
    split; try done; cbn -[skipped_ok received] in *; rewrite ?received_count; try (by right); try lia.
    + intros sk [?| ->]%received_elem; eauto.
    + intros f0 Hf0. destruct (Hrest f0) as [Hin Hne]; [done|]. destruct (i_wP f0 Hin) as [?|?]; [left; eauto|]. by apply Hch.
Qed.

(** The skip of the rest of the old chain, before the DH step of [Q]. *)
Lemma skip_old ckP ckQ ckO P Q wQ wP U :
  inv ckP ckQ ckO P Q wQ wP U ->
  (recv_count Q + MAX_SKIP < prev_send_count P /\
   skip_messages Q (prev_send_count P) = (Q, Err TooManySkipped)) \/
  exists Q1, skip_messages Q (prev_send_count P) = (Q1, Ok tt) /\
    dh_self_private Q1 = dh_self_private Q /\ root_key Q1 = root_key Q /\
    send_count Q1 = send_count Q /\
    NoDup (skey <$> skipped_keys Q1) /\
    (forall sk, sk ∈ skipped_keys Q1 ->
       sk_ratchet_public sk ∈ U /\ sk_ratchet_public sk <> dh_self_public P) /\
    (forall g, stored Q g -> stored Q1 g) /\
    (forall g, dh_remote_public Q = Some (fpub g) ->
       on_chain (fpub g) ckO (recv_count Q) (prev_send_count P) g -> stored Q1 g).
Proof.
  intros [].
  destruct (Z.lt_ge_cases (recv_count Q + MAX_SKIP) (prev_send_count P)) as [Hgt|Hle].
  { left. split; [done|]. apply skip_messages_too_many; slia. }
  right. destruct i_O_chain as [[Hn Hz]|(pub & Hr & Hc)].
  - exists Q. rewrite skip_messages_no_chain by (done || slia).
    split_and!; try done; [apply i_Q_skipped|].
    intros g _ (_ & ? & _). lia.
  - exists (advance pub ckO (prev_send_count P) Q).
    rewrite (skip_messages_ok _ _ ckO) by (done || slia).
    rewrite Hr in *. cbn [default from_option] in *.
    split_and!; try done.
    + eapply advance_skipped_ok; [lia|done].
    + intros sk [?|(n & -> & _)]%elem_of_advance; [by apply i_Q_skipped_used|].
      cbn. split; [by apply i_Q_remote_used|]. congruence.
    + intros g. apply advance_stored_mono.
    + intros g [= <-] Hg. eapply advance_stored; [done|]. apply Hg.
Qed.

(** The state of [Q] after the DH step for a new public key of [P]. *)
Lemma ratchet_step ckP ckQ ckO P Q wQ wP U Q1 rnd :
  inv ckP ckQ ckO P Q wQ wP U ->
  dh_self_private Q1 = dh_self_private Q -> root_key Q1 = root_key Q -> send_count Q1 = send_count Q ->
  dh_ratchet Q1 (dh_self_public P) rnd =
    {| dh_self_private := rnd; dh_self_public := x25519_base rnd;
       dh_remote_public := Some (dh_self_public P);
       root_key := (kdf_rk (root_key P) (x25519_dh rnd (dh_self_public P))).1;
       chain_key_send := Some (kdf_rk (root_key P) (x25519_dh rnd (dh_self_public P))).2;
       chain_key_recv := Some ckP; send_count := 0; recv_count := 0;
       prev_send_count := send_count Q; skipped_keys := skipped_keys Q1 |}.
Proof.
  intros [] Epriv Eroot Esend. unfold dh_ratchet. rewrite Epriv, Eroot, Esend, i_root.
  cbn [generate_x25519_keypair]. by destruct (kdf_rk (root_key P) _).
Qed.

(** [Q] has stored the keys of the chain it leaves, in [Q1], and takes the DH
    step and the first message [f] it sees of the new chain of [P]: the roles of
    the two sides swap. *)
Lemma inv_swap ckP ckQ ckO P Q l1 f l2 wP U rnd Q1 :
  inv ckP ckQ ckO P Q (l1 ++ f :: l2) wP U -> x25519_base rnd ∉ U ->
  on_chain (dh_self_public P) ckP 0 (send_count P) f ->
  dh_self_private Q1 = dh_self_private Q -> root_key Q1 = root_key Q -> send_count Q1 = send_count Q ->
  dh_remote_public Q <> Some (fpub f) -> NoDup (skey <$> skipped_keys Q1) ->
  (forall sk, sk ∈ skipped_keys Q1 -> sk_ratchet_public sk ∈ U /\ sk_ratchet_public sk <> dh_self_public P) ->
  (forall g, stored Q g -> stored Q1 g) ->
  (forall g, dh_remote_public Q = Some (fpub g) ->
     on_chain (fpub g) ckO (recv_count Q) (prev_send_count P) g -> stored Q1 g) ->
  inv (kdf_rk (root_key P) (x25519_dh rnd (dh_self_public P))).2 ckP ckQ
    (received (dh_self_public P) ckP f (dh_ratchet Q1 (dh_self_public P) rnd)) P wP (l1 ++ l2) (x25519_base rnd :: U).
Proof.
  intros Hinv Hrnd Hon Epriv Eroot Esend Hne Hnd1 Hu1 Hst1 Hold1.
  pose proof (ratchet_step _ _ _ _ _ _ _ _ Q1 rnd Hinv Epriv Eroot Esend) as EQ2.
  destruct Hinv. destruct (wire_remove _ _ _ i_wQ_nodup) as [Hnd Hrest].
  pose proof Hon as (Hpf & Hnf & Hcf).
  destruct (kdf_rk (root_key P) (x25519_dh rnd (dh_self_public P))) as [root2 ck] eqn:Ekdf.
  cbn [fst snd] in *. set (Q2 := dh_ratchet Q1 _ rnd) in *. clearbody Q2.
  assert (skipped_ok Q2 (dh_self_public P)) as Hok2.
  { subst Q2. split; [done|]. cbn. intros sk Hsk Hk. by apply Hu1 in Hsk as [_ []]. }
  destruct (received_rest (dh_self_public P) ckP (send_count P) f Q2) as (Hok & Hst & Hch);
    [by subst Q2|by subst Q2|done|].
  assert (forall sk, sk ∈ skipped_keys (received (dh_self_public P) ckP f Q2) ->
    sk_ratchet_public sk ∈ U) as HuU.
  { intros sk [Hsk| ->]%received_elem; [|done]. subst Q2. by apply Hu1. }
  assert (forall g, stored Q1 g -> stored (received (dh_self_public P) ckP f Q2) g) as Hst12.
  { intros g Hg. apply Hst. by subst Q2. }
  subst Q2.
  split; try done; rewrite ?received_count; try (by right); try (by left);
    cbn [received advance set_recv set_skipped_keys dh_self_private dh_self_public
         dh_remote_public root_key chain_key_send chain_key_recv send_count prev_send_count].
  all: try done; try slia; try (intros; right; by eauto).
  - rewrite i_P_remote. intros [= Hq]. congruence.
  - intros r Hr. rewrite i_P_remote in Hr. injection Hr as <-. by right.
  - unfold x25519_dh in *. rewrite <-Ekdf, i_P_key. by rewrite x25519_agree.
  - destruct i_Q_chain as [(? & ? & ?)|[? ?]]; [by left|right; by eauto].
  - by rewrite i_P_remote.
  - intros sk Hsk. apply i_P_skipped_used in Hsk. split; [by right|]. congruence.
  - intros g Hg. destruct (i_wP g Hg) as [?|Hc]; [by left|]. right; right.
    rewrite i_P_remote. destruct Hc as (Hpg & Hrg). split; [congruence|].
    split; [done|]. exact Hrg.
  - intros g Hg. destruct (Hrest g Hg) as [Hin Hk].
    destruct (i_wQ g Hin) as [?|[[Hc _]|[Hr Hc]]]; [by left; auto| |left; auto].
    by apply Hch.
Qed.

(** [Q] receives the first message of a chain it has not seen: the roles
    of the two sides swap. *)
Lemma recv_ratchet ckP ckQ ckO P Q l1 f l2 wP U rnd :
  inv ckP ckQ ckO P Q (l1 ++ f :: l2) wP U -> x25519_base rnd ∉ U ->
  on_chain (dh_self_public P) ckP 0 (send_count P) f ->
  rh_previous_chain_length (fl_header f) = prev_send_count P ->
  (~ within_skip Q (fl_header f) /\
   exists Q', decrypt Q (fl_header f) (fl_ciphertext f) rnd = (Q', Err TooManySkipped)) \/
  exists Q' ck, decrypt Q (fl_header f) (fl_ciphertext f) rnd = (Q', Ok (fl_plaintext f)) /\
    inv ck ckP ckQ Q' P wP (l1 ++ l2) (x25519_base rnd :: U).
Proof.
  intros Hinv Hrnd Hon Hprev. pose proof (skip_old _ _ _ _ _ _ _ _ Hinv) as Hskip.
  pose proof (fun Q1 => ratchet_step _ _ _ _ _ _ _ _ Q1 rnd Hinv) as Hstep.
  pose proof (fun Q1 => inv_swap _ _ _ _ _ _ _ _ _ _ rnd Q1 Hinv Hrnd Hon) as Hswap. destruct Hinv.
  pose proof Hon as (Hpf & Hnf & Hcf).
  assert (dh_remote_public Q <> Some (rh_dh_public (fl_header f))) as Hne.
  { unfold fpub in Hpf. by rewrite Hpf. }
  unfold decrypt. rewrite try_skipped_none; cycle 1.
  { intros sk Hsk [= Hk _]. apply i_Q_skipped_used in Hsk as [_ ?]. unfold fpub in *; congruence. }
  rewrite decide_True by done. rewrite Hprev.
  destruct Hskip as [[Hgap ->]|(Q1 & -> & Epriv & Eroot & Esend & Hnd1 & Hu1 & Hst1 & Hold1)].
  { left. split; [|by eexists]. unfold within_skip. rewrite decide_False by done. rewrite Hprev. lia. }
  specialize (Hswap Q1 Epriv Eroot Esend Hne Hnd1 Hu1 Hst1 Hold1). unfold fpub in Hpf. rewrite Hpf.
  rewrite (Hstep Q1 Epriv Eroot Esend) in Hswap |- *.
  destruct (Z.lt_ge_cases MAX_SKIP (fnum f)) as [Hgt|Hle].
  { left. split.
    - unfold within_skip. rewrite decide_False by done. unfold fnum in *. lia.
    - eexists. unfold decrypt_in_chain.
      rewrite skip_messages_too_many; [done|cbn; unfold fnum in *; slia..]. }
  right. rewrite (decrypt_in_chain_ok _ _ _ ckP); [|cbn; unfold fnum in *; slia..|done].
  eexists _, _. split; [|exact Hswap].
  unfold received, advance. fold (fnum f). rewrite Hcf.
  unfold decrypt_message, encrypt_message. by rewrite aead_decrypt_encrypt.
Qed.

(** A message of the chain [Q] is still receiving on. *)
Lemma recv_old ckP ckQ ckO P Q l1 f l2 wP U rnd :
  inv ckP ckQ ckO P Q (l1 ++ f :: l2) wP U ->
  dh_remote_public Q = Some (fpub f) ->
  on_chain (fpub f) ckO (recv_count Q) (prev_send_count P) f ->
  (~ within_skip Q (fl_header f) /\
   decrypt Q (fl_header f) (fl_ciphertext f) rnd = (Q, Err TooManySkipped)) \/
  exists Q', decrypt Q (fl_header f) (fl_ciphertext f) rnd = (Q', Ok (fl_plaintext f)) /\
    inv ckP ckQ ckO P Q' (l1 ++ l2) wP U.
Proof.
  intros [] Hr Hon. destruct (wire_remove _ _ _ i_wQ_nodup) as [Hnd Hrest].
  destruct i_O_chain as [[_ ?]|(pub & Hr' & Hc)]; [destruct Hon as (_ & ? & _); lia|].
  rewrite Hr in Hr'. injection Hr' as <-. rewrite Hr in i_Q_skipped. cbn in i_Q_skipped.
  rewrite (decrypt_on_chain Q (fpub f) ckO (prev_send_count P)) by (done || slia).
  case_decide as Hw; cycle 1.
  { left. split; [|done]. unfold within_skip. by rewrite decide_True by done. }
  right. eexists. split; [done|]. fold (received (fpub f) ckO f Q).
  destruct (received_rest (fpub f) ckO (prev_send_count P) f Q) as (Hok & Hst & Hch);
    [done|lia|done|].
  destruct Hon as (Hpf & Hnf & Hcf).
  split; try done; rewrite ?received_count; try slia.
  - right. by exists (fpub f).
  - change (dh_remote_public (received _ _ _ _)) with (dh_remote_public Q). by rewrite Hr.
  - intros sk [?| ->]%received_elem; [by auto|]. split; [by apply i_Q_remote_used|congruence].
  - intros g Hg. destruct (Hrest g Hg) as [Hin Hk].
    destruct (i_wQ g Hin) as [?|[?|[Hrg Hc']]]; [by left; auto|by right; left|].
    rewrite Hr in Hrg. injection Hrg as Hrg. rewrite <-Hrg in *.
    destruct (Hch g Hc' Hk); [by left|]. right; right.
    by change (dh_remote_public (received _ _ _ _)) with (dh_remote_public Q).
Qed.

Lemma recv_behind ckP ckQ ckO P Q l1 f l2 wP U rnd :
  inv ckP ckQ ckO P Q (l1 ++ f :: l2) wP U -> x25519_base rnd ∉ U ->
  (~ within_skip Q (fl_header f) /\
   exists Q', decrypt Q (fl_header f) (fl_ciphertext f) rnd = (Q', Err TooManySkipped)) \/
  exists Q' ck, decrypt Q (fl_header f) (fl_ciphertext f) rnd = (Q', Ok (fl_plaintext f)) /\
    (inv ckP ckQ ckO P Q' (l1 ++ l2) wP U \/
     inv ck ckP ckQ Q' P wP (l1 ++ l2) (x25519_base rnd :: U)).
Proof.
  intros Hinv Hrnd. pose proof Hinv as [].
  destruct (i_wQ f) as [Hst|[[Hon Hprev]|[Hr Hon]]]; [apply elem_of_app; right; by left|..].
  - clear Hrnd. right. destruct (decrypt_stored Q f rnd) as (sk & l & Hp & Hk & Hl & Hndl & ->);
      [apply i_Q_skipped|done|].
    eexists _, ckP. split; [done|]. left.
    destruct (wire_remove _ _ _ i_wQ_nodup) as [Hnd Hrest].
    split; try done; try (by apply skipped_ok_subset); cbn -[skipped_ok] in *; [by eauto|].
    intros g Hg. destruct (Hrest g Hg) as [Hin Hne].
    destruct (i_wQ g Hin); [left|by right]. by eapply (stored_other Q).
  - destruct (recv_ratchet _ _ _ _ _ _ _ _ _ _ _ Hinv Hrnd Hon Hprev)
      as [?|(Q' & ck & ? & ?)]; [by left|]. right. eauto.
  - destruct (recv_old _ _ _ _ _ _ _ _ _ _ rnd Hinv Hr Hon) as [[? ?]|(Q' & ? & ?)];
      [left; by eauto|]. right. exists Q', ckP. eauto.
Qed.

(** ** Reachable sessions *)

(** What a delivery from the wire [w] to [R] does. *)
Definition delivers (R : RatchetState) (w : list flight) (U : list bytes) : Prop :=
  forall f rnd, f ∈ w -> x25519_base rnd ∉ U ->
    exists st' r, decrypt R (fl_header f) (fl_ciphertext f) rnd = (st', r) /\
      (r = Ok (fl_plaintext f) \/
       (r = Err TooManySkipped /\ ~ within_skip R (fl_header f))).

Lemma inv_delivers ckP ckQ ckO P Q wQ wP U :
  inv ckP ckQ ckO P Q wQ wP U -> delivers Q wQ U /\ delivers P wP U.
Proof.
  intros Hinv. split; intros f rnd (l1 & l2 & ->)%list_elem_of_split Hrnd.
  - destruct (recv_behind _ _ _ _ _ _ _ _ _ _ _ Hinv Hrnd) as [[? [? ->]]|(? & ? & -> & _)]; eauto 6.
  - destruct (recv_ahead _ _ _ _ _ _ _ _ _ _ rnd Hinv) as [[? ->]|(? & -> & _)]; eauto 6.
Qed.

Lemma net_inv_swap n : net_inv n <-> net_inv (swap n).
Proof. split; intros (a & b & c & [?|?]); exists a, b, c; cbn; auto. Qed.

Lemma half_step_inv n n' : net_inv n -> half_step n n' -> net_inv n'.
Proof.
  intros Hn Hs. destruct Hs as [n a' header ct pt Hb He|n l1 f l2 rnd b' pt Hw Hrnd Hd|n l1 f l2 Hw];
    destruct Hn as (ckP & ckQ & ckO & Hinv).
  - exists ckP, ckQ, ckO. cbn. destruct Hinv as [Hinv|Hinv]; [left|right].
    + eapply inv_send_ahead; [exact Hinv|exact Hb|exact He].
    + eapply inv_send_behind; [exact Hinv|exact Hb|exact He].
  - rewrite Hw in Hinv. destruct Hinv as [Hinv|Hinv].
    + destruct (recv_behind _ _ _ _ _ _ _ _ _ _ _ Hinv Hrnd)
        as [[_ [? E]]|(Q' & ck & E & [Hi|Hi])]; rewrite E in Hd; simplify_eq.
      * exists ckP, ckQ, ckO. left. by apply inv_used.
      * exists ck, ckP, ckQ. by right.
    + destruct (recv_ahead _ _ _ _ _ _ _ _ _ _ rnd Hinv) as [[_ E]|(P' & E & Hi)];
        rewrite E in Hd; simplify_eq.
      exists ckP, ckQ, ckO. right. by apply inv_used.
  - exists ckP, ckQ, ckO. rewrite Hw in Hinv.
    assert (forall w : list flight, w ⊆ w) as Hrefl by done.
    destruct Hinv as [Hinv|Hinv]; [left|right]; pose proof Hinv as [];
      [destruct (wire_remove _ _ _ i_wQ_nodup) as [? Hr]|
       destruct (wire_remove _ _ _ i_wP_nodup) as [? Hr]];
      (eapply inv_lose; [done|..]; try done); intros g Hg; by apply Hr.
Qed.

Lemma net_init_inv ss rnd bob :
  x25519_base rnd <> x25519_base bob -> net_inv (net_init ss rnd bob).
Proof.
  intros Hne. destruct (kdf_rk ss (x25519_dh rnd (x25519_base bob))) as [root ck] eqn:E.
  exists ck, ck, ck. left. unfold net_init, init_alice.
  cbn [generate_x25519_keypair x25519_public_from_private]. rewrite E.
  assert (forall pub, NoDup (skey <$> []) /\ forall sk, sk ∈ [] -> sk_ratchet_public sk = pub ->
    0 <= sk_message_number sk < 0) as Hempty.
  { intros pub. split; [constructor|]. by intros sk ?%elem_of_nil. }
  split; cbn -[kdf_rk]; try done; try slia; try apply Hempty; try apply NoDup_nil_2.
  all: try (by left); try (by right; left); try (by intros ? ?%elem_of_nil).
  unfold x25519_dh in *. by rewrite x25519_agree.
Qed.

Lemma net_reachable_inv n : net_reachable n -> net_inv n.
Proof.
  intros (ss & rnd & bob & Hne & Hsteps).
  remember (net_init ss rnd bob) as n0 eqn:E0.
  assert (net_inv n0) as H0n by (subst; by apply net_init_inv). clear E0.
  induction Hsteps as [|n1 n2 n3 [Hs|Hs] _ IH]; [done| |]; apply IH.
  - by eapply half_step_inv.
  - apply net_inv_swap. eapply half_step_inv; [|done]. by apply net_inv_swap in H0n.
Qed.
End preservation.
