(* ===== verification/RatchetTheorems.v ===== *)
(** * What the Double Ratchet promises

    The theorems of the ratchet: delivery over an adversarial network, the work
    and memory a hostile header can cost, and the termination of the loop. *)

From S2P Require Import Prelude Types Ratchet Concrete RatchetNet RatchetSafety.

Local Open Scope Z_scope.

(** ** The cost of a header *)

Section cost.
Context `{RatchetPrims}.

Lemma skip_loop_cost fuel until ck st :
  (length (skipped_keys (skip_loop fuel until ck st).2) <=
   length (skipped_keys st) + fuel)%nat.
Proof.
  revert ck st. induction fuel as [|fuel IH]; intros ck st; cbn -[kdf_ck]; [lia|].
  destruct (_ <? _); cbn -[kdf_ck]; [|lia]. destruct (kdf_ck ck) as [c m].
  etransitivity; [apply IH|]. cbn. rewrite length_app. cbn. lia.
Qed.

Lemma skip_messages_cost st until :
  0 <= recv_count st ->
  (length (skipped_keys (skip_messages st until).1) <= length (skipped_keys st) + 100)%nat.
Proof.
  intros Hr. unfold skip_messages.
  destruct (Z.ltb_spec (add_u32 (recv_count st) MAX_SKIP) until) as [|Hle]; cbn; [lia|].
  destruct (chain_key_recv st) as [ck|]; cbn; [|lia].
  pose proof (skip_loop_cost (Z.to_nat (until - recv_count st)) until ck st) as Hc.
  destruct (skip_loop _ _ _ _) as [ck' st']. cbn in *.
  assert (until - recv_count st <= 100); [|lia].
  unfold add_u32, MAX_SKIP in Hle.
  pose proof (Z.mod_le (recv_count st + 100) (2 ^ 32)). lia.
Qed.

Lemma decrypt_in_chain_cost st header ct :
  0 <= recv_count st ->
  (length (skipped_keys (decrypt_in_chain st header ct).1) <=
   length (skipped_keys st) + 100)%nat.
Proof.
  intros Hr. unfold decrypt_in_chain.
  pose proof (skip_messages_cost st (rh_message_number header) Hr) as Hc.
  destruct (skip_messages _ _) as [st' [?|?]]; cbn in *; [|done].
  destruct (chain_key_recv st') as [ck|]; cbn; [|done].
  by destruct (kdf_ck ck).
Qed.

Lemma try_skipped_keys_cost st header ct st' r :
  try_skipped_keys st header ct = (st', r) ->
  recv_count st' = recv_count st /\ dh_remote_public st' = dh_remote_public st /\
  (length (skipped_keys st') <= length (skipped_keys st))%nat.
Proof.
  unfold try_skipped_keys. destruct (list_find _ _) as [[idx sk]|] eqn:E; intros [= <- _]; [|done].
  cbn. split_and!; try done.
  apply list_find_Some in E as (Hi & _). rewrite length_delete by eauto. lia.
Qed.

Lemma decrypt_cost st header ct rnd :
  0 <= recv_count st ->
  (length (skipped_keys (decrypt st header ct rnd).1) <= length (skipped_keys st) + 200)%nat.
Proof.
  intros Hr. unfold decrypt. destruct (try_skipped_keys st header ct) as [st1 r] eqn:E.
  apply try_skipped_keys_cost in E as (E1 & _ & Hl). rewrite <-E1 in Hr.
  destruct r as [[p|]|e]; cbn [fst]; [lia| |lia].
  case_decide.
  - pose proof (skip_messages_cost st1 (rh_previous_chain_length header) Hr) as Hc.
    destruct (skip_messages _ _) as [st2 [?|?]]; cbn [fst snd] in *; [|lia].
    pose proof (decrypt_in_chain_cost (dh_ratchet st2 (rh_dh_public header) rnd) header ct) as Hd.
    assert (skipped_keys (dh_ratchet st2 (rh_dh_public header) rnd) = skipped_keys st2) as Es.
    { unfold dh_ratchet. by destruct (kdf_rk _ _), (generate_x25519_keypair _), (kdf_rk _ _). }
    assert (recv_count (dh_ratchet st2 (rh_dh_public header) rnd) = 0) as Er.
    { unfold dh_ratchet. by destruct (kdf_rk _ _), (generate_x25519_keypair _), (kdf_rk _ _). }
    rewrite Es in Hd. specialize (Hd ltac:(lia)). lia.
  - pose proof (decrypt_in_chain_cost st1 header ct Hr). lia.
Qed.

(** More rounds than the distance to [until] change nothing. *)
Lemma skip_loop_stable fuel until ck st :
  0 <= recv_count st -> until < 2 ^ 32 -> until - recv_count st <= Z.of_nat fuel ->
  skip_loop fuel until ck st = skip_loop (Z.to_nat (until - recv_count st)) until ck st.
Proof.
  revert ck st. induction fuel as [|fuel IH]; intros ck st Hr Hu Hf.
  - by replace (Z.to_nat (until - recv_count st)) with 0%nat by lia.
  - cbn [skip_loop]. destruct (Z.ltb_spec (recv_count st) until) as [Hlt|Hge].
    + replace (Z.to_nat (until - recv_count st))
        with (S (Z.to_nat (until - (recv_count st + 1)))) by lia.
      cbn [skip_loop]. destruct (Z.ltb_spec (recv_count st) until); [|lia].
      destruct (kdf_ck ck) as [c m].
      rewrite add_u32_small by lia. rewrite IH by (cbn; lia). done.
    + by replace (Z.to_nat (until - recv_count st)) with 0%nat by lia.
Qed.
End cost.

(** ** Theorems *)

Section theorems.
Context `{RatchetPrims}.

(** C1: over a network that delays, reorders, interleaves and drops the
    envelopes of both directions of a session, through any number of DH
    ratchet steps, a delivered envelope decrypts to exactly the plaintext its
    sender encrypted; the only other outcome is [TooManySkipped], and only
    when it lies more than [MAX_SKIP] messages ahead. *)
Theorem ratchet_delivers `{!RatchetLaws} (n : net) :
  net_reachable n ->
  delivers (nb n) (to_b n) (used n) /\ delivers (na n) (to_a n) (used n).
Proof.
  intros (ckP & ckQ & ckO & [Hi|Hi])%net_reachable_inv; apply inv_delivers in Hi; tauto.
Qed.

(** C22: whatever header a peer sends, one call of [decrypt] stores at most
    [2 * MAX_SKIP] message keys, so a hostile counter costs bounded work and
    memory.  (They add up over calls: nothing ever evicts them.) *)
Theorem decrypt_bounded (st : RatchetState) (header : RatchetHeader) (ct rnd : bytes) :
  is_u32 (recv_count st) ->
  Z.of_nat (length (skipped_keys (decrypt st header ct rnd).1)) <=
    Z.of_nat (length (skipped_keys st)) + 2 * MAX_SKIP.
Proof.
  intros [Hr _]. pose proof (decrypt_cost st header ct rnd Hr). unfold MAX_SKIP. lia.
Qed.

(** C23: the [while] loop of [skip_messages] ends after [until - recv_count]
    rounds: with any larger bound it returns the same chain key and state, and
    the counter it leaves is [until]. *)
Theorem skip_loop_terminates (fuel : nat) (until : Z) (ck : bytes) (st : RatchetState) :
  0 <= recv_count st <= until -> until < 2 ^ 32 -> until - recv_count st <= Z.of_nat fuel ->
  skip_loop fuel until ck st = skip_loop (Z.to_nat (until - recv_count st)) until ck st /\
  recv_count (skip_loop fuel until ck st).2 = until.
Proof.
  intros Hr Hu Hf. pose proof (skip_loop_stable fuel until ck st) as E.
  split; [apply E; lia|]. rewrite E by lia. clear E Hf fuel.
  remember (Z.to_nat (until - recv_count st)) as k eqn:Ek.
  revert ck st Hr Ek. induction k as [|k IH]; intros ck st Hr Ek; cbn [skip_loop]; [cbn; lia|].
  destruct (Z.ltb_spec (recv_count st) until); [|cbn; lia].
  destruct (kdf_ck ck). rewrite add_u32_small by lia. apply IH; cbn; lia.
Qed.
End theorems.

(** ** Witnesses *)

(** The session after the initiator sent two messages. *)
Definition sample_net : net :=
  let n0 := net_init [9; 9] [1; 2] [5] in
  let send n pt :=
    match encrypt (na n) pt with
    | Some (a, (h, c)) =>
        {| na := a; nb := nb n;
           to_b := to_b n ++ [{| fl_header := h; fl_ciphertext := c; fl_plaintext := pt |}];
           to_a := to_a n; used := used n |}
    | None => n
    end in
  send (send n0 [104; 105]) [121; 111].

Lemma ratchet_delivers_witness :
  exists f2, to_b sample_net !! 1%nat = Some f2 /\
    (decrypt (nb sample_net) (fl_header f2) (fl_ciphertext f2) [77]).2 = Ok [121; 111].
Proof.
  assert (net_reachable sample_net) as Hn.
  { exists [9; 9], [1; 2], [5]. split; [done|].
    eapply rtc_l; [left; eapply step_send with (pt := [104; 105]); [by vm_compute|reflexivity]|].
    eapply rtc_l; [left; eapply step_send with (pt := [121; 111]); [by vm_compute|reflexivity]|].
    apply rtc_refl. }
  destruct (ratchet_delivers sample_net Hn) as [Hd _].
  eexists. split; [reflexivity|].
  edestruct (Hd) with (rnd := [77]) as (st' & r & Ed & [Er|[_ Hw]]); cycle 2.
  - rewrite Ed. exact Er.
  - exfalso. apply Hw. vm_compute. intuition discriminate.
  - right. left.
  - vm_compute. intros Hin. repeat (apply elem_of_cons in Hin as [Hin|Hin]; [discriminate|]).
    by apply elem_of_nil in Hin.
Defined.

Definition sample_header : RatchetHeader :=
  {| rh_dh_public := [3]; rh_message_number := 40; rh_previous_chain_length := 0 |}.

Lemma decrypt_bounded_witness :
  length (skipped_keys (decrypt (nb sample_net) sample_header [1] [77]).1) = 40%nat /\
  Z.of_nat (length (skipped_keys (decrypt (nb sample_net) sample_header [1] [77]).1)) <=
    Z.of_nat (length (skipped_keys (nb sample_net))) + 2 * MAX_SKIP.
Proof.
  split; [by vm_compute|]. apply decrypt_bounded. vm_compute. split; [discriminate|reflexivity].
Defined.

Lemma skip_loop_terminates_witness :
  recv_count (skip_loop 10 7 [1] (nb sample_net)).2 = 7.
Proof. apply (skip_loop_terminates 10 7 [1] (nb sample_net)); vm_compute; intuition discriminate. Defined.
