(* ===== verification/SigningTheorems.v ===== *)
(** * What the signatures promise

    Every kind of signed object of the protocol as one type, its canonical
    bytes, and the theorems: what is signed verifies, no two different objects
    share canonical bytes, and what exactly a delegation chain check accepts. *)

From S2P Require Import Prelude Types Ratchet Signing Concrete.

Local Open Scope Z_scope.

(** ** Serialisation is injective *)

(** Compares the printed objects of a hypothesis field by field. *)
Ltac json_inj := cbv [json_obj fold_left obj_insert] in *; cbn in *; simplify_eq.

#[export] Instance json_opt_str_inj : Inj (=) (=) json_opt_str.
Proof. intros [] [] E; cbn in E; by simplify_eq. Qed.
#[export] Instance JStr_inj : Inj (=) (=) JStr.
Proof. by intros ?? [= ->]. Qed.
#[export] Instance json_media_inj : Inj (=) (=) json_media.
Proof. intros [] [] E. by json_inj. Qed.
#[export] Instance json_device_inj : Inj (=) (=) json_device.
Proof. intros [] [] E. by json_inj. Qed.
#[export] Instance json_visibility_inj : Inj (=) (=) json_visibility.
Proof. intros [] [] E; cbn in E; by simplify_eq. Qed.
#[export] Instance json_kind_inj : Inj (=) (=) json_kind.
Proof. by intros [] []. Qed.
#[export] Instance json_role_inj : Inj (=) (=) json_role.
Proof. intros [] [] E; cbn in E; by simplify_eq. Qed.

#[local] Arguments json_opt_str : simpl never.
#[local] Arguments json_media : simpl never.
#[local] Arguments json_device : simpl never.
#[local] Arguments json_visibility : simpl never.
#[local] Arguments json_kind : simpl never.
#[local] Arguments json_role : simpl never.

(** Strips the injective printers from the equations of the context. *)
Ltac strip_inj :=
  repeat match goal with
  | H : json_media <$> _ = json_media <$> _ |- _ => apply (inj (fmap json_media)) in H
  | H : json_device <$> _ = json_device <$> _ |- _ => apply (inj (fmap json_device)) in H
  | H : JStr <$> _ = JStr <$> _ |- _ => apply (inj (fmap JStr)) in H
  | H : json_opt_str _ = json_opt_str _ |- _ => apply (inj json_opt_str) in H
  | H : json_visibility _ = json_visibility _ |- _ => apply (inj json_visibility) in H
  | H : json_kind _ = json_kind _ |- _ => apply (inj json_kind) in H
  | H : json_role _ = json_role _ |- _ => apply (inj json_role) in H
  | H : (match ?r with Host => _ | CoHost => _ | Speaker => _ | Listener => _ end) =
        (match ?r' with Host => _ | CoHost => _ | Speaker => _ | Listener => _ end) |- _ =>
      destruct r, r'; try discriminate H; clear H
  | H : visibility_to_string ?v = visibility_to_string ?v' |- _ =>
      destruct v, v'; try discriminate H; clear H
  | _ => progress simplify_eq
  end.

#[export] Instance json_stage_control_inj : Inj (=) (=) json_stage_control.
Proof. intros [] [] E; cbn in E; try discriminate E; injection E as E; intros; by strip_inj. Qed.

(** ** The signed objects *)

Section signable.
Context `{JsonCodec}.

(** What any key of the system ever signs. *)
Inductive Signable : Type :=
| SgPost (p : Post)
| SgInteraction (i : Interaction)
| SgProfile (p : Profile)
| SgDeletePost (id author : string)
| SgDeleteInteraction (id author : string)
| SgLinkedDevices (a : LinkedDevicesAnnouncement)
| SgDelegation (d : SigningKeyDelegation)
| SgRotation (r : SigningKeyRotation)
| SgRegistration (p : RegistrationPayload)
| SgFollowRequest (r : FollowRequest)
| SgStageControl (c : SignedStageControl)
| SgDeviceChallenge (challenge : bytes).

Definition signable_bytes (s : Signable) : bytes :=
  match s with
  | SgPost p => post_signing_bytes p
  | SgInteraction i => interaction_signing_bytes i
  | SgProfile p => profile_signing_bytes p
  | SgDeletePost id author => delete_post_signing_bytes id author
  | SgDeleteInteraction id author => delete_interaction_signing_bytes id author
  | SgLinkedDevices a => linked_devices_signing_bytes a
  | SgDelegation d =>
      delegation_signing_bytes (dl_master_pubkey d) (dl_signing_pubkey d) (dl_key_index d)
        (dl_dm_pubkey d) (dl_dm_key_index d) (dl_issued_at d)
  | SgRotation r =>
      rotation_signing_bytes (rt_master_pubkey r) (rt_old_signing_pubkey r)
        (rt_new_signing_pubkey r) (rt_new_key_index r) (rt_timestamp r)
  | SgRegistration p =>
      registration_signing_bytes (rp_master_pubkey p) (rp_transport_node_id p)
        (rp_server_url p) (rp_timestamp p) (rp_visibility p) (rp_action p)
  | SgFollowRequest r => follow_request_signing_bytes (fr_requester r) (fr_timestamp r)
  | SgStageControl c =>
      stage_control_signing_bytes (sc_sender_pubkey c) (sc_control c) (sc_timestamp c)
  | SgDeviceChallenge c => device_sync_challenge_signing_bytes c
  end.

Definition blank_delegation : SigningKeyDelegation :=
  {| dl_master_pubkey := ""; dl_signing_pubkey := ""; dl_key_index := 0; dl_dm_pubkey := "";
     dl_dm_key_index := 0; dl_issued_at := 0; dl_signature := "" |}.

(** The signed part: the signature field, and the delegation that an
    announcement, a rotation or a follow request carries, are not signed with
    it (the delegation has its own signature). *)
Definition signed_part (s : Signable) : Signable :=
  match s with
  | SgPost p => SgPost (set_post_signature "" p)
  | SgInteraction i => SgInteraction (set_in_signature "" i)
  | SgProfile p => SgProfile (set_pr_signature "" p)
  | SgLinkedDevices a =>
      SgLinkedDevices {| an_master_pubkey := an_master_pubkey a;
        an_delegation := blank_delegation; an_devices := an_devices a;
        an_version := an_version a; an_timestamp := an_timestamp a; an_signature := "" |}
  | SgDelegation d =>
      SgDelegation {| dl_master_pubkey := dl_master_pubkey d;
        dl_signing_pubkey := dl_signing_pubkey d; dl_key_index := dl_key_index d;
        dl_dm_pubkey := dl_dm_pubkey d; dl_dm_key_index := dl_dm_key_index d;
        dl_issued_at := dl_issued_at d; dl_signature := "" |}
  | SgRotation r =>
      SgRotation {| rt_master_pubkey := rt_master_pubkey r;
        rt_old_signing_pubkey := rt_old_signing_pubkey r;
        rt_new_signing_pubkey := rt_new_signing_pubkey r;
        rt_new_key_index := rt_new_key_index r; rt_timestamp := rt_timestamp r;
        rt_signature := ""; rt_new_delegation := blank_delegation |}
  | SgFollowRequest r =>
      SgFollowRequest {| fr_requester := fr_requester r; fr_timestamp := fr_timestamp r;
        fr_signature := ""; fr_delegation := blank_delegation |}
  | SgStageControl c =>
      SgStageControl {| sc_sender_pubkey := sc_sender_pubkey c; sc_control := sc_control c;
        sc_timestamp := sc_timestamp c; sc_signature := "" |}
  | SgDeletePost _ _ | SgDeleteInteraction _ _ | SgRegistration _ | SgDeviceChallenge _ => s
  end.
End signable.

Section theorems.
Context `{Ed25519, !Ed25519Laws, HexCodec, !HexLaws, JsonCodec, !JsonLaws}.

Lemma hex_to_signature_to_hex sig : hex_to_signature (signature_to_hex sig) = Ok sig.
Proof.
  unfold hex_to_signature, signature_to_hex.
  rewrite hex_encode_length, sig_to_bytes_length, hex_decode_encode by apply sig_to_bytes_u8.
  cbn. by rewrite sig_to_bytes_length, sig_from_to_bytes.
Qed.

Lemma verify_or_sign k m err : verify_or (sk_public k) m (sk_sign k m) err = Ok tt.
Proof. unfold verify_or. by rewrite verify_sign. Qed.

(** The tail of every verification function, on a fresh signature. *)
Lemma verify_signed k m err :
  (sig ← hex_to_signature (signature_to_hex (sk_sign k m)); verify_or (sk_public k) m sig err) =
  Ok tt.
Proof. rewrite hex_to_signature_to_hex. apply verify_or_sign. Qed.

Lemma parse_pubkey_to_string what pk : parse_pubkey what (pk_to_string pk) = Ok pk.
Proof. unfold parse_pubkey. by rewrite pk_parse_to_string. Qed.

Lemma parse_pubkey_Ok what s pk : parse_pubkey what s = Ok pk <-> pk_parse s = Ok pk.
Proof. unfold parse_pubkey. destruct (pk_parse s); naive_solver. Qed.

Lemma verify_or_Ok pk m sig err u : verify_or pk m sig err = Ok u <-> pk_verify pk m sig = true.
Proof. unfold verify_or. rewrite bail_if_Ok. by destruct (pk_verify _ _ _). Qed.

(** [hex] is the printed signature of [s] under the printed key [key]. *)
Definition signed_by (key hex : string) (s : Signable) : Prop :=
  exists pk sig, pk_parse key = Ok pk /\ hex_to_signature hex = Ok sig /\
    pk_verify pk (signable_bytes s) sig = true.

(** The master key certified [d]'s signing key. *)
Definition certified (d : SigningKeyDelegation) : Prop :=
  signed_by (dl_master_pubkey d) (dl_signature d) (SgDelegation d) /\
  exists pk, pk_parse (dl_signing_pubkey d) = Ok pk.

Lemma verify_delegation_Ok d : verify_delegation d = Ok tt <-> certified d.
Proof.
  unfold verify_delegation, certified, signed_by. cbn [signable_bytes]. split.
  - intros Hv. inv_ok. rewrite parse_pubkey_Ok in *. rewrite verify_or_Ok in *. eauto 8.
  - intros [(pk & sig & Hpk & Hsig & Hv) (spk & Hspk)].
    rewrite Hsig. cbn. unfold parse_pubkey. rewrite Hpk, Hspk. cbn. by apply verify_or_Ok.
Qed.

Lemma verify_delegation_sign master signing i dm di t :
  verify_delegation (sign_delegation master signing i dm di t) = Ok tt.
Proof.
  unfold verify_delegation, sign_delegation. cbn.
  rewrite hex_to_signature_to_hex. cbn. rewrite !parse_pubkey_to_string. cbn.
  by rewrite verify_or_sign.
Qed.

Lemma json_not_challenge fs c : json_to_vec (JObj fs) <> device_sync_challenge_signing_bytes c.
Proof. intros E%(f_equal head). by rewrite json_to_vec_obj in E. Qed.

(** C6: no signature can be moved to another object: two objects of any kinds
    (posts, interactions, profiles, deletions, device announcements,
    delegations, rotations, registrations, follow requests, stage controls,
    device challenges) have the same canonical bytes exactly when they are of
    the same kind and agree on every signed field. *)
Theorem signing_bytes_inj (s1 s2 : Signable) :
  signable_bytes s1 = signable_bytes s2 <-> signed_part s1 = signed_part s2.
Proof.
  split.
  - destruct s1 as [[]|[]|[]| | |[]|[]|[]|[]|[]|[]|];
      destruct s2 as [[]|[]|[]| | |[]|[]|[]|[]|[]|[]|]; cbn [signable_bytes]; intros E;
      try (exfalso; eapply json_not_challenge; (exact E || exact (eq_sym E)));
      try (apply (inj json_to_vec) in E; json_inj; strip_inj; by simplify_eq/=).
    by apply app_inv_head in E as ->.
  - destruct s1 as [[]|[]|[]| | |[]|[]|[]|[]|[]|[]|];
      destruct s2 as [[]|[]|[]| | |[]|[]|[]|[]|[]|[]|]; cbn -[signable_bytes];
      intros E; try discriminate E; simplify_eq/=; reflexivity.
Qed.

Lemma verify_rotation_Ok (r : SigningKeyRotation) :
  verify_rotation r = Ok tt <->
  signed_by (rt_master_pubkey r) (rt_signature r) (SgRotation r) /\
  certified (rt_new_delegation r) /\
  dl_master_pubkey (rt_new_delegation r) = rt_master_pubkey r /\
  dl_signing_pubkey (rt_new_delegation r) = rt_new_signing_pubkey r /\
  dl_key_index (rt_new_delegation r) = rt_new_key_index r.
Proof.
  rewrite <-verify_delegation_Ok. unfold verify_rotation, signed_by. cbn [signable_bytes]. split.
  - intros Hv. inv_ok. rewrite parse_pubkey_Ok in *. rewrite verify_or_Ok in *.
    repeat match goal with H : bool_decide _ = false |- _ =>
      apply bool_decide_eq_false_1, dec_stable in H end. eauto 9.
  - intros ((pk & sig & Hpk & Hsig & Hv) & Hd & E1 & E2 & E3).
    rewrite Hsig. cbn. unfold parse_pubkey at 1. rewrite Hpk. cbn.
    rewrite (proj2 (verify_or_Ok _ _ _ _ tt) Hv). cbn. rewrite Hd. cbn.
    by rewrite !bool_decide_eq_false_2 by tauto.
Qed.

Lemma verify_announcement_Ok (a : LinkedDevicesAnnouncement) :
  verify_linked_devices_announcement a = Ok tt <->
  certified (an_delegation a) /\ dl_master_pubkey (an_delegation a) = an_master_pubkey a /\
  signed_by (dl_signing_pubkey (an_delegation a)) (an_signature a) (SgLinkedDevices a).
Proof.
  rewrite <-verify_delegation_Ok. unfold verify_linked_devices_announcement, signed_by.
  cbn [signable_bytes]. split.
  - intros Hv. inv_ok. rewrite parse_pubkey_Ok in *. rewrite verify_or_Ok in *.
    repeat match goal with H : bool_decide _ = false |- _ =>
      apply bool_decide_eq_false_1, dec_stable in H end. eauto 9.
  - intros (Hd & E1 & (pk & sig & Hpk & Hsig & Hv)). rewrite Hd. cbn.
    rewrite bool_decide_eq_false_2 by tauto. cbn. unfold parse_pubkey. rewrite Hpk, Hsig.
    cbn. by apply verify_or_Ok.
Qed.

(** what each signing function produces, the matching verification
    function accepts, for every kind of object; a rotation and a device
    announcement verify through the delegation they carry. *)
Theorem sign_then_verify (k master : SecretKey) (old signing : PublicKey)
    (p : Post) (i : Interaction) (pr : Profile) (id author dm : string)
    (rp : RegistrationPayload) (a : LinkedDevicesAnnouncement) (c : StageControl)
    (challenge : bytes) (ix dmix ts ts' : Z) :
  let pk := sk_public k in
  let d := sign_delegation master pk ix dm dmix ts in
  verify_post_signature (sign_post p k) pk = Ok tt /\
  verify_interaction_signature (sign_interaction i k) pk = Ok tt /\
  verify_profile_signature (sign_profile pr k) pk = Ok tt /\
  verify_delete_post_signature id author (sign_delete_post id author k) pk = Ok tt /\
  verify_delete_interaction_signature id author (sign_delete_interaction id author k) pk = Ok tt /\
  verify_stage_control (sign_stage_control c author k ts) pk = Ok tt /\
  verify_device_sync_challenge challenge (sign_device_sync_challenge challenge k) pk = Ok tt /\
  verify_follow_request {| fr_requester := author; fr_timestamp := ts;
    fr_signature := sign_follow_request author ts k; fr_delegation := d |} pk = Ok tt /\
  verify_registration_signature {| rr_master_pubkey := rp_master_pubkey rp;
    rr_transport_node_id := rp_transport_node_id rp; rr_server_url := rp_server_url rp;
    rr_timestamp := rp_timestamp rp; rr_visibility := rp_visibility rp;
    rr_action := rp_action rp; rr_signature := sign_registration rp k;
    rr_delegation := d |} = Ok tt /\
  verify_delegation d = Ok tt /\
  verify_rotation (sign_rotation master old pk ix ts' d) = Ok tt /\
  (an_master_pubkey a = dl_master_pubkey d -> an_delegation a = d ->
   verify_linked_devices_announcement (sign_linked_devices_announcement a k) = Ok tt).
Proof.
  cbv zeta. split_and!.
  - exact (verify_signed k (post_signing_bytes p) _).
  - exact (verify_signed k (interaction_signing_bytes i) _).
  - exact (verify_signed k (profile_signing_bytes pr) _).
  - exact (verify_signed k (delete_post_signing_bytes id author) _).
  - exact (verify_signed k (delete_interaction_signing_bytes id author) _).
  - exact (verify_signed k (stage_control_signing_bytes author c ts) _).
  - exact (verify_signed k (device_sync_challenge_signing_bytes challenge) _).
  - exact (verify_signed k (follow_request_signing_bytes author ts) _).
  - unfold verify_registration_signature. cbn [rr_signature rr_delegation].
    unfold sign_registration. rewrite hex_to_signature_to_hex. unfold mbind, result_bind.
    cbn [sign_delegation dl_signing_pubkey]. rewrite parse_pubkey_to_string.
    apply verify_or_sign.
  - apply verify_delegation_sign.
  - unfold verify_rotation, sign_rotation. cbn [rt_signature rt_master_pubkey rt_new_delegation
      rt_old_signing_pubkey rt_new_signing_pubkey rt_new_key_index rt_timestamp].
    rewrite hex_to_signature_to_hex. unfold mbind, result_bind.
    rewrite parse_pubkey_to_string, verify_or_sign, verify_delegation_sign.
    by rewrite !bool_decide_eq_false_2 by tauto.
  - intros Hm Hd. destruct a as [am ad adev av ats asig]. cbn in Hm, Hd. subst ad.
    unfold verify_linked_devices_announcement. cbn [sign_linked_devices_announcement
      set_an_signature an_delegation an_master_pubkey an_signature].
    rewrite verify_delegation_sign. cbn. rewrite bool_decide_eq_false_2 by (rewrite Hm; cbn; tauto).
    cbn. rewrite parse_pubkey_to_string. cbn. rewrite hex_to_signature_to_hex. cbn.
    apply verify_or_sign.
Qed.

(** a key rotation is accepted exactly when the master key signed it, the
    same master key certified the new delegation, and the delegation's key and
    index are the rotation's: a delegation of another identity, another key or
    another index is refused. *)
Theorem verify_rotation_iff (r : SigningKeyRotation) :
  verify_rotation r = Ok tt <->
  signed_by (rt_master_pubkey r) (rt_signature r) (SgRotation r) /\
  certified (rt_new_delegation r) /\
  dl_master_pubkey (rt_new_delegation r) = rt_master_pubkey r /\
  dl_signing_pubkey (rt_new_delegation r) = rt_new_signing_pubkey r /\
  dl_key_index (rt_new_delegation r) = rt_new_key_index r.
Proof. apply verify_rotation_Ok. Qed.

(** a device announcement is accepted exactly when the announced master
    key certified a signing key and that key signed the device list, version
    and timestamp. *)
Theorem verify_announcement_iff (a : LinkedDevicesAnnouncement) :
  verify_linked_devices_announcement a = Ok tt <->
  certified (an_delegation a) /\ dl_master_pubkey (an_delegation a) = an_master_pubkey a /\
  signed_by (dl_signing_pubkey (an_delegation a)) (an_signature a) (SgLinkedDevices a).
Proof. apply verify_announcement_Ok. Qed.
End theorems.

(** ** Witnesses *)

Definition sample_post : Post :=
  {| post_id := "p1"; post_author := "kalice"; post_content := "hello"; post_timestamp := 10;
     post_media := []; post_reply_to := None; post_reply_to_author := None;
     post_quote_of := None; post_quote_of_author := None; post_signature := "" |}.
Definition sample_interaction : Interaction :=
  {| in_id := "i1"; in_author := "kalice"; in_kind := Like; in_target_post_id := "p1";
     in_target_author := "kbob"; in_timestamp := 11; in_signature := "" |}.
Definition sample_profile : Profile :=
  {| pr_display_name := "Alice"; pr_bio := ""; pr_avatar_hash := None;
     pr_avatar_ticket := None; pr_visibility := Public; pr_signature := "" |}.
Definition sample_delegation : SigningKeyDelegation :=
  sign_delegation "master" "device" 1 "dm" 1 100.
Definition sample_announcement : LinkedDevicesAnnouncement :=
  {| an_master_pubkey := "kmaster"; an_delegation := sample_delegation; an_devices := [];
     an_version := 3; an_timestamp := 200; an_signature := "" |}.
Definition sample_registration : RegistrationPayload :=
  {| rp_master_pubkey := "kmaster"; rp_transport_node_id := "n"; rp_server_url := "u";
     rp_timestamp := 5; rp_visibility := Listed; rp_action := None |}.

(** A one-character edit of a signed post changes its canonical bytes. *)
Lemma signing_bytes_inj_witness :
  signable_bytes (SgPost sample_post) <> signable_bytes (SgPost (set_post_signature "ab"
    {| post_id := "p1"; post_author := "kalice"; post_content := "hallo"; post_timestamp := 10;
       post_media := []; post_reply_to := None; post_reply_to_author := None;
       post_quote_of := None; post_quote_of_author := None; post_signature := "" |})).
Proof. intros E. apply signing_bytes_inj in E. discriminate E. Defined.

Lemma sign_then_verify_witness :
  verify_linked_devices_announcement
    (sign_linked_devices_announcement sample_announcement "device") = Ok tt.
Proof.
  pose proof (sign_then_verify "device" "master" "old" "device" sample_post sample_interaction
    sample_profile "p1" "kalice" "dm" sample_registration sample_announcement (End_ "s") [1; 2]
    1 1 100 200) as Hall.
  cbv zeta in Hall. apply Hall; reflexivity.
Defined.

(** The same announcement under a foreign master key is refused. *)
Example announcement_of_other_master :
  verify_linked_devices_announcement
    (sign_linked_devices_announcement
       {| an_master_pubkey := "kmallory"; an_delegation := sample_delegation; an_devices := [];
          an_version := 3; an_timestamp := 200; an_signature := "" |} "device") =
  Err "announcement master_pubkey does not match delegation"%string.
Proof. vm_compute. reflexivity. Qed.
