(* ===== verification/Validation.v ===== *)
(** * Validation of incoming content

    Model of [crates/proscenium-types/src/validation.rs].  The clock is the
    argument [now]; [short_id] slices bytes, so its panic is [None]. *)

From Stdlib Require Import Ascii.
From stdpp Require Import pretty.
From S2P Require Import Prelude Types Signing.

Local Open Scope Z_scope.

Definition MAX_POST_CONTENT_LEN : Z := 10000.
Definition MAX_MEDIA_COUNT : Z := 10.
Definition MAX_TIMESTAMP_DRIFT_MS : Z := 5 * 60 * 1000.
Definition MAX_BLOB_SIZE : Z := 50 * 1024 * 1024.
Definition MAX_DISPLAY_NAME_LEN : Z := 200.
Definition MAX_BIO_LEN : Z := 2000.

(** ** Operations *)

Definition byte_of (a : ascii) : Z := Z.of_N (N_of_ascii a).

(** [str::is_char_boundary]: the ends, and any byte that does not continue a
    UTF-8 sequence. *)
Definition is_char_boundary (l : list ascii) (i : nat) : bool :=
  if decide (i = 0%nat) then true
  else match l !! i with
       | Some a => negb ((128 <=? byte_of a) && (byte_of a <? 192))
       | None => bool_decide (i = length l)
       end.

(** [&s[..n]]; [None] is the panic. *)
Definition slice_to (s : string) (n : nat) : option string :=
  let l := String.list_ascii_of_string s in
  if is_char_boundary l n then Some (String.string_of_list_ascii (take n l)) else None.

Definition short_id (id : string) : option string :=
  slice_to id (Nat.min (String.length id) 8).

Definition validate_profile (profile : Profile) : result string unit :=
  _ ← bail_if (MAX_DISPLAY_NAME_LEN <? str_len (pr_display_name profile))
        ("display name too long: " +:+ pretty (str_len (pr_display_name profile)) +:+
         " bytes (max " +:+ pretty MAX_DISPLAY_NAME_LEN +:+ ")");
  bail_if (MAX_BIO_LEN <? str_len (pr_bio profile))
    ("bio too long: " +:+ pretty (str_len (pr_bio profile)) +:+
     " bytes (max " +:+ pretty MAX_BIO_LEN +:+ ")").

Definition validate_interaction (now : Z) (interaction : Interaction) : result string unit :=
  bail_if (add_u64 now MAX_TIMESTAMP_DRIFT_MS <? in_timestamp interaction)
    ("interaction timestamp " +:+ pretty (in_timestamp interaction) +:+
     " is too far in the future (now: " +:+ pretty now +:+ ")").

Definition validate_post (now : Z) (post : Post) : result string unit :=
  _ ← bail_if (MAX_POST_CONTENT_LEN <? str_len (post_content post))
        ("post content too long: " +:+ pretty (str_len (post_content post)) +:+
         " bytes (max " +:+ pretty MAX_POST_CONTENT_LEN +:+ ")");
  _ ← bail_if (MAX_MEDIA_COUNT <? Z.of_nat (length (post_media post)))
        ("too many media attachments: " +:+ pretty (Z.of_nat (length (post_media post))) +:+
         " (max " +:+ pretty MAX_MEDIA_COUNT +:+ ")");
  bail_if (add_u64 now MAX_TIMESTAMP_DRIFT_MS <? post_timestamp post)
    ("post timestamp " +:+ pretty (post_timestamp post) +:+
     " is too far in the future (now: " +:+ pretty now +:+ ")").

(** [u8::is_ascii_hexdigit]. *)
Definition is_hexdigit (a : ascii) : bool :=
  let n := byte_of a in
  ((48 <=? n) && (n <=? 57)) || ((65 <=? n) && (n <=? 70)) || ((97 <=? n) && (n <=? 102)).

(** [to_lowercase] on the ASCII text it is used on. *)
Definition ascii_lower (a : ascii) : ascii :=
  let n := N_of_ascii a in
  if ((65 <=? n) && (n <=? 90))%N then ascii_of_N (n + 32) else a.

Section mentions.
Context `{Ed25519}.

(** [while end < bytes.len() && bytes[end].is_ascii_hexdigit() { end += 1 }]. *)
Fixpoint hex_run (fuel : nat) (bytes : list ascii) (end_ : nat) : nat :=
  match fuel with
  | O => end_
  | S fuel =>
      match bytes !! end_ with
      | Some b => if is_hexdigit b then hex_run fuel bytes (S end_) else end_
      | None => end_
      end
  end.

(** The outer [while i < bytes.len()] loop. *)
Fixpoint mentions_loop (fuel : nat) (bytes : list ascii) (i : nat) (mentions : list string)
    : list string :=
  match fuel with
  | O => mentions
  | S fuel =>
      match bytes !! i with
      | None => mentions
      | Some b =>
          if decide (b = "@"%char) then
            let start := S i in
            let end_ := hex_run (length bytes) bytes start in
            let mentions' :=
              if (52 <=? end_ - start)%nat then
                let candidate :=
                  String.string_of_list_ascii (ascii_lower <$> take (end_ - start) (drop start bytes)) in
                if is_ok (pk_parse candidate) && bool_decide (candidate ∉ mentions)
                then mentions ++ [candidate] else mentions
              else mentions in
            mentions_loop fuel bytes end_ mentions'
          else mentions_loop fuel bytes (S i) mentions
      end
  end.

Definition parse_mentions (content : string) : list string :=
  let bytes := String.list_ascii_of_string content in
  mentions_loop (length bytes) bytes 0 [].
End mentions.

(** ** Specification

    [m] is mentioned in [l]: an [@], the longest run of hex digits after it, at
    least 52 of them, which in lower case is the public key [m]. *)

Section spec.
Context `{Ed25519}.

Definition ends_run (l : list ascii) : Prop := forall a, head l = Some a -> is_hexdigit a = false.

Definition mentioned (l : list ascii) (m : string) : Prop :=
  exists pre ds post,
    l = pre ++ "@"%char :: ds ++ post /\ Forall (fun a => is_hexdigit a = true) ds /\
    ends_run post /\ (52 <= length ds)%nat /\
    m = String.string_of_list_ascii (ascii_lower <$> ds) /\ is_ok (pk_parse m) = true.

Lemma hex_run_split fuel bytes i :
  (length bytes - i <= fuel)%nat -> (i <= length bytes)%nat ->
  exists ds post, drop i bytes = ds ++ post /\ hex_run fuel bytes i = (i + length ds)%nat /\
    Forall (fun a => is_hexdigit a = true) ds /\ ends_run post.
Proof.
  revert i. induction fuel as [|fuel IH]; intros i Hf Hi; cbn.
  - exists [], []. rewrite drop_ge by lia. split_and!; try done; cbn; lia.
  - destruct (bytes !! i) as [b|] eqn:Hb.
    + rewrite (drop_S _ _ _ Hb). destruct (is_hexdigit b) eqn:Hx.
      * apply lookup_lt_Some in Hb. destruct (IH (S i)) as (ds & post & E & -> & Hds & Hp); [lia..|].
        exists (b :: ds), post. rewrite E. split_and!; cbn; try done; try lia; by constructor.
      * exists [], (b :: drop (S i) bytes). split_and!; cbn; try done; try lia.
        by intros a [= <-].
    + apply lookup_ge_None in Hb. exists [], []. rewrite drop_ge by lia. split_and!; try done; cbn; lia.
Qed.

Lemma hexdigit_not_at : is_hexdigit "@"%char = false.
Proof. done. Qed.

(** A run of hex digits is followed by the end or by another character, so the
    split at the first [@] is unique. *)
Lemma mentioned_cons_at ds post m :
  Forall (fun a => is_hexdigit a = true) ds -> ends_run post ->
  mentioned ("@"%char :: ds ++ post) m <->
  ((52 <= length ds)%nat /\ m = String.string_of_list_ascii (ascii_lower <$> ds) /\
    is_ok (pk_parse m) = true) \/ mentioned post m.
Proof.
  intros Hds Hpost. split.
  - intros ([|c pre] & ds' & post' & E & Hds' & Hpost' & Hl & Hm & Hok); cbn in E.
    + left. injection E as E. assert (ds = ds') as ->; [|done].
      clear Hl Hm. revert ds' Hds' E. induction Hds as [|a ds Ha Hds IH]; intros [|a' ds'] Hds' E.
      * done.
      * cbn in E. subst. apply Forall_cons in Hds' as [Ha' _]. specialize (Hpost a' eq_refl). congruence.
      * cbn in E. subst. specialize (Hpost' a eq_refl). congruence.
      * cbn in E. injection E as -> E. apply Forall_cons in Hds' as [_ Hds']. f_equal. by apply IH.
    + right. injection E as <- E.
      assert (exists pre', pre = ds ++ pre' /\ post = pre' ++ "@"%char :: ds' ++ post')
        as (pre' & -> & ->).
      { clear -Hds E. revert pre E. induction Hds as [|a ds Ha Hds IH]; intros pre E.
        - exists pre. by split.
        - destruct pre as [|c pre]; cbn in E; injection E as E1 E; subst; [done|].
          destruct (IH pre E) as (pre' & -> & ->). by exists pre'. }
      exists pre', ds', post'. by split_and!.
  - intros [(Hl & -> & Hok)|(pre & ds' & post' & -> & ? & ? & ? & ? & ?)].
    + exists [], ds, post. by split_and!.
    + exists ("@"%char :: ds ++ pre), ds', post'. split_and!; try done.
      cbn. by rewrite <-app_assoc.
Qed.

Lemma mentioned_cons_other c l m :
  c <> "@"%char -> mentioned (c :: l) m <-> mentioned l m.
Proof.
  intros Hc. split.
  - intros ([|c' pre] & ds & post & E & Hrest); cbn in E; injection E as E1 E2; [done|].
    by exists pre, ds, post.
  - intros (pre & ds & post & -> & Hrest). by exists (c :: pre), ds, post.
Qed.

Lemma mentioned_nil m : ~ mentioned [] m.
Proof. by intros ([] & ? & ? & ? & _). Qed.

Lemma mentions_loop_spec fuel bytes i ms m :
  (length bytes - i <= fuel)%nat -> NoDup ms ->
  NoDup (mentions_loop fuel bytes i ms) /\
  (m ∈ mentions_loop fuel bytes i ms <-> m ∈ ms \/ mentioned (drop i bytes) m).
Proof.
  revert i ms. induction fuel as [|fuel IH]; intros i ms Hf Hnd; cbn.
  - rewrite drop_ge by lia. pose proof (mentioned_nil m). tauto.
  - destruct (bytes !! i) as [b|] eqn:Hb.
    + rewrite (drop_S _ _ _ Hb). apply lookup_lt_Some in Hb. case_decide as Hat.
      * subst b. destruct (hex_run_split (length bytes) bytes (S i)) as (ds & post & E & -> & Hds & Hp);
          [lia..|].
        rewrite E, mentioned_cons_at by done.
        replace (S i + length ds - S i)%nat with (length ds) by lia.
        rewrite take_app_length.
        assert (drop (S i + length ds) bytes = post) as Hpost.
        { rewrite <-drop_drop, E. by rewrite drop_app_length. }
        set (cand := String.string_of_list_ascii (ascii_lower <$> ds)).
        set (ms' := if (52 <=? length ds)%nat then
          (if is_ok (pk_parse cand) && bool_decide (cand ∉ ms) then ms ++ [cand] else ms) else ms).
        assert (NoDup ms' /\ (m ∈ ms' <-> m ∈ ms \/
          ((52 <= length ds)%nat /\ m = cand /\ is_ok (pk_parse m) = true))) as [Hnd' Hms'].
        { unfold ms'. destruct (Nat.leb_spec 52 (length ds)); [|split; [done|split; [by left|intros [?|[? _]]; [done|lia]]]].
          destruct (is_ok (pk_parse cand)) eqn:Eok; cbn; [|split; [done|]; split; [by left|intros [?|(_ & -> & ?)]; congruence]].
          case_bool_decide as Hin.
          - split; [apply NoDup_app; split_and!; [done| |apply NoDup_singleton]|].
            + intros x Hx ->%list_elem_of_singleton. done.
            + rewrite elem_of_app, list_elem_of_singleton. split; (intros [?|?]; [by left|right]).
              * subst m. done.
              * tauto.
          - split; [done|]. split; [by left|]. intros [?|(_ & -> & _)]; done. }
        destruct (IH (S i + length ds)%nat ms') as [IH1 IH2]; [lia|done|].
        split; [exact IH1|]. etransitivity; [exact IH2|]. rewrite Hpost, Hms'. tauto.
      * rewrite mentioned_cons_other by done. apply IH; [lia|done].
    + apply lookup_ge_None in Hb. rewrite drop_ge by lia. pose proof (mentioned_nil m). tauto.
Qed.

Lemma parse_mentions_spec content m :
  NoDup (parse_mentions content) /\
  (m ∈ parse_mentions content <-> mentioned (String.list_ascii_of_string content) m).
Proof.
  unfold parse_mentions.
  destruct (mentions_loop_spec (length (String.list_ascii_of_string content))
    (String.list_ascii_of_string content) 0 [] m) as [H1 H2]; [lia|constructor|].
  split; [done|]. rewrite H2, elem_of_nil, drop_0. tauto.
Qed.
End spec.

(** ** Theorems *)

(** [parse_mentions] returns each mentioned public key exactly once and
    nothing else: an [@] followed by a maximal run of at least 52 hex digits that
    parses, in lower case, as a key.  Both scanning loops end within the length
    of the content. *)
Theorem parse_mentions_correct `{Ed25519} (content : string) :
  NoDup (parse_mentions content) /\
  forall m, m ∈ parse_mentions content <-> mentioned (String.list_ascii_of_string content) m.
Proof.
  split; [apply (parse_mentions_spec content "")|]. intros m. apply parse_mentions_spec.
Qed.

(** a post passes validation exactly when it has at most 10 000 bytes, at
    most 10 attachments and a timestamp at most five minutes ahead of the clock
    (a clock for which the sum does not wrap). *)
Theorem validate_post_iff (now : Z) (post : Post) :
  0 <= now < 2 ^ 64 - MAX_TIMESTAMP_DRIFT_MS ->
  validate_post now post = Ok tt <->
  str_len (post_content post) <= 10000 /\ (length (post_media post) <= 10)%nat /\
  post_timestamp post <= now + 300000.
Proof.
  intros Hn. unfold validate_post, add_u64. rewrite Z.mod_small by (unfold MAX_TIMESTAMP_DRIFT_MS in *; lia).
  rewrite bind_Ok. setoid_rewrite bind_Ok. setoid_rewrite bail_if_Ok.
  unfold MAX_POST_CONTENT_LEN, MAX_MEDIA_COUNT, MAX_TIMESTAMP_DRIFT_MS in *. split.
  - intros (_ & ?%Z.ltb_ge & _ & ?%Z.ltb_ge & ?%Z.ltb_ge). lia.
  - intros (? & ? & ?). exists tt. split; [apply Z.ltb_ge; lia|].
    exists tt. split; apply Z.ltb_ge; lia.
Qed.

Definition valid_post : Post :=
  {| post_id := "p"; post_author := "a"; post_content := "hi"; post_timestamp := 301000;
     post_media := []; post_reply_to := None; post_reply_to_author := None;
     post_quote_of := None; post_quote_of_author := None; post_signature := "" |}.

Lemma validate_post_iff_witness : validate_post 1000 valid_post = Ok tt.
Proof. apply validate_post_iff; split_and!; vm_compute; try discriminate; try reflexivity; lia. Defined.

(** One millisecond further ahead is refused. *)
Example post_too_far_ahead : is_ok (validate_post 999 valid_post) = false.
Proof. reflexivity. Qed.
