(* ===== verification/Store.v ===== *)
(** * The local database

    The tables of [src-tauri/migrations/*.sql] as finite maps from their primary
    key, and the pieces of SQL the queries of [src-tauri/src/storage/] use.
    What SQLite leaves open (the order of rows with equal sort keys) and the
    JSON text of a column are interfaces: [SqlOrder] and [Serde].  An operation
    returns [Err] where the statement can fail on data (a constraint, a column
    that does not decode); disk errors are not modelled. *)

From S2P Require Import Prelude Types Ratchet.

Local Open Scope Z_scope.

(** The errors of [src-tauri/src/error.rs] the modelled code can produce. *)
Inductive AppError : Type :=
| Sqlx
| SerdeJson
| Snow
| Crypto (e : CryptoError)
| HexDecode
| Other (s : string).

#[export] Instance AppError_eq_dec : EqDecision AppError.
Proof. solve_decision. Defined.

(** ** Interfaces *)

(** [ORDER BY key ASC]: some sorted permutation of the rows.  A constant key
    stands for a query without [ORDER BY]. *)
Class SqlOrder := { order_by : forall {A}, (A -> Z) -> list A -> list A }.
Class SqlOrderLaws `{SqlOrder} := {
  order_by_perm {A} (key : A -> Z) (l : list A) : order_by key l ≡ₚ l;
  order_by_sorted {A} (key : A -> Z) (l : list A) :
    StronglySorted (fun x y => key x <= key y) (order_by key l);
}.

(** The iteration order of a [HashMap]. *)
Class HashOrder := { hash_iter {K A} `{Countable K} : gmap K A -> list (K * A) }.
Class HashOrderLaws `{HashOrder} := {
  hash_iter_perm {K A} `{Countable K} (m : gmap K A) : hash_iter m ≡ₚ map_to_list m;
}.
Definition hash_values `{HashOrder} {K A} `{Countable K} (m : gmap K A) : list A := (hash_iter m).*2.
Lemma hash_values_perm `{HashOrderLaws} {K A} `{Countable K} (m : gmap K A) : hash_values m ≡ₚ (map_to_list m).*2.
Proof. unfold hash_values. by rewrite hash_iter_perm. Qed.

(** [serde_json::to_string] and [from_str] at the type [A]. *)
Class Serde (A : Type) := {
  to_json : A -> string;
  from_json : string -> result AppError A;
}.
Class SerdeLaws (A : Type) `{Serde A} := {
  from_to_json (a : A) : from_json (to_json a) = Ok a;
}.

(** [SHA-256], in hex. *)
Class Sha := { sha256_hex : bytes -> string }.

(** ** Rows *)

Record ProfileRow : Type := {
  pf_display_name : string;
  pf_bio : string;
  pf_avatar_hash : option string;
  pf_avatar_ticket : option string;
  pf_visibility : string;
  pf_signature : string;
}.

Record PeerDelegationRow : Type := {
  pd_signing_pubkey : string;
  pd_dm_pubkey : string;
  pd_delegation_json : string;
  pd_transport_node_ids_json : string;
  pd_cached_at : Z;
}.

Record LinkedDeviceRow : Type := {
  ld_device_name : string;
  ld_is_primary : bool;
  ld_is_self : bool;
  ld_added_at : Z;
  ld_last_seen_at : Z;
}.

Record AnnouncementRow : Type := {
  ar_announcement_json : string;
  ar_version : Z;
  ar_cached_at : Z;
}.

Record SocialRow : Type := {
  sr_followed_at : option Z;
  sr_state : string;
  sr_last_changed_at : Z;
  sr_first_seen : option Z;
  sr_last_seen : option Z;
  sr_is_online : bool;
}.

Record FollowRequestRow : Type := {
  fq_timestamp : Z;
  fq_status : string;
  fq_created_at : Z;
  fq_expires_at : Z;
}.

Record ModRow : Type := {
  mr_created_at : Z;
  mr_state : string;
  mr_last_changed_at : Z;
}.

Record RemoteMetaRow : Type := {
  rm_follows_hidden : bool;
  rm_followers_hidden : bool;
  rm_follows_fetched_at : option Z;
  rm_followers_fetched_at : option Z;
}.

Record PostRow : Type := {
  pw_content : string;
  pw_timestamp : Z;
  pw_media_json : string;
  pw_reply_to : option string;
  pw_reply_to_author : option string;
  pw_quote_of : option string;
  pw_quote_of_author : option string;
  pw_signature : string;
}.

Record InteractionRow : Type := {
  iw_kind : string;
  iw_target_post_id : string;
  iw_target_author : string;
  iw_timestamp : Z;
  iw_signature : string;
}.

Record NotificationRow : Type := {
  nw_kind : string;
  nw_actor : string;
  nw_target_post_id : option string;
  nw_post_id : option string;
  nw_timestamp : Z;
  nw_read : bool;
}.

Record ConversationRow : Type := {
  cw_peer_pubkey : string;
  cw_last_message_at : Z;
  cw_last_message_preview : string;
  cw_unread_count : Z;
  cw_created_at : Z;
}.

Record MessageRow : Type := {
  mw_conversation_id : string;
  mw_from_pubkey : string;
  mw_to_pubkey : string;
  mw_content : string;
  mw_timestamp : Z;
  mw_media_json : string;
  mw_read : bool;
  mw_delivered : bool;
  mw_reply_to : option string;
}.

Record OutboxRow : Type := {
  ob_peer_pubkey : string;
  ob_envelope_json : string;
  ob_created_at : Z;
  ob_message_id : string;
}.

Record RatchetRow : Type := {
  rr_state_json : string;
  rr_updated_at : Z;
}.

(** ** The database

    Keys: [posts] and [interactions] by (author, id), [social_graph] by
    (follower, followee), [moderation] by (pubkey, kind). *)
Record Db : Type := {
  profiles : gmap string ProfileRow;
  peer_delegations : gmap string PeerDelegationRow;
  linked_devices : gmap string LinkedDeviceRow;
  peer_device_announcements : gmap string AnnouncementRow;
  social_graph : gmap (string * string) SocialRow;
  follow_requests : gmap string FollowRequestRow;
  moderation : gmap (string * string) ModRow;
  remote_social_meta : gmap string RemoteMetaRow;
  posts : gmap (string * string) PostRow;
  interactions : gmap (string * string) InteractionRow;
  notifications : gmap string NotificationRow;
  dm_conversations : gmap string ConversationRow;
  dm_messages : gmap string MessageRow;
  dm_outbox : gmap string OutboxRow;
  dm_ratchet_sessions : gmap string RatchetRow;
  bookmarks : gmap string Z;
}.

Definition empty_db : Db :=
  {| profiles := ∅; peer_delegations := ∅; linked_devices := ∅; peer_device_announcements := ∅;
     social_graph := ∅; follow_requests := ∅; moderation := ∅; remote_social_meta := ∅;
     posts := ∅; interactions := ∅; notifications := ∅; dm_conversations := ∅;
     dm_messages := ∅; dm_outbox := ∅; dm_ratchet_sessions := ∅; bookmarks := ∅ |}.

(** Replacing one table. *)
Definition set_profiles (t : gmap string ProfileRow) (d : Db) : Db :=
  {| profiles := t; peer_delegations := peer_delegations d; linked_devices := linked_devices d;
     peer_device_announcements := peer_device_announcements d; social_graph := social_graph d;
     follow_requests := follow_requests d; moderation := moderation d;
     remote_social_meta := remote_social_meta d; posts := posts d;
     interactions := interactions d; notifications := notifications d;
     dm_conversations := dm_conversations d; dm_messages := dm_messages d;
     dm_outbox := dm_outbox d; dm_ratchet_sessions := dm_ratchet_sessions d;
     bookmarks := bookmarks d |}.
Definition set_peer_delegations (t : gmap string PeerDelegationRow) (d : Db) : Db :=
  {| profiles := profiles d; peer_delegations := t; linked_devices := linked_devices d;
     peer_device_announcements := peer_device_announcements d; social_graph := social_graph d;
     follow_requests := follow_requests d; moderation := moderation d;
     remote_social_meta := remote_social_meta d; posts := posts d;
     interactions := interactions d; notifications := notifications d;
     dm_conversations := dm_conversations d; dm_messages := dm_messages d;
     dm_outbox := dm_outbox d; dm_ratchet_sessions := dm_ratchet_sessions d;
     bookmarks := bookmarks d |}.
Definition set_linked_devices (t : gmap string LinkedDeviceRow) (d : Db) : Db :=
  {| profiles := profiles d; peer_delegations := peer_delegations d; linked_devices := t;
     peer_device_announcements := peer_device_announcements d; social_graph := social_graph d;
     follow_requests := follow_requests d; moderation := moderation d;
     remote_social_meta := remote_social_meta d; posts := posts d;
     interactions := interactions d; notifications := notifications d;
     dm_conversations := dm_conversations d; dm_messages := dm_messages d;
     dm_outbox := dm_outbox d; dm_ratchet_sessions := dm_ratchet_sessions d;
     bookmarks := bookmarks d |}.
Definition set_peer_device_announcements (t : gmap string AnnouncementRow) (d : Db) : Db :=
  {| profiles := profiles d; peer_delegations := peer_delegations d;
     linked_devices := linked_devices d; peer_device_announcements := t;
     social_graph := social_graph d; follow_requests := follow_requests d;
     moderation := moderation d; remote_social_meta := remote_social_meta d; posts := posts d;
     interactions := interactions d; notifications := notifications d;
     dm_conversations := dm_conversations d; dm_messages := dm_messages d;
     dm_outbox := dm_outbox d; dm_ratchet_sessions := dm_ratchet_sessions d;
     bookmarks := bookmarks d |}.
Definition set_social_graph (t : gmap (string * string) SocialRow) (d : Db) : Db :=
  {| profiles := profiles d; peer_delegations := peer_delegations d;
     linked_devices := linked_devices d;
     peer_device_announcements := peer_device_announcements d; social_graph := t;
     follow_requests := follow_requests d; moderation := moderation d;
     remote_social_meta := remote_social_meta d; posts := posts d;
     interactions := interactions d; notifications := notifications d;
     dm_conversations := dm_conversations d; dm_messages := dm_messages d;
     dm_outbox := dm_outbox d; dm_ratchet_sessions := dm_ratchet_sessions d;
     bookmarks := bookmarks d |}.
Definition set_follow_requests (t : gmap string FollowRequestRow) (d : Db) : Db :=
  {| profiles := profiles d; peer_delegations := peer_delegations d;
     linked_devices := linked_devices d;
     peer_device_announcements := peer_device_announcements d; social_graph := social_graph d;
     follow_requests := t; moderation := moderation d;
     remote_social_meta := remote_social_meta d; posts := posts d;
     interactions := interactions d; notifications := notifications d;
     dm_conversations := dm_conversations d; dm_messages := dm_messages d;
     dm_outbox := dm_outbox d; dm_ratchet_sessions := dm_ratchet_sessions d;
     bookmarks := bookmarks d |}.
Definition set_moderation (t : gmap (string * string) ModRow) (d : Db) : Db :=
  {| profiles := profiles d; peer_delegations := peer_delegations d;
     linked_devices := linked_devices d;
     peer_device_announcements := peer_device_announcements d; social_graph := social_graph d;
     follow_requests := follow_requests d; moderation := t;
     remote_social_meta := remote_social_meta d; posts := posts d;
     interactions := interactions d; notifications := notifications d;
     dm_conversations := dm_conversations d; dm_messages := dm_messages d;
     dm_outbox := dm_outbox d; dm_ratchet_sessions := dm_ratchet_sessions d;
     bookmarks := bookmarks d |}.
Definition set_remote_social_meta (t : gmap string RemoteMetaRow) (d : Db) : Db :=
  {| profiles := profiles d; peer_delegations := peer_delegations d;
     linked_devices := linked_devices d;
     peer_device_announcements := peer_device_announcements d; social_graph := social_graph d;
     follow_requests := follow_requests d; moderation := moderation d; remote_social_meta := t;
     posts := posts d; interactions := interactions d; notifications := notifications d;
     dm_conversations := dm_conversations d; dm_messages := dm_messages d;
     dm_outbox := dm_outbox d; dm_ratchet_sessions := dm_ratchet_sessions d;
     bookmarks := bookmarks d |}.
Definition set_posts (t : gmap (string * string) PostRow) (d : Db) : Db :=
  {| profiles := profiles d; peer_delegations := peer_delegations d;
     linked_devices := linked_devices d;
     peer_device_announcements := peer_device_announcements d; social_graph := social_graph d;
     follow_requests := follow_requests d; moderation := moderation d;
     remote_social_meta := remote_social_meta d; posts := t; interactions := interactions d;
     notifications := notifications d; dm_conversations := dm_conversations d;
     dm_messages := dm_messages d; dm_outbox := dm_outbox d;
     dm_ratchet_sessions := dm_ratchet_sessions d; bookmarks := bookmarks d |}.
Definition set_interactions (t : gmap (string * string) InteractionRow) (d : Db) : Db :=
  {| profiles := profiles d; peer_delegations := peer_delegations d;
     linked_devices := linked_devices d;
     peer_device_announcements := peer_device_announcements d; social_graph := social_graph d;
     follow_requests := follow_requests d; moderation := moderation d;
     remote_social_meta := remote_social_meta d; posts := posts d; interactions := t;
     notifications := notifications d; dm_conversations := dm_conversations d;
     dm_messages := dm_messages d; dm_outbox := dm_outbox d;
     dm_ratchet_sessions := dm_ratchet_sessions d; bookmarks := bookmarks d |}.
Definition set_notifications (t : gmap string NotificationRow) (d : Db) : Db :=
  {| profiles := profiles d; peer_delegations := peer_delegations d;
     linked_devices := linked_devices d;
     peer_device_announcements := peer_device_announcements d; social_graph := social_graph d;
     follow_requests := follow_requests d; moderation := moderation d;
     remote_social_meta := remote_social_meta d; posts := posts d;
     interactions := interactions d; notifications := t;
     dm_conversations := dm_conversations d; dm_messages := dm_messages d;
     dm_outbox := dm_outbox d; dm_ratchet_sessions := dm_ratchet_sessions d;
     bookmarks := bookmarks d |}.
Definition set_dm_conversations (t : gmap string ConversationRow) (d : Db) : Db :=
  {| profiles := profiles d; peer_delegations := peer_delegations d;
     linked_devices := linked_devices d;
     peer_device_announcements := peer_device_announcements d; social_graph := social_graph d;
     follow_requests := follow_requests d; moderation := moderation d;
     remote_social_meta := remote_social_meta d; posts := posts d;
     interactions := interactions d; notifications := notifications d; dm_conversations := t;
     dm_messages := dm_messages d; dm_outbox := dm_outbox d;
     dm_ratchet_sessions := dm_ratchet_sessions d; bookmarks := bookmarks d |}.
Definition set_dm_messages (t : gmap string MessageRow) (d : Db) : Db :=
  {| profiles := profiles d; peer_delegations := peer_delegations d;
     linked_devices := linked_devices d;
     peer_device_announcements := peer_device_announcements d; social_graph := social_graph d;
     follow_requests := follow_requests d; moderation := moderation d;
     remote_social_meta := remote_social_meta d; posts := posts d;
     interactions := interactions d; notifications := notifications d;
     dm_conversations := dm_conversations d; dm_messages := t; dm_outbox := dm_outbox d;
     dm_ratchet_sessions := dm_ratchet_sessions d; bookmarks := bookmarks d |}.
Definition set_dm_outbox (t : gmap string OutboxRow) (d : Db) : Db :=
  {| profiles := profiles d; peer_delegations := peer_delegations d;
     linked_devices := linked_devices d;
     peer_device_announcements := peer_device_announcements d; social_graph := social_graph d;
     follow_requests := follow_requests d; moderation := moderation d;
     remote_social_meta := remote_social_meta d; posts := posts d;
     interactions := interactions d; notifications := notifications d;
     dm_conversations := dm_conversations d; dm_messages := dm_messages d; dm_outbox := t;
     dm_ratchet_sessions := dm_ratchet_sessions d; bookmarks := bookmarks d |}.
Definition set_dm_ratchet_sessions (t : gmap string RatchetRow) (d : Db) : Db :=
  {| profiles := profiles d; peer_delegations := peer_delegations d;
     linked_devices := linked_devices d;
     peer_device_announcements := peer_device_announcements d; social_graph := social_graph d;
     follow_requests := follow_requests d; moderation := moderation d;
     remote_social_meta := remote_social_meta d; posts := posts d;
     interactions := interactions d; notifications := notifications d;
     dm_conversations := dm_conversations d; dm_messages := dm_messages d;
     dm_outbox := dm_outbox d; dm_ratchet_sessions := t; bookmarks := bookmarks d |}.
Definition set_bookmarks (t : gmap string Z) (d : Db) : Db :=
  {| profiles := profiles d; peer_delegations := peer_delegations d;
     linked_devices := linked_devices d;
     peer_device_announcements := peer_device_announcements d; social_graph := social_graph d;
     follow_requests := follow_requests d; moderation := moderation d;
     remote_social_meta := remote_social_meta d; posts := posts d;
     interactions := interactions d; notifications := notifications d;
     dm_conversations := dm_conversations d; dm_messages := dm_messages d;
     dm_outbox := dm_outbox d; dm_ratchet_sessions := dm_ratchet_sessions d; bookmarks := t |}.

(** ** SQL *)

(** [SELECT COUNT ( * ) FROM t WHERE P]. *)
Definition sql_count {K R} `{Countable K} (P : K * R -> bool) (t : gmap K R) : Z :=
  Z.of_nat (length (filter P (map_to_list t))).

(** [DELETE FROM t WHERE P] and the number of rows it affects. *)
Definition sql_delete {K R} `{Countable K} (P : K * R -> bool) (t : gmap K R) : gmap K R :=
  filter (fun kr => ~ P kr) t.

(** [INSERT OR IGNORE] into a table whose only constraint is its key. *)
Definition insert_or_ignore {K R} `{Countable K} (k : K) (r : R) (t : gmap K R) : gmap K R :=
  match t !! k with Some _ => t | None => <[k := r]> t end.

(** [INSERT ... ON CONFLICT(key) DO UPDATE SET ...]. *)
Definition upsert {K R} `{Countable K} (k : K) (new : R) (upd : R -> R) (t : gmap K R) : gmap K R :=
  <[k := match t !! k with Some r => upd r | None => new end]> t.

(** A loop of such inserts, [for a in l { INSERT ... }]. *)
Definition fold_upsert {A K R} `{Countable K} (key : A -> K) (new : A -> R) (upd : A -> R -> R)
    (l : list A) (t : gmap K R) : gmap K R :=
  fold_left (fun t a => upsert (key a) (new a) (upd a) t) l t.

(** [UPDATE t SET ... WHERE P]. *)
Definition sql_update {K R} `{Countable K} (P : K * R -> bool) (upd : R -> R) (t : gmap K R)
    : gmap K R :=
  map_imap (fun k r => Some (if P (k, r) then upd r else r)) t.

(** [LIMIT n] with [n] bound as [limit as i64]: a negative limit is none. *)
Definition sql_limit {A} (limit : Z) (l : list A) : list A :=
  let n := as_i64 limit in if n <? 0 then l else take (Z.to_nat n) l.
(** [OFFSET n]: a negative offset is zero. *)
Definition sql_offset {A} (offset : Z) (l : list A) : list A := drop (Z.to_nat (as_i64 offset)) l.

(** [s LIKE '%sub%']: ASCII case-insensitive. *)
Fixpoint str_contains (sub s : string) : bool :=
  String.prefix sub s ||
  match s with EmptyString => false | String _ r => str_contains sub r end.
Definition ascii_to_lower (a : Ascii.ascii) : Ascii.ascii :=
  let n := Ascii.N_of_ascii a in
  if ((65 <=? n) && (n <=? 90))%N then Ascii.ascii_of_N (n + 32) else a.
Fixpoint str_to_lower (s : string) : string :=
  match s with EmptyString => EmptyString | String a r => String (ascii_to_lower a) (str_to_lower r) end.
Definition sql_like (sub s : string) : bool := str_contains (str_to_lower sub) (str_to_lower s).

(** [SELECT MAX(key)] over a list of values; [NULL] on none. *)
Definition sql_max (l : list Z) : option Z :=
  match l with [] => None | x :: r => Some (fold_right Z.max x r) end.

Section select.
Context `{SqlOrder}.

(** [SELECT ... FROM t WHERE P ORDER BY key]. *)
Definition sql_select {K R} `{Countable K} (P : K * R -> bool) (key : K * R -> Z)
    (t : gmap K R) : list (K * R) :=
  order_by key (filter P (map_to_list t)).

Definition no_order {A} : A -> Z := fun _ => 0.
End select.

(** [for x in l { out.push(f(x)?) }]. *)
Fixpoint decode_all {A B} (f : A -> result AppError B) (l : list A) : result AppError (list B) :=
  match l with
  | [] => Ok []
  | x :: r => b ← f x; bs ← decode_all f r; Ok (b :: bs)
  end.

(** ** Facts about the SQL pieces *)

Section facts.
Context {K R : Type} `{Countable K}.
Implicit Types (t : gmap K R) (k : K) (r : R).

Lemma lookup_sql_delete P t k :
  sql_delete P t !! k = match t !! k with
                        | Some r => if P (k, r) then None else Some r
                        | None => None
                        end.
Proof.
  unfold sql_delete. rewrite map_lookup_filter. destruct (t !! k) as [r|]; cbn; [|done].
  destruct (P (k, r)) eqn:E; [rewrite option_guard_False|rewrite option_guard_True]; cbn; try done; cbn; tauto.
Qed.

Lemma sql_delete_Some P t k r :
  sql_delete P t !! k = Some r <-> t !! k = Some r /\ P (k, r) = false.
Proof.
  rewrite lookup_sql_delete. destruct (t !! k) as [r'|]; [|by split; [|intros []]].
  destruct (P (k, r')) eqn:E; split; try done.
  - intros [[= <-] ?]. congruence.
  - by intros [= <-].
  - by intros [[= <-] _].
Qed.

Lemma lookup_insert_or_ignore k r t k' :
  insert_or_ignore k r t !! k' =
    if decide (k = k') then match t !! k with Some r0 => Some r0 | None => Some r end
    else t !! k'.
Proof.
  unfold insert_or_ignore. destruct (t !! k) eqn:E; case_decide as Hk; subst; try done.
  - by rewrite lookup_insert_eq.
  - by rewrite lookup_insert_ne.
Qed.

Lemma insert_or_ignore_subseteq k r t : t ⊆ insert_or_ignore k r t.
Proof.
  unfold insert_or_ignore. destruct (t !! k) eqn:E; [done|]. by apply insert_subseteq.
Qed.
Lemma lookup_upsert k new upd t k' :
  upsert k new upd t !! k' =
    if decide (k = k') then Some match t !! k with Some r => upd r | None => new end
    else t !! k'.
Proof.
  unfold upsert. case_decide; subst; [by rewrite lookup_insert_eq|by rewrite lookup_insert_ne].
Qed.

Lemma lookup_sql_update P upd t k :
  sql_update P upd t !! k = (fun r => if P (k, r) then upd r else r) <$> t !! k.
Proof. unfold sql_update. rewrite map_lookup_imap. by destruct (t !! k). Qed.

Lemma elem_of_sql_select `{!SqlOrder, !SqlOrderLaws} P key t k r :
  (k, r) ∈ sql_select P key t <-> t !! k = Some r /\ P (k, r) = true.
Proof.
  unfold sql_select. rewrite order_by_perm, list_elem_of_filter, elem_of_map_to_list.
  destruct (P (k, r)); cbn; split; intros []; try done; by split.
Qed.

Lemma sql_select_NoDup `{!SqlOrder, !SqlOrderLaws} P key t :
  NoDup (fst <$> sql_select P key t).
Proof.
  unfold sql_select. rewrite order_by_perm. apply NoDup_fmap_filter, NoDup_fst_map_to_list.
Qed.

Lemma sql_count_select `{!SqlOrder, !SqlOrderLaws} P key t :
  sql_count P t = Z.of_nat (length (sql_select P key t)).
Proof. unfold sql_count, sql_select. by rewrite order_by_perm. Qed.

Lemma sql_max_Some (l : list Z) m :
  sql_max l = Some m -> m ∈ l /\ forall x, x ∈ l -> x <= m.
Proof.
  destruct l as [|x l]; cbn; [done|]. intros [= <-]. induction l as [|y l [IH1 IH2]]; cbn.
  - split; [left|]. intros z [->|Hz]%elem_of_cons; [done|by apply elem_of_nil in Hz].
  - split.
    + destruct (Z.max_spec y (fold_right Z.max x l)) as [[_ ->]|[_ ->]]; [|right; left].
      apply elem_of_cons in IH1 as [IH1|IH1]; [rewrite IH1; left|by right; right].
    + intros z [->|[->|Hz]%elem_of_cons]%elem_of_cons; [|lia|].
      * specialize (IH2 x ltac:(left)). lia.
      * specialize (IH2 z ltac:(by right)). lia.
Qed.

Lemma sql_max_None (l : list Z) : sql_max l = None <-> l = [].
Proof. by destruct l. Qed.

Lemma fold_upsert_inv {A} (key : A -> K) new upd (l : list A) t k (I : option R -> Prop) :
  I (t !! k) ->
  (forall a o, a ∈ l -> key a = k -> I o ->
     I (Some match o with Some r => upd a r | None => new a end)) ->
  I (fold_upsert key new upd l t !! k).
Proof.
  revert t. induction l as [|a l IH]; intros t H0 Hstep; [done|].
  cbn. apply IH; [|intros b o Hb; apply Hstep; by right].
  rewrite lookup_upsert. case_decide as Hk; [|done]. rewrite Hk.
  apply Hstep; [left|done|done].
Qed.

(** Once an element with the key was processed, [I] holds whatever was there. *)
Lemma fold_upsert_hit {A} (key : A -> K) new upd (l : list A) t k (I : option R -> Prop) :
  k ∈ key <$> l ->
  (forall a o, a ∈ l -> key a = k ->
     I (Some match o with Some r => upd a r | None => new a end)) ->
  I (fold_upsert key new upd l t !! k).
Proof.
  revert t. induction l as [|a l IH]; intros t Hin Hstep; [by apply elem_of_nil in Hin|].
  destruct (decide (k ∈ key <$> l)) as [Hl|Hl].
  - cbn. apply IH; [done|]. intros b o Hb. apply Hstep. by right.
  - apply elem_of_cons in Hin as [->|Hin]; [|done].
    change (I (fold_upsert key new upd l (upsert (key a) (new a) (upd a) t) !! key a)).
    apply fold_upsert_inv.
    + rewrite lookup_upsert, decide_True by done. apply Hstep; [left|done].
    + intros b o Hb Hk _. exfalso. apply Hl. rewrite <-Hk. by apply list_elem_of_fmap_2.
Qed.

Lemma fold_upsert_other {A} (key : A -> K) new upd (l : list A) t k :
  k ∉ key <$> l -> fold_upsert key new upd l t !! k = t !! k.
Proof.
  intros Hk. apply (fold_upsert_inv _ _ _ _ _ _ (fun o => o = t !! k)); [done|].
  intros a o Ha Hka _. exfalso. apply Hk. rewrite <-Hka. by apply list_elem_of_fmap_2.
Qed.
Lemma sql_count_pos (P : K * R -> bool) (t : gmap K R) :
  0 < sql_count P t <-> exists k r, t !! k = Some r /\ P (k, r) = true.
Proof.
  unfold sql_count. split.
  - intros Hl. destruct (filter _ _) as [|[k r] l] eqn:E; [cbn in Hl; lia|].
    assert ((k, r) ∈ (k, r) :: l) as Hin by left. rewrite <-E in Hin.
    apply list_elem_of_filter in Hin as [Hp%Is_true_true Hin%elem_of_map_to_list]. eauto.
  - intros (k & r & Hk & Hp).
    assert ((k, r) ∈ filter P (map_to_list t)) as Hin.
    { apply list_elem_of_filter. split; [by apply Is_true_true|by apply elem_of_map_to_list]. }
    destruct (filter _ _); [by apply elem_of_nil in Hin|]. cbn. lia.
Qed.

End facts.

Lemma decode_all_Ok {A B} (f : A -> result AppError B) l bs :
  decode_all f l = Ok bs <-> Forall2 (fun a b => f a = Ok b) l bs.
Proof.
  revert bs. induction l as [|a l IH]; intros bs; cbn.
  - split; [by intros [= <-]|by intros ->%Forall2_nil_inv_l].
  - rewrite bind_Ok. split.
    + intros (b & Hb & Hr). apply bind_Ok in Hr as (bs' & Hbs & [= <-]).
      constructor; [done|]. by apply IH.
    + intros (b & bs' & Hb & Hbs & ->)%Forall2_cons_inv_l. exists b. split; [done|].
      apply bind_Ok. exists bs'. split; [by apply IH|done].
Qed.

Create Rewrite HintDb sql.
#[export] Hint Rewrite @lookup_sql_delete @lookup_insert_or_ignore @lookup_upsert
  @lookup_sql_update using typeclasses eauto : sql.
