(* ===== verification/ConcreteStore.v ===== *)
(** * Concrete instances of the database's interfaces

    Executable instances of [SqlOrder], [Serde] and [Sha] with their laws, for
    the witnesses: a stable merge sort, a binary text of the [Countable] code
    instead of JSON, and the hex of the input itself instead of its hash. *)

From stdpp Require Import countable.
From S2P Require Import Prelude Types Ratchet Signing Concrete Store.

Local Open Scope Z_scope.

(** ** Order *)

Definition le_key {A} (key : A -> Z) (x y : A) : Prop := key x <= key y.
#[export] Instance le_key_dec {A} (key : A -> Z) x y : Decision (le_key key x y).
Proof. unfold le_key. apply _. Defined.

#[export] Instance concrete_order : SqlOrder := {
  order_by A key l := merge_sort (le_key key) l;
}.

#[export] Instance concrete_order_laws : SqlOrderLaws.
Proof.
  split; intros A key l; cbn.
  - apply merge_sort_Permutation.
  - apply StronglySorted_merge_sort.
    + intros x y z. unfold le_key. lia.
    + intros x y. unfold le_key. lia.
Qed.

(** ** Text columns *)

#[export] Instance MediaAttachment_countable : Countable MediaAttachment.
Proof.
  refine (inj_countable' (fun m => (ma_hash m, ma_ticket m, ma_mime_type m, ma_filename m, ma_size m))
    (fun '(a, b, c, d, e) => {| ma_hash := a; ma_ticket := b; ma_mime_type := c;
                                ma_filename := d; ma_size := e |}) _). by intros [].
Defined.
#[export] Instance DeviceEntry_countable : Countable DeviceEntry.
Proof.
  refine (inj_countable' (fun e => (de_node_id e, de_device_name e, de_is_primary e, de_added_at e))
    (fun '(a, b, c, d) => {| de_node_id := a; de_device_name := b; de_is_primary := c;
                             de_added_at := d |}) _). by intros [].
Defined.
#[export] Instance SigningKeyDelegation_countable : Countable SigningKeyDelegation.
Proof.
  refine (inj_countable' (fun d => (dl_master_pubkey d, dl_signing_pubkey d, dl_key_index d,
      dl_dm_pubkey d, dl_dm_key_index d, dl_issued_at d, dl_signature d))
    (fun '(a, b, c, d, e, f, g) => {| dl_master_pubkey := a; dl_signing_pubkey := b;
      dl_key_index := c; dl_dm_pubkey := d; dl_dm_key_index := e; dl_issued_at := f;
      dl_signature := g |}) _). by intros [].
Defined.
#[export] Instance LinkedDevicesAnnouncement_eq_dec : EqDecision LinkedDevicesAnnouncement.
Proof. solve_decision. Defined.
#[export] Instance LinkedDevicesAnnouncement_countable : Countable LinkedDevicesAnnouncement.
Proof.
  refine (inj_countable' (fun a => (an_master_pubkey a, an_delegation a, an_devices a,
      an_version a, an_timestamp a, an_signature a))
    (fun '(a, b, c, d, e, f) => {| an_master_pubkey := a; an_delegation := b; an_devices := c;
      an_version := d; an_timestamp := e; an_signature := f |}) _). by intros [].
Defined.

Fixpoint pos_text (p : positive) : string :=
  match p with
  | xH => ""
  | xO q => String (Ascii.ascii_of_N 48) (pos_text q)
  | xI q => String (Ascii.ascii_of_N 49) (pos_text q)
  end.
Fixpoint text_pos (s : string) : positive :=
  match s with
  | EmptyString => xH
  | String a r => if (Ascii.N_of_ascii a =? 48)%N then xO (text_pos r) else xI (text_pos r)
  end.
Lemma text_pos_text p : text_pos (pos_text p) = p.
Proof.
  induction p as [p IH|p IH|]; [|  |done].
  - change (xI (text_pos (pos_text p)) = xI p). by rewrite IH.
  - change (xO (text_pos (pos_text p)) = xO p). by rewrite IH.
Qed.

Definition serde_countable A `{Countable A} : Serde A := {|
  to_json a := pos_text (encode a);
  from_json s := ok_or (decode (text_pos s)) SerdeJson;
|}.

#[export] Instance serde_media : Serde (list MediaAttachment) := serde_countable _.
#[export] Instance serde_delegation : Serde SigningKeyDelegation := serde_countable _.
#[export] Instance serde_strings : Serde (list string) := serde_countable _.
#[export] Instance serde_announcement : Serde LinkedDevicesAnnouncement := serde_countable _.

Lemma serde_countable_laws A `{Countable A} : @SerdeLaws A (serde_countable A).
Proof. split. intros a. cbn. by rewrite text_pos_text, decode_encode. Qed.

#[export] Instance serde_media_laws : SerdeLaws (list MediaAttachment).
Proof. apply serde_countable_laws. Qed.
#[export] Instance serde_delegation_laws : SerdeLaws SigningKeyDelegation.
Proof. apply serde_countable_laws. Qed.
#[export] Instance serde_strings_laws : SerdeLaws (list string).
Proof. apply serde_countable_laws. Qed.
#[export] Instance serde_announcement_laws : SerdeLaws LinkedDevicesAnnouncement.
Proof. apply serde_countable_laws. Qed.

(** ** Hash *)

#[export] Instance concrete_sha : Sha := { sha256_hex b := concrete_hex_encode b }.

(** A [HashMap] that is iterated in the order of the list of the map. *)
#[export] Instance listed_order : HashOrder := {| hash_iter K A _ _ m := map_to_list m |}.
#[export] Instance listed_order_laws : HashOrderLaws.
Proof. by split. Qed.
