(* ===== verification/Social.v ===== *)
(** * The social graph

    Model of [src-tauri/src/storage/social.rs]: who follows whom, the followers
    seen, and the cache of other users' lists, all in one table. *)

From S2P Require Import Prelude Types Store.

Local Open Scope Z_scope.

Record CachedRemoteSocial : Type := {
  entries : list SocialGraphEntry;
  hidden : bool;
  fetched_at : option Z;
}.

(** [WHERE follower=?1 AND followee=?2 AND state='active']. *)
Definition active_edge (d : Db) (follower followee : string) : bool :=
  match social_graph d !! (follower, followee) with
  | Some r => bool_decide (sr_state r = "active"%string)
  | None => false
  end.

Definition set_sr_state (s : string) (changed : Z) (r : SocialRow) : SocialRow :=
  {| sr_followed_at := sr_followed_at r; sr_state := s; sr_last_changed_at := changed;
     sr_first_seen := sr_first_seen r; sr_last_seen := sr_last_seen r;
     sr_is_online := sr_is_online r |}.

(** [SET followed_at=f, state=s, last_changed_at=c]. *)
Definition set_sr_followed (f : Z) (s : string) (c : Z) (r : SocialRow) : SocialRow :=
  {| sr_followed_at := Some f; sr_state := s; sr_last_changed_at := c;
     sr_first_seen := sr_first_seen r; sr_last_seen := sr_last_seen r;
     sr_is_online := sr_is_online r |}.

(** The row of an [INSERT (follower, followee, followed_at, state,
    last_changed_at)]. *)
Definition followed_row (f : Z) (s : string) (c : Z) : SocialRow :=
  {| sr_followed_at := Some f; sr_state := s; sr_last_changed_at := c;
     sr_first_seen := None; sr_last_seen := None; sr_is_online := false |}.

(** The row of an [INSERT (follower, followee, first_seen, last_seen,
    is_online)]; the other columns take their defaults. *)
Definition seen_row (first last : Z) (online : bool) : SocialRow :=
  {| sr_followed_at := None; sr_state := "active"; sr_last_changed_at := 0;
     sr_first_seen := Some first; sr_last_seen := Some last; sr_is_online := online |}.

(** ** Operations *)

Definition get_visibility (d : Db) (pubkey : string) : Visibility :=
  default Public
    (s ← pf_visibility <$> profiles d !! pubkey; res_ok (visibility_from_str s)).

Definition follow (now : Z) (me : string) (entry : SocialGraphEntry) (d : Db) : Db :=
  set_social_graph
    (upsert (me, sg_pubkey entry)
       (followed_row (as_i64 (sg_followed_at entry)) "active" (as_i64 now))
       (set_sr_followed (as_i64 (sg_followed_at entry)) "active" (as_i64 now))
       (social_graph d)) d.

Definition unfollow (now : Z) (me pubkey : string) (d : Db) : Db :=
  set_social_graph
    (sql_update (fun kr => bool_decide (kr.1 = (me, pubkey)))
       (set_sr_state "removed" (as_i64 now)) (social_graph d)) d.

Definition is_following (d : Db) (me pubkey : string) : bool := active_edge d me pubkey.

Definition is_follower (d : Db) (me pubkey : string) : bool :=
  bool_decide (is_Some (social_graph d !! (pubkey, me))).

Definition is_mutual (d : Db) (me pubkey : string) : bool :=
  is_follower d me pubkey && is_following d me pubkey.

(** Returns whether the follower is new. *)
Definition upsert_follower (me pubkey : string) (now : Z) (d : Db) : Db * bool :=
  let existing := is_follower d me pubkey in
  (set_social_graph
     (upsert (pubkey, me) (seen_row (as_i64 now) (as_i64 now) true)
        (fun r => {| sr_followed_at := sr_followed_at r; sr_state := sr_state r;
                     sr_last_changed_at := sr_last_changed_at r;
                     sr_first_seen := sr_first_seen r; sr_last_seen := Some (as_i64 now);
                     sr_is_online := true |})
        (social_graph d)) d,
   negb existing).

Definition set_follower_offline (me pubkey : string) (d : Db) : Db :=
  set_social_graph
    (sql_update (fun kr => bool_decide (kr.1 = (pubkey, me)))
       (fun r => {| sr_followed_at := sr_followed_at r; sr_state := sr_state r;
                    sr_last_changed_at := sr_last_changed_at r;
                    sr_first_seen := sr_first_seen r; sr_last_seen := sr_last_seen r;
                    sr_is_online := false |})
       (social_graph d)) d.

(** [ORDER BY c DESC]: a [NULL] sorts below every integer. *)
Definition desc_null (c : option Z) : Z := match c with Some t => - t | None => 2 ^ 63 + 1 end.

(** Decoding a nullable column as [i64]. *)
Definition col_i64 (c : option Z) : result AppError Z := ok_or c Sqlx.

Section queries.
Context `{SqlOrder}.

Definition get_follows (d : Db) (me : string) : result AppError (list SocialGraphEntry) :=
  decode_all
    (fun kr =>
       followed_at ← col_i64 (sr_followed_at kr.2);
       Ok {| sg_pubkey := kr.1.2; sg_followed_at := as_u64 followed_at; sg_first_seen := 0;
             sg_last_seen := 0; sg_is_online := false |})
    (sql_select (fun kr => bool_decide (kr.1.1 = me) &&
                           bool_decide (sr_state kr.2 = "active"%string))
       (fun kr => desc_null (sr_followed_at kr.2)) (social_graph d)).

Definition get_followers (d : Db) (me : string) : result AppError (list SocialGraphEntry) :=
  decode_all
    (fun kr =>
       first_seen ← col_i64 (sr_first_seen kr.2);
       last_seen ← col_i64 (sr_last_seen kr.2);
       Ok {| sg_pubkey := kr.1.1; sg_followed_at := 0; sg_first_seen := as_u64 first_seen;
             sg_last_seen := as_u64 last_seen; sg_is_online := sr_is_online kr.2 |})
    (sql_select (fun kr => bool_decide (kr.1.2 = me) &&
                           bool_decide (is_Some (sr_first_seen kr.2)))
       (fun kr => desc_null (sr_last_seen kr.2)) (social_graph d)).

Definition get_cached_remote_follows (d : Db) (remote_pubkey : string)
    : result AppError (option CachedRemoteSocial) :=
  match remote_social_meta d !! remote_pubkey with
  | None => Ok None
  | Some m =>
      follows ← get_follows d remote_pubkey;
      Ok (Some {| entries := follows; hidden := rm_follows_hidden m;
                  fetched_at := as_u64 <$> rm_follows_fetched_at m |})
  end.

Definition get_cached_remote_followers (d : Db) (remote_pubkey : string)
    : result AppError (option CachedRemoteSocial) :=
  match remote_social_meta d !! remote_pubkey with
  | None => Ok None
  | Some m =>
      followers ← get_followers d remote_pubkey;
      Ok (Some {| entries := followers; hidden := rm_followers_hidden m;
                  fetched_at := as_u64 <$> rm_followers_fetched_at m |})
  end.
End queries.

Definition cache_remote_follows (now : Z) (remote_pubkey : string)
    (follows : list SocialGraphEntry) (hidden : bool) (d : Db) : Db :=
  let t0 := sql_delete (fun kr => bool_decide (kr.1.1 = remote_pubkey) &&
                                  bool_decide (is_Some (sr_followed_at kr.2))) (social_graph d) in
  let t1 := fold_upsert (fun f => (remote_pubkey, sg_pubkey f))
      (fun f => followed_row (as_i64 (sg_followed_at f)) "active" 0)
      (fun f r => set_sr_followed (as_i64 (sg_followed_at f)) "active" (sr_last_changed_at r) r)
      follows t0 in
  set_remote_social_meta
    (upsert remote_pubkey
       {| rm_follows_hidden := hidden; rm_followers_hidden := false;
          rm_follows_fetched_at := Some (as_i64 now); rm_followers_fetched_at := None |}
       (fun m => {| rm_follows_hidden := hidden; rm_followers_hidden := rm_followers_hidden m;
                    rm_follows_fetched_at := Some (as_i64 now);
                    rm_followers_fetched_at := rm_followers_fetched_at m |})
       (remote_social_meta d))
    (set_social_graph t1 d).

Definition cache_remote_followers (now : Z) (remote_pubkey : string)
    (followers : list SocialGraphEntry) (hidden : bool) (d : Db) : Db :=
  let t0 := sql_delete (fun kr => bool_decide (kr.1.2 = remote_pubkey) &&
                                  bool_decide (is_Some (sr_first_seen kr.2))) (social_graph d) in
  let t1 := fold_upsert (fun f => (sg_pubkey f, remote_pubkey))
      (fun f => seen_row (as_i64 (sg_first_seen f)) 0 false)
      (fun f r => {| sr_followed_at := sr_followed_at r; sr_state := sr_state r;
                     sr_last_changed_at := sr_last_changed_at r;
                     sr_first_seen := Some (as_i64 (sg_first_seen f));
                     sr_last_seen := sr_last_seen r; sr_is_online := sr_is_online r |})
      followers t0 in
  set_remote_social_meta
    (upsert remote_pubkey
       {| rm_follows_hidden := false; rm_followers_hidden := hidden;
          rm_follows_fetched_at := None; rm_followers_fetched_at := Some (as_i64 now) |}
       (fun m => {| rm_follows_hidden := rm_follows_hidden m; rm_followers_hidden := hidden;
                    rm_follows_fetched_at := rm_follows_fetched_at m;
                    rm_followers_fetched_at := Some (as_i64 now) |})
       (remote_social_meta d))
    (set_social_graph t1 d).
