(* ===== verification/Moderation.v ===== *)
(** * Mutes, blocks and bookmarks

    Model of [src-tauri/src/storage/moderation.rs]. *)

From S2P Require Import Prelude Types Store.

Local Open Scope Z_scope.

Definition is_bookmarked (d : Db) (post_id : string) : bool :=
  bool_decide (is_Some (bookmarks d !! post_id)).

(** Returns whether the post is bookmarked afterwards. *)
Definition toggle_bookmark (now : Z) (post_id : string) (d : Db) : Db * bool :=
  if is_bookmarked d post_id then
    (set_bookmarks (delete post_id (bookmarks d)) d, false)
  else (set_bookmarks (<[post_id := as_i64 now]> (bookmarks d)) d, true).

(** [INSERT ... 'active' ... ON CONFLICT DO UPDATE SET state='active']. *)
Definition moderate (kind : string) (now : Z) (pubkey : string) (d : Db) : Db :=
  set_moderation
    (upsert (pubkey, kind)
       {| mr_created_at := as_i64 now; mr_state := "active"; mr_last_changed_at := as_i64 now |}
       (fun r => {| mr_created_at := mr_created_at r; mr_state := "active";
                    mr_last_changed_at := as_i64 now |})
       (moderation d)) d.

(** [UPDATE moderation SET state='removed' ...]. *)
Definition unmoderate (kind : string) (now : Z) (pubkey : string) (d : Db) : Db :=
  set_moderation
    (sql_update (fun kr => bool_decide (kr.1 = (pubkey, kind)))
       (fun r => {| mr_created_at := mr_created_at r; mr_state := "removed";
                    mr_last_changed_at := as_i64 now |})
       (moderation d)) d.

Definition is_active (r : ModRow) : bool := bool_decide (mr_state r = "active"%string).

(** [COUNT ( * ) > 0 ... kind=k AND state='active']. *)
Definition moderated (kind : string) (d : Db) (pubkey : string) : bool :=
  match moderation d !! (pubkey, kind) with Some r => is_active r | None => false end.

Definition mute_user := moderate "mute".
Definition unmute_user := unmoderate "mute".
Definition is_muted := moderated "mute".
Definition block_user := moderate "block".
Definition unblock_user := unmoderate "block".
Definition is_blocked := moderated "block".

(** [SELECT pubkey FROM moderation WHERE state='active'] holds of [pubkey], for
    any kind. *)
Definition is_hidden (d : Db) (pubkey : string) : bool :=
  0 <? sql_count (fun kr => bool_decide (kr.1.1 = pubkey) && is_active kr.2) (moderation d).

Section queries.
Context `{SqlOrder}.

Definition moderated_pubkeys (kind : string) (d : Db) : list string :=
  (fun kr => kr.1.1) <$>
    sql_select (fun kr => bool_decide (kr.1.2 = kind) && is_active kr.2)
      (fun kr => - mr_created_at kr.2) (moderation d).

Definition get_muted_pubkeys := moderated_pubkeys "mute".
Definition get_blocked_pubkeys := moderated_pubkeys "block".
End queries.
