(* ===== verification/SocialTheorems.v ===== *)
(** * The social graph and the moderation lists: theorems

    Reading after writing, the invariant under which a user's follow list can be
    read at all, and how caching a remote list breaks it. *)

From S2P Require Import Prelude Types Store ConcreteStore Social Moderation.

Local Open Scope Z_scope.

(** ** Edges *)

Lemma active_edge_follow now me e d a b :
  active_edge (follow now me e d) a b =
    if decide ((me, sg_pubkey e) = (a, b)) then true else active_edge d a b.
Proof.
  unfold active_edge, follow. cbn [social_graph set_social_graph]. rewrite lookup_upsert.
  case_decide; [|done]. destruct (social_graph d !! _); by apply bool_decide_eq_true_2.
Qed.

Lemma active_edge_unfollow now me pk d a b :
  active_edge (unfollow now me pk d) a b =
    if decide ((me, pk) = (a, b)) then false else active_edge d a b.
Proof.
  unfold active_edge, unfollow. cbn [social_graph set_social_graph]. rewrite lookup_sql_update.
  destruct (social_graph d !! (a, b)) as [r|] eqn:E; cbn; case_decide; simplify_eq; try done.
  - rewrite (bool_decide_eq_true_2 (_ = (_, _))) by done. by apply bool_decide_eq_false_2.
  - by rewrite (bool_decide_eq_false_2 (_ = (_, _))) by congruence.
Qed.

(** Every active follow of [me] carries its [followed_at]. *)
Definition follows_ok (me : string) (d : Db) : Prop :=
  forall pk r, social_graph d !! (me, pk) = Some r -> sr_state r = "active"%string ->
    is_Some (sr_followed_at r).

Section follows.
Context `{SqlOrder, !SqlOrderLaws}.

Lemma get_follows_ok me d :
  follows_ok me d ->
  exists l, get_follows d me = Ok l /\ NoDup (sg_pubkey <$> l) /\
    (forall pk, pk ∈ sg_pubkey <$> l <-> is_following d me pk = true).
Proof.
  intros Hok. unfold get_follows.
  set (P := fun kr : string * string * SocialRow => _ && _).
  set (sel := sql_select P _ (social_graph d)).
  set (f := fun kr : string * string * SocialRow => _).
  assert (forall kr, kr ∈ sel -> kr.1.1 = me /\ social_graph d !! kr.1 = Some kr.2 /\
    sr_state kr.2 = "active"%string) as Hsel.
  { intros [[a b] r] [Hl HP]%elem_of_sql_select. unfold P in HP. cbn in *.
    by apply andb_prop in HP as [->%bool_decide_eq_true ?%bool_decide_eq_true]. }
  assert (exists l, Forall2 (fun kr e => f kr = Ok e /\ sg_pubkey e = kr.1.2) sel l) as [l Hl].
  { clearbody sel. induction sel as [|[[a b] r] sel IH]; [by eexists; constructor|].
    destruct IH as [l Hl]; [by intros; apply Hsel; right|].
    destruct (Hsel (a, b, r)) as (Ha & Hlk & Hst); [by left|]. cbn in *. subst a.
    destruct (Hok b r Hlk Hst) as [t Ht].
    eexists (_ :: l). constructor; [|done]. unfold f. cbn. rewrite Ht. cbn. by split. }
  exists l. split; [|split].
  - apply decode_all_Ok. eapply Forall2_impl; [exact Hl|]. by intros ?? [].
  - assert (sg_pubkey <$> l = (fun kr => kr.1.2) <$> sel) as ->.
    { clear -Hl. induction Hl as [|kr e ?? [_ He] _ IH]; cbn; congruence. }
    assert (NoDup (fst <$> sel)) as Hnd by apply sql_select_NoDup.
    clear -Hnd Hsel. induction sel as [|[[a b] r] sel IH]; cbn; [constructor|].
    apply NoDup_cons in Hnd as [Hx Hnd]. apply NoDup_cons. split.
    + intros ([[a' b'] r'] & Hb & Hin)%list_elem_of_fmap. cbn in Hb. subst b'.
      destruct (Hsel (a, b, r)) as [Ha _]; [by left|].
      destruct (Hsel (a', b, r')) as [Ha' _]; [by right|]. cbn in Ha, Ha'. subst a a'.
      apply Hx. by apply (list_elem_of_fmap_2 fst) in Hin.
    + apply IH; [|done]. intros; apply Hsel; by right.
  - intros pk. unfold is_following, active_edge. rewrite list_elem_of_fmap. split.
    + intros (e & -> & He). apply list_elem_of_lookup in He as [i Hi].
      destruct (Forall2_lookup_r _ _ _ _ _ Hl Hi) as (kr & Hkr & _ & ->).
      apply list_elem_of_lookup_2 in Hkr. destruct (Hsel kr Hkr) as (<- & Hlk & Hst).
      destruct kr as [[a b] r]. cbn in *. rewrite Hlk. by apply bool_decide_eq_true.
    + destruct (social_graph d !! (me, pk)) as [r|] eqn:E; [|done].
      intros Hst%bool_decide_eq_true.
      assert ((me, pk, r) ∈ sel) as Hin.
      { apply elem_of_sql_select. split; [done|]. unfold P. cbn. by rewrite !bool_decide_eq_true_2. }
      apply list_elem_of_lookup in Hin as [i Hi].
      destruct (Forall2_lookup_l _ _ _ _ _ Hl Hi) as (e & He & _ & Hpk).
      exists e. split; [done|]. by apply list_elem_of_lookup_2 in He.
Qed.
End follows.

Lemma follows_ok_upsert me k new upd d :
  follows_ok me d ->
  (k.1 = me -> is_Some (sr_followed_at new)) ->
  (forall r, social_graph d !! k = Some r -> k.1 = me -> sr_state (upd r) = "active"%string ->
     is_Some (sr_followed_at (upd r))) ->
  follows_ok me (set_social_graph (upsert k new upd (social_graph d)) d).
Proof.
  intros Hok Hnew Hupd pk r. cbn [social_graph set_social_graph]. rewrite lookup_upsert.
  case_decide as Hk; [|by apply Hok]. subst k. intros [= <-] Hst.
  destruct (social_graph d !! (me, pk)) as [r|] eqn:E; [by eapply Hupd|by apply Hnew].
Qed.

Lemma follows_ok_update me P upd d :
  follows_ok me d ->
  (forall r, sr_followed_at (upd r) = sr_followed_at r /\
     (sr_state (upd r) = "active"%string -> sr_state r = "active"%string)) ->
  follows_ok me (set_social_graph (sql_update P upd (social_graph d)) d).
Proof.
  intros Hok Hupd pk r. cbn [social_graph set_social_graph]. rewrite lookup_sql_update.
  destruct (social_graph d !! (me, pk)) as [r0|] eqn:E; [|done]. cbn. intros [= <-].
  destruct (P _); [|by apply (Hok pk)]. destruct (Hupd r0) as [-> Hs].
  intros Hst. apply (Hok pk); auto.
Qed.

(** ** Caching a remote list *)

(** After a cached list that names [me], the row (me, remote) counts as seen. *)
Lemma cache_followers_seen now remote l h me d :
  me ∈ sg_pubkey <$> l ->
  exists r, social_graph (cache_remote_followers now remote l h d) !! (me, remote) = Some r /\
    is_Some (sr_first_seen r).
Proof.
  intros Hin. cbn [cache_remote_followers social_graph set_social_graph set_remote_social_meta].
  apply (fold_upsert_hit _ _ _ _ _ _ (fun o => exists r, o = Some r /\ is_Some (sr_first_seen r))).
  - apply list_elem_of_fmap in Hin as (f & -> & Hf). apply list_elem_of_fmap. by exists f.
  - intros f [r|] _ _; eexists; split; cbn; eauto.
Qed.

(** A second one replaces it by a row without [followed_at]. *)
Lemma cache_followers_again now remote l h me d r :
  me ∈ sg_pubkey <$> l ->
  social_graph d !! (me, remote) = Some r -> is_Some (sr_first_seen r) ->
  exists r', social_graph (cache_remote_followers now remote l h d) !! (me, remote) = Some r' /\
    sr_followed_at r' = None /\ sr_state r' = "active"%string.
Proof.
  intros Hin Hr Hs.
  pose proof (cache_followers_seen now remote l h me d Hin) as (r' & Hr' & _).
  exists r'. split; [done|]. revert Hr'.
  cbn [cache_remote_followers social_graph set_social_graph set_remote_social_meta].
  set (t := sql_delete _ _).
  assert (t !! (me, remote) = None) as Ht.
  { unfold t. rewrite lookup_sql_delete, Hr. cbn. by rewrite !bool_decide_eq_true_2. }
  match goal with |- ?t' !! _ = _ -> _ =>
    assert (forall o, o = t' !! (me, remote) -> match o with
      | Some r => sr_followed_at r = None /\ sr_state r = "active"%string | None => True end)
      as Hinv end.
  { intros o ->. apply (fold_upsert_inv _ _ _ _ _ _ (fun o => match o with
      | Some r => sr_followed_at r = None /\ sr_state r = "active"%string | None => True end)).
    - by rewrite Ht.
    - intros f [r0|] _ _; cbn; auto. }
  intros Hr'. by specialize (Hinv _ (eq_sym Hr')).
Qed.

(** ** Sequences of operations *)

Inductive social_op : Type :=
| OpFollow (now : Z) (me : string) (entry : SocialGraphEntry)
| OpUnfollow (now : Z) (me pubkey : string)
| OpFollower (me pubkey : string) (now : Z)
| OpOffline (me pubkey : string)
| OpCacheFollows (now : Z) (remote : string) (l : list SocialGraphEntry) (hidden : bool)
| OpCacheFollowers (now : Z) (remote : string) (l : list SocialGraphEntry) (hidden : bool).

Definition run_op (op : social_op) (d : Db) : Db :=
  match op with
  | OpFollow now me entry => follow now me entry d
  | OpUnfollow now me pubkey => unfollow now me pubkey d
  | OpFollower me pubkey now => (upsert_follower me pubkey now d).1
  | OpOffline me pubkey => set_follower_offline me pubkey d
  | OpCacheFollows now remote l hidden => cache_remote_follows now remote l hidden d
  | OpCacheFollowers now remote l hidden => cache_remote_followers now remote l hidden d
  end.

(** [me] does not follow itself, and no cached followers list names [me]. *)
Definition op_safe (me : string) (op : social_op) : Prop :=
  match op with
  | OpFollower _ pubkey _ => pubkey <> me
  | OpCacheFollowers _ _ l _ => me ∉ sg_pubkey <$> l
  | _ => True
  end.

Lemma run_op_follows_ok me op d : op_safe me op -> follows_ok me d -> follows_ok me (run_op op d).
Proof.
  destruct op as [now m e|now m pk|m pk now|m pk|now remote l h|now remote l h]; cbn [run_op op_safe];
    intros Hs Hok.
  - apply follows_ok_upsert; cbn; eauto.
  - apply follows_ok_update; [done|]. intros r. split; [done|]. discriminate.
  - apply follows_ok_upsert; cbn; [done|by intros ->|by intros ? ? ->].
  - apply follows_ok_update; [done|]. intros r. by split.
  - intros pk r. cbn [cache_remote_follows social_graph set_social_graph set_remote_social_meta].
    apply (fold_upsert_inv _ _ _ _ _ _ (fun o => o = Some r -> sr_state r = "active"%string ->
      is_Some (sr_followed_at r))).
    + intros Hr. apply sql_delete_Some in Hr as [Hr _]. by apply (Hok pk).
    + intros f [r0|] _ _ _ [= <-] _; cbn; eauto.
  - intros pk r. cbn [cache_remote_followers social_graph set_social_graph set_remote_social_meta].
    rewrite fold_upsert_other.
    + intros Hr. apply sql_delete_Some in Hr as [Hr _]. by apply (Hok pk).
    + intros (f & [= Hf _] & Hin)%list_elem_of_fmap. apply Hs. rewrite Hf.
      by apply list_elem_of_fmap_2.
Qed.

Lemma run_ops_follows_ok me ops d :
  Forall (op_safe me) ops -> follows_ok me d -> follows_ok me (fold_left (fun d op => run_op op d) ops d).
Proof.
  intros Hops. revert d. induction Hops as [|op ops Hop _ IH]; intros d Hok; [done|].
  cbn. apply IH. by apply run_op_follows_ok.
Qed.

(** ** Theorems *)

(** after any sequence of social-graph operations (follows, unfollows,
    followers seen and lost, cached lists of other users that do not name the
    user as a follower), the user's follow list can be read, has no duplicate,
    and holds exactly the keys the user follows. *)
Theorem follows_readable `{SqlOrder, !SqlOrderLaws} (me : string) (ops : list social_op) :
  Forall (op_safe me) ops ->
  let d := fold_left (fun d op => run_op op d) ops empty_db in
  exists l, get_follows d me = Ok l /\ NoDup (sg_pubkey <$> l) /\
    forall pk, pk ∈ sg_pubkey <$> l <-> is_following d me pk = true.
Proof. intros Hops d. by apply get_follows_ok, run_ops_follows_ok. Qed.

(** [follow] and [unfollow] decide exactly one edge and leave every other
    one; a follower row, a disconnected follower and another user's follow list
    leave the user's own follows as they were. *)
Theorem follow_edges (now : Z) (me pk : string) (e : SocialGraphEntry) (d : Db) (a b : string) :
  is_following (follow now me e d) a b =
    (if decide ((me, sg_pubkey e) = (a, b)) then true else is_following d a b) /\
  is_following (unfollow now me pk d) a b =
    (if decide ((me, pk) = (a, b)) then false else is_following d a b) /\
  is_following (set_follower_offline me pk d) a b = is_following d a b /\
  (pk <> a -> is_following (upsert_follower me pk now d).1 a b = is_following d a b) /\
  (forall remote l h, remote <> a ->
    is_following (cache_remote_follows now remote l h d) a b = is_following d a b).
Proof.
  split_and!.
  - apply active_edge_follow.
  - apply active_edge_unfollow.
  - unfold is_following, active_edge, set_follower_offline.
    cbn [social_graph set_social_graph]. rewrite lookup_sql_update.
    destruct (social_graph d !! (a, b)); cbn; [|done]. by case_match.
  - intros Hne. unfold is_following, active_edge, upsert_follower.
    cbn [fst social_graph set_social_graph]. by rewrite lookup_upsert, decide_False by congruence.
  - intros remote l h Hne. unfold is_following, active_edge.
    cbn [cache_remote_follows social_graph set_social_graph set_remote_social_meta].
    rewrite fold_upsert_other.
    + rewrite lookup_sql_delete. destruct (social_graph d !! (a, b)); [|done].
      cbn. by rewrite (bool_decide_eq_false_2 (a = remote)) by congruence.
    + intros (f & [= ? _] & _)%list_elem_of_fmap. congruence.
Qed.

(** caching twice the followers of a user whose list names [me] (as it does
    when [me] follows that user) replaces [me]'s own follow row: it then counts
    as an active follow without [followed_at], whatever it was before, and
    reading [me]'s follow list fails. *)
Theorem remote_followers_break_follows `{SqlOrder, !SqlOrderLaws} (now now' : Z)
    (me remote : string) (l l' : list SocialGraphEntry) (h h' : bool) (d : Db) :
  me ∈ sg_pubkey <$> l -> me ∈ sg_pubkey <$> l' ->
  let d' := cache_remote_followers now' remote l' h' (cache_remote_followers now remote l h d) in
  is_following d' me remote = true /\ get_follows d' me = Err Sqlx.
Proof.
  intros Hl Hl' d'.
  destruct (cache_followers_seen now remote l h me d Hl) as (r & Hr & Hs).
  destruct (cache_followers_again now' remote l' h' me _ r Hl' Hr Hs) as (r' & Hr' & Hf & Hst).
  fold d' in Hr'. split.
  - unfold is_following, active_edge. rewrite Hr'. by apply bool_decide_eq_true.
  - unfold get_follows.
    match goal with |- context [sql_select ?P ?key ?t] =>
      assert ((me, remote, r') ∈ sql_select P key t) as Hin end.
    { apply elem_of_sql_select. split; [done|]. cbn. by rewrite Hst, !bool_decide_eq_true_2. }
    revert Hin. generalize (fun kr : string * string * SocialRow =>
      bool_decide (kr.1.1 = me) && bool_decide (sr_state kr.2 = "active"%string)) as P.
    intros P. generalize (sql_select P (fun kr => desc_null (sr_followed_at kr.2)) (social_graph d')).
    intros sel Hin. induction sel as [|kr sel IH]; [by apply elem_of_nil in Hin|].
    apply elem_of_cons in Hin as [<-|Hin]; cbn; [by rewrite Hf|].
    rewrite IH by done. by destruct (sr_followed_at kr.2).
Qed.

(** ** Witnesses *)

Definition entry_of (pk : string) (t : Z) : SocialGraphEntry :=
  {| sg_pubkey := pk; sg_followed_at := t; sg_first_seen := t; sg_last_seen := 0;
     sg_is_online := false |}.

Definition sample_ops : list social_op :=
  [OpFollow 5 "me" (entry_of "bob" 5); OpFollow 6 "me" (entry_of "carol" 6);
   OpFollower "me" "dave" 7; OpUnfollow 8 "me" "carol";
   OpCacheFollowers 9 "bob" [entry_of "erin" 1] false].

Lemma follows_readable_witness :
  get_follows (fold_left (fun d op => run_op op d) sample_ops empty_db) "me" =
    Ok [{| sg_pubkey := "bob"; sg_followed_at := 5; sg_first_seen := 0; sg_last_seen := 0;
           sg_is_online := false |}] /\
  exists l, get_follows (fold_left (fun d op => run_op op d) sample_ops empty_db) "me" = Ok l /\
    NoDup (sg_pubkey <$> l).
Proof.
  split; [vm_compute; reflexivity|].
  assert (Forall (op_safe "me") sample_ops) as Hs.
  { repeat apply Forall_cons_2; try exact I; [discriminate| |apply Forall_nil_2].
    intros Hin. apply elem_of_cons in Hin as [Hin|Hin]; [discriminate|by apply elem_of_nil in Hin]. }
  pose proof (follows_readable "me" sample_ops Hs) as Hr. cbv zeta in Hr.
  destruct Hr as (l & Hl & Hnd & _). exists l. exact (conj Hl Hnd).
Defined.

Lemma follow_edges_witness :
  is_following (upsert_follower "me" "dave" 7 empty_db).1 "me" "dave" = false.
Proof. apply (follow_edges 7 "me" "dave" (entry_of "bob" 5) empty_db "me" "dave"). discriminate. Defined.

(** [me] follows bob, looks at bob's followers twice, and can no longer read its
    own follow list. *)
Lemma remote_followers_break_follows_witness :
  let d := follow 5 "me" (entry_of "bob" 5) empty_db in
  let l := [entry_of "me" 5] in
  let d' := cache_remote_followers 400 "bob" l false (cache_remote_followers 300 "bob" l false d) in
  is_following d' "me" "bob" = true /\ get_follows d' "me" = Err Sqlx.
Proof.
  intros d l. assert ("me"%string ∈ sg_pubkey <$> l) as Hin by (apply elem_of_cons; by left).
  exact (remote_followers_break_follows 300 400 "me" "bob" l l false false d Hin Hin).
Defined.
