(* ===== verification/Posts.v ===== *)
(** * Posts

    Model of [src-tauri/src/storage/posts.rs]. *)

From S2P Require Import Prelude Types Store Moderation.

Local Open Scope Z_scope.

Record FeedQuery : Type := { fq_limit : Z; fq_before : option Z }.

Section posts.
Context `{SqlOrder, !Serde (list MediaAttachment)}.

(** A row with its key. *)
Definition post_rec : Type := (string * string) * PostRow.

Definition row_to_post (kr : post_rec) : result AppError Post :=
  media ← from_json (pw_media_json kr.2);
  Ok {| post_id := kr.1.2; post_author := kr.1.1; post_content := pw_content kr.2;
        post_timestamp := as_u64 (pw_timestamp kr.2); post_media := media;
        post_reply_to := pw_reply_to kr.2; post_reply_to_author := pw_reply_to_author kr.2;
        post_quote_of := pw_quote_of kr.2; post_quote_of_author := pw_quote_of_author kr.2;
        post_signature := pw_signature kr.2 |}.

Definition post_to_row (post : Post) : PostRow :=
  {| pw_content := post_content post; pw_timestamp := as_i64 (post_timestamp post);
     pw_media_json := to_json (post_media post); pw_reply_to := post_reply_to post;
     pw_reply_to_author := post_reply_to_author post; pw_quote_of := post_quote_of post;
     pw_quote_of_author := post_quote_of_author post; pw_signature := post_signature post |}.

Definition insert_post (post : Post) (d : Db) : Db :=
  set_posts (insert_or_ignore (post_author post, post_id post) (post_to_row post) (posts d)) d.

Definition get_post_by_id (d : Db) (id : string) : result AppError (option Post) :=
  match sql_select (fun kr => bool_decide (kr.1.2 = id)) no_order (posts d) with
  | row :: _ => p ← row_to_post row; Ok (Some p)
  | [] => Ok None
  end.

(** [timestamp < ?] with the bound present or not. *)
Definition before_ok (before : option Z) (ts : Z) : bool :=
  match before with Some b => ts <? as_i64 b | None => true end.

Definition get_feed (d : Db) (q : FeedQuery) : result AppError (list Post) :=
  decode_all row_to_post
    (sql_limit (fq_limit q)
       (sql_select (fun kr => before_ok (fq_before q) (pw_timestamp kr.2) &&
                              negb (is_hidden d kr.1.1))
          (fun kr => - pw_timestamp kr.2) (posts d))).

(** Returns whether a row was deleted. *)
Definition delete_post (id : string) (d : Db) : Db * bool :=
  let n := sql_delete (fun kr => bool_decide (nw_post_id kr.2 = Some id) ||
                                 bool_decide (nw_target_post_id kr.2 = Some id)) (notifications d) in
  let P (kr : post_rec) := bool_decide (kr.1.2 = id) in
  (set_posts (sql_delete P (posts d)) (set_notifications n d), 0 <? sql_count P (posts d)).

Definition delete_posts_by_author (author : string) (d : Db) : Db * Z :=
  let P (kr : post_rec) := bool_decide (kr.1.1 = author) in
  let of_author (o : option string) :=
    match o with Some id => bool_decide (is_Some (posts d !! (author, id))) | None => false end in
  let n := sql_delete (fun kr => of_author (nw_post_id kr.2) || of_author (nw_target_post_id kr.2))
             (notifications d) in
  (set_posts (sql_delete P (posts d)) (set_notifications n d), sql_count P (posts d)).

Definition delete_repost_by_target (author quote_of : string) (d : Db) : Db * option string :=
  match sql_select (fun kr => bool_decide (kr.1.1 = author) &&
                              bool_decide (pw_quote_of kr.2 = Some quote_of)) no_order (posts d) with
  | ((_, id), _) :: _ =>
      (set_posts (sql_delete (fun kr => bool_decide (kr.1.2 = id)) (posts d)) d, Some id)
  | [] => (d, None)
  end.

(** The [AND media_json ...] clause. *)
Definition media_clause (media_filter : option string) (json : string) : bool :=
  match media_filter with
  | Some f =>
      if decide (f = "images"%string) then sql_like "image/" json
      else if decide (f = "videos"%string) then sql_like "video/" json
      else if decide (f = "audio"%string) then sql_like "audio/" json
      else if decide (f = "files"%string) then
        negb (bool_decide (json = "[]"%string)) && negb (sql_like "image/" json) &&
        negb (sql_like "video/" json) && negb (sql_like "audio/" json)
      else if decide (f = "text"%string) then bool_decide (json = "[]"%string)
      else true
  | None => true
  end.

Definition get_posts_by_author (d : Db) (author : string) (limit : Z) (before : option Z)
    (media_filter : option string) : result AppError (list Post) :=
  decode_all row_to_post
    (sql_limit limit
       (sql_select (fun kr => bool_decide (kr.1.1 = author) &&
                              before_ok before (pw_timestamp kr.2) &&
                              media_clause media_filter (pw_media_json kr.2))
          (fun kr => - pw_timestamp kr.2) (posts d))).

Definition get_post_ids_by_author (d : Db) (author : string) : list string :=
  (fun kr => kr.1.2) <$>
    sql_select (fun kr => bool_decide (kr.1.1 = author)) (fun kr => pw_timestamp kr.2) (posts d).

Definition count_posts_by_author (d : Db) (author : string) : Z :=
  sql_count (fun kr => bool_decide (kr.1.1 = author)) (posts d).

Definition newest_post_timestamp (d : Db) (author : string) : Z :=
  as_u64 (default 0 (sql_max ((fun kr => pw_timestamp kr.2) <$>
    filter (fun kr => bool_decide (kr.1.1 = author)) (map_to_list (posts d))))).

(** [author=?1 AND timestamp > ?2]. *)
Definition after_ts (author : string) (ts : Z) (kr : post_rec) : bool :=
  bool_decide (kr.1.1 = author) && (as_i64 ts <? pw_timestamp kr.2).

Definition count_posts_after (d : Db) (author : string) (ts : Z) : Z :=
  sql_count (after_ts author ts) (posts d).

Definition get_posts_after (d : Db) (author : string) (ts limit offset : Z)
    : result AppError (list Post) :=
  decode_all row_to_post
    (sql_limit limit (sql_offset offset
       (sql_select (after_ts author ts) (fun kr => pw_timestamp kr.2) (posts d)))).

(** The temporary table of known ids is a set. *)
Definition get_posts_not_in (d : Db) (author : string) (known_ids : list string)
    (limit offset : Z) : result AppError (list Post) :=
  decode_all row_to_post
    (sql_limit limit (sql_offset offset
       (sql_select (fun kr => bool_decide (kr.1.1 = author) &&
                              negb (bool_decide (kr.1.2 ∈ known_ids)))
          (fun kr => pw_timestamp kr.2) (posts d)))).

Definition get_replies (d : Db) (parent_post_id : string) (limit : Z) (before : option Z)
    : result AppError (list Post) :=
  decode_all row_to_post
    (sql_limit limit
       (sql_select (fun kr => bool_decide (pw_reply_to kr.2 = Some parent_post_id) &&
                              before_ok before (pw_timestamp kr.2) && negb (is_hidden d kr.1.1))
          (fun kr => pw_timestamp kr.2) (posts d))).
End posts.
