(* ===== verification/Interactions.v ===== *)
(** * Interactions

    Model of [src-tauri/src/storage/interactions.rs].  The table has two keys:
    (author, id) and the unique index (author, kind, target_post_id). *)

From S2P Require Import Prelude Types Store.

Local Open Scope Z_scope.

Definition kind_str (k : InteractionKind) : string := match k with Like => "Like" end.

Definition interaction_rec : Type := (string * string) * InteractionRow.

Definition row_to_interaction (kr : interaction_rec) : result AppError Interaction :=
  let other := str_to_lower (iw_kind kr.2) in
  kind ← (if decide (other = "like"%string) then Ok Like
          else Err (Other ("unknown interaction kind: " +:+ other)));
  Ok {| in_id := kr.1.2; in_author := kr.1.1; in_kind := kind;
        in_target_post_id := iw_target_post_id kr.2; in_target_author := iw_target_author kr.2;
        in_timestamp := as_u64 (iw_timestamp kr.2); in_signature := iw_signature kr.2 |}.

Definition interaction_to_row (i : Interaction) : InteractionRow :=
  {| iw_kind := kind_str (in_kind i); iw_target_post_id := in_target_post_id i;
     iw_target_author := in_target_author i; iw_timestamp := as_i64 (in_timestamp i);
     iw_signature := in_signature i |}.

(** [author=?1 AND kind=?2 AND target_post_id=?3]. *)
Definition same_target (author kind target : string) (kr : interaction_rec) : bool :=
  bool_decide (kr.1.1 = author) && bool_decide (iw_kind kr.2 = kind) &&
  bool_decide (iw_target_post_id kr.2 = target).

(** [INSERT OR IGNORE]: nothing happens when either key is taken. *)
Definition save_interaction (i : Interaction) (d : Db) : Db :=
  if 0 <? sql_count (same_target (in_author i) (kind_str (in_kind i)) (in_target_post_id i))
            (interactions d)
  then d
  else set_interactions
         (insert_or_ignore (in_author i, in_id i) (interaction_to_row i) (interactions d)) d.

Definition delete_interaction (id author : string) (d : Db) : Db * bool :=
  (set_interactions (delete (author, id) (interactions d)) d,
   bool_decide (is_Some (interactions d !! (author, id)))).

Section queries.
Context `{SqlOrder}.

Definition delete_interaction_by_target (author kind target_post_id : string) (d : Db)
    : Db * option string :=
  match sql_select (same_target author kind target_post_id) no_order (interactions d) with
  | ((_, id), _) :: _ => ((delete_interaction id author d).1, Some id)
  | [] => (d, None)
  end.

Definition get_post_counts (d : Db) (my_pubkey target_post_id : string) : PostCounts :=
  let like kr := bool_decide (iw_target_post_id kr.2 = target_post_id) &&
                 bool_decide (iw_kind kr.2 = "Like"%string) in
  {| pc_likes := as_u32 (sql_count like (interactions d));
     pc_replies := as_u32
       (sql_count (fun kr => bool_decide (pw_reply_to kr.2 = Some target_post_id)) (posts d));
     pc_reposts := as_u32
       (sql_count (fun kr => bool_decide (pw_quote_of kr.2 = Some target_post_id)) (posts d));
     pc_liked_by_me :=
       0 <? sql_count (same_target my_pubkey "Like" target_post_id) (interactions d);
     pc_reposted_by_me :=
       0 <? sql_count (fun kr => bool_decide (kr.1.1 = my_pubkey) &&
                                 bool_decide (pw_quote_of kr.2 = Some target_post_id)) (posts d) |}.

Definition count_interactions_by_author (d : Db) (author : string) : Z :=
  sql_count (fun kr => bool_decide (kr.1.1 = author)) (interactions d).

Definition newest_interaction_timestamp (d : Db) (author : string) : Z :=
  as_u64 (default 0 (sql_max ((fun kr => iw_timestamp kr.2) <$>
    filter (fun kr => bool_decide (kr.1.1 = author)) (map_to_list (interactions d))))).

Definition interaction_after (author : string) (ts : Z) (kr : interaction_rec) : bool :=
  bool_decide (kr.1.1 = author) && (as_i64 ts <? iw_timestamp kr.2).

Definition count_interactions_after (d : Db) (author : string) (ts : Z) : Z :=
  sql_count (interaction_after author ts) (interactions d).

Definition get_interactions_after (d : Db) (author : string) (ts limit offset : Z)
    : result AppError (list Interaction) :=
  decode_all row_to_interaction
    (sql_limit limit (sql_offset offset
       (sql_select (interaction_after author ts) (fun kr => iw_timestamp kr.2) (interactions d)))).

Definition get_interactions_paged (d : Db) (author : string) (limit offset : Z)
    : result AppError (list Interaction) :=
  decode_all row_to_interaction
    (sql_limit limit (sql_offset offset
       (sql_select (fun kr => bool_decide (kr.1.1 = author)) (fun kr => iw_timestamp kr.2)
          (interactions d)))).
End queries.
