(* ===== verification/Notifications.v ===== *)
(** * Notifications and profiles

    Model of [src-tauri/src/storage/notifications.rs] and [profiles.rs]. *)

From S2P Require Import Prelude Types Store Moderation Posts.

Local Open Scope Z_scope.

Section notifications.
Context `{Sha, SqlOrder}.

(** The id is the hash of the fields written one after another. *)
Definition notification_id (kind actor : string) (target_post_id post_id : option string) : string :=
  sha256_hex (str_bytes kind ++ str_bytes actor ++ str_bytes (default "" target_post_id)%string ++
              str_bytes (default "" post_id)%string).

Definition insert_notification (kind actor : string) (target_post_id post_id : option string)
    (timestamp : Z) (d : Db) : Db :=
  set_notifications
    (insert_or_ignore (notification_id kind actor target_post_id post_id)
       {| nw_kind := kind; nw_actor := actor; nw_target_post_id := target_post_id;
          nw_post_id := post_id; nw_timestamp := as_i64 timestamp; nw_read := false |}
       (notifications d)) d.

Definition row_to_notification (kr : string * NotificationRow) : Notification :=
  {| no_id := kr.1; no_kind := nw_kind kr.2; no_actor := nw_actor kr.2;
     no_target_post_id := nw_target_post_id kr.2; no_post_id := nw_post_id kr.2;
     no_timestamp := as_u64 (nw_timestamp kr.2); no_read := nw_read kr.2 |}.

Definition get_notifications (d : Db) (limit : Z) (before : option Z) : list Notification :=
  row_to_notification <$>
    sql_limit limit
      (sql_select (fun kr => before_ok before (nw_timestamp kr.2) &&
                             negb (is_hidden d (nw_actor kr.2)))
         (fun kr => - nw_timestamp kr.2) (notifications d)).

Definition get_unread_notification_count (d : Db) : Z :=
  as_u32 (sql_count (fun kr => negb (nw_read kr.2)) (notifications d)).

Definition mark_notifications_read (d : Db) : Db :=
  set_notifications
    (sql_update (fun kr => negb (nw_read kr.2))
       (fun r => {| nw_kind := nw_kind r; nw_actor := nw_actor r;
                    nw_target_post_id := nw_target_post_id r; nw_post_id := nw_post_id r;
                    nw_timestamp := nw_timestamp r; nw_read := true |})
       (notifications d)) d.
End notifications.

(** ** profiles.rs *)

Definition save_profile (pubkey : string) (profile : Profile) (d : Db) : Db :=
  set_profiles
    (<[pubkey := {| pf_display_name := pr_display_name profile; pf_bio := pr_bio profile;
                    pf_avatar_hash := pr_avatar_hash profile;
                    pf_avatar_ticket := pr_avatar_ticket profile;
                    pf_visibility := visibility_to_string (pr_visibility profile);
                    pf_signature := pr_signature profile |}]> (profiles d)) d.

Definition get_profile (d : Db) (pubkey : string) : option Profile :=
  row ← profiles d !! pubkey;
  Some {| pr_display_name := pf_display_name row; pr_bio := pf_bio row;
          pr_avatar_hash := pf_avatar_hash row; pr_avatar_ticket := pf_avatar_ticket row;
          pr_visibility := default visibility_default
            (res_ok (visibility_from_str (pf_visibility row)));
          pr_signature := pf_signature row |}.
