(* ===== verification/ContentTheorems.v ===== *)
(** * Posts and likes: invariants and theorems

    The type invariant of the content tables, what the feed shows, what a
    deletion removes, and what the counters count. *)

From S2P Require Import Prelude Types Store ConcreteStore Moderation Posts Interactions Notifications.

Local Open Scope Z_scope.

(** ** Decoding *)

Section content.
Context `{!Serde (list MediaAttachment), !SerdeLaws (list MediaAttachment)}.

(** [p] is stored. *)
Definition stored_post (d : Db) (p : Post) : Prop :=
  posts d !! (post_author p, post_id p) = Some (post_to_row p).
Definition stored_interaction (d : Db) (i : Interaction) : Prop :=
  interactions d !! (in_author i, in_id i) = Some (interaction_to_row i).

(** Every row of the table is the row of a post with a [u64] timestamp. *)
Definition posts_ok (d : Db) : Prop :=
  forall k row, posts d !! k = Some row -> exists p, is_u64 (post_timestamp p) /\
    k = (post_author p, post_id p) /\ row = post_to_row p.
Definition interactions_ok (d : Db) : Prop :=
  forall k row, interactions d !! k = Some row -> exists i, is_u64 (in_timestamp i) /\
    k = (in_author i, in_id i) /\ row = interaction_to_row i.

Lemma row_to_post_to_row p :
  is_u64 (post_timestamp p) -> row_to_post ((post_author p, post_id p), post_to_row p) = Ok p.
Proof.
  intros Ht. unfold row_to_post. cbn. rewrite from_to_json. cbn.
  rewrite as_u64_as_i64 by done. by destruct p.
Qed.

Lemma row_to_interaction_to_row i :
  is_u64 (in_timestamp i) ->
  row_to_interaction ((in_author i, in_id i), interaction_to_row i) = Ok i.
Proof.
  intros Ht. unfold row_to_interaction. cbn. rewrite as_u64_as_i64 by done.
  destruct i as [? ? [] ? ? ? ?]. by rewrite decide_True.
Qed.

(** The rows [l] hold the values [xs], in order. *)
Definition rows_of {K R A} (f : K * R -> result AppError A) (l : list (K * R)) (xs : list A) : Prop :=
  Forall2 (fun kr x => f kr = Ok x) l xs.

Lemma posts_decode d (l : list ((string * string) * PostRow)) :
  posts_ok d -> (forall k r, (k, r) ∈ l -> posts d !! k = Some r) ->
  exists ps, rows_of row_to_post l ps /\
    Forall2 (fun kr p => kr = ((post_author p, post_id p), post_to_row p) /\
                         is_u64 (post_timestamp p)) l ps.
Proof.
  intros Hok Hl. induction l as [|[k r] l IH]; [exists []; by split; constructor|].
  destruct IH as (ps & H1 & H2); [intros; apply Hl; by right|].
  destruct (Hok k r) as (p & Ht & -> & ->); [apply Hl; by left|].
  exists (p :: ps). split; constructor; try done. by apply row_to_post_to_row.
Qed.

Lemma interactions_decode d (l : list ((string * string) * InteractionRow)) :
  interactions_ok d -> (forall k r, (k, r) ∈ l -> interactions d !! k = Some r) ->
  exists is_, rows_of row_to_interaction l is_ /\
    Forall2 (fun kr i => kr = ((in_author i, in_id i), interaction_to_row i) /\
                         is_u64 (in_timestamp i)) l is_.
Proof.
  intros Hok Hl. induction l as [|[k r] l IH]; [exists []; by split; constructor|].
  destruct IH as (ps & H1 & H2); [intros; apply Hl; by right|].
  destruct (Hok k r) as (p & Ht & -> & ->); [apply Hl; by left|].
  exists (p :: ps). split; constructor; try done. by apply row_to_interaction_to_row.
Qed.

(** A page of the rows decodes to the same page of the values. *)
Lemma decode_page {K R A} (f : K * R -> result AppError A) l xs limit offset :
  rows_of f l xs -> 0 <= limit < 2 ^ 63 -> 0 <= offset < 2 ^ 63 ->
  decode_all f (sql_limit limit (sql_offset offset l)) =
    Ok (take (Z.to_nat limit) (drop (Z.to_nat offset) xs)).
Proof.
  intros Hl Hlim Hoff. apply decode_all_Ok. unfold sql_limit, sql_offset.
  rewrite !as_i64_small by done. destruct (Z.ltb_spec limit 0); [lia|].
  by apply Forall2_take, Forall2_drop.
Qed.

Lemma decode_limit {K R A} (f : K * R -> result AppError A) l xs limit :
  rows_of f l xs -> 0 <= limit < 2 ^ 63 ->
  decode_all f (sql_limit limit l) = Ok (take (Z.to_nat limit) xs).
Proof.
  intros Hl Hlim. apply decode_all_Ok. unfold sql_limit.
  rewrite as_i64_small by done. destruct (Z.ltb_spec limit 0); [lia|].
  by apply Forall2_take.
Qed.

(** ** The invariant is preserved *)

Lemma insert_post_ok p d : is_u64 (post_timestamp p) -> posts_ok d -> posts_ok (insert_post p d).
Proof.
  intros Ht Hok k row. cbn. rewrite lookup_insert_or_ignore. case_decide as Hk; [|apply Hok].
  destruct (posts d !! _) as [r|] eqn:E; intros [= <-]; [rewrite <-Hk; by apply (Hok _ _ E)|].
  by exists p.
Qed.

Lemma delete_post_ok id d : posts_ok d -> posts_ok (delete_post id d).1.
Proof. intros Hok k row Hr. cbn in Hr. apply sql_delete_Some in Hr as [Hr _]. by apply Hok. Qed.

Lemma save_interaction_ok i d :
  is_u64 (in_timestamp i) -> interactions_ok d -> interactions_ok (save_interaction i d).
Proof.
  intros Ht Hok. unfold save_interaction. case_match; [done|]. intros k row. cbn.
  rewrite lookup_insert_or_ignore. case_decide as Hk; [|apply Hok].
  destruct (interactions d !! _) as [r|] eqn:E; intros [= <-]; [rewrite <-Hk; by apply (Hok _ _ E)|].
  by exists i.
Qed.
End content.

(** ** Taking the first rows of a sorted list *)

Lemma take_sorted {A} (key : A -> Z) (n : nat) (l : list A) x :
  StronglySorted (fun a b => key a <= key b) l -> x ∈ l ->
  x ∈ take n l \/ (length (take n l) = n /\ forall y, y ∈ take n l -> key y <= key x).
Proof.
  intros Hs. revert n. induction Hs as [|a l Hs IH Ha]; intros n Hx; [by apply elem_of_nil in Hx|].
  destruct n as [|n]; [right; split; [done|]; by intros y ?%elem_of_nil|].
  cbn. apply elem_of_cons in Hx as [->|Hx]; [left; left|].
  destruct (IH n Hx) as [?|[Hl Hy]]; [left; by right|]. right. split; [by f_equal|].
  intros y [->|Hin]%elem_of_cons; [|by apply Hy]. rewrite Forall_forall in Ha. by apply Ha.
Qed.

Lemma StronglySorted_take {A} (R : A -> A -> Prop) n l :
  StronglySorted R l -> StronglySorted R (take n l).
Proof.
  intros Hs. revert n. induction Hs as [|a l Hs IH Ha]; intros [|n]; cbn; try constructor; [done|].
  by apply Forall_take.
Qed.

Lemma is_hidden_iff d pk :
  is_hidden d pk = true <-> exists kind, moderated kind d pk = true.
Proof.
  unfold is_hidden, moderated, sql_count. rewrite Z.ltb_lt. split.
  - intros Hl. destruct (filter _ _) as [|[[a k] r] l] eqn:E; [cbn in Hl; lia|].
    assert ((a, k, r) ∈ (a, k, r) :: l) as Hin by left. rewrite <-E in Hin.
    apply list_elem_of_filter in Hin as [Hp Hin%elem_of_map_to_list]. cbn in Hp.
    apply Is_true_true, andb_prop in Hp as [->%bool_decide_eq_true Ha].
    exists k. by rewrite Hin.
  - intros [k Hk]. destruct (moderation d !! (pk, k)) as [r|] eqn:E; [|done].
    assert ((pk, k, r) ∈ filter (fun kr : string * string * ModRow =>
      bool_decide (kr.1.1 = pk) && is_active kr.2) (map_to_list (moderation d))) as Hin.
    { apply list_elem_of_filter. split; [|by apply elem_of_map_to_list]. cbn.
      by rewrite bool_decide_eq_true_2, Hk. }
    destruct (filter _ _); [by apply elem_of_nil in Hin|]. cbn. lia.
Qed.

(** ** Queries *)

(** The row of a post or interaction with its key. *)
Definition keyed_post `{Serde (list MediaAttachment)} (p : Post) : (string * string) * PostRow :=
  ((post_author p, post_id p), post_to_row p).
Definition keyed_interaction (i : Interaction) : (string * string) * InteractionRow :=
  ((in_author i, in_id i), interaction_to_row i).

Section select.
Context `{SqlOrder, !SqlOrderLaws, !Serde (list MediaAttachment), !SerdeLaws (list MediaAttachment)}.

Lemma sql_select_length {K R} `{Countable K} P key (t : gmap K R) :
  (length (sql_select P key t) <= size t)%nat.
Proof.
  unfold sql_select. rewrite order_by_perm. etransitivity; [apply length_filter|].
  by rewrite length_map_to_list.
Qed.

(** A query on the posts returns each stored post that satisfies it, once. *)
Lemma select_posts d P key :
  posts_ok d ->
  exists ps, rows_of row_to_post (sql_select P key (posts d)) ps /\
    sql_select P key (posts d) = keyed_post <$> ps /\ NoDup ps /\
    (forall p, p ∈ ps <-> stored_post d p /\ is_u64 (post_timestamp p) /\ P (keyed_post p) = true) /\
    (length ps <= size (posts d))%nat.
Proof.
  intros Hok. set (sel := sql_select P key (posts d)).
  assert (forall k r, (k, r) ∈ sel <-> posts d !! k = Some r /\ P (k, r) = true) as Hsel
    by (intros; apply elem_of_sql_select).
  destruct (posts_decode d sel Hok) as (ps & Hrows & Hpair); [intros k r Hin; by apply Hsel|].
  assert (sel = keyed_post <$> ps /\ Forall (fun p => is_u64 (post_timestamp p)) ps) as [Emap Hu].
  { clear -Hpair. induction Hpair as [|kr p sel ps [-> Ht] _ [-> IH]]; [by split; constructor|].
    split; [done|]. by constructor. }
  rewrite Forall_forall in Hu. exists ps. split_and!; [done|done| | |].
  - apply (NoDup_fmap_1 keyed_post). rewrite <-Emap. apply (NoDup_fmap_1 fst), sql_select_NoDup.
  - intros p. split.
    + intros Hp. pose proof (Hu p Hp). apply (list_elem_of_fmap_2 keyed_post) in Hp.
      rewrite <-Emap in Hp. by apply Hsel in Hp as [Hr HP].
    + intros (Hr & Ht & HP). assert (keyed_post p ∈ sel) as Hin by by apply Hsel.
      rewrite Emap in Hin. apply list_elem_of_fmap in Hin as (p' & E & Hp').
      assert (Ok (E := AppError) p = Ok p') as [= ->]; [|done].
      rewrite <-!row_to_post_to_row by auto. by apply (f_equal row_to_post) in E.
  - rewrite <-(length_fmap keyed_post), <-Emap. apply sql_select_length.
Qed.

Lemma select_interactions d P key :
  interactions_ok d ->
  exists is_, rows_of row_to_interaction (sql_select P key (interactions d)) is_ /\
    NoDup is_ /\
    (forall i, i ∈ is_ <-> stored_interaction d i /\ is_u64 (in_timestamp i) /\
       P (keyed_interaction i) = true) /\
    (length is_ <= size (interactions d))%nat.
Proof.
  intros Hok. set (sel := sql_select P key (interactions d)).
  assert (forall k r, (k, r) ∈ sel <-> interactions d !! k = Some r /\ P (k, r) = true) as Hsel
    by (intros; apply elem_of_sql_select).
  destruct (interactions_decode d sel Hok) as (ps & Hrows & Hpair);
    [intros k r Hin; by apply Hsel|].
  assert (sel = keyed_interaction <$> ps /\ Forall (fun p => is_u64 (in_timestamp p)) ps) as [Emap Hu].
  { clear -Hpair. induction Hpair as [|kr p sel ps [-> Ht] _ [-> IH]]; [by split; constructor|].
    split; [done|]. by constructor. }
  rewrite Forall_forall in Hu. exists ps. split_and!; [done| | |].
  - apply (NoDup_fmap_1 keyed_interaction). rewrite <-Emap.
    apply (NoDup_fmap_1 fst), sql_select_NoDup.
  - intros p. split.
    + intros Hp. pose proof (Hu p Hp). apply (list_elem_of_fmap_2 keyed_interaction) in Hp.
      rewrite <-Emap in Hp. by apply Hsel in Hp as [Hr HP].
    + intros (Hr & Ht & HP). assert (keyed_interaction p ∈ sel) as Hin by by apply Hsel.
      rewrite Emap in Hin. apply list_elem_of_fmap in Hin as (p' & E & Hp').
      assert (Ok (E := AppError) p = Ok p') as [= ->]; [|done].
      rewrite <-!row_to_interaction_to_row by auto. by apply (f_equal row_to_interaction) in E.
  - rewrite <-(length_fmap keyed_interaction), <-Emap. apply sql_select_length.
Qed.
End select.

(** ** The feed *)

Section feed.
Context `{SqlOrder, !SqlOrderLaws, !Serde (list MediaAttachment), !SerdeLaws (list MediaAttachment)}.

(** The post is stored, older than the bound, and its author is neither muted
    nor blocked. *)
Definition visible (d : Db) (before : option Z) (p : Post) : Prop :=
  stored_post d p /\ is_u64 (post_timestamp p) /\
  before_ok before (as_i64 (post_timestamp p)) = true /\
  forall kind, moderated kind d (post_author p) = false.

(** The page [l] shows the newest visible posts, at most [n] of them. *)
Record feed_page (d : Db) (before : option Z) (n : nat) (l : list Post) : Prop := {
  fp_length : (length l <= n)%nat;
  fp_nodup : NoDup l;
  fp_sorted : StronglySorted (fun p p' => as_i64 (post_timestamp p') <= as_i64 (post_timestamp p)) l;
  fp_sound : forall p, p ∈ l -> visible d before p;
  fp_complete : forall p, visible d before p -> p ∈ l \/ (length l = n /\
    forall p', p' ∈ l -> as_i64 (post_timestamp p) <= as_i64 (post_timestamp p'));
}.

Lemma not_hidden_iff d pk :
  is_hidden d pk = false <-> forall kind, moderated kind d pk = false.
Proof.
  split.
  - intros Hh kind. destruct (moderated kind d pk) eqn:E; [|done].
    assert (is_hidden d pk = true); [|congruence]. apply is_hidden_iff. eauto.
  - intros Hk. destruct (is_hidden d pk) eqn:E; [|done].
    apply is_hidden_iff in E as [k Ek]. by rewrite Hk in Ek.
Qed.

Lemma get_feed_page d q :
  posts_ok d -> 0 <= fq_limit q < 2 ^ 63 ->
  exists l, get_feed d q = Ok l /\ feed_page d (fq_before q) (Z.to_nat (fq_limit q)) l.
Proof.
  intros Hok Hlim. unfold get_feed.
  set (P := fun kr : string * string * PostRow => _ && _). set (key := fun kr => - _).
  destruct (select_posts d P key Hok) as (ps & Hrows & Emap & Hnd & Hin & _).
  assert (forall p, p ∈ ps <-> visible d (fq_before q) p) as Hps.
  { intros p. rewrite Hin. unfold visible, P. cbn. rewrite andb_true_iff, negb_true_iff.
    rewrite not_hidden_iff. tauto. }
  assert (StronglySorted (fun p p' => - as_i64 (post_timestamp p) <= - as_i64 (post_timestamp p')) ps)
    as Hsort.
  { pose proof (order_by_sorted key (filter P (map_to_list (posts d)))) as Hs.
    fold (sql_select P key (posts d)) in Hs. rewrite Emap in Hs.
    clear -Hs. induction ps as [|p ps IH]; [constructor|]. cbn in Hs.
    apply StronglySorted_inv in Hs as [Hs Hp]. constructor; [by apply IH|].
    rewrite Forall_fmap in Hp. exact Hp. }
  exists (take (Z.to_nat (fq_limit q)) ps). split; [by apply decode_limit|]. split.
  - rewrite length_take. lia.
  - by eapply sublist_NoDup, sublist_take.
  - apply StronglySorted_take. clear -Hsort. induction Hsort as [|p ps Hs IH Hp]; constructor; [done|].
    eapply Forall_impl; [exact Hp|]. cbn. intros; lia.
  - intros p Hp. apply Hps. apply elem_of_take in Hp as (i & Hi & _). by eapply list_elem_of_lookup_2.
  - intros p Hp%Hps. destruct (take_sorted _ (Z.to_nat (fq_limit q)) _ p Hsort Hp) as [?|[Hl Hy]];
      [by left|right]. split; [done|]. intros p' Hp'. specialize (Hy p' Hp'). lia.
Qed.
End feed.

(** ** Likes *)

(** No author likes a post twice: the unique index of the table. *)
Definition unique_targets (d : Db) : Prop :=
  forall a i i' r r', interactions d !! (a, i) = Some r -> interactions d !! (a, i') = Some r' ->
    iw_kind r = iw_kind r' -> iw_target_post_id r = iw_target_post_id r' -> i = i'.

Lemma same_target_true a k t kr :
  same_target a k t kr = true <-> kr.1.1 = a /\ iw_kind kr.2 = k /\ iw_target_post_id kr.2 = t.
Proof.
  unfold same_target. rewrite !andb_true_iff, !bool_decide_eq_true. tauto.
Qed.

Lemma save_interaction_unique i d : unique_targets d -> unique_targets (save_interaction i d).
Proof.
  intros Hu. unfold save_interaction. destruct (Z.ltb_spec 0 (sql_count
    (same_target (in_author i) (kind_str (in_kind i)) (in_target_post_id i)) (interactions d)))
    as [|Hno]; [done|].
  assert (forall j r, interactions d !! (in_author i, j) = Some r ->
    iw_kind r = kind_str (in_kind i) -> iw_target_post_id r = in_target_post_id i -> False) as Hnone.
  { intros j r Hj Hk Ht. assert (0 < sql_count (same_target (in_author i) (kind_str (in_kind i))
      (in_target_post_id i)) (interactions d)); [|lia].
    apply sql_count_pos. exists (in_author i, j), r. split; [done|]. by apply same_target_true. }
  intros a j j' r r'. cbn. rewrite !lookup_insert_or_ignore.
  destruct (interactions d !! (in_author i, in_id i)) as [r0|] eqn:E.
  - repeat case_decide; simplify_eq; try done; intros; try (by eapply Hu);
      simplify_eq; by eapply Hu.
  - repeat case_decide; simplify_eq; try done; cbn; intros; simplify_eq; try (by eapply Hu);
      exfalso; eapply Hnone; cbn in *; eauto.
Qed.

(** The authors who like a post. *)
Definition likers (d : Db) (post_id : string) : list string :=
  (fun kr => kr.1.1) <$> filter (fun kr : interaction_rec =>
    bool_decide (iw_target_post_id kr.2 = post_id) && bool_decide (iw_kind kr.2 = "Like"%string))
    (map_to_list (interactions d)).

Lemma likers_NoDup d id : unique_targets d -> NoDup (likers d id).
Proof.
  intros Hu. unfold likers.
  assert (forall k r, (k, r) ∈ map_to_list (interactions d) -> interactions d !! k = Some r) as Hl
    by (intros k r; by rewrite elem_of_map_to_list).
  pose proof (NoDup_fst_map_to_list (interactions d)) as Hnd. revert Hl Hnd.
  generalize (map_to_list (interactions d)). intros l Hl Hnd.
  induction l as [|[[a i] r] l IH]; [constructor|]. cbn in Hnd. apply NoDup_cons in Hnd as [Hx Hnd].
  rewrite filter_cons. case_decide as Hp; [|apply IH; [intros; apply Hl; by right|done]].
  cbn. apply NoDup_cons. split; [|apply IH; [intros; apply Hl; by right|done]].
  intros ([[a' i'] r'] & Ha & Hin)%list_elem_of_fmap. cbn in Ha. subst a'.
  apply list_elem_of_filter in Hin as [Hp' Hin].
  apply Is_true_true, andb_prop in Hp as [H1%bool_decide_eq_true H2%bool_decide_eq_true].
  apply Is_true_true, andb_prop in Hp' as [H3%bool_decide_eq_true H4%bool_decide_eq_true]. cbn in *.
  assert (i = i') as <-.
  { eapply (Hu a i i' r r'); [apply Hl; by left|apply Hl; by right|congruence..]. }
  apply Hx. by apply (list_elem_of_fmap_2 fst) in Hin.
Qed.

Lemma elem_of_likers d id a :
  a ∈ likers d id <-> 0 < sql_count (same_target a "Like" id) (interactions d).
Proof.
  unfold likers. rewrite sql_count_pos, list_elem_of_fmap. split.
  - intros ([[a' i] r] & -> & Hin). apply list_elem_of_filter in Hin as [Hp Hin%elem_of_map_to_list].
    apply Is_true_true, andb_prop in Hp as [H1%bool_decide_eq_true H2%bool_decide_eq_true].
    exists (a', i), r. split; [done|]. by apply same_target_true.
  - intros ([a' i] & r & Hr & (Ha & Hk & Ht)%same_target_true). cbn in *. subst a'.
    exists (a, i, r). split; [done|]. apply list_elem_of_filter.
    split; [|by apply elem_of_map_to_list]. cbn. by rewrite !bool_decide_eq_true_2.
Qed.

(** ** Theorems *)

(** C13: the feed never fails and shows exactly the newest visible posts: at most
    [limit] of them, without duplicates, newest first, all older than the bound
    and by authors that are neither muted nor blocked; a visible post is left out
    only when the page is full of posts at least as new. *)
Theorem feed_correct `{SqlOrder, !SqlOrderLaws, !Serde (list MediaAttachment),
    !SerdeLaws (list MediaAttachment)} (d : Db) (q : FeedQuery) :
  posts_ok d -> 0 <= fq_limit q < 2 ^ 63 ->
  exists l, get_feed d q = Ok l /\ feed_page d (fq_before q) (Z.to_nat (fq_limit q)) l.
Proof. apply get_feed_page. Qed.

(** [delete_post] removes every post with the id, whoever wrote it, and the
    notifications that refer to the id; every other post and notification, and
    every other table, stays; it reports whether there was a post.  (The table's
    key is the author and the id together.) *)
Theorem delete_post_all_authors (id : string) (d : Db) :
  let '(d', deleted) := delete_post id d in
  (forall a i, posts d' !! (a, i) = if decide (i = id) then None else posts d !! (a, i)) /\
  (forall n row, notifications d' !! n = Some row <->
     notifications d !! n = Some row /\ nw_post_id row <> Some id /\ nw_target_post_id row <> Some id) /\
  (deleted = true <-> exists a, is_Some (posts d !! (a, id))) /\
  set_posts (posts d) (set_notifications (notifications d) d') = d.
Proof.
  unfold delete_post. cbn. split_and!.
  - intros a i. rewrite lookup_sql_delete. destruct (posts d !! (a, i)); cbn; [|by case_decide].
    by case_bool_decide; case_decide.
  - intros n row. rewrite sql_delete_Some. cbn. rewrite orb_false_iff, !bool_decide_eq_false. tauto.
  - rewrite Z.ltb_lt, sql_count_pos. split.
    + intros ([a i] & r & Hr & Hi%bool_decide_eq_true). cbn in Hi. subst i. eauto.
    + intros (a & r & Hr). exists (a, id), r. split; [done|]. by apply bool_decide_eq_true.
  - by destruct d.
Qed.

(** likes are counted once per author: saving interactions keeps the unique
    index, so the number of likes of a post is the number of distinct authors who
    like it, the user's own like is one of them, and liking again changes
    nothing. *)
Theorem likes_count_authors `{SqlOrder} (d : Db) (i : Interaction) (me id : string) :
  unique_targets d ->
  unique_targets (save_interaction i d) /\
  (let c := get_post_counts d me id in
   NoDup (likers d id) /\ pc_likes c = as_u32 (Z.of_nat (length (likers d id))) /\
   (pc_liked_by_me c = true <-> me ∈ likers d id)) /\
  (in_author i ∈ likers d (in_target_post_id i) -> save_interaction i d = d).
Proof.
  intros Hu. split; [by apply save_interaction_unique|]. split.
  - cbn. split_and!.
    + by apply likers_NoDup.
    + unfold likers. by rewrite length_fmap.
    + by rewrite Z.ltb_lt, elem_of_likers.
  - rewrite elem_of_likers. intros Hl. unfold save_interaction. destruct (in_kind i).
    cbn [kind_str]. by rewrite (proj2 (Z.ltb_lt _ _) Hl).
Qed.

(** ** Witnesses *)

Definition post_by (a id : string) (t : Z) : Post :=
  {| post_id := id; post_author := a; post_content := "x"; post_timestamp := t;
     post_media := []; post_reply_to := None; post_reply_to_author := None;
     post_quote_of := None; post_quote_of_author := None; post_signature := "" |}.

Definition sample_db : Db :=
  block_user 1 "mallory" (insert_post (post_by "mallory" "p1" 30)
    (insert_post (post_by "bob" "p1" 20) (insert_post (post_by "alice" "p0" 10) empty_db))).

Lemma sample_db_ok : posts_ok sample_db.
Proof.
  assert (posts_ok empty_db) as H0 by (intros k row; cbn; by rewrite lookup_empty).
  unfold posts_ok. cbn [sample_db block_user moderate set_moderation posts].
  do 3 (apply insert_post_ok; [vm_compute; split; [discriminate|reflexivity]|]). exact H0.
Qed.

Definition sample_query : FeedQuery := {| fq_limit := 1; fq_before := None |}.

(** Mallory's newer post is hidden; Bob's fills the page. *)
Lemma feed_correct_witness :
  get_feed sample_db sample_query = Ok [post_by "bob" "p1" 20] /\
  exists l, get_feed sample_db sample_query = Ok l /\ feed_page sample_db None 1 l.
Proof.
  split; [vm_compute; reflexivity|].
  apply (feed_correct sample_db sample_query); [apply sample_db_ok|vm_compute; split; congruence].
Defined.

Definition like_by (a id : string) : Interaction :=
  {| in_id := id; in_author := a; in_kind := Like; in_target_post_id := "p1";
     in_target_author := "bob"; in_timestamp := 40; in_signature := "" |}.

Lemma likes_count_authors_witness :
  let d := save_interaction (like_by "carol" "i1") sample_db in
  pc_likes (get_post_counts d "me" "p1") = 1 /\ save_interaction (like_by "carol" "i2") d = d.
Proof.
  split; [vm_compute; reflexivity|].
  apply (likes_count_authors (save_interaction (like_by "carol" "i1") sample_db)
    (like_by "carol" "i2") "me" "p1").
  - apply save_interaction_unique. intros a i i' r r' Hr. by vm_compute in Hr.
  - vm_compute. left.
Defined.
