(* ===== verification/Peers.v ===== *)
(** * Peers and linked devices

    Model of [src-tauri/src/storage/peer_delegations.rs], [linked_devices.rs]
    and [ratchet.rs]. *)

From S2P Require Import Prelude Types Store Social Moderation Notifications.

Local Open Scope Z_scope.

Record LinkBundleData : Type := {
  lb_signing_secret_key : string;
  lb_dm_secret_key : string;
  lb_delegation : SigningKeyDelegation;
  lb_transport_secret_key : string;
  lb_device_index : Z; (* u32 *)
  lb_master_secret_key : option string;
  lb_profile : option Profile;
  lb_follows : list SocialGraphEntry;
  lb_bookmarks : list string;
  lb_blocked_users : list string;
  lb_muted_users : list string;
  lb_ratchet_sessions : list RatchetSessionExport;
}.

(** ** ratchet.rs *)

Definition save_ratchet_session (peer_pubkey state_json : string) (updated_at : Z) (d : Db) : Db :=
  set_dm_ratchet_sessions
    (<[peer_pubkey := {| rr_state_json := state_json; rr_updated_at := as_i64 updated_at |}]>
       (dm_ratchet_sessions d)) d.

Definition get_ratchet_session (d : Db) (peer_pubkey : string) : option string :=
  rr_state_json <$> dm_ratchet_sessions d !! peer_pubkey.

(** ** peer_delegations.rs *)

Section delegations.
Context `{SqlOrder, !Serde SigningKeyDelegation, !Serde (list string)}.

Definition cache_peer_identity (now : Z) (response : IdentityResponse) (d : Db) : Db :=
  set_peer_delegations
    (<[ir_master_pubkey response :=
         {| pd_signing_pubkey := dl_signing_pubkey (ir_delegation response);
            pd_dm_pubkey := dl_dm_pubkey (ir_delegation response);
            pd_delegation_json := to_json (ir_delegation response);
            pd_transport_node_ids_json := to_json (ir_transport_node_ids response);
            pd_cached_at := as_i64 now |}]> (peer_delegations d)) d.

Definition get_peer_delegation (d : Db) (master_pubkey : string)
    : result AppError (option SigningKeyDelegation) :=
  match peer_delegations d !! master_pubkey with
  | Some r => dl ← from_json (pd_delegation_json r); Ok (Some dl)
  | None => Ok None
  end.

Definition get_peer_transport_node_ids (d : Db) (master_pubkey : string)
    : result AppError (list string) :=
  match peer_delegations d !! master_pubkey with
  | Some r => from_json (pd_transport_node_ids_json r)
  | None => Ok []
  end.

Definition get_master_pubkey_for_dm_pubkey (d : Db) (dm_pubkey : string) : option string :=
  fst <$> head (sql_select (fun kr => bool_decide (pd_dm_pubkey kr.2 = dm_pubkey)) no_order
                  (peer_delegations d)).

(** [json_each] fails the query at the first malformed row it reads; the error
    becomes [None]. *)
Fixpoint scan_transport (transport_id : string) (rows : list (string * PeerDelegationRow))
    : option string :=
  match rows with
  | [] => None
  | (master_pubkey, r) :: rest =>
      match from_json (pd_transport_node_ids_json r) with
      | Ok ids => if decide (transport_id ∈ (ids : list string)) then Some master_pubkey
                  else scan_transport transport_id rest
      | Err _ => None
      end
  end.

Definition get_master_pubkey_for_transport (d : Db) (transport_id : string) : option string :=
  scan_transport transport_id (sql_select (fun _ => true) no_order (peer_delegations d)).

Definition get_peer_signing_pubkey (d : Db) (master_pubkey : string) : option string :=
  pd_signing_pubkey <$> peer_delegations d !! master_pubkey.

Definition get_peer_dm_pubkey (d : Db) (master_pubkey : string) : option string :=
  match pd_dm_pubkey <$> peer_delegations d !! master_pubkey with
  | Some pubkey => if decide (pubkey = ""%string) then None else Some pubkey
  | None => None
  end.
End delegations.

(** ** linked_devices.rs *)

Section devices.
Context `{SqlOrder, !Serde LinkedDevicesAnnouncement, !Serde (list string)}.

Definition upsert_linked_device (now : Z) (node_id device_name : string)
    (is_primary is_self : bool) (added_at : Z) (d : Db) : Db :=
  set_linked_devices
    (upsert node_id
       {| ld_device_name := device_name; ld_is_primary := is_primary; ld_is_self := is_self;
          ld_added_at := as_i64 added_at; ld_last_seen_at := as_i64 now |}
       (fun r => {| ld_device_name := device_name; ld_is_primary := is_primary;
                    ld_is_self := is_self; ld_added_at := ld_added_at r;
                    ld_last_seen_at := as_i64 now |})
       (linked_devices d)) d.

Definition get_linked_devices (d : Db) : list DeviceEntry :=
  (fun kr => {| de_node_id := kr.1; de_device_name := ld_device_name kr.2;
                de_is_primary := ld_is_primary kr.2; de_added_at := as_u64 (ld_added_at kr.2) |}) <$>
    sql_select (fun _ => true) (fun kr => ld_added_at kr.2) (linked_devices d).

Definition cache_peer_device_announcement (now : Z) (master_pubkey : string)
    (announcement : LinkedDevicesAnnouncement) (d : Db) : Db :=
  let d1 := set_peer_device_announcements
    (<[master_pubkey := {| ar_announcement_json := to_json announcement;
                           ar_version := as_i64 (an_version announcement);
                           ar_cached_at := as_i64 now |}]> (peer_device_announcements d)) d in
  let transport_ids := de_node_id <$> an_devices announcement in
  set_peer_delegations
    (sql_update (fun kr => bool_decide (kr.1 = master_pubkey))
       (fun r => {| pd_signing_pubkey := pd_signing_pubkey r; pd_dm_pubkey := pd_dm_pubkey r;
                    pd_delegation_json := pd_delegation_json r;
                    pd_transport_node_ids_json := to_json transport_ids;
                    pd_cached_at := pd_cached_at r |})
       (peer_delegations d1)) d1.

Definition get_peer_announcement_version (d : Db) (master_pubkey : string) : option Z :=
  (fun r => as_u64 (ar_version r)) <$> peer_device_announcements d !! master_pubkey.

Definition next_device_index (d : Db) : Z :=
  as_u32 (sql_count (fun _ => true) (linked_devices d)).

Definition get_all_bookmark_ids (d : Db) : list string :=
  fst <$> sql_select (fun _ => true) (fun kr => - kr.2) (bookmarks d).

Definition export_ratchet_sessions (d : Db) : list RatchetSessionExport :=
  (fun kr => {| rx_peer_pubkey := kr.1; rx_state_json := rr_state_json kr.2;
                rx_updated_at := as_u64 (rr_updated_at kr.2) |}) <$>
    sql_select (fun _ => true) no_order (dm_ratchet_sessions d).

(** [b64] is the standard base64 encoder. *)
Definition export_link_bundle (b64 : bytes -> string) (d : Db) (master_pubkey : string)
    (signing_secret_key_bytes dm_secret_key_bytes : bytes) (delegation : SigningKeyDelegation)
    (transport_secret_key_bytes : bytes) (device_index : Z)
    (master_secret_key_bytes : option bytes) : LinkBundleData :=
  {| lb_signing_secret_key := b64 signing_secret_key_bytes;
     lb_dm_secret_key := b64 dm_secret_key_bytes;
     lb_delegation := delegation;
     lb_transport_secret_key := b64 transport_secret_key_bytes;
     lb_device_index := device_index;
     lb_master_secret_key := b64 <$> master_secret_key_bytes;
     lb_profile := get_profile d master_pubkey;
     lb_follows := default [] (res_ok (get_follows d master_pubkey));
     lb_bookmarks := get_all_bookmark_ids d;
     lb_blocked_users := get_blocked_pubkeys d;
     lb_muted_users := get_muted_pubkeys d;
     lb_ratchet_sessions := export_ratchet_sessions d |}.

Definition import_link_bundle (now : Z) (master_pubkey : string) (bundle : LinkBundleData)
    (d : Db) : Db :=
  let d := match lb_profile bundle with
           | Some profile => save_profile master_pubkey profile d
           | None => d
           end in
  let d := fold_left (fun d f => follow now master_pubkey f d) (lb_follows bundle) d in
  let d := fold_left (fun d id => (toggle_bookmark now id d).1) (lb_bookmarks bundle) d in
  let d := fold_left (fun d pk => block_user now pk d) (lb_blocked_users bundle) d in
  let d := fold_left (fun d pk => mute_user now pk d) (lb_muted_users bundle) d in
  fold_left (fun d s => save_ratchet_session (rx_peer_pubkey s) (rx_state_json s) now d)
    (lb_ratchet_sessions bundle) d.

Definition get_other_device_node_ids (d : Db) : list string :=
  fst <$> sql_select (fun kr => negb (ld_is_self kr.2)) (fun kr => ld_added_at kr.2)
            (linked_devices d).
End devices.
