(* ===== verification/Messaging.v ===== *)
(** * Stored direct messages

    Model of [src-tauri/src/storage/messaging.rs].  The constraints of
    [007_direct_messages.sql] are part of it: [peer_pubkey] is unique among the
    conversations, and a message refers to an existing conversation. *)

From S2P Require Import Prelude Types Store Peers.

Local Open Scope Z_scope.

(** [last_message_at=?3, last_message_preview=?4]. *)
Definition set_cw_last (at_ : Z) (preview : string) (r : ConversationRow) : ConversationRow :=
  {| cw_peer_pubkey := cw_peer_pubkey r; cw_last_message_at := at_;
     cw_last_message_preview := preview; cw_unread_count := cw_unread_count r;
     cw_created_at := cw_created_at r |}.
Definition set_cw_unread (n : Z) (r : ConversationRow) : ConversationRow :=
  {| cw_peer_pubkey := cw_peer_pubkey r; cw_last_message_at := cw_last_message_at r;
     cw_last_message_preview := cw_last_message_preview r; cw_unread_count := n;
     cw_created_at := cw_created_at r |}.
Definition set_mw_flags (read delivered : bool) (r : MessageRow) : MessageRow :=
  {| mw_conversation_id := mw_conversation_id r; mw_from_pubkey := mw_from_pubkey r;
     mw_to_pubkey := mw_to_pubkey r; mw_content := mw_content r; mw_timestamp := mw_timestamp r;
     mw_media_json := mw_media_json r; mw_read := read; mw_delivered := delivered;
     mw_reply_to := mw_reply_to r |}.

Section messaging.
Context `{Sha, SqlOrder, !Serde (list MediaAttachment)}.

Definition conversation_id (pubkey_a pubkey_b : string) : string :=
  let '(k0, k1) := if String.leb pubkey_a pubkey_b then (pubkey_a, pubkey_b)
                   else (pubkey_b, pubkey_a) in
  sha256_hex (str_bytes "proscenium-dm-v1:" ++ str_bytes k0 ++ str_bytes ":" ++ str_bytes k1).

(** The [INSERT INTO dm_conversations ... ON CONFLICT(conversation_id) DO
    UPDATE]: the unique [peer_pubkey] is checked when the row is new. *)
Definition put_conversation (conv_id peer_pubkey : string) (last_message_at : Z)
    (preview : string) (d : Db) : result AppError Db :=
  match dm_conversations d !! conv_id with
  | Some r =>
      Ok (set_dm_conversations (<[conv_id := set_cw_last last_message_at preview r]>
            (dm_conversations d)) d)
  | None =>
      _ ← bail_if (0 <? sql_count (fun kr => bool_decide (cw_peer_pubkey kr.2 = peer_pubkey))
                    (dm_conversations d)) Sqlx;
      Ok (set_dm_conversations
            (<[conv_id := {| cw_peer_pubkey := peer_pubkey; cw_last_message_at := last_message_at;
                             cw_last_message_preview := preview; cw_unread_count := 0;
                             cw_created_at := last_message_at |}]> (dm_conversations d)) d)
  end.

Definition upsert_conversation (peer_pubkey my_pubkey : string) (last_message_at : Z)
    (preview : string) (d : Db) : result AppError Db :=
  put_conversation (conversation_id my_pubkey peer_pubkey) peer_pubkey
    (as_i64 last_message_at) preview d.

Definition get_conversations (d : Db) : list ConversationMeta :=
  (fun kr => {| cm_peer_pubkey := cw_peer_pubkey kr.2;
                cm_last_message_at := as_u64 (cw_last_message_at kr.2);
                cm_last_message_preview := cw_last_message_preview kr.2;
                cm_unread_count := as_u32 (cw_unread_count kr.2) |}) <$>
    sql_select (fun _ => true) (fun kr => - cw_last_message_at kr.2) (dm_conversations d).

Definition mark_conversation_read (peer_pubkey my_pubkey : string) (d : Db) : Db :=
  let conv_id := conversation_id my_pubkey peer_pubkey in
  let d := set_dm_conversations
    (sql_update (fun kr => bool_decide (kr.1 = conv_id)) (set_cw_unread 0)
       (dm_conversations d)) d in
  set_dm_messages
    (sql_update (fun kr => bool_decide (mw_conversation_id kr.2 = conv_id) && negb (mw_read kr.2))
       (fun r => set_mw_flags true (mw_delivered r) r) (dm_messages d)) d.

Definition message_to_row (msg : StoredMessage) : MessageRow :=
  {| mw_conversation_id := st_conversation_id msg; mw_from_pubkey := st_from_pubkey msg;
     mw_to_pubkey := st_to_pubkey msg; mw_content := st_content msg;
     mw_timestamp := as_i64 (st_timestamp msg); mw_media_json := to_json (st_media msg);
     mw_read := st_read msg; mw_delivered := st_delivered msg; mw_reply_to := st_reply_to msg |}.

(** [INSERT OR IGNORE]: a taken id is ignored; a missing conversation is a
    foreign-key error, which [OR IGNORE] does not cover. *)
Definition insert_dm_message (msg : StoredMessage) (d : Db) : result AppError Db :=
  match dm_messages d !! st_id msg with
  | Some _ => Ok d
  | None =>
      _ ← ok_or (dm_conversations d !! st_conversation_id msg) Sqlx;
      Ok (set_dm_messages (<[st_id msg := message_to_row msg]> (dm_messages d)) d)
  end.

Definition row_to_stored_message (kr : string * MessageRow) : result AppError StoredMessage :=
  media ← from_json (mw_media_json kr.2);
  Ok {| st_id := kr.1; st_conversation_id := mw_conversation_id kr.2;
        st_from_pubkey := mw_from_pubkey kr.2; st_to_pubkey := mw_to_pubkey kr.2;
        st_content := mw_content kr.2; st_timestamp := as_u64 (mw_timestamp kr.2);
        st_media := media; st_read := mw_read kr.2; st_delivered := mw_delivered kr.2;
        st_reply_to := mw_reply_to kr.2 |}.

Definition get_dm_messages (d : Db) (conv_id : string) (limit : Z) (before : option Z)
    : result AppError (list StoredMessage) :=
  messages ← decode_all row_to_stored_message
    (sql_limit (as_i64 limit)
       (sql_select (fun kr => bool_decide (mw_conversation_id kr.2 = conv_id) &&
                              match before with
                              | Some b => mw_timestamp kr.2 <? as_i64 b
                              | None => true
                              end)
          (fun kr => - mw_timestamp kr.2) (dm_messages d)));
  Ok (reverse messages).

Definition mark_dm_delivered (message_id : string) (d : Db) : Db :=
  set_dm_messages (sql_update (fun kr => bool_decide (kr.1 = message_id))
    (fun r => set_mw_flags (mw_read r) true r) (dm_messages d)) d.

Definition mark_dm_read_by_id (message_id : string) (d : Db) : Db :=
  set_dm_messages (sql_update (fun kr => bool_decide (kr.1 = message_id))
    (fun r => set_mw_flags true (mw_delivered r) r) (dm_messages d)) d.

Definition delete_dm_message (message_id : string) (d : Db) : Db * bool :=
  (set_dm_messages (delete message_id (dm_messages d)) d,
   bool_decide (is_Some (dm_messages d !! message_id))).

Definition get_total_unread_count (d : Db) : Z :=
  as_u32 (fold_right Z.add 0 ((fun kr => cw_unread_count kr.2) <$> map_to_list (dm_conversations d))).

Definition insert_outbox_message (id peer_pubkey envelope_json : string) (created_at : Z)
    (message_id : string) (d : Db) : result AppError Db :=
  _ ← bail_if (bool_decide (is_Some (dm_outbox d !! id))) Sqlx;
  Ok (set_dm_outbox
        (<[id := {| ob_peer_pubkey := peer_pubkey; ob_envelope_json := envelope_json;
                    ob_created_at := as_i64 created_at; ob_message_id := message_id |}]>
           (dm_outbox d)) d).

Definition get_all_outbox_messages (d : Db) : list (string * string * string * string) :=
  (fun kr => (kr.1, ob_peer_pubkey kr.2, ob_envelope_json kr.2, ob_message_id kr.2)) <$>
    sql_select (fun _ => true) (fun kr => ob_created_at kr.2) (dm_outbox d).

Definition remove_outbox_message (id : string) (d : Db) : Db :=
  set_dm_outbox (delete id (dm_outbox d)) d.

(** One transaction: on [Err] nothing was written. *)
Definition receive_dm_message_atomically (peer_signing_pubkey peer_master_pubkey ratchet_state : string)
    (ratchet_updated_at : Z) (message : StoredMessage) (preview : string) (d : Db)
    : result AppError Db :=
  let conv_id := st_conversation_id message in
  let d := save_ratchet_session peer_signing_pubkey ratchet_state ratchet_updated_at d in
  d ← put_conversation conv_id peer_master_pubkey (as_i64 (st_timestamp message)) preview d;
  d ← insert_dm_message message d;
  Ok (set_dm_conversations
        (sql_update (fun kr => bool_decide (kr.1 = conv_id))
           (fun r => set_cw_unread (cw_unread_count r + 1) r) (dm_conversations d)) d).
End messaging.
