(* ===== verification/Merge.v ===== *)
(** * Merging the state of linked devices

    Model of [src-tauri/src/storage/device_sync.rs]: the sync vector, and the
    last-writer-wins merges of follows, moderation and ratchet sessions. *)

From S2P Require Import Prelude Types Store Social Moderation Peers.

Local Open Scope Z_scope.

(** [entry.last_changed_at > local_ts as u64], or there is no local row. *)
Definition newer (remote_ts : Z) (local : option Z) : bool :=
  match local with Some local_ts => as_u64 local_ts <? remote_ts | None => true end.

(** One round of the loop of [merge_follows_lww]. *)
Definition merge_follow (me : string) (acc : Db * Z) (entry : FollowEntry) : Db * Z :=
  let '(d, merged) := acc in
  let k := (me, fe_pubkey entry) in
  if newer (fe_last_changed_at entry) (sr_last_changed_at <$> social_graph d !! k) then
    (set_social_graph
       (upsert k
          (followed_row (as_i64 (fe_followed_at entry)) (fe_state entry)
             (as_i64 (fe_last_changed_at entry)))
          (set_sr_followed (as_i64 (fe_followed_at entry)) (fe_state entry)
             (as_i64 (fe_last_changed_at entry)))
          (social_graph d)) d,
     add_u32 merged 1)
  else (d, merged).

Definition merge_follows_lww (me : string) (entries : list FollowEntry) (d : Db) : Db * Z :=
  fold_left (merge_follow me) entries (d, 0).

Definition merge_mod (acc : Db * Z) (entry : ModerationEntry) : Db * Z :=
  let '(d, merged) := acc in
  let k := (me_pubkey entry, me_kind entry) in
  if newer (me_last_changed_at entry) (mr_last_changed_at <$> moderation d !! k) then
    (set_moderation
       (<[k := {| mr_created_at := as_i64 (me_created_at entry); mr_state := me_state entry;
                  mr_last_changed_at := as_i64 (me_last_changed_at entry) |}]> (moderation d)) d,
     add_u32 merged 1)
  else (d, merged).

Definition merge_moderation_lww (entries : list ModerationEntry) (d : Db) : Db * Z :=
  fold_left merge_mod entries (d, 0).

Definition merge_bookmark (now : Z) (acc : Db * Z) (post_id : string) : Db * Z :=
  let '(d, added) := acc in
  if is_bookmarked d post_id then (d, added)
  else (set_bookmarks (<[post_id := as_i64 now]> (bookmarks d)) d, add_u32 added 1).

Definition merge_bookmarks (now : Z) (post_ids : list string) (d : Db) : Db * Z :=
  fold_left (merge_bookmark now) post_ids (d, 0).

Definition merge_session (acc : Db * Z) (session : RatchetSessionExport) : Db * Z :=
  let '(d, merged) := acc in
  let k := rx_peer_pubkey session in
  let remote_ts := as_i64 (rx_updated_at session) in
  let should_update := match rr_updated_at <$> dm_ratchet_sessions d !! k with
                       | Some local_ts => local_ts <? remote_ts
                       | None => true
                       end in
  if should_update then
    (set_dm_ratchet_sessions
       (<[k := {| rr_state_json := rx_state_json session; rr_updated_at := remote_ts |}]>
          (dm_ratchet_sessions d)) d,
     add_u32 merged 1)
  else (d, merged).

Definition merge_ratchet_sessions_lww (sessions : list RatchetSessionExport) (d : Db) : Db * Z :=
  fold_left merge_session sessions (d, 0).

Section vector.
Context `{SqlOrder}.

(** [SELECT COALESCE(MAX(c), 0) ...]. *)
Definition coalesce_max (l : list Z) : Z := default 0 (sql_max l).

Definition build_device_sync_vector (d : Db) (master_pubkey : string) : DeviceSyncVector :=
  let own_posts := filter (fun kr => bool_decide (kr.1.1 = master_pubkey)) (map_to_list (posts d)) in
  let own_ints :=
    filter (fun kr => bool_decide (kr.1.1 = master_pubkey)) (map_to_list (interactions d)) in
  {| sv_post_count := Z.of_nat (length own_posts);
     sv_newest_post_ts := as_u64 (coalesce_max ((fun kr => pw_timestamp kr.2) <$> own_posts));
     sv_interaction_count := Z.of_nat (length own_ints);
     sv_newest_interaction_ts := as_u64 (coalesce_max ((fun kr => iw_timestamp kr.2) <$> own_ints));
     sv_follows :=
       (fun kr => {| fe_pubkey := kr.1.2; fe_followed_at := as_u64 (default 0 (sr_followed_at kr.2));
                     fe_state := sr_state kr.2;
                     fe_last_changed_at := as_u64 (sr_last_changed_at kr.2) |}) <$>
         sql_select (fun kr => bool_decide (kr.1.1 = master_pubkey) &&
                               bool_decide (is_Some (sr_followed_at kr.2))) no_order (social_graph d);
     sv_moderation :=
       (fun kr => {| me_pubkey := kr.1.1; me_kind := kr.1.2;
                     me_created_at := as_u64 (mr_created_at kr.2); me_state := mr_state kr.2;
                     me_last_changed_at := as_u64 (mr_last_changed_at kr.2) |}) <$>
         sql_select (fun _ => true) no_order (moderation d);
     sv_bookmarks := get_all_bookmark_ids d;
     sv_ratchet_summaries :=
       (fun kr => {| rs_peer_pubkey := kr.1; rs_updated_at := as_u64 (rr_updated_at kr.2) |}) <$>
         sql_select (fun _ => true) no_order (dm_ratchet_sessions d);
     sv_dm_newest_ts :=
       as_u64 (coalesce_max ((fun kr => mw_timestamp kr.2) <$> map_to_list (dm_messages d))) |}.
End vector.
