(* ===== verification/Handler.v ===== *)
(** * Handlers

    A handler reads and writes the database, emits events to the user
    interface, and can panic: slicing a string in [short_id] for a log line does
    when byte 8 is inside a character (the application logs at level [Info], so
    the arguments are evaluated). *)

From S2P Require Import Prelude Types Validation Store.

Local Open Scope Z_scope.

(** ** The handler monad *)

(** What a handler leaves: its value, the database and the events; or the
    database and the events of a task that panicked. *)
Inductive outcome (A : Type) : Type :=
| Done (r : A * Db * list string)
| Panicked (d : Db) (ev : list string).
Arguments Done {A} r.
Arguments Panicked {A} d ev.

Definition handler (A : Type) : Type := Db -> outcome A.

(** What comes after [ev]. *)
Definition after {A} (ev : list string) (o : outcome A) : outcome A :=
  match o with
  | Done (a, d, ev') => Done (a, d, ev ++ ev')
  | Panicked d ev' => Panicked d (ev ++ ev')
  end.

#[export] Instance handler_ret : MRet handler := fun A a d => Done (a, d, []).
#[export] Instance handler_bind : MBind handler := fun A B f m d =>
  match m d with
  | Done (a, d1, ev) => after ev (f a d1)
  | Panicked d1 ev => Panicked d1 ev
  end.

Definition get_db : handler Db := fun d => Done (d, d, []).
Definition modify (f : Db -> Db) : handler unit := fun d => Done (tt, f d, []).
Definition emit (event : string) : handler unit := fun d => Done (tt, d, [event]).
(** [short_id(s)] in the arguments of a log call. *)
Definition log_short (s : string) : handler unit :=
  fun d => match short_id s with Some _ => Done (tt, d, []) | None => Panicked d [] end.

(** The database at the end of a task. *)
Definition end_db {A} (o : outcome A) : Db :=
  match o with Done (_, d, _) | Panicked d _ => d end.
(** The task did not panic. *)
Definition returned {A} (o : outcome A) : Prop := exists r, o = Done r.

Definition panicked {A} (o : outcome A) : Prop := exists d ev, o = Panicked d ev.

(** The value and the events of a task that returned. *)
Definition answer {A} (o : outcome A) : option (A * list string) :=
  match o with Done (a, _, ev) => Some (a, ev) | Panicked _ _ => None end.
Lemma answer_done {A} (o : outcome A) a ev : answer o = Some (a, ev) -> o = Done (a, end_db o, ev).
Proof. destruct o as [[[??]?]|]; [|done]. by intros [= -> ->]. Qed.

Definition result_of {A} (o : outcome A) (default : A) : A :=
  match o with Done (a, _, _) => a | Panicked _ _ => default end.
Definition events_of {A} (o : outcome A) : list string :=
  match o with Done (_, _, ev) | Panicked _ ev => ev end.
Lemma run_parts {A} (o : outcome A) x : returned o -> o = Done (result_of o x, end_db o, events_of o).
Proof. by intros [[[a d] ev] ->]. Qed.

(** ** Running a handler *)

Lemma after_nil {A} (o : outcome A) : after [] o = o.
Proof. by destruct o as [[[??]?]|]. Qed.
Lemma end_db_after {A} ev (o : outcome A) : end_db (after ev o) = end_db o.
Proof. by destruct o as [[[??]?]|]. Qed.

Lemma run_get {B} (f : Db -> handler B) d : (get_db ≫= f) d = f d d.
Proof. apply after_nil. Qed.
Lemma run_modify {B} g (f : unit -> handler B) d : (modify g ≫= f) d = f tt (g d).
Proof. apply after_nil. Qed.
Lemma run_log {B} s (f : unit -> handler B) d :
  (log_short s ≫= f) d = match short_id s with Some _ => f tt d | None => Panicked d [] end.
Proof. unfold mbind, handler_bind, log_short. destruct (short_id s); [apply after_nil|done]. Qed.
Lemma run_emit {B} e (f : unit -> handler B) d : (emit e ≫= f) d = after [e] (f tt d).
Proof. done. Qed.
Lemma run_bind {A B} (m : handler A) (f : A -> handler B) d :
  (m ≫= f) d = match m d with
               | Done (a, d1, ev1) => after ev1 (f a d1)
               | Panicked d1 ev1 => Panicked d1 ev1
               end.
Proof. done. Qed.
(** A handler that returns is a handler whose parts return. *)
Lemma after_done {A} ev (o : outcome A) a d ev' :
  after ev o = Done (a, d, ev') -> exists ev1, o = Done (a, d, ev1) /\ ev' = ev ++ ev1.
Proof. destruct o as [[[??]?]|]; [|done]. intros [= <- <- <-]. by eexists. Qed.
Lemma bind_done {A B} (m : handler A) (f : A -> handler B) d b d' ev :
  (m ≫= f) d = Done (b, d', ev) ->
  exists a d1 ev1 ev2, m d = Done (a, d1, ev1) /\ f a d1 = Done (b, d', ev2) /\ ev = ev1 ++ ev2.
Proof.
  rewrite run_bind. destruct (m d) as [[[a d1] ev1]|]; [|done].
  intros (ev2 & E & ->)%after_done. by repeat eexists.
Qed.

Lemma end_db_log s d : end_db (log_short s d) = d.
Proof. unfold log_short. by case_match. Qed.
Lemma end_db_bind {A B} (m : handler A) (f : A -> handler B) d :
  (forall a d1, end_db (f a d1) = d1) -> end_db ((m ≫= f) d) = end_db (m d).
Proof. intros Hf. rewrite run_bind. destruct (m d) as [[[??]?]|]; [|done]. by rewrite end_db_after. Qed.

Create Rewrite HintDb run.
#[export] Hint Rewrite @run_get @run_modify @run_log @run_emit : run.

(** [m] relates every state it starts from to the one it ends in, even when it
    panics half-way. *)
Definition always (R : Db -> Db -> Prop) {A} (m : handler A) : Prop := forall d, R d (end_db (m d)).

Lemma always_done (R : Db -> Db -> Prop) {A} (m : handler A) d a d' ev :
  always R m -> m d = Done (a, d', ev) -> R d d'.
Proof. intros Hm E. specialize (Hm d). by rewrite E in Hm. Qed.

Section always.
Context (R : Db -> Db -> Prop) `{!Reflexive R, !Transitive R}.

Lemma always_ret {A} (a : A) : always R (mret a).
Proof. by intros d. Qed.
Lemma always_bind {A B} (m : handler A) (f : A -> handler B) :
  always R m -> (forall a, always R (f a)) -> always R (m ≫= f).
Proof.
  intros Hm Hf d. rewrite run_bind. specialize (Hm d).
  destruct (m d) as [[[a d1] ev1]|]; [|done]. rewrite end_db_after. etransitivity; [exact Hm|apply Hf].
Qed.
Lemma always_get : always R get_db.
Proof. by intros d. Qed.
Lemma always_emit e : always R (emit e).
Proof. by intros d. Qed.
Lemma always_log s : always R (log_short s).
Proof. intros d. unfold log_short. by destruct (short_id s). Qed.
Lemma always_modify f : (forall d, R d (f d)) -> always R (modify f).
Proof. intros Hf d. apply Hf. Qed.
End always.

(** Runs the rules of [always] through the branches of a handler. *)
Ltac solve_always :=
  repeat lazymatch goal with
  | |- forall _, _ => intros ?
  | |- always _ (_ ≫= _) => apply always_bind; [tc_solve| |]
  | |- always _ (mret _) => apply always_ret; tc_solve
  | |- always _ get_db => apply always_get; tc_solve
  | |- always _ (emit _) => apply always_emit; tc_solve
  | |- always _ (log_short _) => apply always_log; tc_solve
  | |- always _ (modify _) => apply always_modify; intros ?
  | |- always _ (match _ with _ => _ end) => first [case_decide | case_match]
  | |- always _ _ => done
  end.

(** [m] never panics. *)
Definition total {A} (m : handler A) : Prop := forall d, returned (m d).

Lemma total_ret {A} (a : A) : total (mret a).
Proof. intros d. by eexists. Qed.
Lemma total_bind {A B} (m : handler A) (f : A -> handler B) :
  total m -> (forall a, total (f a)) -> total (m ≫= f).
Proof.
  intros Hm Hf d. rewrite run_bind. destruct (Hm d) as [[[a d1] ev1] ->].
  destruct (Hf a d1) as [[[b d2] ev2] ->]. by eexists.
Qed.
Lemma total_get : total get_db.
Proof. intros d. by eexists. Qed.
Lemma total_modify f : total (modify f).
Proof. intros d. by eexists. Qed.
Lemma total_emit e : total (emit e).
Proof. intros d. by eexists. Qed.
Lemma total_log s : is_Some (short_id s) -> total (log_short s).
Proof. intros [x Hx] d. unfold log_short. rewrite Hx. by eexists. Qed.

Ltac solve_total :=
  repeat lazymatch goal with
  | |- forall _, _ => intros ?
  | |- total (_ ≫= _) => apply total_bind
  | |- total (mret _) => apply total_ret
  | |- total get_db => apply total_get
  | |- total (emit _) => apply total_emit
  | |- total (log_short _) => apply total_log
  | |- total (modify _) => apply total_modify
  | |- total (match _ with _ => _ end) => first [case_decide | case_match]
  | |- _ => done
  end.

(** ** Fallible handlers

    [Err] keeps the database as it is at that point; [x ←? m; k] is the [?]
    operator. *)

Abbreviation fallible A := (handler (result AppError A)).

Definition try_bind {A B} (m : fallible A) (f : A -> fallible B) : fallible B :=
  mbind (M := handler) (fun r => match r with Ok a => f a | Err e => mret (M := handler) (Err e) end) m.
(** [r?] for a result that is not a handler. *)
Definition lift {A} (r : result AppError A) : fallible A := mret (M := handler) r.

Declare Scope handler_scope.
Delimit Scope handler_scope with handler.
Notation "x ←? m ; k" := (try_bind m (fun x => k))
  (at level 20, m at level 100, k at level 200, right associativity) : handler_scope.
Notation "' x ←? m ; k" := (try_bind m (fun x => k))
  (at level 20, x pattern, m at level 100, k at level 200, right associativity) : handler_scope.

Lemma run_try_lift {A B} (r : result AppError A) (f : A -> fallible B) d :
  try_bind (lift r) f d = match r with Ok a => f a d | Err e => Done (Err e, d, []) end.
Proof. unfold try_bind. rewrite run_bind. destruct r; apply after_nil. Qed.
Lemma run_try {A B} (m : fallible A) (f : A -> fallible B) d :
  try_bind m f d = match m d with
                   | Done (Ok a, d1, ev1) => after ev1 (f a d1)
                   | Done (Err e, d1, ev1) => Done (Err e, d1, ev1)
                   | Panicked d1 ev1 => Panicked d1 ev1
                   end.
Proof.
  unfold try_bind. rewrite run_bind. destruct (m d) as [[[[a|e] d1] ev1]|]; try done.
  cbn. by rewrite app_nil_r.
Qed.
Lemma run_lift {A} (r : result AppError A) d : lift r d = Done (r, d, []).
Proof. done. Qed.
#[export] Hint Rewrite @run_try_lift @run_lift : run.
