(* ===== verification/Ingest.v ===== *)
(** * The ingestion of posts and interactions

    Model of [src-tauri/src/ingest.rs].  [now] is the clock. *)

From S2P Require Import Prelude Types Signing Validation Store Posts Interactions Notifications Peers Handler.

Local Open Scope Z_scope.

(** ** ingest.rs *)

Section ingest.
Context `{Ed25519, HexCodec, JsonCodec, Sha, !Serde (list MediaAttachment)}.

Definition resolve_signer (d : Db) (master_pubkey : string) : option PublicKey :=
  match get_peer_signing_pubkey d master_pubkey with
  | Some signing_pubkey =>
      match pk_parse signing_pubkey with
      | Ok pk => Some pk
      | Err _ => res_ok (pk_parse master_pubkey)
      end
  | None => res_ok (pk_parse master_pubkey)
  end.

(** The notifications of a stored post. *)
Definition notify_post (my_id : string) (post : Post) : handler unit :=
  if decide (post_author post <> my_id) then
    _ ← (if decide (my_id ∈ parse_mentions (post_content post)) then
           _ ← modify (insert_notification "mention" (post_author post) None
                         (Some (post_id post)) (post_timestamp post));
           _ ← emit "mentioned-in-post";
           emit "notification-received"
         else mret tt : handler unit);
    _ ← (if decide (post_reply_to_author post = Some my_id) then
           _ ← modify (insert_notification "reply" (post_author post) (post_reply_to post)
                         (Some (post_id post)) (post_timestamp post));
           emit "notification-received"
         else mret tt : handler unit);
    (if decide (post_quote_of_author post = Some my_id) then
       _ ← modify (insert_notification "quote" (post_author post) (post_quote_of post)
                     (Some (post_id post)) (post_timestamp post));
       emit "notification-received"
     else mret tt)
  else mret tt.

Definition process_incoming_post (now : Z) (my_id : string) (post : Post) : handler bool :=
  if is_ok (validate_post now post) then
    d ← get_db;
    match resolve_signer d (post_author post) with
    | None => _ ← log_short (post_author post); mret false
    | Some signer =>
        if is_ok (verify_post_signature post signer) then
          _ ← modify (insert_post post);
          _ ← notify_post my_id post;
          mret true
        else mret false
    end
  else mret false.

Definition process_incoming_interaction (now : Z) (my_id : string) (interaction : Interaction)
    (expected_author : string) : handler unit :=
  if decide (in_author interaction <> expected_author) then mret tt
  else if is_ok (validate_interaction now interaction) then
    d ← get_db;
    match resolve_signer d (in_author interaction) with
    | None => log_short (in_author interaction)
    | Some signer =>
        if is_ok (verify_interaction_signature interaction signer) then
          _ ← modify (save_interaction interaction);
          if decide (in_target_author interaction = my_id /\ in_author interaction <> my_id) then
            _ ← modify (insert_notification "like" (in_author interaction)
                          (Some (in_target_post_id interaction)) None (in_timestamp interaction));
            emit "notification-received"
          else mret tt
        else mret tt
    end
  else mret tt.
End ingest.
