(* ===== verification/Gossip.v ===== *)
(** * Gossip messages of a followed user

    Model of [src-tauri/src/gossip/handlers.rs]: what a message received on the
    topic of [pk] does to the database.  [None] is a message that does not
    parse. *)

From S2P Require Import Prelude Types Signing Validation Store Moderation Posts Interactions Notifications Peers Handler Ingest.

Local Open Scope Z_scope.

Section gossip.
Context `{Ed25519, HexCodec, JsonCodec, Sha, SqlOrder, !Serde (list MediaAttachment),
  !Serde SigningKeyDelegation, !Serde (list string), !Serde LinkedDevicesAnnouncement}.

(** [if let Some(signer) = resolve_signer(pk) && let Err(_) = verify(signer)]:
    without a signer there is no check. *)
Definition bad_signature (d : Db) (pk : string) (verify : PublicKey -> result string unit) : bool :=
  match resolve_signer d pk with
  | Some signer => negb (is_ok (verify signer))
  | None => false
  end.

Definition handle_new_post (now : Z) (pk my_id : string) (post : Post) : handler unit :=
  if decide (post_author post <> pk) then
    _ ← log_short (post_author post); log_short pk
  else
    d ← get_db;
    if is_hidden d pk then log_short pk
    else
      stored ← process_incoming_post now my_id post;
      if (stored : bool) then emit "feed-updated" else mret tt.

Definition handle_delete_post (pk id author signature : string) : handler unit :=
  if decide (author <> pk) then mret tt
  else
    d ← get_db;
    if bad_signature d pk (verify_delete_post_signature id author signature) then log_short pk
    else
      match get_post_by_id d id with
      | Ok (Some post) =>
          if decide (post_author post = pk) then
            _ ← log_short pk;
            _ ← modify (fun d => (delete_post id d).1);
            emit "feed-updated"
          else mret tt
      | Ok None | Err _ => mret tt
      end.

Definition handle_profile_update (pk : string) (profile : Profile) : handler unit :=
  if is_ok (validate_profile profile) then
    d ← get_db;
    if bad_signature d pk (verify_profile_signature profile) then log_short pk
    else
      _ ← log_short pk;
      _ ← modify (save_profile pk profile);
      emit "profile-updated"
  else log_short pk.

Definition handle_new_interaction (now : Z) (pk my_id : string) (interaction : Interaction)
    : handler unit :=
  if decide (in_author interaction <> pk) then mret tt
  else
    d ← get_db;
    if is_hidden d pk then log_short pk
    else
      _ ← process_incoming_interaction now my_id interaction pk;
      emit "interaction-received".

Definition handle_delete_interaction (pk id author signature : string) : handler unit :=
  if decide (author <> pk) then mret tt
  else
    d ← get_db;
    if bad_signature d pk (verify_delete_interaction_signature id author signature)
    then log_short pk
    else
      _ ← log_short pk;
      _ ← modify (fun d => (delete_interaction id author d).1);
      emit "interaction-deleted".

Definition handle_linked_devices (now : Z) (pk : string) (a : LinkedDevicesAnnouncement)
    : handler unit :=
  if decide (an_master_pubkey a <> pk) then
    _ ← log_short (an_master_pubkey a); log_short pk
  else if is_ok (verify_linked_devices_announcement a) then
    d ← get_db;
    let cached_version := default 0 (get_peer_announcement_version d pk) in
    if an_version a <=? cached_version then mret tt
    else
      _ ← log_short pk;
      modify (cache_peer_device_announcement now pk a)
  else log_short pk.

Definition handle_signing_key_rotation (now : Z) (pk : string) (r : SigningKeyRotation)
    : handler unit :=
  if decide (rt_master_pubkey r <> pk) then
    _ ← log_short (rt_master_pubkey r); log_short pk
  else if is_ok (verify_rotation r) then
    d ← get_db;
    let stale := match get_peer_delegation d pk with
                 | Ok (Some cached) => rt_new_key_index r <=? dl_key_index cached
                 | _ => false
                 end in
    if stale then log_short pk
    else
      _ ← log_short pk;
      modify (cache_peer_identity now
        {| ir_master_pubkey := rt_master_pubkey r; ir_delegation := rt_new_delegation r;
           ir_transport_node_ids := default [] (res_ok (get_peer_transport_node_ids d pk));
           ir_profile := None |})
  else log_short pk.

Definition handle_follow_message (now : Z) (pk my_id : string) (msg : option GossipMessage)
    : handler unit :=
  _ ← log_short pk;
  match msg with
  | Some (NewPost post) => handle_new_post now pk my_id post
  | Some (DeletePost id author signature) => handle_delete_post pk id author signature
  | Some (ProfileUpdate profile) => handle_profile_update pk profile
  | Some (NewInteraction interaction) => handle_new_interaction now pk my_id interaction
  | Some (DeleteInteraction id author signature) =>
      handle_delete_interaction pk id author signature
  | Some (LinkedDevices announcement) => handle_linked_devices now pk announcement
  | Some (RotateSigningKey rotation) => handle_signing_key_rotation now pk rotation
  | Some Heartbeat => mret tt
  | Some (StageAnnounced stage_id _ _ _ _) => _ ← log_short stage_id; emit "stage-announced"
  | Some (StageEnded stage_id) => _ ← log_short stage_id; emit "stage-ended-remote"
  | None => mret tt
  end.
End gossip.
