(* ===== verification/GossipTheorems.v ===== *)
(** * What a gossip message can do

    The messages on the topic of [pk] touch only what belongs to [pk], never roll
    an identity back, and store only signed content; and exactly which messages
    make the listener panic. *)

From S2P Require Import Prelude Types Ratchet Signing Concrete SigningTheorems Validation Store ConcreteStore Social Moderation Posts Interactions Notifications Peers Handler Ingest Gossip.

Local Open Scope Z_scope.

(** ** Isolation *)

(** The notification is about the post [i]. *)
Definition notifies (r : NotificationRow) (i : string) : Prop :=
  nw_post_id r = Some i \/ nw_target_post_id r = Some i.

(** [d'] differs from [d] only in the rows of [pk], in notifications of actions
    of [pk] that are new, and in posts with an id in [deleted] and the
    notifications about them. *)
Record isolated (pk : string) (deleted : string -> Prop) (d d' : Db) : Prop := {
  iso_profiles : forall k, k <> pk -> profiles d' !! k = profiles d !! k;
  iso_delegations : forall k, k <> pk -> peer_delegations d' !! k = peer_delegations d !! k;
  iso_announcements : forall k, k <> pk ->
    peer_device_announcements d' !! k = peer_device_announcements d !! k;
  iso_interactions : forall k i, k <> pk -> interactions d' !! (k, i) = interactions d !! (k, i);
  iso_posts : forall k i, k <> pk ->
    posts d' !! (k, i) = posts d !! (k, i) \/ (posts d' !! (k, i) = None /\ deleted i);
  iso_notified : forall k r, notifications d !! k = Some r ->
    notifications d' !! k = Some r \/ exists i, deleted i /\ notifies r i;
  iso_notifies : forall k r, notifications d' !! k = Some r ->
    notifications d !! k = Some r \/ nw_actor r = pk;
  iso_social : social_graph d' = social_graph d;
  iso_moderation : moderation d' = moderation d;
  iso_bookmarks : bookmarks d' = bookmarks d;
  iso_devices : linked_devices d' = linked_devices d;
  iso_messages : dm_messages d' = dm_messages d;
  iso_conversations : dm_conversations d' = dm_conversations d;
  iso_sessions : dm_ratchet_sessions d' = dm_ratchet_sessions d;
  iso_outbox : dm_outbox d' = dm_outbox d;
  iso_requests : follow_requests d' = follow_requests d;
  iso_remote : remote_social_meta d' = remote_social_meta d;
}.

#[export] Instance isolated_refl pk del : Reflexive (isolated pk del).
Proof. intros d. split; try done; by left. Qed.
#[export] Instance isolated_trans pk del : Transitive (isolated pk del).
Proof.
  intros d1 d2 d3 H1 H2. split;
    try (by etransitivity; [by apply H2|by apply H1]);
    try (by intros; etransitivity; [by apply H2|by apply H1]).
  - intros k i Hk. destruct (iso_posts _ _ _ _ H2 k i Hk) as [E2|E2]; [|by right].
    rewrite E2. by apply (iso_posts _ _ _ _ H1).
  - intros k r Hr. destruct (iso_notified _ _ _ _ H1 k r Hr) as [E|?]; [|by right].
    by apply (iso_notified _ _ _ _ H2).
  - intros k r Hr. destruct (iso_notifies _ _ _ _ H2 k r Hr) as [E|?]; [|by right].
    by apply (iso_notifies _ _ _ _ H1).
Qed.

(** No deletion. *)
Definition no_id (_ : string) : Prop := False.

Definition same_profiles (d d' : Db) : Prop := profiles d' = profiles d.
#[export] Instance same_profiles_refl : Reflexive same_profiles.
Proof. done. Qed.
#[export] Instance same_profiles_trans : Transitive same_profiles.
Proof. unfold same_profiles. intros d1 d2 d3. congruence. Qed.

Lemma isolated_profile pk del p d : isolated pk del d (save_profile pk p d).
Proof.
  split; try done; try (by left). intros k Hk. cbn. by rewrite lookup_insert_ne.
Qed.

Section isolation.
Context `{Ed25519, HexCodec, JsonCodec, Sha, SqlOrder, !SqlOrderLaws,
  !Serde (list MediaAttachment), !Serde SigningKeyDelegation, !Serde (list string),
  !Serde LinkedDevicesAnnouncement}.

Lemma isolated_insert_post pk post d :
  post_author post = pk -> isolated pk no_id d (insert_post post d).
Proof.
  intros Hp. split; try done; try (by left). intros k i Hk. left. cbn.
  rewrite lookup_insert_or_ignore, decide_False by congruence. done.
Qed.

Lemma isolated_save_interaction pk i d :
  in_author i = pk -> isolated pk no_id d (save_interaction i d).
Proof.
  intros Hp. unfold save_interaction. case_match; [done|]. split; try done; try (by left).
  intros k j Hk. cbn. rewrite lookup_insert_or_ignore, decide_False by congruence. done.
Qed.

Lemma isolated_announcement now pk del a d :
  isolated pk del d (cache_peer_device_announcement now pk a d).
Proof.
  split; try done; try (by left); intros k Hk; cbn.
  - rewrite lookup_sql_update. cbn. rewrite bool_decide_eq_false_2 by done.
    by destruct (peer_delegations d !! k).
  - by rewrite lookup_insert_ne.
Qed.

Lemma isolated_identity now del r d :
  isolated (ir_master_pubkey r) del d (cache_peer_identity now r d).
Proof. split; try done; try (by left). intros k Hk. cbn. by rewrite lookup_insert_ne. Qed.

Lemma isolated_delete_interaction pk id del d :
  isolated pk del d (delete_interaction id pk d).1.
Proof.
  split; try done; try (by left). intros k j Hk. cbn. rewrite lookup_delete_ne; congruence.
Qed.

Lemma isolated_delete_post pk id (del : string -> Prop) d :
  del id -> isolated pk del d (delete_post id d).1.
Proof.
  intros Hd. split; try done.
  - intros k j Hk. cbn. rewrite lookup_sql_delete.
    destruct (posts d !! (k, j)) as [r|]; [|by left]. cbn.
    case_bool_decide; [right; by subst|by left].
  - intros k r Hr. cbn. rewrite lookup_sql_delete, Hr. cbn.
    destruct (bool_decide (nw_post_id r = Some id)) eqn:E1; cbn.
    { right. exists id. split; [done|]. left. by apply bool_decide_eq_true in E1. }
    destruct (bool_decide (nw_target_post_id r = Some id)) eqn:E2; cbn; [|by left].
    right. exists id. split; [done|]. right. by apply bool_decide_eq_true in E2.
  - intros k r. cbn. rewrite lookup_sql_delete. destruct (notifications d !! k) as [r'|]; [|done]. cbn.
    destruct (_ || _); [done|]. intros [= ->]. by left.
Qed.

Lemma isolated_notification del kind actor t p ts d :
  isolated actor del d (insert_notification kind actor t p ts d).
Proof.
  split; try done; try (by left); intros k r; cbn.
  - intros Hr. left. rewrite lookup_insert_or_ignore. case_decide as Ek; [|done]. by rewrite Ek, Hr.
  - rewrite lookup_insert_or_ignore. case_decide as Ek; [|by left]. rewrite Ek.
    destruct (notifications d !! k); intros [= <-]; [by left|by right].
Qed.

Lemma ingest_post_isolated now my_id post :
  always (isolated (post_author post) no_id) (process_incoming_post now my_id post).
Proof.
  unfold process_incoming_post, notify_post. solve_always;
    auto using isolated_insert_post, isolated_notification.
Qed.

Lemma ingest_interaction_isolated now my_id i pk :
  always (isolated pk no_id) (process_incoming_interaction now my_id i pk).
Proof.
  unfold process_incoming_interaction.
  destruct (decide (in_author i <> pk)) as [|Hp%dec_stable]; [solve_always|]. subst pk.
  solve_always; auto using isolated_save_interaction, isolated_notification.
Qed.

Lemma get_post_by_id_Some d id p :
  get_post_by_id d id = Ok (Some p) -> post_id p = id /\ is_Some (posts d !! (post_author p, id)).
Proof.
  unfold get_post_by_id. destruct (sql_select _ _ _) as [|[[a i] r] l] eqn:E; [done|].
  assert ((a, i, r) ∈ sql_select (fun kr : string * string * PostRow => bool_decide (kr.1.2 = id))
    no_order (posts d)) as Hin by (rewrite E; left).
  apply elem_of_sql_select in Hin as [Hr Hi%bool_decide_eq_true]. cbn in Hi. subst i.
  unfold row_to_post. cbn. destruct (from_json _); cbn; [|done]. intros [= <-]. cbn. eauto.
Qed.

(** The posts a message can delete: those with the id of a post of its own. *)
Definition deletable (pk : string) (msg : option GossipMessage) (d : Db) (i : string) : Prop :=
  (exists sig, msg = Some (DeletePost i pk sig)) /\ is_Some (posts d !! (pk, i)).

Lemma delete_post_isolated pk id author sig d :
  isolated pk (deletable pk (Some (DeletePost id author sig)) d) d
    (end_db (handle_delete_post pk id author sig d)).
Proof.
  unfold handle_delete_post. case_decide as Ha; [done|]. subst author.
  rewrite run_get. case_match; [by rewrite end_db_log|].
  destruct (get_post_by_id d id) as [[p|]|] eqn:Eg; try done.
  apply get_post_by_id_Some in Eg as [_ Hp]. case_decide as Hpk; [|done].
  rewrite Hpk in Hp. rewrite run_log, run_modify. case_match; [|done].
  apply isolated_delete_post. split; eauto.
Qed.

Lemma always_weaken (R R' : Db -> Db -> Prop) {A} (m : handler A) :
  always R m -> (forall d d', R d d' -> R' d d') -> always R' m.
Proof. intros Hm Hr d. apply Hr, Hm. Qed.

Lemma isolated_weaken pk (del : string -> Prop) d d' : isolated pk no_id d d' -> isolated pk del d d'.
Proof.
  intros []. split; try done.
  - intros k i Hk. destruct (iso_posts0 k i Hk) as [|[_ []]]; auto.
  - intros k r Hr. destruct (iso_notified0 k r Hr) as [|(? & [] & _)]; auto.
Qed.

Lemma follow_message_isolated now pk my_id msg d :
  isolated pk (deletable pk msg d) d (end_db (handle_follow_message now pk my_id msg d)).
Proof.
  unfold handle_follow_message. rewrite run_log. destruct (short_id pk); [|done].
  assert (forall m : handler unit, always (isolated pk no_id) m ->
    isolated pk (deletable pk msg d) d (end_db (m d))) as Hw.
  { intros m Hm. apply isolated_weaken, Hm. }
  destruct msg as [[p|id author sig|p|i|id author sig|an|r| |sid ? ? ? ?|sid]|];
    [apply Hw|exact (delete_post_isolated pk id author sig d)|apply Hw..].
  - unfold handle_new_post. destruct (decide (post_author p <> pk)) as [|Hp%dec_stable];
      [by solve_always|]. subst pk. pose proof (ingest_post_isolated now my_id p). by solve_always.
  - unfold handle_profile_update. solve_always. apply isolated_profile.
  - unfold handle_new_interaction. pose proof (ingest_interaction_isolated now my_id i pk).
    by solve_always.
  - unfold handle_delete_interaction. destruct (decide (author <> pk)) as [|Ha%dec_stable];
      [by solve_always|]. subst author. solve_always. apply isolated_delete_interaction.
  - unfold handle_linked_devices. solve_always. apply isolated_announcement.
  - unfold handle_signing_key_rotation.
    destruct (decide (rt_master_pubkey r <> pk)) as [|Hr%dec_stable]; [by solve_always|].
    subst pk.
    solve_always.
    match goal with |- isolated _ _ _ (cache_peer_identity _ ?x _) =>
      exact (isolated_identity now no_id x _) end.
  - solve_always.
  - solve_always.
  - solve_always.
  - solve_always.
Qed.

(** The own profile is replaced only by the one the message carries, which
    passed validation and, if there is a key for [pk], its signature check. *)
Definition profile_signed (pk : string) (msg : option GossipMessage) (d d' : Db) : Prop :=
  profiles d' = profiles d \/ exists p, msg = Some (ProfileUpdate p) /\
    validate_profile p = Ok tt /\ bad_signature d pk (verify_profile_signature p) = false /\
    profiles d' = profiles (save_profile pk p d).

Lemma ingest_post_same_profiles now my_id post : always same_profiles (process_incoming_post now my_id post).
Proof. unfold process_incoming_post, notify_post. by solve_always. Qed.
Lemma ingest_interaction_same_profiles now my_id i pk :
  always same_profiles (process_incoming_interaction now my_id i pk).
Proof.
  unfold process_incoming_interaction.
  solve_always; (done || (unfold same_profiles, save_interaction; by case_match)).
Qed.

Lemma follow_message_profile now pk my_id msg d :
  profile_signed pk msg d (end_db (handle_follow_message now pk my_id msg d)).
Proof.
  unfold handle_follow_message. rewrite run_log. destruct (short_id pk); [|by left].
  assert (forall m : handler unit, always same_profiles m -> profile_signed pk msg d (end_db (m d))) as Hw.
  { intros m Hm. left. apply Hm. }
  destruct msg as [[p|id author sig|p|i|id author sig|an|r| |sid ? ? ? ?|sid]|];
    [apply Hw|apply Hw| |apply Hw..].
  - unfold handle_new_post. pose proof (ingest_post_same_profiles now my_id p). by solve_always.
  - unfold handle_delete_post. by solve_always.
  - unfold handle_profile_update. destruct (is_ok (validate_profile p)) eqn:Ev; [|by rewrite end_db_log; left].
    rewrite run_get. destruct (bad_signature d pk _) eqn:Eb; [by rewrite end_db_log; left|].
    rewrite run_log. destruct (short_id pk); [|by left]. rewrite run_modify. right. exists p.
    split; [done|]. split; [by destruct (validate_profile p) as [[]|]|]. by split.
  - unfold handle_new_interaction. pose proof (ingest_interaction_same_profiles now my_id i pk).
    by solve_always.
  - unfold handle_delete_interaction. by solve_always.
  - unfold handle_linked_devices. by solve_always.
  - unfold handle_signing_key_rotation. by solve_always.
  - solve_always.
  - solve_always.
  - solve_always.
  - solve_always.
Qed.
End isolation.

(** ** Authenticity *)

Definition same_content (d d' : Db) : Prop :=
  posts d' = posts d /\ interactions d' = interactions d.
#[export] Instance same_content_refl : Reflexive same_content.
Proof. by split. Qed.
#[export] Instance same_content_trans : Transitive same_content.
Proof. intros d1 d2 d3 [] []. split; congruence. Qed.

(** Content may disappear, never appear or change. *)
Definition no_new (d d' : Db) : Prop := posts d' ⊆ posts d /\ interactions d' ⊆ interactions d.
#[export] Instance no_new_refl : Reflexive no_new.
Proof. by split. Qed.
#[export] Instance no_new_trans : Transitive no_new.
Proof. intros d1 d2 d3 [] []. split; by etransitivity. Qed.

Lemma same_no_new d d' : same_content d d' -> no_new d d'.
Proof. intros [E1 E2]. split; by rewrite ?E1, ?E2. Qed.

Lemma unit_ok {E} (r : result E unit) : is_ok r = true -> r = Ok tt.
Proof. by destruct r as [[]|]. Qed.

Section authentic.
Context `{Ed25519, HexCodec, JsonCodec, Sha, SqlOrder, !SqlOrderLaws,
  !Serde (list MediaAttachment), !Serde SigningKeyDelegation, !Serde (list string),
  !Serde LinkedDevicesAnnouncement}.

(** [post] is content its author's key signed, that passed validation. *)
Definition genuine_post (now : Z) (d : Db) (post : Post) : Prop :=
  validate_post now post = Ok tt /\
  exists signer, resolve_signer d (post_author post) = Some signer /\
    verify_post_signature post signer = Ok tt.
Definition genuine_interaction (now : Z) (d : Db) (i : Interaction) : Prop :=
  validate_interaction now i = Ok tt /\
  exists signer, resolve_signer d (in_author i) = Some signer /\
    verify_interaction_signature i signer = Ok tt.

Lemma notify_post_same my_id post : always same_content (notify_post my_id post).
Proof. unfold notify_post. by solve_always. Qed.

Lemma ingest_post_spec now my_id post d b d' ev :
  process_incoming_post now my_id post d = Done (b, d', ev) ->
  (b = false /\ d' = d) \/
  (b = true /\ genuine_post now d post /\ same_content (insert_post post d) d').
Proof.
  unfold process_incoming_post. destruct (is_ok (validate_post now post)) eqn:Ev;
    [|intros [= <- <- <-]; by left].
  rewrite run_get. destruct (resolve_signer d (post_author post)) as [signer|] eqn:Es.
  - destruct (is_ok (verify_post_signature post signer)) eqn:Eg; [|intros [= <- <- <-]; by left].
    rewrite run_modify. intros (u & d1 & ev1 & ev2 & En & [= <- <- <-] & ->)%bind_done. right.
    split_and!; [done| |by eapply (always_done same_content), En; apply notify_post_same].
    split; [by apply unit_ok|]. exists signer. split; [done|by apply unit_ok].
  - rewrite run_log. case_match; [|done]. intros [= <- <- <-]. by left.
Qed.

(** What an ingestion leaves, whether it returns or panics. *)
Lemma ingest_post_end now my_id post d :
  let d' := end_db (process_incoming_post now my_id post d) in
  d' = d \/ (genuine_post now d post /\ same_content (insert_post post d) d').
Proof.
  destruct (process_incoming_post now my_id post d) as [[[b d'] ev]|d' ev] eqn:E; cbn.
  - apply ingest_post_spec in E as [[_ ?]|(_ & ? & ?)]; auto.
  - left. revert E. unfold process_incoming_post. case_match; [|done]. rewrite run_get.
    destruct (resolve_signer d (post_author post)); [|rewrite run_log; case_match; by intros [=]].
    case_match; [|done]. rewrite run_modify, run_bind.
    assert (total (notify_post my_id post)) as Ht by (unfold notify_post; by solve_total).
    by destruct (Ht (insert_post post d)) as [[[??]?] ->].
Qed.

Lemma ingest_interaction_end now my_id i pk d :
  let d' := end_db (process_incoming_interaction now my_id i pk d) in
  d' = d \/ (in_author i = pk /\ genuine_interaction now d i /\
             same_content (save_interaction i d) d').
Proof.
  unfold process_incoming_interaction. destruct (decide (in_author i <> pk)) as [|Ha%dec_stable]; [by left|].
  destruct (is_ok (validate_interaction now i)) eqn:Ev; [|by left].
  rewrite run_get. destruct (resolve_signer d (in_author i)) as [signer|] eqn:Es.
  - destruct (is_ok (verify_interaction_signature i signer)) eqn:Eg; [|by left].
    rewrite run_modify. right. split_and!; [done| |].
    + split; [by apply unit_ok|]. exists signer. split; [done|by apply unit_ok].
    + by case_decide.
  - left. apply end_db_log.
Qed.

Lemma ingest_interaction_spec now my_id i pk d b d' ev :
  process_incoming_interaction now my_id i pk d = Done (b, d', ev) ->
  d' = d \/ (in_author i = pk /\ genuine_interaction now d i /\
             same_content (save_interaction i d) d').
Proof. intros E. pose proof (ingest_interaction_end now my_id i pk d) as Hi. by rewrite E in Hi. Qed.

(** A new row of [d'] holds genuine content of [pk], which is not muted. *)
Definition new_genuine (now : Z) (pk : string) (msg : option GossipMessage) (d d' : Db) : Prop :=
  (forall k row, posts d' !! k = Some row -> posts d !! k = Some row \/
     exists post, msg = Some (NewPost post) /\ k = (pk, post_id post) /\
       row = post_to_row post /\ is_hidden d pk = false /\ genuine_post now d post) /\
  (forall k row, interactions d' !! k = Some row -> interactions d !! k = Some row \/
     exists i, msg = Some (NewInteraction i) /\ k = (pk, in_id i) /\
       row = interaction_to_row i /\ is_hidden d pk = false /\ genuine_interaction now d i).

Lemma no_new_genuine now pk msg d d' : no_new d d' -> new_genuine now pk msg d d'.
Proof. intros [Hp Hi]. split; intros k row Hk; left; by eapply lookup_weaken. Qed.

Lemma new_post_genuine now pk my_id post d :
  new_genuine now pk (Some (NewPost post)) d (end_db (handle_new_post now pk my_id post d)).
Proof.
  unfold handle_new_post. case_decide as Hp.
  { rewrite run_log. case_match; [rewrite end_db_log|]; by apply no_new_genuine. }
  rewrite run_get. destruct (is_hidden d pk) eqn:Eh; [rewrite end_db_log; by apply no_new_genuine|].
  rewrite end_db_bind by (intros [] ?; done).
  destruct (ingest_post_end now my_id post d) as [->|(Hg & Hps & His)]; [by apply no_new_genuine|].
  split; intros k row.
  - rewrite Hps. cbn. rewrite lookup_insert_or_ignore. case_decide as Hk; [|by left].
    destruct (posts d !! (post_author post, post_id post)) eqn:E; intros [= <-].
    + left. by rewrite <-Hk.
    + right. exists post. split_and!; try done. by rewrite <-Hk, Hp.
  - rewrite His. by left.
Qed.

Lemma new_interaction_genuine now pk my_id i d :
  new_genuine now pk (Some (NewInteraction i)) d (end_db (handle_new_interaction now pk my_id i d)).
Proof.
  unfold handle_new_interaction. case_decide as Hp; [by apply no_new_genuine|].
  rewrite run_get. destruct (is_hidden d pk) eqn:Eh; [rewrite end_db_log; by apply no_new_genuine|].
  rewrite end_db_bind by done.
  destruct (ingest_interaction_end now my_id i pk d) as [->|(_ & Hg & Hps & His)];
    [by apply no_new_genuine|]. split; intros k row.
  - intros Hk. left. rewrite <-Hk, Hps. unfold save_interaction. by case_match.
  - rewrite His. unfold save_interaction. case_match; [by left|]. cbn.
    rewrite lookup_insert_or_ignore. case_decide as Hk; [|by left].
    destruct (interactions d !! (in_author i, in_id i)) eqn:E; intros [= <-].
    + left. by rewrite <-Hk.
    + right. exists i. split_and!; try done. by rewrite <-Hk, Hp.
Qed.

Lemma no_new_delete_post id d : no_new d (delete_post id d).1.
Proof. split; [|done]. cbn. apply map_filter_subseteq. Qed.

Lemma follow_message_genuine now pk my_id msg d :
  new_genuine now pk msg d (end_db (handle_follow_message now pk my_id msg d)).
Proof.
  unfold handle_follow_message. rewrite run_log. destruct (short_id pk); [|by apply no_new_genuine].
  assert (forall m : handler unit, always no_new m -> new_genuine now pk msg d (end_db (m d))) as Hw.
  { intros m Hm. apply no_new_genuine, Hm. }
  destruct msg as [[p|id author sig|p|i|id author sig|an|r| |sid ? ? ? ?|sid]|];
    [exact (new_post_genuine now pk my_id p d)|apply Hw|apply Hw
    |exact (new_interaction_genuine now pk my_id i d)|apply Hw..].
  - unfold handle_delete_post. solve_always. apply no_new_delete_post.
  - unfold handle_profile_update. by solve_always.
  - unfold handle_delete_interaction. solve_always. split; [done|]. cbn. apply delete_subseteq.
  - unfold handle_linked_devices. by solve_always.
  - unfold handle_signing_key_rotation. by solve_always.
  - solve_always.
  - solve_always.
  - solve_always.
  - solve_always.
Qed.
End authentic.

(** ** Identities never roll back *)

Section rollback.
Context `{Ed25519, HexCodec, JsonCodec, Sha, SqlOrder, !SqlOrderLaws,
  !Serde (list MediaAttachment), !Serde SigningKeyDelegation, !SerdeLaws SigningKeyDelegation,
  !Serde (list string), !Serde LinkedDevicesAnnouncement}.

Definition peer_version (d : Db) (pk : string) : Z :=
  default 0 (get_peer_announcement_version d pk).
Definition peer_delegation_of (d : Db) (pk : string) : option SigningKeyDelegation :=
  match get_peer_delegation d pk with Ok o => o | Err _ => None end.

(** Versions never decrease; a cached delegation stays or is replaced by one
    with a larger key index. *)
Definition not_older (d d' : Db) : Prop :=
  (forall pk, peer_version d pk <= peer_version d' pk) /\
  (forall pk dl, peer_delegation_of d pk = Some dl ->
     exists dl', peer_delegation_of d' pk = Some dl' /\
       (dl' = dl \/ dl_key_index dl < dl_key_index dl')).

#[export] Instance not_older_refl : Reflexive not_older.
Proof. split; [done|]. intros pk dl Hd. exists dl. auto. Qed.
#[export] Instance not_older_trans : Transitive not_older.
Proof.
  intros d1 d2 d3 [Hv1 Hd1] [Hv2 Hd2]. split.
  - intros pk. etransitivity; [apply Hv1|apply Hv2].
  - intros pk dl Hd. destruct (Hd1 pk dl Hd) as (dl2 & E2 & Hdl2).
    destruct (Hd2 pk dl2 E2) as (dl3 & E3 & Hdl3). exists dl3. split; [done|].
    destruct Hdl2 as [->|?]; [done|]. destruct Hdl3 as [->|?]; right; lia.
Qed.

Definition same_identity (d d' : Db) : Prop :=
  peer_delegations d' = peer_delegations d /\
  peer_device_announcements d' = peer_device_announcements d.
#[export] Instance same_identity_refl : Reflexive same_identity.
Proof. by split. Qed.
#[export] Instance same_identity_trans : Transitive same_identity.
Proof. intros d1 d2 d3 [] []. split; congruence. Qed.

Lemma same_not_older d d' : same_identity d d' -> not_older d d'.
Proof.
  intros [E1 E2]. split.
  - intros pk. unfold peer_version, get_peer_announcement_version. by rewrite E2.
  - intros pk dl. unfold peer_delegation_of, get_peer_delegation. rewrite E1. eauto.
Qed.

Lemma cache_announcement_not_older now pk a d :
  is_u64 (an_version a) -> peer_version d pk < an_version a ->
  not_older d (cache_peer_device_announcement now pk a d).
Proof.
  intros Hu Hv. split.
  - intros k. unfold peer_version, get_peer_announcement_version. cbn.
    destruct (decide (k = pk)) as [->|Hk]; [|by rewrite lookup_insert_ne].
    rewrite lookup_insert_eq. cbn. rewrite as_u64_as_i64 by done.
    unfold peer_version, get_peer_announcement_version in Hv. lia.
  - intros k dl. unfold peer_delegation_of, get_peer_delegation. cbn. rewrite lookup_sql_update. cbn.
    destruct (peer_delegations d !! k) as [r|]; cbn; [|done].
    intros Hd. exists dl. split; [|by left]. case_bool_decide; [|done]. exact Hd.
Qed.

Lemma cache_identity_not_older now r d :
  (forall dl, peer_delegation_of d (ir_master_pubkey r) = Some dl ->
     dl_key_index dl < dl_key_index (ir_delegation r)) ->
  not_older d (cache_peer_identity now r d).
Proof.
  intros Hi. split; [done|]. intros k dl Hd. unfold peer_delegation_of, get_peer_delegation. cbn.
  destruct (decide (k = ir_master_pubkey r)) as [->|Hk].
  - rewrite lookup_insert_eq. cbn. rewrite from_to_json. cbn. eauto.
  - rewrite lookup_insert_ne by done. exists dl. split; [exact Hd|by left].
Qed.

Lemma linked_devices_not_older now pk a : is_u64 (an_version a) -> always not_older (handle_linked_devices now pk a).
Proof.
  intros Hu d. unfold handle_linked_devices. case_decide as Hp.
  { rewrite run_log. case_match; [by rewrite end_db_log|done]. }
  case_match; [|by rewrite end_db_log].
  rewrite run_get. destruct (Z.leb_spec (an_version a) (default 0 (get_peer_announcement_version d pk)));
    [done|].
  rewrite run_log. case_match; [|done]. by apply cache_announcement_not_older.
Qed.

Lemma rotation_not_older now pk r : always not_older (handle_signing_key_rotation now pk r).
Proof.
  intros d. unfold handle_signing_key_rotation. case_decide as Hp.
  { rewrite run_log. case_match; [by rewrite end_db_log|done]. }
  destruct (is_ok (verify_rotation r)) eqn:Ev; [|by rewrite end_db_log].
  apply unit_ok, verify_rotation_Ok in Ev as (_ & _ & _ & _ & Hix).
  rewrite run_get. destruct (get_peer_delegation d pk) as [[dl|]|] eqn:Ed.
  - destruct (Z.leb_spec (rt_new_key_index r) (dl_key_index dl)); [by rewrite end_db_log|].
    rewrite run_log. case_match; [|done].
    apply cache_identity_not_older. cbn. intros dl'. rewrite Hp.
    unfold peer_delegation_of. rewrite Ed. intros [= <-]. lia.
  - rewrite run_log. case_match; [|done].
    apply cache_identity_not_older. cbn. intros dl'. rewrite Hp.
    unfold peer_delegation_of. by rewrite Ed.
  - rewrite run_log. case_match; [|done].
    apply cache_identity_not_older. cbn. intros dl'. rewrite Hp.
    unfold peer_delegation_of. by rewrite Ed.
Qed.

(** The version of an announcement is a [u64]. *)
Definition msg_typed (msg : option GossipMessage) : Prop :=
  match msg with Some (LinkedDevices a) => is_u64 (an_version a) | _ => True end.

Lemma follow_message_not_older now pk my_id msg :
  msg_typed msg -> always not_older (handle_follow_message now pk my_id msg).
Proof.
  intros Hmsg. unfold handle_follow_message. apply always_bind; [tc_solve|apply always_log; tc_solve|intros _].
  assert (forall m : handler unit, always same_identity m -> always not_older m) as Hw.
  { intros m Hm. eapply always_weaken; [exact Hm|apply same_not_older]. }
  destruct msg as [[p|id author sig|p|i|id author sig|an|r| |sid ? ? ? ?|sid]|];
    [apply Hw|apply Hw|apply Hw|apply Hw|apply Hw
    |exact (linked_devices_not_older now pk an Hmsg)
    |exact (rotation_not_older now pk r)|apply Hw..].
  - unfold handle_new_post, process_incoming_post, notify_post. by solve_always.
  - unfold handle_delete_post. by solve_always.
  - unfold handle_profile_update. by solve_always.
  - unfold handle_new_interaction, process_incoming_interaction. solve_always;
      (done || (split; unfold save_interaction; by case_match)).
  - unfold handle_delete_interaction. by solve_always.
  - solve_always.
  - solve_always.
  - solve_always.
  - solve_always.
Qed.

(** A run of messages, each on the topic of some followed user. *)
Fixpoint run_messages (msgs : list (Z * string * string * option GossipMessage)) : handler unit :=
  match msgs with
  | [] => mret tt
  | (now, pk, my_id, msg) :: r => _ ← handle_follow_message now pk my_id msg; run_messages r
  end.

Lemma run_messages_not_older msgs :
  Forall (fun m => msg_typed m.2) msgs -> always not_older (run_messages msgs).
Proof.
  induction 1 as [|[[[now pk] my_id] msg] msgs Hmsg _ IH]; cbn [run_messages];
    [apply always_ret; tc_solve|].
  apply always_bind; [tc_solve|by apply follow_message_not_older|done].
Qed.
End rollback.

(** ** Panics *)

Section panics.
Context `{Ed25519, HexCodec, JsonCodec, Sha, SqlOrder,
  !Serde (list MediaAttachment), !Serde SigningKeyDelegation, !Serde (list string),
  !Serde LinkedDevicesAnnouncement}.

(** The string of the sender's choosing that the handler shortens for its log. *)
Definition logged (pk : string) (msg : option GossipMessage) : option string :=
  match msg with
  | Some (NewPost p) => if decide (post_author p <> pk) then Some (post_author p) else None
  | Some (LinkedDevices a) =>
      if decide (an_master_pubkey a <> pk) then Some (an_master_pubkey a) else None
  | Some (RotateSigningKey r) =>
      if decide (rt_master_pubkey r <> pk) then Some (rt_master_pubkey r) else None
  | Some (StageAnnounced stage_id _ _ _ _) | Some (StageEnded stage_id) => Some stage_id
  | _ => None
  end.

Lemma ingest_post_total now my_id post :
  is_Some (short_id (post_author post)) -> total (process_incoming_post now my_id post).
Proof. intros Hs. unfold process_incoming_post, notify_post. by solve_total. Qed.

Lemma ingest_interaction_total now my_id i pk :
  is_Some (short_id pk) -> total (process_incoming_interaction now my_id i pk).
Proof.
  intros Hs. unfold process_incoming_interaction.
  destruct (decide (in_author i <> pk)) as [|Hp%dec_stable]; [by solve_total|].
  rewrite Hp. by solve_total.
Qed.

Lemma log_none s (k : unit -> handler unit) d :
  (forall u, total (k u)) -> panicked ((log_short s ≫= k) d) <-> short_id s = None.
Proof.
  intros Hk. rewrite run_log. destruct (short_id s).
  - destruct (Hk tt d) as [? ->]. split; [by intros (?&?&?)|done].
  - split; [done|]. intros _. by do 2 eexists.
Qed.

Lemma follow_message_panics now pk my_id msg d :
  is_Some (short_id pk) ->
  panicked (handle_follow_message now pk my_id msg d) <->
  exists s, logged pk msg = Some s /\ short_id s = None.
Proof.
  intros Hpk. unfold handle_follow_message. rewrite run_log. destruct (short_id pk) eqn:Epk; [|by destruct Hpk].
  assert (forall m : handler unit, total m -> logged pk msg = None ->
    panicked (m d) <-> exists s, logged pk msg = Some s /\ short_id s = None) as Hno.
  { intros m Hm Hl. destruct (Hm d) as [x ->]. rewrite Hl. split; [by intros (?&?&?)|by intros (? & ? & _)]. }
  assert (forall m : handler unit, forall t, (panicked (m d) <-> short_id t = None) -> logged pk msg = Some t ->
    panicked (m d) <-> exists s, logged pk msg = Some s /\ short_id s = None) as Hyes.
  { intros m t Hm Hl. rewrite Hm, Hl. split; [eauto|]. by intros (? & [= <-] & ?). }
  assert (total (log_short pk)) as Htot by (apply total_log; by rewrite Epk).
  assert (is_Some (short_id pk)) as Hs by by rewrite Epk.
  destruct msg as [[p|id author sig|p|i|id author sig|an|r| |sid ? ? ? ?|sid]|].
  - unfold handle_new_post. case_decide as Hp.
    + eapply Hyes; [apply log_none; by intros|]. cbn. by rewrite decide_True.
    + apply Hno; [|cbn; by rewrite decide_False by tauto].
      pose proof (ingest_post_total now my_id p). rewrite Hp in *. by solve_total; auto.
  - apply Hno; [|done]. unfold handle_delete_post. by solve_total.
  - apply Hno; [|done]. unfold handle_profile_update. by solve_total.
  - apply Hno; [|done]. unfold handle_new_interaction.
    pose proof (ingest_interaction_total now my_id i pk Hs). by solve_total.
  - apply Hno; [|done]. unfold handle_delete_interaction. by solve_total.
  - unfold handle_linked_devices. case_decide as Hp.
    + eapply Hyes; [apply log_none; by intros|]. cbn. by rewrite decide_True.
    + apply Hno; [|cbn; by rewrite decide_False by tauto]. by solve_total.
  - unfold handle_signing_key_rotation. case_decide as Hp.
    + eapply Hyes; [apply log_none; by intros|]. cbn. by rewrite decide_True.
    + apply Hno; [|cbn; by rewrite decide_False by tauto]. by solve_total.
  - apply Hno; [|done]. solve_total.
  - eapply Hyes; [|done]. apply log_none. solve_total.
  - eapply Hyes; [|done]. apply log_none. solve_total.
  - apply Hno; [|done]. solve_total.
Qed.
End panics.

(** ** Theorems *)

Section theorems.
Context `{Ed25519, HexCodec, JsonCodec, Sha, SqlOrder, !SqlOrderLaws,
  !Serde (list MediaAttachment), !Serde SigningKeyDelegation, !SerdeLaws SigningKeyDelegation,
  !Serde (list string), !Serde LinkedDevicesAnnouncement}.

(** C7: a message received on the topic of [pk] can only change what belongs
    to [pk]: every other user's profile, delegation, device announcement,
    interactions and posts, and the local follows, moderation, bookmarks,
    devices and messages stay as they were, even if the handler panics half-way.
    Its own profile is replaced only by a valid one with a checked signature (if
    a key is known); notifications are only added about actions of [pk].  The
    one exception: deleting an own post also removes the posts of other authors
    that have the same id, and everybody's notifications about that id. *)
Theorem gossip_isolation (now : Z) (pk my_id : string) (msg : option GossipMessage) (d : Db) :
  let d' := end_db (handle_follow_message now pk my_id msg d) in
  isolated pk (deletable pk msg d) d d' /\ profile_signed pk msg d d'.
Proof. split; [apply follow_message_isolated|apply follow_message_profile]. Qed.


(** C9: no run of gossip messages, on any topics and in any order, rolls an
    identity back: the cached device announcement version of every peer never
    decreases, and a cached key delegation stays or is replaced by one with a
    larger key index. *)
Theorem gossip_no_rollback (msgs : list (Z * string * string * option GossipMessage)) (d : Db) :
  Forall (fun m => msg_typed m.2) msgs -> not_older d (end_db (run_messages msgs d)).
Proof. intros Hm. by apply run_messages_not_older. Qed.

(** a gossip message makes the listener panic exactly when a string of the
    sender's choosing (the author of a foreign post, the master key of a foreign
    announcement or rotation, a stage id) has byte 8 inside a character:
    [short_id] slices it for the log. *)
Theorem gossip_panics_iff (now : Z) (pk my_id : string) (msg : option GossipMessage) (d : Db) :
  is_Some (short_id pk) ->
  panicked (handle_follow_message now pk my_id msg d) <->
  exists s, logged pk msg = Some s /\ short_id s = None.
Proof. apply follow_message_panics. Qed.
End theorems.

(** ** Witnesses *)

Definition alice_post : Post := sign_post sample_post "alice".
Definition alice_says : option GossipMessage := Some (NewPost alice_post).

Definition run_gossip (msg : option GossipMessage) (d : Db) : outcome unit :=
  handle_follow_message 1000 "kalice" "kme" msg d.

(** Bob's post with the id that Alice then deletes. *)
Definition bob_post : Post :=
  {| post_id := "p1"; post_author := "kbob"; post_content := "mine"; post_timestamp := 12;
     post_media := []; post_reply_to := None; post_reply_to_author := None;
     post_quote_of := None; post_quote_of_author := None; post_signature := "" |}.
Definition two_posts : Db := insert_post bob_post (end_db (run_gossip alice_says empty_db)).
Definition alice_deletes : option GossipMessage :=
  Some (DeletePost "p1" "kalice" (sign_delete_post "p1" "kalice" "alice")).

Lemma gossip_isolation_witness :
  posts (end_db (run_gossip alice_deletes two_posts)) !! ("kbob", "p1")%string = None /\
  isolated "kalice" (deletable "kalice" alice_deletes two_posts) two_posts
    (end_db (run_gossip alice_deletes two_posts)) /\
  profile_signed "kalice" alice_deletes two_posts (end_db (run_gossip alice_deletes two_posts)).
Proof. split; [vm_compute; reflexivity|apply (gossip_isolation 1000 "kalice" "kme" alice_deletes)]. Defined.


Definition alice_devices (version : Z) : option GossipMessage :=
  Some (LinkedDevices (sign_linked_devices_announcement
    {| an_master_pubkey := "kmaster"; an_delegation := sample_delegation; an_devices := [];
       an_version := version; an_timestamp := 200; an_signature := "" |} "device")).

(** An older announcement after a newer one is ignored. *)
Definition device_msgs : list (Z * string * string * option GossipMessage) :=
  [(1, "kmaster", "kme", alice_devices 7); (2, "kmaster", "kme", alice_devices 3)]%string.

Lemma gossip_no_rollback_witness :
  peer_version (end_db (run_messages device_msgs empty_db)) "kmaster" = 7 /\
  not_older empty_db (end_db (run_messages device_msgs empty_db)).
Proof.
  split; [vm_compute; reflexivity|]. apply (gossip_no_rollback device_msgs).
  unfold device_msgs. repeat constructor; vm_compute; congruence.
Defined.

(** Seven letters and a two-byte character: byte 8 is inside it. *)
Definition hostile_id : string :=
  String.string_of_list_ascii (map Ascii.ascii_of_N [97; 97; 97; 97; 97; 97; 97; 195; 169])%N.

Lemma gossip_panics_iff_witness : panicked (run_gossip (Some (StageEnded hostile_id)) empty_db).
Proof.
  apply (gossip_panics_iff 1000 "kalice" "kme" (Some (StageEnded hostile_id)) empty_db).
  - vm_compute. eauto.
  - exists hostile_id. split; vm_compute; reflexivity.
Defined.
