(* ===== verification/Framing.v ===== *)
(** * Length-prefixed frames

    Model of [src-tauri/src/framing.rs].  A stream is the bytes not yet read;
    [Wire] is [serde_json::to_vec] and [from_slice] at a message type. *)

From S2P Require Import Prelude Types Store.

Local Open Scope Z_scope.

Class Wire (A : Type) := {
  to_vec : A -> bytes;
  from_slice : bytes -> result AppError A;
}.
Class WireLaws (A : Type) `{Wire A} := {
  from_to_vec (a : A) : from_slice (to_vec a) = Ok a;
  to_vec_nonempty (a : A) : to_vec a <> [];
}.

Definition MAX_FRAME_SIZE : Z := 10000000.

(** The bytes a call writes. *)
Definition write_frame (data : bytes) : bytes :=
  be_bytes 4 (as_u32 (Z.of_nat (length data))) ++ data.

(** [recv.read_exact] of [n] bytes: what was read and what is left. *)
Definition read_exact (n : nat) (stream : bytes) : result AppError (bytes * bytes) :=
  if (n <=? length stream)%nat then Ok (take n stream, drop n stream)
  else Err (Other "unexpected end of stream").

(** [Ok (None, _)] is the end marker. *)
Definition read_frame (stream : bytes) : result AppError (option bytes * bytes) :=
  '(len_buf, rest) ← read_exact 4 stream;
  let len := from_be len_buf in
  if decide (len = 0) then Ok (None, rest)
  else if MAX_FRAME_SIZE <? len then Err (Other "frame too large")
  else
    '(buf, rest) ← read_exact (Z.to_nat len) rest;
    Ok (Some buf, rest).

(** ** Facts *)

Lemma read_exact_app l r : read_exact (length l) (l ++ r) = Ok (l, r).
Proof.
  unfold read_exact. rewrite length_app, (proj2 (Nat.leb_le _ _)) by lia.
  by rewrite take_app_length, drop_app_length.
Qed.

(** What is written is read back, as far as a reader accepts the length. *)
Lemma read_write_frame data rest :
  Z.of_nat (length data) < 2 ^ 32 ->
  read_frame (write_frame data ++ rest) =
    if decide (data = []) then Ok (None, rest)
    else if MAX_FRAME_SIZE <? Z.of_nat (length data) then Err (Other "frame too large")
    else Ok (Some data, rest).
Proof.
  intros Hlen. unfold read_frame, write_frame. rewrite <-app_assoc.
  pose proof (read_exact_app (be_bytes 4 (as_u32 (Z.of_nat (length data)))) (data ++ rest)) as E.
  rewrite length_be_bytes in E. rewrite E. unfold mbind, result_bind.
  rewrite from_be_be_bytes. unfold as_u32. change (256 ^ Z.of_nat 4) with (2 ^ 32).
  rewrite Z.mod_mod, Z.mod_small by lia.
  destruct data as [|b data].
  - rewrite decide_True by done. by rewrite decide_True by done.
  - rewrite decide_False by (cbn [length]; lia). rewrite (decide_False (P := b :: data = [])) by done.
    case_match; [done|]. rewrite Nat2Z.id. by rewrite read_exact_app.
Qed.
