(* ===== verification/Sync.v ===== *)
(** * Pulling a peer's posts

    Model of [src-tauri/src/sync/{server,client,processing}.rs]: phase 1
    compares counts, phase 2 streams what is newer, phase 3 streams what is not
    among the ids the client sends.  A stream is its bytes; a server that fails
    in the middle of a stream has sent the summary, but here none of the stream. *)

From S2P Require Import Prelude Types Signing Validation Store Social Posts Interactions Notifications Peers Handler Ingest Framing.

Local Open Scope Z_scope.

Definition BATCH_SIZE : Z := 200.

Record SyncResult : Type := {
  sy_posts : list Post;
  sy_interactions : list Interaction;
  sy_profile : option Profile;
  sy_remote_post_count : Z;
  sy_mode : SyncMode;
  sy_active_stage : option StageAnnouncement;
}.

(** [loop { batch = fetch(offset)?; if batch.is_empty() { break } ... }]. *)
Fixpoint page_loop {A} (fuel : nat) (fetch : Z -> result AppError (list A)) (offset : Z)
    : result AppError (list (list A)) :=
  match fuel with
  | O => Ok []
  | S fuel =>
      batch ← fetch offset;
      match batch with
      | [] => Ok []
      | _ :: _ => rest ← page_loop fuel fetch (offset + Z.of_nat (length batch)); Ok (batch :: rest)
      end
  end.

(** ** server.rs *)

Section server.
Context `{SqlOrder, !Serde (list MediaAttachment), !Serde (list string), !Wire SyncSummary,
  !Wire SyncFrame, !Wire (list string)}.

Definition sync_access (d : Db) (node_id remote_pubkey : string) : result AppError unit :=
  match get_visibility d node_id with
  | Public => Ok tt
  | Listed => bail_if (negb (is_follower d node_id remote_pubkey)) (Other "listed")
  | Private => bail_if (negb (is_mutual d node_id remote_pubkey)) (Other "private")
  end.

(** The counts and the mode of phase 1. *)
Definition posts_after_count (d : Db) (req : SyncRequest) : Z :=
  if 0 <? sq_newest_timestamp req
  then count_posts_after d (sq_author req) (sq_newest_timestamp req)
  else count_posts_by_author d (sq_author req).
Definition interactions_after_count (d : Db) (req : SyncRequest) : Z :=
  if 0 <? sq_newest_interaction_timestamp req
  then count_interactions_after d (sq_author req) (sq_newest_interaction_timestamp req)
  else count_interactions_by_author d (sq_author req).

Definition posts_match (d : Db) (req : SyncRequest) : bool :=
  sq_post_count req =? count_posts_by_author d (sq_author req).
Definition interactions_match (d : Db) (req : SyncRequest) : bool :=
  sq_interaction_count req =? count_interactions_by_author d (sq_author req).

Definition sync_mode (d : Db) (req : SyncRequest) : SyncMode :=
  let server_post_count := count_posts_by_author d (sq_author req) in
  if posts_match d req && interactions_match d req then UpToDate
  else if (sq_post_count req <=? server_post_count) &&
          (server_post_count - sq_post_count req =? posts_after_count d req)
  then TimestampCatchUp
  else NeedIdDiff.

Definition sync_summary (d : Db) (node_id : string) (req : SyncRequest)
    (active_stage : option StageAnnouncement) : SyncSummary :=
  {| sm_server_post_count := count_posts_by_author d (sq_author req);
     sm_server_interaction_count := count_interactions_by_author d (sq_author req);
     sm_posts_after_count := posts_after_count d req;
     sm_interactions_after_count := interactions_after_count d req;
     sm_mode := sync_mode d req;
     sm_profile := get_profile d node_id;
     sm_active_stage := active_stage |}.

(** The rows of a table bound the rounds of a loop. *)
Definition stream_posts (d : Db) (req : SyncRequest) (known_ids : list string)
    : result AppError (list (list Post)) :=
  page_loop (S (size (posts d)))
    (fun offset =>
       match sync_mode d req with
       | TimestampCatchUp =>
           get_posts_after d (sq_author req) (sq_newest_timestamp req) BATCH_SIZE offset
       | NeedIdDiff => get_posts_not_in d (sq_author req) known_ids BATCH_SIZE offset
       | UpToDate => Ok []
       end) 0.

Definition stream_interactions (d : Db) (req : SyncRequest)
    : result AppError (list (list Interaction)) :=
  if interactions_match d req then Ok []
  else
    let server_interaction_count := count_interactions_by_author d (sq_author req) in
    let interaction_catchup :=
      (sq_interaction_count req <=? server_interaction_count) &&
      (server_interaction_count - sq_interaction_count req =? interactions_after_count d req) in
    page_loop (S (size (interactions d)))
      (fun ioffset =>
         if interaction_catchup then
           get_interactions_after d (sq_author req) (sq_newest_interaction_timestamp req)
             BATCH_SIZE ioffset
         else get_interactions_paged d (sq_author req) BATCH_SIZE ioffset) 0.

(** The ids the client sends are read up to 5 000 000 bytes. *)
Definition read_known_ids (d : Db) (req : SyncRequest) (ids_bytes : bytes)
    : result AppError (list string) :=
  if decide (sync_mode d req = NeedIdDiff) then
    _ ← bail_if (5000000 <? Z.of_nat (length ids_bytes)) (Other "too long");
    from_slice ids_bytes
  else Ok [].

Definition sync_stream (d : Db) (req : SyncRequest) (ids_bytes : bytes) : result AppError bytes :=
  known_ids ← read_known_ids d req ids_bytes;
  post_batches ← stream_posts d req known_ids;
  interaction_batches ← stream_interactions d req;
  Ok (concat ((fun b => write_frame (to_vec (SfPosts b))) <$> post_batches) ++
      concat ((fun b => write_frame (to_vec (SfInteractions b))) <$> interaction_batches) ++
      write_frame []).

(** The bytes of both response streams; [None] is the panic of a log line that
    shortens the requested author or the rejected peer.  In the mode [UpToDate]
    there is no second stream; a stream that fails is closed empty. *)
Definition handle_sync (d : Db) (node_id remote_str : string) (req : SyncRequest)
    (active_stage : option StageAnnouncement) (ids_bytes : bytes)
    : option (result AppError (bytes * bytes)) :=
  let remote_pubkey := default remote_str (get_master_pubkey_for_transport d remote_str) in
  match sync_access d node_id remote_pubkey with
  | Err e => _ ← short_id remote_pubkey; Some (Err e)
  | Ok _ =>
      _ ← short_id (sq_author req);
      let summary_bytes := to_vec (sync_summary d node_id req active_stage) in
      if decide (sync_mode d req = UpToDate) then Some (Ok (summary_bytes, []))
      else
        Some (Ok (summary_bytes, default [] (res_ok (sync_stream d req ids_bytes))))
  end.
End server.

(** ** client.rs *)

Section client.
Context `{Ed25519, HexCodec, JsonCodec, SqlOrder, !Wire SyncSummary, !Wire SyncFrame,
  !Wire (list string), !Serde (list MediaAttachment), !Serde (list string),
  !Serde LinkedDevicesAnnouncement}.

Definition client_request (d : Db) (author : string) : SyncRequest :=
  {| sq_author := author;
     sq_post_count := count_posts_by_author d author;
     sq_interaction_count := count_interactions_by_author d author;
     sq_newest_timestamp := newest_post_timestamp d author;
     sq_newest_interaction_timestamp := newest_interaction_timestamp d author |}.

Definition known_ids_bytes (d : Db) (author : string) (mode : SyncMode) : bytes :=
  if decide (mode = NeedIdDiff) then to_vec (get_post_ids_by_author d author) else [].

(** What the client has received. *)
Record received : Type := {
  rc_db : Db;
  rc_posts : list Post;
  rc_interactions : list Interaction;
}.

Definition take_announcement (now : Z) (author : string) (d : Db) (a : LinkedDevicesAnnouncement)
    : Db :=
  if decide (an_master_pubkey a <> author) then d
  else if is_ok (verify_linked_devices_announcement a)
  then cache_peer_device_announcement now author a d
  else d.

Definition take_frame (now : Z) (author : string) (rc : received) (frame : SyncFrame) : received :=
  match frame with
  | SfPosts ps => {| rc_db := rc_db rc; rc_posts := rc_posts rc ++ ps;
                     rc_interactions := rc_interactions rc |}
  | SfInteractions is_ => {| rc_db := rc_db rc; rc_posts := rc_posts rc;
                             rc_interactions := rc_interactions rc ++ is_ |}
  | SfDeviceAnnouncements l =>
      {| rc_db := fold_left (take_announcement now author) l (rc_db rc);
         rc_posts := rc_posts rc; rc_interactions := rc_interactions rc |}
  end.

(** The [loop] over the frames: a read error ends it like the end marker. *)
Fixpoint read_frames (fuel : nat) (now : Z) (author : string) (stream : bytes) (rc : received)
    : result AppError received :=
  match fuel with
  | O => Ok rc
  | S fuel =>
      match read_frame stream with
      | Ok (Some frame_bytes, rest) =>
          frame ← from_slice frame_bytes;
          read_frames fuel now author rest (take_frame now author rc frame)
      | Ok (None, _) | Err _ => Ok rc
      end
  end.

(** The part of [sync_from_peer] after the connection: from the bytes of the
    summary and of the data stream. *)
Definition sync_from_peer (now : Z) (d : Db) (author : string) (summary_bytes stream : bytes)
    : result AppError (Db * SyncResult) :=
  _ ← bail_if (65536 <? Z.of_nat (length summary_bytes)) (Other "too long");
  summary ← from_slice summary_bytes;
  if decide (sm_mode summary = UpToDate) then
    Ok (d, {| sy_posts := []; sy_interactions := []; sy_profile := sm_profile summary;
              sy_remote_post_count := sm_server_post_count summary; sy_mode := UpToDate;
              sy_active_stage := sm_active_stage summary |})
  else
    rc ← read_frames (S (length stream)) now author stream
           {| rc_db := d; rc_posts := []; rc_interactions := [] |};
    Ok (rc_db rc,
        {| sy_posts := rc_posts rc; sy_interactions := rc_interactions rc;
           sy_profile := sm_profile summary;
           sy_remote_post_count := sm_server_post_count summary;
           sy_mode := sm_mode summary; sy_active_stage := sm_active_stage summary |}).

(** Both sides: [client] pulls [author] from [server], whose owner is [node_id]. *)
Definition sync_session (now : Z) (server client : Db) (node_id remote_str author : string)
    (active_stage : option StageAnnouncement) : option (result AppError (Db * SyncResult)) :=
  let req := client_request client author in
  let ids := known_ids_bytes client author (sync_mode server req) in
  response ← handle_sync server node_id remote_str req active_stage ids;
  Some ('(summary_bytes, stream) ← response;
        sync_from_peer now client author summary_bytes stream).
End client.

(** ** processing.rs *)

Section processing.
Context `{Ed25519, HexCodec, JsonCodec, Sha, !Serde (list MediaAttachment)}.

(** [for x in l { f(x) }], counting the [true]s. *)
Fixpoint count_each {A} (f : A -> handler bool) (l : list A) : handler Z :=
  match l with
  | [] => mret 0
  | x :: r => b ← f x; n ← count_each f r; mret (if (b : bool) then 1 + n else n)
  end.

Definition process_sync_result (now : Z) (pubkey my_id : string) (r : SyncResult) : handler Z :=
  stored ← count_each (process_incoming_post now my_id) (sy_posts r);
  _ ← (match sy_profile r with
       | Some profile => modify (save_profile pubkey profile)
       | None => mret tt
       end : handler unit);
  _ ← count_each (fun i => _ ← process_incoming_interaction now my_id i pubkey; mret true)
        (sy_interactions r);
  mret stored.
End processing.
