(* ===== verification/DeviceSync.v ===== *)
(** * Synchronising linked devices

    Model of [src-tauri/src/device_sync.rs]: both devices prove that they hold
    the signing key, exchange state vectors, and send what the other lacks.  A
    stream is its bytes; a batch that fails to decode fails the whole stream. *)

From S2P Require Import Prelude Types Signing Validation Store Social Moderation Posts Interactions Peers Merge Framing Sync.

Local Open Scope Z_scope.

Record DeviceSyncStats : Type := {
  ds_posts_imported : Z;
  ds_interactions_imported : Z;
  ds_follows_merged : Z;
  ds_mutes_merged : Z;
  ds_blocks_merged : Z;
  ds_bookmarks_added : Z;
  ds_ratchets_merged : Z;
}.

Definition no_stats : DeviceSyncStats :=
  {| ds_posts_imported := 0; ds_interactions_imported := 0; ds_follows_merged := 0;
     ds_mutes_merged := 0; ds_blocks_merged := 0; ds_bookmarks_added := 0; ds_ratchets_merged := 0 |}.

(** The [DeviceSyncAccepted] response. *)
Record DeviceSyncAccepted : Type := {
  dy_challenge_response : string;
  dy_vector : DeviceSyncVector;
}.

(** The [DeviceSyncRequest] request. *)
Record DeviceSyncRequest : Type := {
  dr_challenge : bytes;
  dr_challenge_sig : string;
  dr_vector : DeviceSyncVector;
}.

(** ** What a device sends *)

(** [if v.newest > 0 || v.count == 0 { v.newest } else { u64::MAX }]. *)
Definition after_newest (newest count : Z) : Z :=
  if (0 <? newest) || (count =? 0) then newest else u64_MAX.

(** [if !l.is_empty() { write(frame(l)) }]. *)
Definition unless_empty {A} (frame : list A -> DeviceSyncFrame) (l : list A) : list DeviceSyncFrame :=
  match l with [] => [] | _ => [frame l] end.

Definition follow_is_newer (peer_vector : DeviceSyncVector) (f : FollowEntry) : bool :=
  match List.find (fun pf => bool_decide (fe_pubkey pf = fe_pubkey f)) (sv_follows peer_vector) with
  | Some peer_entry => fe_last_changed_at peer_entry <? fe_last_changed_at f
  | None => true
  end.

Definition moderation_is_newer (peer_vector : DeviceSyncVector) (m : ModerationEntry) : bool :=
  match List.find (fun pm => bool_decide (me_pubkey pm = me_pubkey m) &&
                             bool_decide (me_kind pm = me_kind m)) (sv_moderation peer_vector) with
  | Some peer_entry => me_last_changed_at peer_entry <? me_last_changed_at m
  | None => true
  end.

(** [peer_ratchet_map]: a later entry with the same key replaces an earlier. *)
Definition ratchet_is_newer (peer_vector : DeviceSyncVector) (r : RatchetSessionExport) : bool :=
  let peer_ratchet_map : gmap string Z :=
    fold_left (fun m e => <[rs_peer_pubkey e := rs_updated_at e]> m)
      (sv_ratchet_summaries peer_vector) ∅ in
  match peer_ratchet_map !! rx_peer_pubkey r with
  | Some peer_ts => peer_ts <? rx_updated_at r
  | None => true
  end.

Section device_sync.
Context `{Ed25519, HexCodec, SqlOrder, !Serde (list MediaAttachment), !Wire DeviceSyncFrame,
  !Wire DeviceSyncAccepted}.

Definition post_deltas (d : Db) (master_pubkey : string) (peer_vector : DeviceSyncVector)
    : result AppError (list (list Post)) :=
  let post_after_ts := after_newest (sv_newest_post_ts peer_vector) (sv_post_count peer_vector) in
  if post_after_ts <? u64_MAX then
    page_loop (S (size (posts d)))
      (fun offset => get_posts_after d master_pubkey post_after_ts BATCH_SIZE offset) 0
  else Ok [].

Definition interaction_deltas (d : Db) (master_pubkey : string) (peer_vector : DeviceSyncVector)
    : result AppError (list (list Interaction)) :=
  let interaction_after_ts :=
    after_newest (sv_newest_interaction_ts peer_vector) (sv_interaction_count peer_vector) in
  if interaction_after_ts <? u64_MAX then
    page_loop (S (size (interactions d)))
      (fun offset =>
         if 0 <? interaction_after_ts then
           get_interactions_after d master_pubkey interaction_after_ts BATCH_SIZE offset
         else get_interactions_paged d master_pubkey BATCH_SIZE offset) 0
  else Ok [].

(** The frames written.  [our_vector] was built before anything was imported;
    the posts, interactions and ratchet sessions are read now. *)
Definition send_deltas (d : Db) (master_pubkey : string)
    (our_vector peer_vector : DeviceSyncVector) : result AppError (list DeviceSyncFrame) :=
  post_batches ← post_deltas d master_pubkey peer_vector;
  interaction_batches ← interaction_deltas d master_pubkey peer_vector;
  Ok ((DfPosts <$> post_batches) ++ (DfInteractions <$> interaction_batches) ++
      unless_empty DfFollows (filter (follow_is_newer peer_vector) (sv_follows our_vector)) ++
      unless_empty DfModeration
        (filter (moderation_is_newer peer_vector) (sv_moderation our_vector)) ++
      unless_empty DfBookmarks
        (filter (fun b => b ∉ sv_bookmarks peer_vector) (sv_bookmarks our_vector)) ++
      unless_empty DfRatchetSessions
        (filter (ratchet_is_newer peer_vector) (export_ratchet_sessions d))).

(** The frames and the end-of-stream marker. *)
Definition write_deltas (d : Db) (master_pubkey : string)
    (our_vector peer_vector : DeviceSyncVector) : result AppError bytes :=
  frames ← send_deltas d master_pubkey our_vector peer_vector;
  Ok (concat ((fun f => write_frame (to_vec f)) <$> frames) ++ write_frame []).

(** ** What a device imports *)

Definition import_post (master_pubkey : string) (acc : Db * Z) (post : Post) : Db * Z :=
  if decide (post_author post <> master_pubkey) then acc
  else (insert_post post acc.1, add_u32 acc.2 1).

Definition import_interaction (master_pubkey : string) (acc : Db * Z) (i : Interaction) : Db * Z :=
  if decide (in_author i <> master_pubkey) then acc
  else (save_interaction i acc.1, add_u32 acc.2 1).

Definition import_frame (now : Z) (master_pubkey : string) (acc : Db * DeviceSyncStats)
    (frame : DeviceSyncFrame) : Db * DeviceSyncStats :=
  let '(d, st) := acc in
  match frame with
  | DfPosts ps =>
      let '(d, n) := fold_left (import_post master_pubkey) ps (d, ds_posts_imported st) in
      (d, {| ds_posts_imported := n; ds_interactions_imported := ds_interactions_imported st;
             ds_follows_merged := ds_follows_merged st; ds_mutes_merged := ds_mutes_merged st;
             ds_blocks_merged := ds_blocks_merged st; ds_bookmarks_added := ds_bookmarks_added st;
             ds_ratchets_merged := ds_ratchets_merged st |})
  | DfInteractions is_ =>
      let '(d, n) := fold_left (import_interaction master_pubkey) is_
                       (d, ds_interactions_imported st) in
      (d, {| ds_posts_imported := ds_posts_imported st; ds_interactions_imported := n;
             ds_follows_merged := ds_follows_merged st; ds_mutes_merged := ds_mutes_merged st;
             ds_blocks_merged := ds_blocks_merged st; ds_bookmarks_added := ds_bookmarks_added st;
             ds_ratchets_merged := ds_ratchets_merged st |})
  | DfFollows entries =>
      let '(d, n) := merge_follows_lww master_pubkey entries d in
      (d, {| ds_posts_imported := ds_posts_imported st;
             ds_interactions_imported := ds_interactions_imported st;
             ds_follows_merged := add_u32 (ds_follows_merged st) n;
             ds_mutes_merged := ds_mutes_merged st;
             ds_blocks_merged := ds_blocks_merged st; ds_bookmarks_added := ds_bookmarks_added st;
             ds_ratchets_merged := ds_ratchets_merged st |})
  | DfModeration entries =>
      let '(d, n) := merge_moderation_lww entries d in
      (d, {| ds_posts_imported := ds_posts_imported st;
             ds_interactions_imported := ds_interactions_imported st;
             ds_follows_merged := ds_follows_merged st;
             ds_mutes_merged := add_u32 (ds_mutes_merged st) n;
             ds_blocks_merged := ds_blocks_merged st; ds_bookmarks_added := ds_bookmarks_added st;
             ds_ratchets_merged := ds_ratchets_merged st |})
  | DfBookmarks ids =>
      let '(d, n) := merge_bookmarks now ids d in
      (d, {| ds_posts_imported := ds_posts_imported st;
             ds_interactions_imported := ds_interactions_imported st;
             ds_follows_merged := ds_follows_merged st; ds_mutes_merged := ds_mutes_merged st;
             ds_blocks_merged := ds_blocks_merged st;
             ds_bookmarks_added := add_u32 (ds_bookmarks_added st) n;
             ds_ratchets_merged := ds_ratchets_merged st |})
  | DfRatchetSessions sessions =>
      let '(d, n) := merge_ratchet_sessions_lww sessions d in
      (d, {| ds_posts_imported := ds_posts_imported st;
             ds_interactions_imported := ds_interactions_imported st;
             ds_follows_merged := ds_follows_merged st; ds_mutes_merged := ds_mutes_merged st;
             ds_blocks_merged := ds_blocks_merged st; ds_bookmarks_added := ds_bookmarks_added st;
             ds_ratchets_merged := add_u32 (ds_ratchets_merged st) n |})
  end.

(** What was imported before an error stays in the database. *)
Fixpoint import_deltas (fuel : nat) (now : Z) (master_pubkey : string) (stream : bytes)
    (acc : Db * DeviceSyncStats) : Db * result AppError DeviceSyncStats :=
  match fuel with
  | O => (acc.1, Ok acc.2)
  | S fuel =>
      match read_frame stream with
      | Ok (Some buf, rest) =>
          match from_slice buf with
          | Ok frame => import_deltas fuel now master_pubkey rest
                          (import_frame now master_pubkey acc frame)
          | Err e => (acc.1, Err e)
          end
      | Ok (None, _) => (acc.1, Ok acc.2)
      | Err e => (acc.1, Err e)
      end
  end.

Definition read_deltas (now : Z) (master_pubkey : string) (stream : bytes) (d : Db)
    : Db * result AppError DeviceSyncStats :=
  import_deltas (S (length stream)) now master_pubkey stream (d, no_stats).

(** ** The two sides *)

(** [handle_device_sync] up to the end of its data stream: the response and the
    stream, which do not depend on what it receives afterwards. *)
Definition answer_device_sync (d : Db) (master_pubkey : string) (signing_secret : SecretKey)
    (req : DeviceSyncRequest) : result AppError (DeviceSyncAccepted * bytes) :=
  if is_ok (verify_device_sync_challenge (dr_challenge req) (dr_challenge_sig req)
              (sk_public signing_secret)) then
    let our_vector := build_device_sync_vector d master_pubkey in
    data ← write_deltas d master_pubkey our_vector (dr_vector req);
    Ok ({| dy_challenge_response := sign_device_sync_challenge (dr_challenge req) signing_secret;
           dy_vector := our_vector |}, data)
  else Err (Other "challenge verification failed").

(** The rest: what it imports from the initiator's [incoming] stream. *)
Definition handle_device_sync (now : Z) (d : Db) (master_pubkey : string)
    (signing_secret : SecretKey) (req : DeviceSyncRequest) (incoming : bytes)
    : Db * result AppError unit :=
  match answer_device_sync d master_pubkey signing_secret req with
  | Err e => (d, Err e)
  | Ok _ =>
      let '(d, r) := read_deltas now master_pubkey incoming d in
      (d, _ ← r; Ok tt)
  end.

(** [challenge] are the 32 random bytes. *)
Definition device_sync_request (d : Db) (master_pubkey : string) (signing_secret : SecretKey)
    (challenge : bytes) : DeviceSyncRequest :=
  {| dr_challenge := challenge;
     dr_challenge_sig := sign_device_sync_challenge challenge signing_secret;
     dr_vector := build_device_sync_vector d master_pubkey |}.

(** [sync_with_device] after the connection: from the response and the data
    stream to the database, the bytes it sends and the result. *)
Definition sync_with_device (now : Z) (d : Db) (master_pubkey : string)
    (signing_secret : SecretKey) (challenge resp_bytes data : bytes)
    : Db * result AppError (bytes * DeviceSyncStats) :=
  let our_vector := build_device_sync_vector d master_pubkey in
  let checked :=
    _ ← bail_if (1000000 <? Z.of_nat (length resp_bytes)) (Other "too long");
    response ← from_slice resp_bytes;
    if is_ok (verify_device_sync_challenge challenge (dy_challenge_response response)
                (sk_public signing_secret))
    then Ok (dy_vector response) else Err (Other "peer failed challenge") in
  match checked with
  | Err e => (d, Err e)
  | Ok peer_vector =>
      match read_deltas now master_pubkey data d with
      | (d, Err e) => (d, Err e)
      | (d, Ok imported) =>
          (d, out ← write_deltas d master_pubkey our_vector peer_vector; Ok (out, imported))
      end
  end.

(** Both sides of a session.  The responder reads its database again when the
    initiator's deltas arrive. *)
Definition device_session (now : Z) (initiator responder : Db) (master_pubkey : string)
    (sk_i sk_r : SecretKey) (challenge : bytes)
    : Db * Db * result AppError DeviceSyncStats :=
  let req := device_sync_request initiator master_pubkey sk_i challenge in
  match answer_device_sync responder master_pubkey sk_r req with
  | Err e => (initiator, responder, Err e)
  | Ok (accepted, data) =>
      match sync_with_device now initiator master_pubkey sk_i challenge (to_vec accepted) data with
      | (initiator, Err e) => (initiator, responder, Err e)
      | (initiator, Ok (out, stats)) =>
          let '(responder, r) := handle_device_sync now responder master_pubkey sk_r req out in
          (initiator, responder, _ ← r; Ok stats)
      end
  end.
End device_sync.
