(* ===== verification/ConcreteWire.v ===== *)
(** * Concrete messages

    Instances of [Wire] for the witnesses: a message is one number, its
    [Countable] code. *)

From stdpp Require Import countable.
From S2P Require Import Prelude Types Store ConcreteStore Framing DeviceSync.

Local Open Scope Z_scope.

Definition wire_countable A `{Countable A} : Wire A := {|
  to_vec a := [Zpos (encode a)];
  from_slice b := match b with [Zpos p] => ok_or (decode p) SerdeJson | _ => Err SerdeJson end;
|}.

Lemma wire_countable_laws A `{Countable A} : @WireLaws A (wire_countable A).
Proof. split; intros a; cbn; [by rewrite decode_encode|done]. Qed.

#[export] Instance Visibility_countable : Countable Visibility.
Proof.
  refine (inj_countable' (fun v => match v with Public => None | Listed => Some true | Private => Some false end)
    (fun o => match o with None => Public | Some true => Listed | Some false => Private end) _).
  by intros [].
Defined.
#[export] Instance Profile_countable : Countable Profile.
Proof.
  refine (inj_countable' (fun p => (pr_display_name p, pr_bio p, pr_avatar_hash p, pr_avatar_ticket p,
      pr_visibility p, pr_signature p))
    (fun '(a, b, c, d, e, f) => {| pr_display_name := a; pr_bio := b; pr_avatar_hash := c;
      pr_avatar_ticket := d; pr_visibility := e; pr_signature := f |}) _). by intros [].
Defined.
#[export] Instance Post_countable : Countable Post.
Proof.
  refine (inj_countable' (fun p => (post_id p, post_author p, post_content p, post_timestamp p,
      post_media p, post_reply_to p, post_reply_to_author p, post_quote_of p,
      post_quote_of_author p, post_signature p))
    (fun '(a, b, c, d, e, f, g, h, i, j) => {| post_id := a; post_author := b; post_content := c;
      post_timestamp := d; post_media := e; post_reply_to := f; post_reply_to_author := g;
      post_quote_of := h; post_quote_of_author := i; post_signature := j |}) _). by intros [].
Defined.
#[export] Instance Interaction_countable : Countable Interaction.
Proof.
  refine (inj_countable' (fun i => (in_id i, in_author i, in_target_post_id i, in_target_author i,
      in_timestamp i, in_signature i))
    (fun '(a, b, c, d, e, f) => {| in_id := a; in_author := b; in_kind := Like;
      in_target_post_id := c; in_target_author := d; in_timestamp := e; in_signature := f |}) _).
  by intros [? ? [] ? ? ? ?].
Defined.
#[export] Instance StageTicket_countable : Countable StageTicket.
Proof.
  refine (inj_countable' (fun t => (tk_stage_id t, tk_host_pubkey t, tk_host_node_id t, tk_title t))
    (fun '(a, b, c, d) => {| tk_stage_id := a; tk_host_pubkey := b; tk_host_node_id := c;
      tk_title := d |}) _). by intros [].
Defined.
#[export] Instance StageAnnouncement_eq_dec : EqDecision StageAnnouncement.
Proof. solve_decision. Defined.
#[export] Instance StageAnnouncement_countable : Countable StageAnnouncement.
Proof.
  refine (inj_countable' (fun s => (sa_stage_id s, sa_title s, sa_ticket s, sa_host_pubkey s,
      sa_started_at s))
    (fun '(a, b, c, d, e) => {| sa_stage_id := a; sa_title := b; sa_ticket := c;
      sa_host_pubkey := d; sa_started_at := e |}) _). by intros [].
Defined.
#[export] Instance SyncMode_countable : Countable SyncMode.
Proof.
  refine (inj_countable' (fun m => match m with UpToDate => None | TimestampCatchUp => Some true
      | NeedIdDiff => Some false end)
    (fun o => match o with None => UpToDate | Some true => TimestampCatchUp
      | Some false => NeedIdDiff end) _). by intros [].
Defined.
#[export] Instance SyncSummary_eq_dec : EqDecision SyncSummary.
Proof. solve_decision. Defined.
#[export] Instance SyncSummary_countable : Countable SyncSummary.
Proof.
  refine (inj_countable' (fun s => (sm_server_post_count s, sm_server_interaction_count s,
      sm_posts_after_count s, sm_interactions_after_count s, sm_mode s, sm_profile s,
      sm_active_stage s))
    (fun '(a, b, c, d, e, f, g) => {| sm_server_post_count := a; sm_server_interaction_count := b;
      sm_posts_after_count := c; sm_interactions_after_count := d; sm_mode := e;
      sm_profile := f; sm_active_stage := g |}) _). by intros [].
Defined.
#[export] Instance SyncFrame_eq_dec : EqDecision SyncFrame.
Proof. solve_decision. Defined.
#[export] Instance SyncFrame_countable : Countable SyncFrame.
Proof.
  refine (inj_countable' (fun f => match f with SfPosts l => inl (inl l)
      | SfInteractions l => inl (inr l) | SfDeviceAnnouncements l => inr l end)
    (fun x => match x with inl (inl l) => SfPosts l | inl (inr l) => SfInteractions l
      | inr l => SfDeviceAnnouncements l end) _). by intros [].
Defined.

#[export] Instance wire_summary : Wire SyncSummary := wire_countable _.
#[export] Instance wire_frame : Wire SyncFrame := wire_countable _.
#[export] Instance wire_strings : Wire (list string) := wire_countable _.
#[export] Instance wire_summary_laws : WireLaws SyncSummary.
Proof. apply wire_countable_laws. Qed.
#[export] Instance wire_frame_laws : WireLaws SyncFrame.
Proof. apply wire_countable_laws. Qed.
#[export] Instance wire_strings_laws : WireLaws (list string).
Proof. apply wire_countable_laws. Qed.

(** ** Device synchronisation *)

#[export] Instance FollowEntry_eq_dec : EqDecision FollowEntry.
Proof. solve_decision. Defined.
#[export] Instance FollowEntry_countable : Countable FollowEntry.
Proof.
  refine (inj_countable' (fun e => (fe_pubkey e, fe_followed_at e, fe_state e, fe_last_changed_at e))
    (fun '(a, b, c, d) => {| fe_pubkey := a; fe_followed_at := b; fe_state := c;
      fe_last_changed_at := d |}) _). by intros [].
Defined.
#[export] Instance ModerationEntry_eq_dec : EqDecision ModerationEntry.
Proof. solve_decision. Defined.
#[export] Instance ModerationEntry_countable : Countable ModerationEntry.
Proof.
  refine (inj_countable' (fun e => (me_pubkey e, me_kind e, me_created_at e, me_state e,
      me_last_changed_at e))
    (fun '(a, b, c, d, e) => {| me_pubkey := a; me_kind := b; me_created_at := c; me_state := d;
      me_last_changed_at := e |}) _). by intros [].
Defined.
#[export] Instance RatchetSessionExport_eq_dec : EqDecision RatchetSessionExport.
Proof. solve_decision. Defined.
#[export] Instance RatchetSessionExport_countable : Countable RatchetSessionExport.
Proof.
  refine (inj_countable' (fun e => (rx_peer_pubkey e, rx_state_json e, rx_updated_at e))
    (fun '(a, b, c) => {| rx_peer_pubkey := a; rx_state_json := b; rx_updated_at := c |}) _).
  by intros [].
Defined.
#[export] Instance RatchetSyncEntry_eq_dec : EqDecision RatchetSyncEntry.
Proof. solve_decision. Defined.
#[export] Instance RatchetSyncEntry_countable : Countable RatchetSyncEntry.
Proof.
  refine (inj_countable' (fun e => (rs_peer_pubkey e, rs_updated_at e))
    (fun '(a, b) => {| rs_peer_pubkey := a; rs_updated_at := b |}) _). by intros [].
Defined.
#[export] Instance DeviceSyncVector_eq_dec : EqDecision DeviceSyncVector.
Proof. solve_decision. Defined.
#[export] Instance DeviceSyncVector_countable : Countable DeviceSyncVector.
Proof.
  refine (inj_countable' (fun v => (sv_post_count v, sv_newest_post_ts v, sv_interaction_count v,
      sv_newest_interaction_ts v, sv_follows v, sv_moderation v, sv_bookmarks v,
      sv_ratchet_summaries v, sv_dm_newest_ts v))
    (fun '(a, b, c, d, e, f, g, h, i) => {| sv_post_count := a; sv_newest_post_ts := b;
      sv_interaction_count := c; sv_newest_interaction_ts := d; sv_follows := e;
      sv_moderation := f; sv_bookmarks := g; sv_ratchet_summaries := h;
      sv_dm_newest_ts := i |}) _). by intros [].
Defined.
#[export] Instance DeviceSyncAccepted_eq_dec : EqDecision DeviceSyncAccepted.
Proof. solve_decision. Defined.
#[export] Instance DeviceSyncAccepted_countable : Countable DeviceSyncAccepted.
Proof.
  refine (inj_countable' (fun a => (dy_challenge_response a, dy_vector a))
    (fun '(a, b) => {| dy_challenge_response := a; dy_vector := b |}) _). by intros [].
Defined.
#[export] Instance DeviceSyncFrame_eq_dec : EqDecision DeviceSyncFrame.
Proof. solve_decision. Defined.
#[export] Instance DeviceSyncFrame_countable : Countable DeviceSyncFrame.
Proof.
  refine (inj_countable' (fun f => match f with DfPosts l => inl (inl l)
      | DfInteractions l => inl (inr l) | DfFollows l => inr (inl (inl l))
      | DfModeration l => inr (inl (inr l)) | DfBookmarks l => inr (inr (inl l))
      | DfRatchetSessions l => inr (inr (inr l)) end)
    (fun x => match x with inl (inl l) => DfPosts l | inl (inr l) => DfInteractions l
      | inr (inl (inl l)) => DfFollows l | inr (inl (inr l)) => DfModeration l
      | inr (inr (inl l)) => DfBookmarks l | inr (inr (inr l)) => DfRatchetSessions l end) _).
  by intros [].
Defined.

#[export] Instance wire_device_frame : Wire DeviceSyncFrame := wire_countable _.
#[export] Instance wire_accepted : Wire DeviceSyncAccepted := wire_countable _.
#[export] Instance wire_device_frame_laws : WireLaws DeviceSyncFrame.
Proof. apply wire_countable_laws. Qed.
#[export] Instance wire_accepted_laws : WireLaws DeviceSyncAccepted.
Proof. apply wire_countable_laws. Qed.
