(* ===== verification/SyncTheorems.v ===== *)
(** * What a sync transfers

    The paging loops, the counting argument behind the catch-up mode, and the
    theorem that after a session the client has everything the server has. *)

From S2P Require Import Prelude Types Ratchet Signing Concrete Store ConcreteStore Validation Social Moderation Posts Interactions Notifications Peers Handler Ingest Framing ConcreteWire Sync ContentTheorems GossipTheorems.

Local Open Scope Z_scope.

(** ** Paging *)

Lemma page_loop_concat {A} (fetch : Z -> result AppError (list A)) (xs : list A) (n : nat) :
  (0 < n)%nat -> Z.of_nat (length xs) < 2 ^ 63 ->
  (forall k, 0 <= k < 2 ^ 63 -> fetch k = Ok (take n (drop (Z.to_nat k) xs))) ->
  forall fuel k, (length xs - k < fuel)%nat -> (k <= length xs)%nat ->
  exists bs, page_loop fuel fetch (Z.of_nat k) = Ok bs /\ concat bs = drop k xs /\
    Forall (fun b => b <> [] /\ (length b <= n)%nat) bs.
Proof.
  intros Hn Hlen Hfetch fuel. induction fuel as [|fuel IH]; intros k Hf Hk; [lia|]. cbn [page_loop].
  rewrite Hfetch by lia. rewrite Nat2Z.id. unfold mbind, result_bind.
  destruct (take n (drop k xs)) as [|x b] eqn:E.
  - exists []. split_and!; [done| |constructor].
    apply (page_nil n k xs Hn) in E. by rewrite drop_ge.
  - assert (length (x :: b) = Nat.min n (length xs - k)) as Hb
      by (by rewrite <-E, length_take, length_drop).
    assert (k < length xs)%nat as Hlt by (cbn in Hb; lia).
    rewrite <-Nat2Z.inj_add.
    destruct (IH (k + length (x :: b))%nat) as (bs & -> & Hc & Hbs); [lia..|].
    exists ((x :: b) :: bs). split_and!; [done| |].
    + cbn [concat]. rewrite Hc, <-drop_drop, Hb, <-E.
      transitivity (take n (drop k xs) ++ drop n (drop k xs)); [f_equal|apply take_drop].
      destruct (decide (n <= length xs - k)%nat).
      * by rewrite Nat.min_l.
      * rewrite Nat.min_r by lia. rewrite (drop_ge _ n) by (rewrite length_drop; lia).
        rewrite drop_drop. apply drop_ge. lia.
    + constructor; [|done]. split; [done|]. lia.
Qed.

Lemma filter_bool_cons {A} (P : A -> bool) x (l : list A) :
  filter P (x :: l) = if P x then x :: filter P l else filter P l.
Proof.
  rewrite filter_cons. case_decide as Hp.
  - by rewrite (Is_true_true_1 _ Hp).
  - by rewrite (Is_true_false_1 _ Hp).
Qed.

(** ** The counting argument

    [own] are the rows of the author in a table; the client's are among the
    server's. *)

Section counting.
Context {R : Type} (ts : R -> Z) (author : string).
Implicit Types (s c : gmap (string * string) R).

Definition own (kr : (string * string) * R) : bool := bool_decide (kr.1.1 = author).
Definition newer_than (t : Z) (kr : (string * string) * R) : bool := own kr && (t <? ts kr.2).

Lemma own_count c : sql_count own c = Z.of_nat (length (filter own (map_to_list c))).
Proof. done. Qed.

Definition keys_of (P : (string * string) * R -> bool) (t : gmap (string * string) R) :=
  fst <$> filter P (map_to_list t).

Lemma keys_of_NoDup P t : NoDup (keys_of P t).
Proof. apply NoDup_fmap_filter, NoDup_fst_map_to_list. Qed.

Lemma elem_of_keys_of P t k : k ∈ keys_of P t <-> exists r, t !! k = Some r /\ P (k, r) = true.
Proof.
  unfold keys_of. rewrite list_elem_of_fmap. split.
  - intros ([k' r] & -> & Hin). apply list_elem_of_filter in Hin as [Hp%Is_true_true Hin%elem_of_map_to_list].
    eauto.
  - intros (r & Hr & Hp). exists (k, r). split; [done|]. apply list_elem_of_filter.
    split; [by apply Is_true_true|by apply elem_of_map_to_list].
Qed.

Lemma count_keys P t : sql_count P t = Z.of_nat (length (keys_of P t)).
Proof. unfold sql_count, keys_of. by rewrite length_fmap. Qed.

Definition older_than (t : Z) (kr : (string * string) * R) : bool := own kr && (ts kr.2 <=? t).

Lemma count_split t m : sql_count own m = sql_count (newer_than t) m + sql_count (older_than t) m.
Proof.
  unfold sql_count. induction (map_to_list m) as [|x l IH]; [done|].
  rewrite !filter_bool_cons. unfold newer_than at 1, older_than at 1.
  destruct (own x); cbn [andb]; [|exact IH].
  destruct (Z.ltb_spec t (ts x.2)), (Z.leb_spec (ts x.2) t); try lia; cbn [length]; lia.
Qed.

(** The client's rows of the author are rows of the server. *)
Definition sub_rows (c s : gmap (string * string) R) : Prop :=
  forall k r, k.1 = author -> c !! k = Some r -> s !! k = Some r.

Lemma same_count_same s c :
  sub_rows c s -> sql_count own s = sql_count own c ->
  forall k, k.1 = author -> is_Some (s !! k) -> is_Some (c !! k).
Proof.
  intros Hsub Hn k Hk [r Hr]. rewrite !count_keys in Hn.
  assert (keys_of own c ≡ₚ keys_of own s) as Hp.
  { apply NoDup_subset_Permutation; [apply keys_of_NoDup..| |lia].
    intros k' (r' & Hr' & Ho)%elem_of_keys_of. apply elem_of_keys_of.
    exists r'. split; [|done]. apply Hsub; [|done]. by apply bool_decide_eq_true in Ho. }
  assert (k ∈ keys_of own s) as Hin.
  { apply elem_of_keys_of. exists r. split; [done|]. by apply bool_decide_eq_true. }
  rewrite <-Hp in Hin. apply elem_of_keys_of in Hin as (r' & Hr' & _). eauto.
Qed.

(** If the server has as many rows beyond the client's newest as it has more
    rows, those are exactly the rows the client lacks. *)
Lemma catch_up_exact s c t :
  sub_rows c s -> (forall k r, k.1 = author -> c !! k = Some r -> ts r <= t) ->
  sql_count own s - sql_count own c = sql_count (newer_than t) s ->
  forall k r, k.1 = author -> s !! k = Some r -> t < ts r <-> c !! k = None.
Proof.
  intros Hsub Hmax Hn k r Hk Hr.
  assert (keys_of own c ≡ₚ keys_of (older_than t) s) as Hp.
  { apply NoDup_subset_Permutation; [apply keys_of_NoDup..| |].
    - intros k' (r' & Hr' & Ho)%elem_of_keys_of. apply elem_of_keys_of.
      pose proof Ho as Ha%bool_decide_eq_true. cbn in Ha.
      exists r'. split; [by apply Hsub|]. unfold older_than. rewrite Ho. cbn.
      apply Z.leb_le. by eapply Hmax.
    - rewrite (count_split t s) in Hn. rewrite !count_keys in Hn. lia. }
  split.
  - intros Ht. destruct (c !! k) as [r'|] eqn:E; [|done].
    assert (Some r' = Some r) as [= ->] by (rewrite <-Hr; symmetry; by apply Hsub).
    specialize (Hmax k r Hk E). lia.
  - intros Hc. destruct (Z.lt_ge_cases t (ts r)) as [|Hle]; [done|].
    assert (k ∈ keys_of (older_than t) s) as Hin.
    { apply elem_of_keys_of. exists r. split; [done|]. unfold older_than, own.
      cbn. rewrite bool_decide_eq_true_2 by done. by apply Z.leb_le. }
    rewrite <-Hp in Hin. apply elem_of_keys_of in Hin as (r' & Hr' & _). congruence.
Qed.
End counting.

(** ** The client's newest timestamp *)

Section newest.
Context {R : Type} (ts : R -> Z) (author : string).
Implicit Types (s c : gmap (string * string) R).

Definition newest (c : gmap (string * string) R) : Z :=
  default 0 (sql_max ((fun kr => ts kr.2) <$> filter (own author) (map_to_list c))).

Definition positive (s : gmap (string * string) R) : Prop :=
  forall k r, k.1 = author -> s !! k = Some r -> 0 < ts r < 2 ^ 63.

Lemma positive_sub s c : sub_rows author c s -> positive s -> positive c.
Proof. intros Hsub Hp k r Hk Hr. eapply Hp; [done|by eapply Hsub]. Qed.

Lemma newest_spec c :
  positive c ->
  0 <= newest c < 2 ^ 63 /\ (forall k r, k.1 = author -> c !! k = Some r -> ts r <= newest c) /\
  (newest c <= 0 -> forall k r, k.1 = author -> c !! k = Some r -> False).
Proof.
  intros Hp. unfold newest.
  assert (forall x, x ∈ (fun kr => ts kr.2) <$> filter (own author) (map_to_list c) <->
    exists k r, k.1 = author /\ c !! k = Some r /\ x = ts r) as Hel.
  { intros x. rewrite list_elem_of_fmap. split.
    - intros ([k r] & -> & Hin). apply list_elem_of_filter in Hin as [Ho Hin%elem_of_map_to_list].
      apply Is_true_true, bool_decide_eq_true in Ho. eauto.
    - intros (k & r & Hk & Hr & ->). exists (k, r). split; [done|]. apply list_elem_of_filter.
      split; [|by apply elem_of_map_to_list]. apply Is_true_true. by apply bool_decide_eq_true. }
  destruct (sql_max _) as [m|] eqn:E; cbn.
  - apply sql_max_Some in E as [Hin Hmax]. apply Hel in Hin as (k & r & Hk & Hr & ->).
    pose proof (Hp k r Hk Hr). split_and!; [lia|lia| |lia].
    intros k' r' Hk' Hr'. apply Hmax, Hel. eauto.
  - apply sql_max_None in E. rewrite E in Hel.
    assert (forall k r, k.1 = author -> c !! k = Some r -> False) as Hno.
    { intros k r Hk Hr. eapply (elem_of_nil (ts r)), Hel. eauto. }
    split_and!; [lia|lia| |done]. intros k r Hk Hr. by destruct (Hno k r).
Qed.

(** The server's count of newer rows, as phase 1 computes it. *)
Lemma after_count s c :
  positive s -> sub_rows author c s ->
  (if 0 <? newest c then sql_count (newer_than ts author (newest c)) s
   else sql_count (own author) s) = sql_count (newer_than ts author (newest c)) s.
Proof.
  intros Hs Hsub. destruct (newest_spec c (positive_sub s c Hsub Hs)) as (Hr & _ & _).
  destruct (Z.ltb_spec 0 (newest c)); [done|]. rewrite !count_keys. f_equal.
  apply Permutation_length, NoDup_Permutation; [apply keys_of_NoDup..|].
  intros k. rewrite !elem_of_keys_of. unfold newer_than.
  split; intros (r & Hk & Ho); exists r; (split; [done|]).
  - rewrite Ho. cbn. apply Z.ltb_lt. apply bool_decide_eq_true in Ho.
    pose proof (Hs k r Ho Hk). lia.
  - by apply andb_prop in Ho as [? _].
Qed.
End newest.

(** ** Streams *)

Record sync_ready (server client : Db) (author : string)
    `{Serde (list MediaAttachment)} : Prop := {
  sr_posts_ok : posts_ok server;
  sr_ints_ok : interactions_ok server;
  sr_posts_sub : sub_rows author (posts client) (posts server);
  sr_ints_sub : sub_rows author (interactions client) (interactions server);
  sr_posts_ts : positive pw_timestamp author (posts server);
  sr_ints_ts : positive iw_timestamp author (interactions server);
  sr_posts_size : Z.of_nat (size (posts server)) < 2 ^ 63;
  sr_ints_size : Z.of_nat (size (interactions server)) < 2 ^ 63;
}.

Section streams.
Context `{SqlOrder, !SqlOrderLaws, !Serde (list MediaAttachment), !SerdeLaws (list MediaAttachment),
  !Wire SyncFrame, !Wire (list string), !Wire SyncSummary}.
Context (server client : Db) (author : string) (Hready : sync_ready server client author).

Abbreviation req := (client_request client author).

Lemma req_newest :
  sq_newest_timestamp req = newest pw_timestamp author (posts client) /\
  as_i64 (sq_newest_timestamp req) = sq_newest_timestamp req.
Proof.
  destruct (newest_spec pw_timestamp author (posts client)) as (Hr & _).
  { eapply positive_sub; [apply (sr_posts_sub _ _ _ Hready)|apply (sr_posts_ts _ _ _ Hready)]. }
  assert (sq_newest_timestamp req = newest pw_timestamp author (posts client)) as E.
  { cbn. unfold newest_post_timestamp, newest in *. rewrite as_u64_small; [done|].
    unfold is_u64. unfold own in Hr. lia. }
  split; [done|]. rewrite E. by apply as_i64_small.
Qed.

Lemma req_newest_interaction :
  sq_newest_interaction_timestamp req = newest iw_timestamp author (interactions client) /\
  as_i64 (sq_newest_interaction_timestamp req) = sq_newest_interaction_timestamp req.
Proof.
  destruct (newest_spec iw_timestamp author (interactions client)) as (Hr & _).
  { eapply positive_sub; [apply (sr_ints_sub _ _ _ Hready)|apply (sr_ints_ts _ _ _ Hready)]. }
  assert (sq_newest_interaction_timestamp req = newest iw_timestamp author (interactions client)) as E.
  { cbn. unfold newest_interaction_timestamp, newest in *. rewrite as_u64_small; [done|].
    unfold is_u64. unfold own in Hr. lia. }
  split; [done|]. rewrite E. by apply as_i64_small.
Qed.

Lemma posts_after_count_eq :
  posts_after_count server req =
    sql_count (newer_than pw_timestamp author (newest pw_timestamp author (posts client)))
      (posts server).
Proof.
  destruct req_newest as [E1 E2]. unfold posts_after_count, count_posts_after, after_ts.
  rewrite E2, E1. apply (after_count pw_timestamp author (posts server) (posts client)); apply Hready.
Qed.

Lemma interactions_after_count_eq :
  interactions_after_count server req =
    sql_count (newer_than iw_timestamp author (newest iw_timestamp author (interactions client)))
      (interactions server).
Proof.
  destruct req_newest_interaction as [E1 E2].
  unfold interactions_after_count, count_interactions_after, interaction_after.
  rewrite E2, E1.
  apply (after_count iw_timestamp author (interactions server) (interactions client)); apply Hready.
Qed.

(** A stored post of the author that the client lacks. *)
Definition missing_post (p : Post) : Prop :=
  post_author p = author /\ stored_post server p /\ is_u64 (post_timestamp p) /\
  posts client !! (author, post_id p) = None.
Definition missing_interaction (i : Interaction) : Prop :=
  in_author i = author /\ stored_interaction server i /\ is_u64 (in_timestamp i) /\
  interactions client !! (author, in_id i) = None.

(** The client's ids, as it sends them. *)
Lemma known_ids_spec id :
  id ∈ get_post_ids_by_author client author <-> is_Some (posts client !! (author, id)).
Proof.
  unfold get_post_ids_by_author. rewrite list_elem_of_fmap. split.
  - intros ([[a i] r] & -> & Hin%elem_of_sql_select). cbn in *.
    destruct Hin as [Hr Ha%bool_decide_eq_true]. subst a. eauto.
  - intros [r Hr]. exists ((author, id), r). split; [done|]. apply elem_of_sql_select.
    split; [done|]. by apply bool_decide_eq_true.
Qed.

Definition client_ids : list string :=
  if decide (sync_mode server req = NeedIdDiff) then get_post_ids_by_author client author else [].

(** The selection a post stream pages through. *)
Lemma stream_posts_select :
  sync_mode server req <> UpToDate ->
  exists P, (forall off, match sync_mode server req with
      | TimestampCatchUp => get_posts_after server author (sq_newest_timestamp req) BATCH_SIZE off
      | NeedIdDiff => get_posts_not_in server author client_ids BATCH_SIZE off
      | UpToDate => Ok []
      end = decode_all row_to_post (sql_limit BATCH_SIZE (sql_offset off
              (sql_select P (fun kr => pw_timestamp kr.2) (posts server))))) /\
    (forall p, stored_post server p -> is_u64 (post_timestamp p) ->
       P (keyed_post p) = true <-> missing_post p).
Proof.
  intros Hmode. unfold client_ids. destruct (sync_mode server req) eqn:Em; [done| |].
  - exists (after_ts author (sq_newest_timestamp req)). split; [done|]. intros p Hst Ht.
    assert (sql_count (own author) (posts server) - sql_count (own author) (posts client) =
      sql_count (newer_than pw_timestamp author (newest pw_timestamp author (posts client)))
        (posts server)) as Hn.
    { revert Em. unfold sync_mode. rewrite posts_after_count_eq. case_match; [done|].
      case_match eqn:E; [|done]. intros _. apply andb_prop in E as [_ E%Z.eqb_eq]. exact E. }
    destruct req_newest as [E1 E2]. unfold after_ts, missing_post. rewrite E2, E1. cbn.
    destruct (newest_spec pw_timestamp author (posts client)) as (_ & Hmax & _).
    { eapply positive_sub; [apply (sr_posts_sub _ _ _ Hready)|apply (sr_posts_ts _ _ _ Hready)]. }
    rewrite andb_true_iff, bool_decide_eq_true, Z.ltb_lt. split.
    + intros [Ha Hlt]. split_and!; try done. rewrite <-Ha in *.
      by eapply (catch_up_exact pw_timestamp (post_author p) (posts server));
        [apply Hready|exact Hmax|exact Hn| |exact Hst|].
    + intros (Ha & _ & _ & Hc). split; [done|]. rewrite <-Ha in *.
      by eapply (catch_up_exact pw_timestamp (post_author p) (posts server)) in Hc;
        [|apply Hready|exact Hmax|exact Hn| |exact Hst].
  - rewrite decide_True by done.
    exists (fun kr => bool_decide (kr.1.1 = author) &&
      negb (bool_decide (kr.1.2 ∈ get_post_ids_by_author client author))). split; [done|].
    intros p Hst Ht. unfold missing_post. cbn.
    rewrite andb_true_iff, negb_true_iff, bool_decide_eq_true, bool_decide_eq_false, known_ids_spec.
    rewrite <-eq_None_not_Some. tauto.
Qed.

Lemma stream_posts_spec :
  sync_mode server req <> UpToDate ->
  exists bs, stream_posts server req client_ids = Ok bs /\ NoDup (concat bs) /\
    (forall p, p ∈ concat bs <-> missing_post p) /\
    Forall (fun b => b <> [] /\ (length b <= 200)%nat) bs.
Proof.
  intros Hmode. destruct (stream_posts_select Hmode) as (P & Hf & HP).
  destruct (select_posts server P (fun kr => pw_timestamp kr.2) (sr_posts_ok _ _ _ Hready))
    as (ps & Hrows & _ & Hnd & Hin & Hlen).
  pose proof (sr_posts_size _ _ _ Hready) as Hsize.
  destruct (page_loop_concat (fun offset =>
       match sync_mode server req with
       | TimestampCatchUp => get_posts_after server author (sq_newest_timestamp req) BATCH_SIZE offset
       | NeedIdDiff => get_posts_not_in server author client_ids BATCH_SIZE offset
       | UpToDate => Ok []
       end) ps 200) with (fuel := S (size (posts server))) (k := 0%nat)
    as (bs & Ebs & Hc & Hbs); [lia|lia| |lia|lia|].
  { intros k Hk. etransitivity; [apply Hf|]. by apply (decode_page row_to_post _ ps). }
  exists bs. rewrite Hc, drop_0. split_and!; [exact Ebs|done| |done].
  intros p. rewrite Hin. split.
  - intros (Hst & Ht & HPp). by apply HP.
  - intros Hm. pose proof Hm as (_ & Hst & Ht & _). split_and!; [done|done|]. by apply HP.
Qed.

(** The rows the pages of interactions are cut from; for a catch-up the counts
    say that nothing older is missing. *)
Lemma interactions_selection (catchup : bool) :
  (catchup = true -> (count_interactions_by_author server author - sq_interaction_count req =?
    interactions_after_count server req) = true) ->
  exists P, (forall off, (if catchup then
        get_interactions_after server author (sq_newest_interaction_timestamp req) BATCH_SIZE off
      else get_interactions_paged server author BATCH_SIZE off) =
      decode_all row_to_interaction (sql_limit BATCH_SIZE (sql_offset off
        (sql_select P (fun kr => iw_timestamp kr.2) (interactions server))))) /\
    (forall i, P (keyed_interaction i) = true -> in_author i = author) /\
    (forall i, missing_interaction i -> P (keyed_interaction i) = true).
Proof.
  intros Hcatch. destruct catchup.
  - exists (interaction_after author (sq_newest_interaction_timestamp req)).
    split; [done|]. unfold interaction_after. cbn. split.
    { by intros i [?%bool_decide_eq_true _]%andb_prop. }
    intros i (Ha & Hst & _ & Hc). rewrite Ha, bool_decide_eq_true_2 by done. cbn.
    specialize (Hcatch eq_refl). apply Z.eqb_eq in Hcatch. rewrite interactions_after_count_eq in Hcatch.
    destruct req_newest_interaction as [E1 E2]. cbn in E2. rewrite E2. cbn in E1. rewrite E1.
    apply Z.ltb_lt. rewrite <-Ha in *.
    destruct (newest_spec iw_timestamp (in_author i) (interactions client)) as (_ & Hmax & _).
    { eapply positive_sub; [apply (sr_ints_sub _ _ _ Hready)|apply (sr_ints_ts _ _ _ Hready)]. }
    by eapply (catch_up_exact iw_timestamp (in_author i) (interactions server)) in Hc;
      [|apply Hready|exact Hmax|exact Hcatch| |exact Hst].
  - exists (fun kr => bool_decide (kr.1.1 = author)). split; [done|]. split.
    + by intros i ?%bool_decide_eq_true.
    + intros i (Ha & _). by apply bool_decide_eq_true.
Qed.

Lemma stream_interactions_spec :
  exists bs, stream_interactions server req = Ok bs /\ NoDup (concat bs) /\
    (forall i, i ∈ concat bs -> in_author i = author /\ stored_interaction server i) /\
    (forall i, missing_interaction i -> i ∈ concat bs) /\
    Forall (fun b => b <> [] /\ (length b <= 200)%nat) bs.
Proof.
  unfold stream_interactions. destruct (interactions_match server req) eqn:Em.
  { exists []. split_and!; [done|constructor| | |constructor].
    - by intros i ?%elem_of_nil.
    - intros i (Ha & Hst & _ & Hc). apply Z.eqb_eq in Em. cbn in Em.
      destruct (same_count_same author (interactions server) (interactions client))
        with (k := (author, in_id i)) as [r Hr]; [apply Hready|by symmetry|done| |congruence].
      rewrite <-Ha. eauto. }
  set (catchup := _ && _).
  destruct (interactions_selection catchup) as (P & Hf & HPa & HPm); [by intros [_ ?]%andb_prop|].
  destruct (select_interactions server P (fun kr => iw_timestamp kr.2) (sr_ints_ok _ _ _ Hready))
    as (is_ & Hrows & Hnd & Hin & Hlen).
  pose proof (sr_ints_size _ _ _ Hready) as Hsize.
  destruct (page_loop_concat (fun off => if catchup then
        get_interactions_after server author (sq_newest_interaction_timestamp req) BATCH_SIZE off
      else get_interactions_paged server author BATCH_SIZE off) is_ 200)
    with (fuel := S (size (interactions server))) (k := 0%nat)
    as (bs & Ebs & Hc & Hbs); [lia|lia| |lia|lia|].
  { intros k Hk. etransitivity; [apply Hf|]. by apply (decode_page row_to_interaction _ is_). }
  exists bs. rewrite Hc, drop_0. split_and!; [exact Ebs|done| | |done].
  - intros i (Hst & _ & HP)%Hin. split; [by apply HPa|done].
  - intros i Hm. apply Hin. pose proof Hm as (_ & Hst & Ht & _). auto.
Qed.
End streams.

(** ** Sessions *)

Section session.
Context `{Ed25519, HexCodec, JsonCodec, SqlOrder, !SqlOrderLaws, !Serde (list MediaAttachment),
  !SerdeLaws (list MediaAttachment), !Serde (list string), !Serde LinkedDevicesAnnouncement,
  !Wire SyncFrame, !WireLaws SyncFrame, !Wire (list string), !WireLaws (list string),
  !Wire SyncSummary, !WireLaws SyncSummary}.

Definition fits (f : SyncFrame) : Prop := Z.of_nat (length (to_vec f)) <= MAX_FRAME_SIZE.

(** The size limits of the protocol hold: a batch of stored content in a
    frame, the summary, and the id list. *)
Record sizes_fit (server client : Db) (node_id author : string)
    (stage : option StageAnnouncement) : Prop := {
  sf_posts : forall ps, (length ps <= 200)%nat -> Forall (stored_post server) ps -> fits (SfPosts ps);
  sf_ints : forall is_, (length is_ <= 200)%nat -> Forall (stored_interaction server) is_ ->
    fits (SfInteractions is_);
  sf_summary : Z.of_nat (length (to_vec (sync_summary server node_id
    (client_request client author) stage))) <= 65536;
  sf_ids : Z.of_nat (length (to_vec (get_post_ids_by_author client author))) <= 5000000;
}.

Lemma read_frames_stream now author fs rc fuel :
  Forall fits fs -> (length fs < fuel)%nat ->
  read_frames fuel now author
    (concat ((fun f => write_frame (to_vec f)) <$> fs) ++ write_frame []) rc =
    Ok (fold_left (take_frame now author) fs rc).
Proof.
  intros Hfs. revert rc fuel. induction Hfs as [|f fs Hf _ IH]; intros rc [|fuel] Hfuel;
    try (cbn in Hfuel; lia).
  - cbn [read_frames fmap list_fmap concat app]. rewrite <-(app_nil_r (write_frame [])).
    rewrite read_write_frame by (cbn; lia). by rewrite decide_True.
  - cbn [read_frames fmap list_fmap concat]. rewrite <-app_assoc.
    unfold fits, MAX_FRAME_SIZE in Hf.
    rewrite read_write_frame by lia. rewrite decide_False by apply to_vec_nonempty.
    unfold MAX_FRAME_SIZE. destruct (Z.ltb_spec 10000000 (Z.of_nat (length (to_vec f)))); [lia|].
    unfold mbind, result_bind. rewrite from_to_vec. rewrite IH by (cbn in Hfuel; lia). done.
Qed.

Lemma take_posts now author bs rc :
  fold_left (take_frame now author) (SfPosts <$> bs) rc =
    {| rc_db := rc_db rc; rc_posts := rc_posts rc ++ concat bs;
       rc_interactions := rc_interactions rc |}.
Proof.
  revert rc. induction bs as [|b bs IH]; intros rc; cbn; [rewrite app_nil_r; by destruct rc|].
  rewrite IH. cbn. by rewrite app_assoc.
Qed.

Lemma take_interactions now author bs rc :
  fold_left (take_frame now author) (SfInteractions <$> bs) rc =
    {| rc_db := rc_db rc; rc_posts := rc_posts rc;
       rc_interactions := rc_interactions rc ++ concat bs |}.
Proof.
  revert rc. induction bs as [|b bs IH]; intros rc; cbn; [rewrite app_nil_r; by destruct rc|].
  rewrite IH. cbn. by rewrite app_assoc.
Qed.

Lemma frames_length (fs : list SyncFrame) :
  (length fs <= length (concat ((fun f => write_frame (to_vec f)) <$> fs)))%nat.
Proof.
  induction fs as [|f fs IH]; cbn [fmap list_fmap concat length]; [lia|].
  rewrite length_app. unfold write_frame at 1. rewrite length_app, length_be_bytes. lia.
Qed.

(** What the session gives the client. *)
Record synced (server client : Db) (author : string) (r : SyncResult) : Prop := {
  sd_nodup : NoDup (sy_posts r);
  sd_posts : forall p, p ∈ sy_posts r <-> missing_post server client author p;
  sd_sound : forall i, i ∈ sy_interactions r -> in_author i = author /\ stored_interaction server i;
  sd_complete : forall i, missing_interaction server client author i -> i ∈ sy_interactions r;
}.

Context (server client : Db) (author : string) (Hready : sync_ready server client author).

Lemma up_to_date_nothing_missing :
  sync_mode server (client_request client author) = UpToDate ->
  (forall p, ~ missing_post server client author p) /\
  (forall i, ~ missing_interaction server client author i).
Proof.
  unfold sync_mode. destruct (posts_match _ _) eqn:Ep; cbn; [|by case_match].
  destruct (interactions_match _ _) eqn:Ei; cbn; [|by case_match]. intros _.
  apply Z.eqb_eq in Ep, Ei. cbn in Ep, Ei. split.
  - intros p (Ha & Hst & _ & Hc).
    destruct (same_count_same author (posts server) (posts client))
      with (k := (author, post_id p)) as [r Hr]; [apply Hready|by symmetry|done| |congruence].
    rewrite <-Ha. eauto.
  - intros i (Ha & Hst & _ & Hc).
    destruct (same_count_same author (interactions server) (interactions client))
      with (k := (author, in_id i)) as [r Hr]; [apply Hready|by symmetry|done| |congruence].
    rewrite <-Ha. eauto.
Qed.

Lemma sync_stream_spec :
  sync_mode server (client_request client author) <> UpToDate ->
  Z.of_nat (length (to_vec (get_post_ids_by_author client author))) <= 5000000 ->
  exists pbs ibs,
    sync_stream server (client_request client author)
      (known_ids_bytes client author (sync_mode server (client_request client author))) =
      Ok (concat ((fun f => write_frame (to_vec f)) <$> (SfPosts <$> pbs) ++ (SfInteractions <$> ibs)) ++
          write_frame []) /\
    stream_posts server (client_request client author) (client_ids server client author) = Ok pbs /\
    stream_interactions server (client_request client author) = Ok ibs.
Proof.
  intros Hmode Hids.
  destruct (stream_posts_spec server client author Hready Hmode) as (pbs & Ep & _).
  destruct (stream_interactions_spec server client author Hready) as (ibs & Ei & _).
  exists pbs, ibs. split_and!; [|done|done].
  assert (read_known_ids server (client_request client author) (known_ids_bytes client author
    (sync_mode server (client_request client author))) = Ok (client_ids server client author)) as Ek.
  { unfold read_known_ids, known_ids_bytes, client_ids. case_decide; [|done].
    destruct (Z.ltb_spec 5000000 (Z.of_nat (length (to_vec (get_post_ids_by_author client author)))));
      [lia|]. cbn [bail_if]. unfold mbind, result_bind. by rewrite from_to_vec. }
  unfold sync_stream. rewrite Ek. unfold mbind, result_bind. rewrite Ep, Ei. f_equal.
  rewrite fmap_app, concat_app, <-app_assoc, <-!list_fmap_compose. done.
Qed.

(** The client after the summary: nothing more, or the frames of the stream. *)
Lemma client_after_summary now node_id stage stream :
  Z.of_nat (length (to_vec (sync_summary server node_id (client_request client author) stage))) <= 65536 ->
  let result posts interactions := {| sy_posts := posts; sy_interactions := interactions;
    sy_profile := get_profile server node_id; sy_remote_post_count := count_posts_by_author server author;
    sy_mode := sync_mode server (client_request client author); sy_active_stage := stage |} in
  sync_from_peer now client author (to_vec (sync_summary server node_id (client_request client author) stage)) stream =
    if decide (sync_mode server (client_request client author) = UpToDate) then Ok (client, result [] [])
    else
      rc ← read_frames (S (length stream)) now author stream
             {| rc_db := client; rc_posts := []; rc_interactions := [] |};
      Ok (rc_db rc, result (rc_posts rc) (rc_interactions rc)).
Proof.
  intros Hsum result. unfold sync_from_peer.
  destruct (Z.ltb_spec 65536 (Z.of_nat (length (to_vec (sync_summary server node_id
    (client_request client author) stage))))); [lia|].
  cbn [bail_if]. unfold mbind at 1 2, result_bind at 1 2. rewrite from_to_vec. unfold result.
  change (sm_mode _) with (sync_mode server (client_request client author)). case_decide as E; [by rewrite !E|done].
Qed.

Lemma concat_batch {A} (bs : list (list A)) b x : b ∈ bs -> x ∈ b -> x ∈ concat bs.
Proof. intros Hb Hx. apply list_elem_of_In, in_concat. exists b. split; by apply list_elem_of_In. Qed.

Lemma sync_session_spec now node_id remote_str stage :
  sync_access server node_id
    (default remote_str (get_master_pubkey_for_transport server remote_str)) = Ok tt ->
  is_Some (short_id author) ->
  sizes_fit server client node_id author stage ->
  exists r, sync_session now server client node_id remote_str author stage = Some (Ok (client, r)) /\
    synced server client author r.
Proof.
  intros Hacc [sid Hsid] Hfit. unfold sync_session, handle_sync. rewrite Hacc.
  cbn [sq_author client_request]. rewrite Hsid.
  pose proof (fun stream => client_after_summary now node_id stage stream (sf_summary _ _ _ _ _ Hfit)) as Hclient.
  cbv zeta in Hclient. unfold mbind at 1 2 3, option_bind.
  case_decide as Hmode.
  - destruct (up_to_date_nothing_missing Hmode) as [Hp Hi].
    unfold result_bind at 1. cbv beta iota.
    eexists. split; [rewrite Hclient; reflexivity|].
    split; cbn; [constructor| | |].
    + intros p. split; [by intros ?%elem_of_nil|]. intros Hm. by destruct (Hp p).
    + by intros i ?%elem_of_nil.
    + intros i Hm. by destruct (Hi i).
  - destruct (sync_stream_spec Hmode (sf_ids _ _ _ _ _ Hfit)) as (pbs & ibs & Es & Ep & Ei).
    rewrite Es. cbn [res_ok from_option id]. unfold result_bind at 1. cbv beta iota.
    destruct (stream_posts_spec server client author Hready Hmode) as (pbs' & Ep' & Hnd & Hpin & Hpb).
    rewrite Ep in Ep'. injection Ep' as <-.
    destruct (stream_interactions_spec server client author Hready)
      as (ibs' & Ei' & _ & Hsound & Hcomp & Hib).
    rewrite Ei in Ei'. injection Ei' as <-. rewrite Forall_forall in Hpb. rewrite Forall_forall in Hib.
    eexists. split.
    { rewrite Hclient. rewrite read_frames_stream.
      - rewrite fold_left_app, take_posts, take_interactions. reflexivity.
      - apply Forall_app. split; apply Forall_fmap, Forall_forall; intros b Hb.
        + apply (sf_posts _ _ _ _ _ Hfit); [by apply Hpb|]. apply Forall_forall. intros p Hin.
          by apply (concat_batch _ _ _ Hb), Hpin in Hin as (_ & ? & _).
        + apply (sf_ints _ _ _ _ _ Hfit); [by apply Hib|]. apply Forall_forall. intros i Hin.
          by apply (concat_batch _ _ _ Hb), Hsound in Hin as (_ & ?).
      - rewrite (length_app (concat _)).
        pose proof (frames_length ((SfPosts <$> pbs) ++ (SfInteractions <$> ibs))). lia. }
    split; cbn; done.
Qed.
End session.

(** ** Processing what was received *)

Section processing.
Context `{Ed25519, HexCodec, JsonCodec, Sha, !Serde (list MediaAttachment)}.

Lemma always_count_each (R : Db -> Db -> Prop) `{!Reflexive R, !Transitive R} {A}
    (f : A -> handler bool) l :
  (forall x, x ∈ l -> always R (f x)) -> always R (count_each f l).
Proof.
  induction l as [|x l IH]; intros Hf; cbn [count_each]; [by apply always_ret|].
  apply always_bind; [done|apply Hf; left|]. intros b.
  apply always_bind; [done|apply IH; intros; apply Hf; by right|]. intros n. by apply always_ret.
Qed.

(** From [d0] on: the keys are the same, and a new row is genuine content of
    [ps] or [is_]. *)
Definition added (now : Z) (pubkey : string) (ps : list Post) (is_ : list Interaction)
    (d d' : Db) : Prop :=
  peer_delegations d' = peer_delegations d /\
  (forall k row, posts d' !! k = Some row -> posts d !! k = Some row \/
     exists p, p ∈ ps /\ k = (post_author p, post_id p) /\ row = post_to_row p /\
       genuine_post now d p) /\
  (forall k row, interactions d' !! k = Some row -> interactions d !! k = Some row \/
     exists i, i ∈ is_ /\ k = (pubkey, in_id i) /\ row = interaction_to_row i /\
       genuine_interaction now d i).

Lemma genuine_post_delegations now d d' p :
  peer_delegations d' = peer_delegations d -> genuine_post now d' p -> genuine_post now d p.
Proof. unfold genuine_post, resolve_signer, get_peer_signing_pubkey. by intros ->. Qed.
Lemma genuine_interaction_delegations now d d' i :
  peer_delegations d' = peer_delegations d ->
  genuine_interaction now d' i -> genuine_interaction now d i.
Proof. unfold genuine_interaction, resolve_signer, get_peer_signing_pubkey. by intros ->. Qed.

#[export] Instance added_refl now pk ps is_ : Reflexive (added now pk ps is_).
Proof. intros d. split_and!; auto. Qed.
#[export] Instance added_trans now pk ps is_ : Transitive (added now pk ps is_).
Proof.
  intros d1 d2 d3 (E1 & P1 & I1) (E2 & P2 & I2). split_and!; [congruence|..].
  - intros k row [Hk|(p & ? & ? & ? & Hg)]%P2; [by apply P1|]. right. exists p.
    eauto using genuine_post_delegations.
  - intros k row [Hk|(i & ? & ? & ? & Hg)]%I2; [by apply I1|]. right. exists i.
    eauto using genuine_interaction_delegations.
Qed.

Definition same_keys (d d' : Db) : Prop := peer_delegations d' = peer_delegations d.
#[export] Instance same_keys_refl : Reflexive same_keys.
Proof. done. Qed.
#[export] Instance same_keys_trans : Transitive same_keys.
Proof. unfold same_keys. intros d1 d2 d3. congruence. Qed.

Lemma ingest_post_added now my_id pk ps is_ p :
  p ∈ ps -> always (added now pk ps is_) (process_incoming_post now my_id p).
Proof.
  intros Hp d. split.
  - assert (always same_keys (process_incoming_post now my_id p)) as Hk
      by (unfold process_incoming_post, notify_post; by solve_always).
    apply Hk.
  - destruct (ingest_post_end now my_id p d) as [->|(Hg & [E1 E2])]; [by split; left|].
    rewrite E1, E2. split; [|by left]. intros k row. cbn. rewrite lookup_insert_or_ignore.
    case_decide as Hk; [|by left]. destruct (posts d !! (post_author p, post_id p)) eqn:El;
      intros [= <-]; [left; by rewrite <-Hk|]. right. exists p. by rewrite <-Hk.
Qed.

Lemma ingest_interaction_added now my_id pk ps is_ i :
  i ∈ is_ -> always (added now pk ps is_) (process_incoming_interaction now my_id i pk).
Proof.
  intros Hi d. split.
  - assert (always same_keys (process_incoming_interaction now my_id i pk)) as Hk.
    { unfold process_incoming_interaction. solve_always; unfold same_keys;
        (done || (unfold save_interaction; by case_match)). }
    apply Hk.
  - destruct (ingest_interaction_end now my_id i pk d) as [->|(Ha & Hg & [E1 E2])]; [by split; left|].
    rewrite E1, E2. unfold save_interaction. case_match; [by split; left|].
    split; [by left|]. intros k row. cbn. rewrite lookup_insert_or_ignore.
    case_decide as Hk; [|by left]. destruct (interactions d !! (in_author i, in_id i)) eqn:El;
      intros [= <-]; [left; by rewrite <-Hk|]. right. exists i. by rewrite <-Hk, Ha.
Qed.

Lemma always_profile now pk ps is_ profile :
  always (added now pk ps is_)
    (match profile with Some p => modify (save_profile pk p) | None => mret tt end : handler unit).
Proof. solve_always. split_and!; auto. Qed.

Lemma ingest_interaction_profiles now my_id pk l :
  always same_profiles
    (count_each (fun i => _ ← process_incoming_interaction now my_id i pk; mret true) l).
Proof.
  apply always_count_each; try apply _. intros i _. pose proof (ingest_interaction_same_profiles now my_id i pk).
  by solve_always.
Qed.

Lemma process_result_added now pk my_id r :
  always (added now pk (sy_posts r) (sy_interactions r)) (process_sync_result now pk my_id r).
Proof.
  unfold process_sync_result. apply always_bind; [apply _| |].
  { apply always_count_each; try apply _. intros. by apply ingest_post_added. }
  intros stored. apply always_bind; [apply _|apply always_profile|]. intros _.
  apply always_bind; [apply _| |intros _; apply always_ret, _].
  apply always_count_each; try apply _. intros i Hi.
  apply always_bind; [apply _|by apply ingest_interaction_added|]. intros _. apply always_ret, _.
Qed.

Lemma process_result_profile now pk my_id r d n d' ev p :
  process_sync_result now pk my_id r d = Done (n, d', ev) ->
  sy_profile r = Some p -> get_profile d' pk = Some p.
Proof.
  unfold process_sync_result. intros (s1 & d1 & ev1 & ev2 & _ & E & _)%bind_done Hp.
  rewrite Hp, run_modify in E. apply bind_done in E as (s2 & d2 & ev3 & ev4 & E2 & [= <- <- <-] & _).
  apply (always_done same_profiles) in E2; [|apply ingest_interaction_profiles].
  unfold same_profiles in E2. unfold get_profile. rewrite E2. cbn. rewrite lookup_insert_eq. cbn.
  rewrite visibility_from_to_string. cbn. by destruct p.
Qed.
End processing.

(** ** Theorems *)

(** C4: a sync session of a client that has missed no deletion is complete:
    when the server accepts the client, the client's rows of the author are among
    the server's, timestamps are positive and the messages fit the size limits,
    then the session succeeds, in each of the three modes; the posts it returns
    are exactly the server's posts that the client lacks, each once, and the
    interactions are the server's and include all that the client lacks.
    (A client with a row the server has deleted can get nothing:
    [sync_equal_counts_transfer_nothing].) *)
Theorem sync_complete `{Ed25519, HexCodec, JsonCodec, SqlOrder, !SqlOrderLaws,
    !Serde (list MediaAttachment), !SerdeLaws (list MediaAttachment), !Serde (list string),
    !Serde LinkedDevicesAnnouncement, !Wire SyncFrame, !WireLaws SyncFrame, !Wire (list string),
    !WireLaws (list string), !Wire SyncSummary, !WireLaws SyncSummary}
    (now : Z) (server client : Db) (node_id remote_str author : string)
    (stage : option StageAnnouncement) :
  sync_ready server client author ->
  sync_access server node_id
    (default remote_str (get_master_pubkey_for_transport server remote_str)) = Ok tt ->
  is_Some (short_id author) ->
  sizes_fit server client node_id author stage ->
  exists r, sync_session now server client node_id remote_str author stage = Some (Ok (client, r)) /\
    synced server client author r.
Proof. intros. by apply sync_session_spec. Qed.

(** equal counts hide a difference: when client and server hold equally many
    posts and interactions of the author, the session transfers nothing, even if
    the client lacks a post (one deletion missed and one post missed). *)
Theorem sync_equal_counts_transfer_nothing `{Ed25519, HexCodec, JsonCodec, SqlOrder,
    !Serde (list MediaAttachment), !Serde (list string), !Serde LinkedDevicesAnnouncement,
    !Wire SyncFrame, !Wire (list string), !Wire SyncSummary, !WireLaws SyncSummary}
    (now : Z) (server client : Db) (node_id remote_str author : string)
    (stage : option StageAnnouncement) (d : Db) (r : SyncResult) :
  count_posts_by_author client author = count_posts_by_author server author ->
  count_interactions_by_author client author = count_interactions_by_author server author ->
  sync_session now server client node_id remote_str author stage = Some (Ok (d, r)) ->
  d = client /\ sy_posts r = [] /\ sy_interactions r = [].
Proof.
  intros Hp Hi. assert (sync_mode server (client_request client author) = UpToDate) as Hm.
  { unfold sync_mode, posts_match, interactions_match. cbn. by rewrite Hp, Hi, !Z.eqb_refl. }
  unfold sync_session, handle_sync.
  destruct (sync_access _ _ _) as [[]|e]; [|by destruct (short_id _)].
  destruct (short_id (sq_author _)); [|done]. unfold mbind, option_bind.
  rewrite decide_True by done. intros [= E]. revert E.
  cbv beta iota. unfold sync_from_peer.
  destruct (65536 <? _); cbn [bail_if]; [done|]. unfold mbind, result_bind. rewrite from_to_vec.
  cbn [sm_mode sync_summary]. rewrite decide_True by done. by intros [= <- <-].
Qed.

(** visibility is enforced before anything is sent: a listed profile serves
    only its followers, a private one only mutual follows, and a refused session
    returns an error and no data. *)
Theorem sync_access_enforced `{Ed25519, HexCodec, JsonCodec, SqlOrder,
    !Serde (list MediaAttachment), !Serde (list string), !Serde LinkedDevicesAnnouncement,
    !Wire SyncFrame, !Wire (list string), !Wire SyncSummary}
    (now : Z) (server client : Db) (node_id remote_str author : string)
    (stage : option StageAnnouncement) (d : Db) (r : SyncResult) :
  let remote := default remote_str (get_master_pubkey_for_transport server remote_str) in
  sync_session now server client node_id remote_str author stage = Some (Ok (d, r)) ->
  match get_visibility server node_id with
  | Public => True
  | Listed => is_follower server node_id remote = true
  | Private => is_follower server node_id remote = true /\ is_following server node_id remote = true
  end.
Proof.
  intros remote. unfold sync_session, handle_sync, sync_access. fold remote.
  unfold mbind, option_bind.
  destruct (get_visibility server node_id); [done|..].
  - destruct (is_follower server node_id remote); [done|]. cbn. by destruct (short_id remote).
  - unfold is_mutual. destruct (is_follower server node_id remote), (is_following server node_id remote);
      cbn; try done; by destruct (short_id remote).
Qed.

(** what a sync stores: every post or like it adds is one of the received
    ones, passed validation and was verified under its author's key (likes must
    be by the synced user); the received profile, however, replaces the stored one
    with no check at all. *)
Theorem sync_result_genuine `{Ed25519, HexCodec, JsonCodec, Sha, !Serde (list MediaAttachment)}
    (now : Z) (pubkey my_id : string) (r : SyncResult) (d d' : Db) (n : Z) (ev : list string) :
  process_sync_result now pubkey my_id r d = Done (n, d', ev) ->
  added now pubkey (sy_posts r) (sy_interactions r) d d' /\
  (forall p, sy_profile r = Some p -> get_profile d' pubkey = Some p).
Proof.
  intros E. split; [by eapply (always_done (added _ _ _ _)), E; apply process_result_added|].
  intros p. by eapply process_result_profile.
Qed.

(** ** Witnesses *)

Definition p0 : Post := post_by "kalice" "p0" 10.
Definition p1 : Post := post_by "kalice" "p1" 20.
Definition client_db : Db := insert_post p0 empty_db.
Definition server_db : Db := insert_post p1 (insert_post p0 empty_db).

Lemma insert_post_inv p d k r :
  posts (insert_post p d) !! k = Some r ->
  (k = (post_author p, post_id p) /\ r = post_to_row p) \/ posts d !! k = Some r.
Proof.
  cbn. rewrite lookup_insert_or_ignore. case_decide as Hk; [|by right].
  destruct (posts d !! _) eqn:E; intros [= <-]; [right; by rewrite <-Hk|left; by split].
Qed.

Lemma server_rows k r : posts server_db !! k = Some r ->
  (k = (post_author p1, post_id p1) /\ r = post_to_row p1) \/
  (k = (post_author p0, post_id p0) /\ r = post_to_row p0).
Proof.
  intros [?|[?|Hr]%insert_post_inv]%insert_post_inv; [by left|by right|].
  cbn in Hr. by rewrite lookup_empty in Hr.
Qed.

Lemma server_ready : sync_ready server_db client_db "kalice".
Proof.
  split.
  - unfold server_db. do 2 (apply insert_post_ok; [vm_compute; split; [discriminate|reflexivity]|]).
    intros k r. cbn. by rewrite lookup_empty.
  - intros k r. cbn. by rewrite lookup_empty.
  - intros k r _ [[-> ->]|Hr]%insert_post_inv; [vm_compute; reflexivity|].
    cbn in Hr. by rewrite lookup_empty in Hr.
  - intros k r _. cbn. by rewrite lookup_empty.
  - intros k r _ [[_ ->]|[_ ->]]%server_rows; vm_compute; by split.
  - intros k r _. cbn. by rewrite lookup_empty.
  - vm_compute. reflexivity.
  - vm_compute. reflexivity.
Qed.

Lemma server_fits : sizes_fit server_db client_db "kserver" "kalice" None.
Proof.
  split; [intros ps _ _|intros ps _ _| |].
  - unfold fits. cbn [to_vec wire_frame wire_countable length]. unfold MAX_FRAME_SIZE. lia.
  - unfold fits. cbn [to_vec wire_frame wire_countable length]. unfold MAX_FRAME_SIZE. lia.
  - cbn [to_vec wire_summary wire_countable length]. lia.
  - cbn [to_vec wire_strings wire_countable length]. lia.
Qed.

Lemma sync_complete_witness :
  exists r, sync_session 1 server_db client_db "kserver" "n" "kalice" None = Some (Ok (client_db, r)) /\
    p1 ∈ sy_posts r.
Proof.
  destruct (sync_complete 1 server_db client_db "kserver" "n" "kalice" None server_ready)
    as (r & Hr & Hs); [vm_compute; reflexivity|vm_compute; eauto|apply server_fits|].
  exists r. split; [exact Hr|]. apply (sd_posts _ _ _ _ Hs). split_and!.
  - reflexivity.
  - vm_compute. reflexivity.
  - vm_compute. split; [discriminate|reflexivity].
  - vm_compute. reflexivity.
Defined.

(** The client missed a deletion and a post: both sides count one. *)
Definition stale_db : Db := insert_post (post_by "kalice" "p1" 20) empty_db.

Lemma sync_equal_counts_witness :
  posts client_db !! ("kalice", "p1")%string = None /\
  exists d r, sync_session 1 stale_db client_db "kserver" "n" "kalice" None = Some (Ok (d, r)) /\
    sy_posts r = [].
Proof.
  split; [vm_compute; reflexivity|].
  destruct (sync_session 1 stale_db client_db "kserver" "n" "kalice" None)
    as [[[d r]|e]|] eqn:E; [|vm_compute in E; discriminate E|vm_compute in E; discriminate E].
  exists d, r. split; [reflexivity|].
  apply (sync_equal_counts_transfer_nothing 1 stale_db client_db "kserver" "n" "kalice" None d r);
    [vm_compute; reflexivity|vm_compute; reflexivity|exact E].
Defined.

(** A listed profile refuses a stranger and serves a follower. *)
Definition listed_db : Db :=
  save_profile "kserver" {| pr_display_name := ""; pr_bio := ""; pr_avatar_hash := None;
    pr_avatar_ticket := None; pr_visibility := Listed; pr_signature := "" |} server_db.
Definition followed_db : Db := (upsert_follower "kserver" "n" 5 listed_db).1.

Lemma sync_access_witness :
  sync_session 1 listed_db client_db "kserver" "n" "kalice" None = Some (Err (Other "listed")) /\
  is_follower followed_db "kserver" "n" = true.
Proof.
  split; [vm_compute; reflexivity|].
  destruct (sync_session 1 followed_db client_db "kserver" "n" "kalice" None)
    as [[[d r]|e]|] eqn:E; [|vm_compute in E; discriminate E|vm_compute in E; discriminate E].
  exact (sync_access_enforced 1 followed_db client_db "kserver" "n" "kalice" None d r E).
Defined.

Definition pulled : SyncResult :=
  {| sy_posts := [alice_post; post_by "kalice" "forged" 9]; sy_interactions := [];
     sy_profile := Some {| pr_display_name := "anything"; pr_bio := ""; pr_avatar_hash := None;
       pr_avatar_ticket := None; pr_visibility := Public; pr_signature := "unsigned" |};
     sy_remote_post_count := 2; sy_mode := NeedIdDiff; sy_active_stage := None |}.

Definition pulled_run : outcome Z := process_sync_result 1000 "kalice" "kme" pulled empty_db.

(** Of a genuine post and a forged one, one is stored. *)
Lemma sync_result_genuine_witness :
  added 1000 "kalice" (sy_posts pulled) [] empty_db (end_db pulled_run) /\
  get_profile (end_db pulled_run) "kalice" = sy_profile pulled.
Proof.
  assert (pulled_run = Done (1, end_db pulled_run, [])) as E
    by (apply answer_done; vm_compute; reflexivity).
  destruct (sync_result_genuine 1000 "kalice" "kme" pulled empty_db _ _ _ E) as [Ha Hp].
  split; [exact Ha|]. apply Hp. reflexivity.
Defined.
