(* ===== verification/DeviceSyncTheorems.v ===== *)
(** * Linked devices converge

    The merges of follows, moderation and ratchet sessions refine the abstract
    last-writer-wins join; a session leaves both devices with the join of their
    states.  Posts move only if they are newer than everything the other has. *)

From S2P Require Import Prelude Lww Types Ratchet Signing Concrete Store ConcreteStore Validation Social Moderation Posts Interactions Notifications Peers Merge Framing ConcreteWire Sync ContentTheorems SigningTheorems SyncTheorems DeviceSync.

Local Open Scope Z_scope.

(** ** The three replicas *)

(** The stamped values: date and state of a follow, of a mute or block, and the
    state of a ratchet session. *)
Definition follow_view (me : string) (d : Db) (pk : string) : option ((option Z * string) * Z) :=
  (fun r => ((sr_followed_at r, sr_state r), as_u64 (sr_last_changed_at r))) <$>
    social_graph d !! (me, pk).
Definition moderation_view (d : Db) (k : string * string) : option ((Z * string) * Z) :=
  (fun r => ((mr_created_at r, mr_state r), as_u64 (mr_last_changed_at r))) <$> moderation d !! k.
Definition ratchet_view (d : Db) (pk : string) : option (string * Z) :=
  (fun r => (rr_state_json r, rr_updated_at r)) <$> dm_ratchet_sessions d !! pk.

Section replicas.
Context (me : string).

#[export] Instance follow_replica :
  LwwReplica (Db * Z) FollowEntry string (option Z * string) := {|
  rep_get dn := follow_view me dn.1;
  rep_put := merge_follow me;
  rep_key := fe_pubkey;
  rep_val e := ((Some (as_i64 (fe_followed_at e)), fe_state e), fe_last_changed_at e);
  rep_typed e := is_u64 (fe_last_changed_at e);
|}.

#[export] Instance follow_replica_laws :
  LwwReplicaLaws (Db * Z) FollowEntry string (option Z * string).
Proof.
  split. intros [d n] e k Ht. cbn. unfold follow_view, merge_follow, newer.
  destruct (decide (fe_pubkey e = k)) as [<-|Hne].
  - destruct (social_graph d !! (me, fe_pubkey e)) as [r|] eqn:E; cbn.
    + destruct (Z.ltb_spec (as_u64 (sr_last_changed_at r)) (fe_last_changed_at e)); cbn.
      * rewrite lookup_upsert, decide_True, E by done. cbn. by rewrite as_u64_as_i64.
      * by rewrite E.
    + rewrite lookup_upsert, decide_True, E by done. cbn. by rewrite as_u64_as_i64.
  - case_match; cbn; [|done]. by rewrite lookup_upsert, decide_False by congruence.
Qed.
End replicas.

#[export] Instance moderation_replica :
  LwwReplica (Db * Z) ModerationEntry (string * string) (Z * string) := {|
  rep_get dn := moderation_view dn.1;
  rep_put := merge_mod;
  rep_key e := (me_pubkey e, me_kind e);
  rep_val e := ((as_i64 (me_created_at e), me_state e), me_last_changed_at e);
  rep_typed e := is_u64 (me_last_changed_at e);
|}.

#[export] Instance moderation_replica_laws :
  LwwReplicaLaws (Db * Z) ModerationEntry (string * string) (Z * string).
Proof.
  split. intros [d n] e k Ht. cbn. unfold moderation_view, merge_mod, newer.
  destruct (decide ((me_pubkey e, me_kind e) = k)) as [<-|Hne].
  - destruct (moderation d !! (me_pubkey e, me_kind e)) as [r|] eqn:E; cbn.
    + destruct (Z.ltb_spec (as_u64 (mr_last_changed_at r)) (me_last_changed_at e)); cbn.
      * rewrite lookup_insert_eq. cbn. by rewrite as_u64_as_i64.
      * by rewrite E.
    + rewrite lookup_insert_eq. cbn. by rewrite as_u64_as_i64.
  - case_match; cbn; [|done]. by rewrite lookup_insert_ne.
Qed.

#[export] Instance ratchet_replica :
  LwwReplica (Db * Z) RatchetSessionExport string string := {|
  rep_get dn := ratchet_view dn.1;
  rep_put := merge_session;
  rep_key := rx_peer_pubkey;
  rep_val e := (rx_state_json e, as_i64 (rx_updated_at e));
  rep_typed e := True;
|}.

#[export] Instance ratchet_replica_laws :
  LwwReplicaLaws (Db * Z) RatchetSessionExport string string.
Proof.
  split. intros [d n] e k Ht. cbn. unfold ratchet_view, merge_session.
  destruct (decide (rx_peer_pubkey e = k)) as [<-|Hne].
  - destruct (dm_ratchet_sessions d !! rx_peer_pubkey e) as [r|] eqn:E; cbn.
    + destruct (Z.ltb_spec (rr_updated_at r) (as_i64 (rx_updated_at e))); cbn.
      * by rewrite lookup_insert_eq.
      * by rewrite E.
    + by rewrite lookup_insert_eq.
  - case_match; cbn; [|done]. by rewrite lookup_insert_ne.
Qed.

(** ** What a device exports *)

(** Own content is stored as it is read, with positive timestamps. *)
Record content_ok (me : string) (d : Db) `{Serde (list MediaAttachment)} : Prop := {
  co_posts : posts_ok d;
  co_ints : interactions_ok d;
  co_posts_ts : positive pw_timestamp me (posts d);
  co_ints_ts : positive iw_timestamp me (interactions d);
}.

(** The tables are smaller than the offsets of a query. *)
Definition small_tables (d : Db) : Prop :=
  Z.of_nat (size (posts d)) < 2 ^ 62 /\ Z.of_nat (size (interactions d)) < 2 ^ 62.

Definition ratchets_ok (d : Db) : Prop :=
  forall k r, dm_ratchet_sessions d !! k = Some r -> 0 <= rr_updated_at r < 2 ^ 63.

(** The stored columns are SQL integers and own follows carry their date. *)
Record device_ok (me : string) (d : Db) `{Serde (list MediaAttachment)} : Prop := {
  dv_content : content_ok me d;
  dv_small : small_tables d;
  dv_follows : forall pk r, social_graph d !! (me, pk) = Some r ->
    is_i64 (sr_last_changed_at r) /\ exists f, sr_followed_at r = Some f /\ is_i64 f;
  dv_mod : forall k r, moderation d !! k = Some r ->
    is_i64 (mr_created_at r) /\ is_i64 (mr_last_changed_at r);
  dv_ratchets : ratchets_ok d;
}.

(** Looking an entry up by its key in a list. *)
Lemma find_key {A K} `{EqDecision K} (key : A -> K) (l : list A) k :
  match List.find (fun a => bool_decide (key a = k)) l with
  | Some a => a ∈ l /\ key a = k
  | None => k ∉ key <$> l
  end.
Proof.
  induction l as [|a l IH]; cbn; [apply not_elem_of_nil|].
  destruct (bool_decide_reflect (key a = k)) as [E|E]; [by split; [left|]|].
  destruct (List.find _ l) as [b|]; [destruct IH; by split; [right|]|].
  by apply not_elem_of_cons.
Qed.

Lemma find_ext {A} (P Q : A -> bool) l : (forall a, P a = Q a) -> List.find P l = List.find Q l.
Proof. intros E. induction l as [|a l IH]; cbn; [done|]. by rewrite E, IH. Qed.

(** [l] lists the entries of the replica [s]: one per key, with its value. *)
Record lists_replica {S A K V} `{LwwReplica S A K V} (s : S) (l : list A) : Prop := {
  lr_typed : Forall rep_typed l;
  lr_nodup : NoDup (rep_key <$> l);
  lr_iff : forall k w u, rep_get s k = Some (w, u) <->
    exists a, a ∈ l /\ rep_key a = k /\ rep_val a = (w, u);
}.

(** What the receiver reports determines the filter. *)
Lemma find_replica {S A K V} `{LwwReplica S A K V, EqDecision K} (s : S) (l : list A) k :
  lists_replica s l ->
  rep_val <$> List.find (fun a => bool_decide (rep_key a = k)) l = rep_get s k.
Proof.
  intros [_ Hnd Hiff]. pose proof (find_key rep_key l k) as Hf. destruct (List.find _ l) as [a|]; cbn.
  - destruct Hf as [Ha Hk]. symmetry. destruct (rep_val a) eqn:E. apply Hiff. eauto.
  - destruct (rep_get s k) as [[w u]|] eqn:E; [|done].
    apply Hiff in E as (a & Ha & Hk & _). exfalso. apply Hf. rewrite <-Hk.
    by apply list_elem_of_fmap_2.
Qed.

Section exports.
Context `{SqlOrder, !SqlOrderLaws, !Serde (list MediaAttachment)} (me : string).

(** A table exported row by row. *)
Lemma export_lists {S A K K' V R} `{LwwReplica S A K V, EqDecision K, Countable K'}
    (s : S) (t : gmap K' R) P ord (f : K' * R -> A) (key : K -> K') (value : R -> V * Z) :
  Inj eq eq key ->
  (forall k, rep_get s k = value <$> t !! key k) ->
  (forall k' r, t !! k' = Some r -> P (k', r) = true ->
     key (rep_key (f (k', r))) = k' /\ rep_val (f (k', r)) = value r /\ rep_typed (f (k', r))) ->
  (forall k r, t !! key k = Some r -> P (key k, r) = true) ->
  lists_replica s (f <$> sql_select P ord t).
Proof.
  intros Hinj Hget Hf HP.
  assert (forall k' r, (k', r) ∈ sql_select P ord t ->
    key (rep_key (f (k', r))) = k' /\ rep_val (f (k', r)) = value r /\ rep_typed (f (k', r))) as Hs.
  { intros k' r [Hr Hp]%elem_of_sql_select. by apply Hf. }
  split.
  - apply Forall_forall. intros a ([k' r] & -> & Hin)%list_elem_of_fmap. by apply Hs.
  - rewrite <-list_fmap_compose. eapply (NoDup_fmap_1 key). rewrite <-list_fmap_compose.
    pose proof (sql_select_NoDup P ord t) as Hnd.
    replace ((key ∘ (rep_key ∘ f)) <$> sql_select P ord t) with (fst <$> sql_select P ord t); [done|].
    apply list_fmap_ext. intros i [k' r] Hi%list_elem_of_lookup_2. symmetry. by apply Hs.
  - intros k w u. rewrite Hget. split.
    + destruct (t !! key k) as [r|] eqn:E; [|done]. intros [= Ev]. exists (f (key k, r)).
      assert ((key k, r) ∈ sql_select P ord t) as Hin by (apply elem_of_sql_select; auto).
      destruct (Hs _ _ Hin) as (Hk & Hv & _).
      split; [by apply list_elem_of_fmap_2|]. split; [by apply Hinj|congruence].
    + intros (a & ([k' r] & -> & Hin)%list_elem_of_fmap & Hk & Hv).
      destruct (Hs _ _ Hin) as (Hk' & Hv' & _). apply elem_of_sql_select in Hin as [Hr _].
      rewrite <-Hk, Hk', Hr. cbn. congruence.
Qed.

Lemma follows_listed d n :
  device_ok me d ->
  lists_replica (H := follow_replica me) (d, n) (sv_follows (build_device_sync_vector d me)).
Proof.
  intros Hok. apply (export_lists _ (social_graph d) _ _ _ (fun k => (me, k))
    (fun r => ((sr_followed_at r, sr_state r), as_u64 (sr_last_changed_at r)))).
  - by intros k1 k2 [= ->].
  - done.
  - intros [a pk] r Hr [Ha%bool_decide_eq_true _]%andb_prop. cbn in *. subst a.
    destruct (dv_follows _ _ Hok pk r Hr) as (Hc & f & Hf & Hi). rewrite Hf. cbn.
    rewrite as_i64_as_u64 by done. split_and!; [done|done|apply as_u64_range].
  - intros pk r Hr. destruct (dv_follows _ _ Hok pk r Hr) as (_ & f & Hf & _). cbn.
    rewrite Hf. by rewrite !bool_decide_eq_true_2 by eauto.
Qed.

Lemma moderation_listed d n :
  device_ok me d ->
  lists_replica (H := moderation_replica) (d, n) (sv_moderation (build_device_sync_vector d me)).
Proof.
  intros Hok. apply (export_lists _ (moderation d) _ _ _ id
    (fun r => ((mr_created_at r, mr_state r), as_u64 (mr_last_changed_at r)))).
  - by intros ??.
  - done.
  - intros [pk kind] r Hr _. destruct (dv_mod _ _ Hok _ r Hr). cbn.
    rewrite as_i64_as_u64 by done. split_and!; [done|done|apply as_u64_range].
  - done.
Qed.

Lemma ratchets_listed d n :
  ratchets_ok d -> lists_replica (H := ratchet_replica) (d, n) (export_ratchet_sessions d).
Proof.
  intros Hok. apply (export_lists _ (dm_ratchet_sessions d) _ _ _ id
    (fun r => (rr_state_json r, rr_updated_at r))).
  - by intros ??.
  - done.
  - intros pk r Hr _. pose proof (Hok _ r Hr). cbn.
    rewrite as_i64_as_u64 by (unfold is_i64; lia). done.
  - done.
Qed.
End exports.

(** ** The deltas are complete *)

Section deltas.
Context `{SqlOrder, !SqlOrderLaws, !Serde (list MediaAttachment)} (me : string).
Abbreviation vec d := (build_device_sync_vector d me).

(** Merging what [peer] sends after seeing the vector of [d]. *)
Lemma merge_listed {S A K V} `{LwwReplicaLaws S A K V} (s s0 peer : S) (local export : list A)
    (newer : A -> bool) k :
  lists_replica s0 local -> lists_replica peer export ->
  (forall k, rep_get s k = rep_get s0 k) ->
  (forall a, a ∈ export -> newer a =
     match List.find (fun b => bool_decide (rep_key b = rep_key a)) local with
     | Some b => (rep_val b).2 <? (rep_val a).2
     | None => true
     end) ->
  rep_get (merge_all s (filter newer export)) k = lww (rep_get s0 k) (rep_get peer k).
Proof.
  intros Hlocal Hexport Es Hnew. rewrite <-Es. apply merge_deltas.
  destruct Hexport as [Ht Hnd Hiff]. apply filtered_deltas; [done..|].
  intros a Ha. rewrite (Hnew a Ha). rewrite Es, <-(find_replica s0 local) by done.
  destruct (List.find _ local) as [b|]; cbn; [|done]. by destruct (rep_val b).
Qed.

Lemma merge_follows_join (d d0 peer : Db) n k :
  device_ok me d0 -> device_ok me peer -> social_graph d = social_graph d0 ->
  follow_view me (fold_left (merge_follow me)
    (filter (follow_is_newer (vec d0)) (sv_follows (vec peer))) (d, n)).1 k =
  lww (follow_view me d0 k) (follow_view me peer k).
Proof.
  intros Hd Hp E.
  apply (merge_listed (H1 := follow_replica me) (d, n) (d0, 0) (peer, 0) (sv_follows (vec d0)) _
    (follow_is_newer (vec d0)));
    [by apply follows_listed..| |done].
  intros k'. cbn. unfold follow_view, moderation_view, ratchet_view. by rewrite E.
Qed.

Lemma merge_moderation_join (d d0 peer : Db) n k :
  device_ok me d0 -> device_ok me peer -> moderation d = moderation d0 ->
  moderation_view (fold_left merge_mod
    (filter (moderation_is_newer (vec d0)) (sv_moderation (vec peer))) (d, n)).1 k =
  lww (moderation_view d0 k) (moderation_view peer k).
Proof.
  intros Hd Hp E.
  apply (merge_listed (H1 := moderation_replica) (d, n) (d0, 0) (peer, 0) (sv_moderation (vec d0)) _
    (moderation_is_newer (vec d0)));
    [by apply moderation_listed..| |].
  - intros k'. cbn. unfold follow_view, moderation_view, ratchet_view. by rewrite E.
  - intros a _. unfold moderation_is_newer. erewrite find_ext; [done|]. intros b. cbn.
    rewrite <-bool_decide_and. apply bool_decide_ext. split; [by intros [-> ->]|by intros [= -> ->]].
Qed.

(** The map the sender builds from the receiver's summaries. *)
Lemma fold_insert_find (l : list RatchetSyncEntry) (m0 : gmap string Z) k :
  NoDup (rs_peer_pubkey <$> l) ->
  fold_left (fun m e => <[rs_peer_pubkey e := rs_updated_at e]> m) l m0 !! k =
  match List.find (fun e => bool_decide (rs_peer_pubkey e = k)) l with
  | Some e => Some (rs_updated_at e)
  | None => m0 !! k
  end.
Proof.
  revert m0. induction l as [|e l IH]; intros m0; cbn; [done|]. intros [Hn Hnd]%NoDup_cons.
  rewrite IH by done. destruct (bool_decide_reflect (rs_peer_pubkey e = k)) as [<-|Hne].
  - pose proof (find_key rs_peer_pubkey l (rs_peer_pubkey e)) as Hf.
    destruct (List.find _ l) as [b|].
    + destruct Hf as [Hb Hk]. exfalso. apply Hn. rewrite <-Hk. by apply list_elem_of_fmap_2.
    + by rewrite lookup_insert_eq.
  - destruct (List.find _ l); [done|]. by rewrite lookup_insert_ne.
Qed.

Lemma summaries_exports d k :
  rs_updated_at <$> List.find (fun e => bool_decide (rs_peer_pubkey e = k)) (sv_ratchet_summaries (vec d)) =
  rx_updated_at <$> List.find (fun e => bool_decide (rx_peer_pubkey e = k)) (export_ratchet_sessions d).
Proof.
  cbn. unfold export_ratchet_sessions. induction (sql_select _ _ _) as [|kr l IH]; [done|].
  cbn. by case_bool_decide.
Qed.

Lemma merge_ratchets_join (d d0 peer : Db) n k :
  ratchets_ok d0 -> ratchets_ok peer -> dm_ratchet_sessions d = dm_ratchet_sessions d0 ->
  ratchet_view (fold_left merge_session
    (filter (ratchet_is_newer (vec d0)) (export_ratchet_sessions peer)) (d, n)).1 k =
  lww (ratchet_view d0 k) (ratchet_view peer k).
Proof.
  intros Hd Hp E.
  apply (merge_listed (H1 := ratchet_replica) (d, n) (d0, 0) (peer, 0) (export_ratchet_sessions d0) _
    (ratchet_is_newer (vec d0)));
    [by apply ratchets_listed..| |].
  - intros k'. cbn. unfold follow_view, moderation_view, ratchet_view. by rewrite E.
  - intros a Ha. unfold ratchet_is_newer. rewrite fold_insert_find.
    2: { cbn. rewrite <-list_fmap_compose. apply (sql_select_NoDup (fun _ => true) no_order). }
    pose proof (summaries_exports d0 (rx_peer_pubkey a)) as Es. cbn [rep_key rep_val ratchet_replica].
    assert (forall b, b ∈ export_ratchet_sessions peer \/ b ∈ export_ratchet_sessions d0 ->
      as_i64 (rx_updated_at b) = rx_updated_at b) as Hsmall.
    { intros b Hb. unfold export_ratchet_sessions in Hb.
      assert (0 <= rx_updated_at b < 2 ^ 63); [|by apply as_i64_small].
      destruct Hb as [Hb|Hb]; apply list_elem_of_fmap in Hb as ([k' r] & -> & [Hr _]%elem_of_sql_select);
        cbn; [pose proof (Hp _ r Hr)|pose proof (Hd _ r Hr)];
        rewrite as_u64_small by (unfold is_u64; lia); done. }
    pose proof (find_key rx_peer_pubkey (export_ratchet_sessions d0) (rx_peer_pubkey a)) as Hfk.
    destruct (List.find _ (sv_ratchet_summaries _)) as [e|], (List.find _ (export_ratchet_sessions d0)) as [b|];
      cbn in Es; try done.
    destruct Hfk as [Hb _]. injection Es as ->. cbn. by rewrite !Hsmall by auto.
Qed.
End deltas.

(** ** The posts and interactions sent *)

Section pages.
Context `{SqlOrder, !SqlOrderLaws, !Serde (list MediaAttachment), !SerdeLaws (list MediaAttachment)}
  (me : string).
Abbreviation vec d := (build_device_sync_vector d me).

(** The bound a vector sets is the newest own timestamp. *)
Lemma after_newest_spec {R} (ts : R -> Z) (t : gmap (string * string) R) :
  positive ts me t ->
  after_newest (as_u64 (newest ts me t))
    (Z.of_nat (length (filter (fun kr => bool_decide (kr.1.1 = me)) (map_to_list t)))) =
    newest ts me t /\ 0 <= newest ts me t < 2 ^ 63.
Proof.
  intros Hp. destruct (newest_spec ts me t Hp) as (Hr & _ & Hz).
  rewrite as_u64_small by (unfold is_u64; lia). split; [|done]. unfold after_newest.
  destruct (Z.ltb_spec 0 (newest ts me t)) as [|Hle]; [done|]. cbn [orb].
  destruct (filter _ _) as [|[k r] l] eqn:E; [done|]. exfalso.
  assert ((k, r) ∈ (k, r) :: l) as Hin by left. rewrite <-E in Hin.
  apply list_elem_of_filter in Hin as [Hk Hr'%elem_of_map_to_list].
  apply (Hz Hle k r); [|done]. by apply Is_true_true, bool_decide_eq_true in Hk.
Qed.

Lemma post_deltas_spec d d0 :
  content_ok me d -> Z.of_nat (size (posts d)) < 2 ^ 63 -> content_ok me d0 ->
  exists bs, post_deltas d me (vec d0) = Ok bs /\
    forall p, p ∈ concat bs <-> stored_post d p /\ is_u64 (post_timestamp p) /\
      post_author p = me /\ newest pw_timestamp me (posts d0) < as_i64 (post_timestamp p).
Proof.
  intros Hd Hsz Hd0. unfold post_deltas.
  destruct (after_newest_spec pw_timestamp (posts d0) (co_posts_ts _ _ Hd0)) as [En Hn].
  change (sv_newest_post_ts (vec d0)) with (as_u64 (newest pw_timestamp me (posts d0))).
  change (sv_post_count (vec d0)) with (Z.of_nat (length
    (filter (fun kr : string * string * PostRow => bool_decide (kr.1.1 = me)) (map_to_list (posts d0))))).
  rewrite En. set (t := newest _ _ _) in *.
  destruct (Z.ltb_spec t u64_MAX); [|unfold u64_MAX in *; lia].
  destruct (select_posts d (after_ts me t) (fun kr => pw_timestamp kr.2) (co_posts _ _ Hd))
    as (ps & Hrows & _ & Hnd & Hin & Hlen).
  destruct (page_loop_concat (fun off => get_posts_after d me t BATCH_SIZE off) ps 200)
    with (fuel := S (size (posts d))) (k := 0%nat) as (bs & Ebs & Hc & _); [lia|lia| |lia|lia|].
  { intros k Hk. by apply (decode_page row_to_post _ ps). }
  exists bs. split; [exact Ebs|]. intros p. rewrite Hc, drop_0, Hin. unfold after_ts. cbn.
  rewrite as_i64_small, andb_true_iff, bool_decide_eq_true, Z.ltb_lt by done. tauto.
Qed.

Lemma interaction_deltas_spec d d0 :
  content_ok me d -> Z.of_nat (size (interactions d)) < 2 ^ 63 -> content_ok me d0 ->
  exists bs, interaction_deltas d me (vec d0) = Ok bs /\
    forall i, i ∈ concat bs <-> stored_interaction d i /\ is_u64 (in_timestamp i) /\
      in_author i = me /\ newest iw_timestamp me (interactions d0) < as_i64 (in_timestamp i).
Proof.
  intros Hd Hsz Hd0. unfold interaction_deltas.
  destruct (after_newest_spec iw_timestamp (interactions d0) (co_ints_ts _ _ Hd0)) as [En Hn].
  change (sv_newest_interaction_ts (vec d0)) with (as_u64 (newest iw_timestamp me (interactions d0))).
  change (sv_interaction_count (vec d0)) with (Z.of_nat (length
    (filter (fun kr : string * string * InteractionRow => bool_decide (kr.1.1 = me))
      (map_to_list (interactions d0))))).
  rewrite En. set (t := newest _ _ _) in *.
  destruct (Z.ltb_spec t u64_MAX); [|unfold u64_MAX in *; lia].
  set (P := if 0 <? t then interaction_after me t else fun kr => bool_decide (kr.1.1 = me)).
  destruct (select_interactions d P (fun kr => iw_timestamp kr.2) (co_ints _ _ Hd))
    as (is_ & Hrows & Hnd & Hin & Hlen).
  destruct (page_loop_concat (fun off => if 0 <? t then get_interactions_after d me t BATCH_SIZE off
      else get_interactions_paged d me BATCH_SIZE off) is_ 200)
    with (fuel := S (size (interactions d))) (k := 0%nat) as (bs & Ebs & Hc & _); [lia|lia| |lia|lia|].
  { intros k Hk. unfold P in Hrows. destruct (0 <? t); by apply (decode_page row_to_interaction _ is_). }
  exists bs. split; [exact Ebs|]. intros i. rewrite Hc, drop_0, Hin. unfold P, interaction_after.
  destruct (Z.ltb_spec 0 t) as [Hpos|Hzero]; cbn.
  - rewrite as_i64_small, andb_true_iff, bool_decide_eq_true, Z.ltb_lt by done. tauto.
  - rewrite bool_decide_eq_true. split; [|tauto]. intros (Hst & Hu & Ha). split_and!; try done.
    pose proof (co_ints_ts _ _ Hd (in_author i, in_id i) _ Ha Hst) as Hp. cbn in Hp. lia.
Qed.
End pages.

(** ** What an import changes *)

Section import.
Context `{!Serde (list MediaAttachment)} (now : Z) (me : string).

(** The database part of an import. *)
Definition import_db (d : Db) (frame : DeviceSyncFrame) : Db :=
  match frame with
  | DfPosts ps =>
      fold_left (fun d p => if decide (post_author p <> me) then d else insert_post p d) ps d
  | DfInteractions is_ =>
      fold_left (fun d i => if decide (in_author i <> me) then d else save_interaction i d) is_ d
  | DfFollows l => (fold_left (merge_follow me) l (d, 0)).1
  | DfModeration l => (fold_left merge_mod l (d, 0)).1
  | DfBookmarks l => (fold_left (merge_bookmark now) l (d, 0)).1
  | DfRatchetSessions l => (fold_left merge_session l (d, 0)).1
  end.

Lemma import_frame_db d st f : (import_frame now me (d, st) f).1 = import_db d f.
Proof.
  assert (forall ps n d, (fold_left (import_post me) ps (d, n)).1 = import_db d (DfPosts ps)) as Hp.
  { intros ps. cbn. induction ps as [|p ps IH]; intros n d'; cbn; [done|].
    unfold import_post at 2. case_decide; apply IH. }
  assert (forall is_ n d, (fold_left (import_interaction me) is_ (d, n)).1 =
    import_db d (DfInteractions is_)) as Hi.
  { intros is_. cbn. induction is_ as [|i is_ IH]; intros n d'; cbn; [done|].
    unfold import_interaction at 2. case_decide; apply IH. }
  destruct f as [ps|is_|l|l|l|l]; cbn [import_frame].
  - rewrite <-(Hp ps (ds_posts_imported st)). by destruct (fold_left _ _ _).
  - rewrite <-(Hi is_ (ds_interactions_imported st)). by destruct (fold_left _ _ _).
  - unfold merge_follows_lww. cbn. by destruct (fold_left _ _ _).
  - unfold merge_moderation_lww. cbn. by destruct (fold_left _ _ _).
  - unfold merge_bookmarks. cbn. by destruct (fold_left _ _ _).
  - unfold merge_ratchet_sessions_lww. cbn. by destruct (fold_left _ _ _).
Qed.

Lemma import_frames_db fs d st :
  (fold_left (import_frame now me) fs (d, st)).1 = fold_left import_db fs d.
Proof.
  revert d st. induction fs as [|f fs IH]; intros d st; cbn [fold_left]; [done|].
  rewrite <-(import_frame_db d st f). destruct (import_frame now me (d, st) f). apply IH.
Qed.

(** Which table each frame writes. *)
Lemma fold_table {A T} (set : T -> Db -> Db) (get : Db -> T) (step : Db -> A -> Db) l d :
  (forall d, set (get d) d = d) -> (forall d a, exists t, step d a = set t d) ->
  (forall t u d, set t (set u d) = set t d) ->
  exists t, fold_left step l d = set t d.
Proof.
  intros Hid Hstep Hset. revert d. induction l as [|a l IH]; intros d; cbn.
  - exists (get d). by rewrite Hid.
  - destruct (IH (step d a)) as [t ->]. destruct (Hstep d a) as [u ->]. exists t. apply Hset.
Qed.

Lemma fold_pair_table {A T} (set : T -> Db -> Db) (get : Db -> T) (step : Db * Z -> A -> Db * Z) l d n :
  (forall d, set (get d) d = d) -> (forall d n a, exists t, (step (d, n) a).1 = set t d) ->
  (forall t u d, set t (set u d) = set t d) ->
  exists t, (fold_left step l (d, n)).1 = set t d.
Proof.
  intros Hid Hstep Hset. revert d n. induction l as [|a l IH]; intros d n; cbn.
  - exists (get d). by rewrite Hid.
  - destruct (Hstep d n a) as [u E]. destruct (step (d, n) a) as [d1 n1]. cbn in E. subst d1.
    destruct (IH (set u d) n1) as [t ->]. exists t. apply Hset.
Qed.

Lemma import_db_table d f :
  match f with
  | DfPosts _ => exists t, import_db d f = set_posts t d
  | DfInteractions _ => exists t, import_db d f = set_interactions t d
  | DfFollows _ => exists t, import_db d f = set_social_graph t d
  | DfModeration _ => exists t, import_db d f = set_moderation t d
  | DfBookmarks _ => exists t, import_db d f = set_bookmarks t d
  | DfRatchetSessions _ => exists t, import_db d f = set_dm_ratchet_sessions t d
  end.
Proof.
  destruct f as [ps|is_|l|l|l|l]; cbn.
  - apply (fold_table set_posts posts); [by intros []| |done].
    intros d' p. case_decide; [exists (posts d'); by destruct d'|by eexists].
  - apply (fold_table set_interactions interactions); [by intros []| |done].
    intros d' i. unfold save_interaction.
    case_decide; [|case_match; [|by eexists]]; exists (interactions d'); by destruct d'.
  - apply (fold_pair_table set_social_graph social_graph); [by intros []| |done].
    intros d' n a. cbn. case_match; [by eexists|exists (social_graph d'); by destruct d'].
  - apply (fold_pair_table set_moderation moderation); [by intros []| |done].
    intros d' n a. cbn. case_match; [by eexists|exists (moderation d'); by destruct d'].
  - apply (fold_pair_table set_bookmarks bookmarks); [by intros []| |done].
    intros d' n a. cbn. case_match; [exists (bookmarks d'); by destruct d'|by eexists].
  - apply (fold_pair_table set_dm_ratchet_sessions dm_ratchet_sessions); [by intros []| |done].
    intros d' n a. cbn. case_match; [by eexists|exists (dm_ratchet_sessions d'); by destruct d'].
Qed.
End import.

(** ** One direction of a session *)

Section direction.
Context `{SqlOrder, !SqlOrderLaws, !Serde (list MediaAttachment), !SerdeLaws (list MediaAttachment)}
  (now : Z) (me : string).
Abbreviation vec d := (build_device_sync_vector d me).
Abbreviation import := (import_db now me).

(** Stored posts of the sender: a row is added where there was none. *)
Lemma import_posts_lookup (peer : Db) ps d k :
  Forall (fun p => stored_post peer p /\ post_author p = me) ps ->
  posts (import d (DfPosts ps)) !! k =
    match posts d !! k with
    | Some r => Some r
    | None => if decide (k ∈ (fun p => (post_author p, post_id p)) <$> ps) then posts peer !! k else None
    end.
Proof.
  intros Hps. cbn. revert d. induction Hps as [|p ps [Hst Ha] _ IH]; intros d; cbn.
  - by destruct (posts d !! k).
  - rewrite decide_False by (intros ?; contradiction). rewrite IH. cbn.
    rewrite lookup_insert_or_ignore. destruct (decide ((post_author p, post_id p) = k)) as [<-|Hne].
    + destruct (posts d !! _); [done|]. rewrite Hst.
      by rewrite decide_True by (apply elem_of_cons; by left).
    + destruct (posts d !! k); [done|].
      destruct (decide (k ∈ _ <$> ps)), (decide (k ∈ _)) as [Hin|Hout]; try done.
      * exfalso. apply Hout. by right.
      * apply elem_of_cons in Hin as [->|]; done.
Qed.

(** Interactions come from the receiver or from the sender. *)
Lemma import_interactions_lookup (peer : Db) is_ d k r :
  Forall (stored_interaction peer) is_ ->
  interactions (import d (DfInteractions is_)) !! k = Some r ->
  interactions d !! k = Some r \/ interactions peer !! k = Some r.
Proof.
  intros His. cbn. revert d. induction His as [|i is_ Hst _ IH]; intros d; cbn; [by left|].
  intros [Hr|Hr]%IH; [|by right]. case_decide; [by left|]. revert Hr. unfold save_interaction.
  case_match; [by left|]. cbn. rewrite lookup_insert_or_ignore. case_decide as Hk; [|by left].
  destruct (interactions d !! _) eqn:E; intros [= <-]; [left; congruence|right; by rewrite <-Hk].
Qed.

Lemma import_interactions_keep is_ d k r :
  interactions d !! k = Some r -> interactions (import d (DfInteractions is_)) !! k = Some r.
Proof.
  cbn. revert d. induction is_ as [|i is_ IH]; intros d Hr; cbn; [done|]. apply IH.
  case_decide; [done|]. unfold save_interaction. case_match; [done|]. cbn.
  rewrite lookup_insert_or_ignore. case_decide as Hk; [|done]. subst k. by rewrite Hr.
Qed.

Lemma merge_bookmarks_dom l d n id :
  is_Some (bookmarks (fold_left (merge_bookmark now) l (d, n)).1 !! id) <->
    is_Some (bookmarks d !! id) \/ id ∈ l.
Proof.
  revert d n. induction l as [|b l IH]; intros d n; cbn.
  - rewrite elem_of_nil. tauto.
  - assert (is_bookmarked d b = true <-> is_Some (bookmarks d !! b)) as Hb
      by (unfold is_bookmarked; apply bool_decide_eq_true).
    destruct (is_bookmarked d b); rewrite IH; cbn; rewrite elem_of_cons.
    + split; [tauto|]. intros [?|[->|?]]; [tauto| |tauto]. left. by apply Hb.
    + destruct (decide (b = id)) as [->|Hne].
      * rewrite lookup_insert_eq. split; [tauto|]. intros _. left. by eexists.
      * rewrite lookup_insert_ne by done. split; [tauto|]. intros [?|[->|?]]; tauto.
Qed.

Lemma bookmark_ids d id : id ∈ get_all_bookmark_ids d <-> is_Some (bookmarks d !! id).
Proof.
  unfold get_all_bookmark_ids. rewrite list_elem_of_fmap. split.
  - intros ([k r] & -> & [Hr _]%elem_of_sql_select). by eexists.
  - intros [r Hr]. exists (id, r). split; [done|]. by apply elem_of_sql_select.
Qed.

(** What [d'] is after importing into [d] what [r] sends, where [r0] is the
    sender when it built its vector. *)
Record imported (d r r0 d' : Db) : Prop := {
  im_posts k : posts d' !! k =
    match posts d !! k with
    | Some row => Some row
    | None => row ← posts r !! k;
              if bool_decide (k.1 = me) && (newest pw_timestamp me (posts d) <? pw_timestamp row)
              then Some row else None
    end;
  im_ints k row : interactions d' !! k = Some row ->
    interactions d !! k = Some row \/ interactions r !! k = Some row;
  im_ints_keep k row : interactions d !! k = Some row -> interactions d' !! k = Some row;
  im_follows k : follow_view me d' k = lww (follow_view me d k) (follow_view me r0 k);
  im_mod k : moderation_view d' k = lww (moderation_view d k) (moderation_view r0 k);
  im_bookmarks id : is_Some (bookmarks d' !! id) <->
    is_Some (bookmarks d !! id) \/ is_Some (bookmarks r0 !! id);
  im_ratchets k : ratchet_view d' k = lww (ratchet_view d k) (ratchet_view r k);
}.

Lemma fold_batches {A} (frame : list A -> DeviceSyncFrame) (bs : list (list A)) d :
  (forall d, import d (frame []) = d) ->
  (forall l k d, import d (frame (l ++ k)) = import (import d (frame l)) (frame k)) ->
  fold_left import (frame <$> bs) d = import d (frame (concat bs)).
Proof.
  intros Hnil Happ. revert d. induction bs as [|b bs IH]; intros d; cbn [fmap list_fmap fold_left concat].
  - by rewrite Hnil.
  - by rewrite IH, Happ.
Qed.

Lemma fold_unless_empty {A} (frame : list A -> DeviceSyncFrame) (l : list A) d :
  (forall d, import d (frame []) = d) ->
  fold_left import (unless_empty frame l) d = import d (frame l).
Proof. intros Hnil. destruct l; cbn [unless_empty fold_left]; [by rewrite Hnil|done]. Qed.

(** The six imports of a direction, one after the other. *)
Record chain (d : Db) ps is_ fl ml bl rl (d1 d2 d3 d4 d5 d6 : Db) : Prop := {
  ch_1 : d1 = import d (DfPosts ps);
  ch_2 : d2 = import d1 (DfInteractions is_);
  ch_3 : d3 = import d2 (DfFollows fl);
  ch_4 : d4 = import d3 (DfModeration ml);
  ch_5 : d5 = import d4 (DfBookmarks bl);
  ch_6 : d6 = import d5 (DfRatchetSessions rl);
}.

Lemma chain_tables d ps is_ fl ml bl rl d1 d2 d3 d4 d5 d6 :
  chain d ps is_ fl ml bl rl d1 d2 d3 d4 d5 d6 ->
  posts d6 = posts d1 /\ interactions d6 = interactions d2 /\ interactions d1 = interactions d /\
  social_graph d6 = social_graph d3 /\ social_graph d2 = social_graph d /\
  moderation d6 = moderation d4 /\ moderation d3 = moderation d /\
  bookmarks d6 = bookmarks d5 /\ bookmarks d4 = bookmarks d /\
  dm_ratchet_sessions d5 = dm_ratchet_sessions d.
Proof.
  intros [E1 E2 E3 E4 E5 E6].
  destruct (import_db_table now me d (DfPosts ps)) as [t1 F1]. rewrite <-E1 in F1.
  destruct (import_db_table now me d1 (DfInteractions is_)) as [t2 F2]. rewrite <-E2 in F2.
  destruct (import_db_table now me d2 (DfFollows fl)) as [t3 F3]. rewrite <-E3 in F3.
  destruct (import_db_table now me d3 (DfModeration ml)) as [t4 F4]. rewrite <-E4 in F4.
  destruct (import_db_table now me d4 (DfBookmarks bl)) as [t5 F5]. rewrite <-E5 in F5.
  destruct (import_db_table now me d5 (DfRatchetSessions rl)) as [t6 F6]. rewrite <-E6 in F6.
  clear E1 E2 E3 E4 E5 E6. by subst.
Qed.

Lemma chain_posts d ps is_ fl ml bl rl d1 d2 d3 d4 d5 d6 r k :
  chain d ps is_ fl ml bl rl d1 d2 d3 d4 d5 d6 -> content_ok me r ->
  (forall p, p ∈ ps <-> stored_post r p /\ is_u64 (post_timestamp p) /\
     post_author p = me /\ newest pw_timestamp me (posts d) < as_i64 (post_timestamp p)) ->
  posts d6 !! k =
    match posts d !! k with
    | Some row => Some row
    | None => row ← posts r !! k;
              if bool_decide (k.1 = me) && (newest pw_timestamp me (posts d) <? pw_timestamp row)
              then Some row else None
    end.
Proof.
  intros Hch Hr Hps. destruct (chain_tables _ _ _ _ _ _ _ _ _ _ _ _ _ Hch) as (-> & _).
  rewrite (ch_1 _ _ _ _ _ _ _ _ _ _ _ _ _ Hch), (import_posts_lookup r).
  2: { apply Forall_forall. intros p Hin%Hps. tauto. }
  destruct (posts d !! k); [done|]. case_decide as Hk.
  - apply list_elem_of_fmap in Hk as (p & -> & (Hst & _ & Ha & Hlt)%Hps). rewrite Hst. cbn.
    rewrite bool_decide_eq_true_2 by done. cbn. by rewrite (proj2 (Z.ltb_lt _ _)) by done.
  - destruct (posts r !! k) as [row|] eqn:E; [|done]. cbn.
    destruct (co_posts _ _ Hr _ _ E) as (p & Hu & -> & ->). cbn.
    destruct (bool_decide_reflect (post_author p = me)) as [Ha|]; [cbn|done].
    destruct (Z.ltb_spec (newest pw_timestamp me (posts d)) (as_i64 (post_timestamp p))); [|done].
    exfalso. apply Hk, list_elem_of_fmap. exists p. split; [done|]. by apply Hps.
Qed.

Lemma chain_imported d r r0 ps is_ d1 d2 d3 d4 d5 d6 :
  device_ok me d -> content_ok me r -> ratchets_ok r -> device_ok me r0 ->
  chain d ps is_ (filter (follow_is_newer (vec d)) (sv_follows (vec r0)))
    (filter (moderation_is_newer (vec d)) (sv_moderation (vec r0)))
    (filter (fun b => b ∉ sv_bookmarks (vec d)) (sv_bookmarks (vec r0)))
    (filter (ratchet_is_newer (vec d)) (export_ratchet_sessions r)) d1 d2 d3 d4 d5 d6 ->
  (forall p, p ∈ ps <-> stored_post r p /\ is_u64 (post_timestamp p) /\
     post_author p = me /\ newest pw_timestamp me (posts d) < as_i64 (post_timestamp p)) ->
  Forall (stored_interaction r) is_ ->
  imported d r r0 d6.
Proof.
  intros Hd Hr Hrr Hr0 Hch Hps His.
  destruct (chain_tables _ _ _ _ _ _ _ _ _ _ _ _ _ Hch) as (_ & T2 & T1 & T3 & T3' & T4 & T4' & T5 & T5' & T6).
  pose proof Hch as [E1 E2 E3 E4 E5 E6].
  split.
  - intros k. by eapply chain_posts.
  - intros k row. rewrite T2, E2, <-T1. by apply import_interactions_lookup.
  - intros k row Hrow. rewrite T2, E2. apply import_interactions_keep. by rewrite T1.
  - intros k. unfold follow_view at 1. rewrite T3, E3. by apply merge_follows_join.
  - intros k. unfold moderation_view at 1. rewrite T4, E4. by apply (merge_moderation_join me).
  - intros id. rewrite T5, E5. cbn [import_db]. rewrite merge_bookmarks_dom, T5', list_elem_of_filter.
    cbn [sv_bookmarks build_device_sync_vector]. rewrite !bookmark_ids.
    destruct (decide (is_Some (bookmarks d !! id))); tauto.
  - intros k. rewrite E6. by apply (merge_ratchets_join me); [apply Hd|..].
Qed.

Lemma send_and_import d r r0 :
  device_ok me d -> content_ok me r -> ratchets_ok r -> device_ok me r0 ->
  Z.of_nat (size (posts r)) < 2 ^ 63 -> Z.of_nat (size (interactions r)) < 2 ^ 63 ->
  exists fs, send_deltas r me (vec r0) (vec d) = Ok fs /\ imported d r r0 (fold_left import fs d).
Proof.
  intros Hd Hr Hrr Hr0 Hs1 Hs2. pose proof (dv_content _ _ Hd) as Hdc.
  destruct (post_deltas_spec me r d Hr Hs1 Hdc) as (pbs & Epbs & Hpbs).
  destruct (interaction_deltas_spec me r d Hr Hs2 Hdc) as (ibs & Eibs & Hibs).
  unfold send_deltas. rewrite Epbs, Eibs. eexists. split; [reflexivity|].
  rewrite !fold_left_app, !fold_batches, !fold_unless_empty by (done || (intros; apply fold_left_app)).
  eapply chain_imported; [done..| |exact Hpbs|].
  - by split.
  - apply Forall_forall. intros i Hin%Hibs. tauto.
Qed.
End direction.

(** ** Sessions *)

Section after_import.
Context `{!Serde (list MediaAttachment)} (me : string).

Lemma imported_content d r r0 d' :
  content_ok me d -> content_ok me r -> imported me d r r0 d' -> content_ok me d'.
Proof.
  intros Hd Hr Him.
  assert (forall k row, posts d' !! k = Some row ->
    posts d !! k = Some row \/ posts r !! k = Some row) as Hp.
  { intros k row. rewrite (im_posts _ _ _ _ _ Him). destruct (posts d !! k); [by left|].
    destruct (posts r !! k) as [row'|]; [|done]. cbn. case_match; [|done]. intros [= <-]. by right. }
  split.
  - intros k row [Hk|Hk]%Hp; [by apply (co_posts _ _ Hd)|by apply (co_posts _ _ Hr)].
  - intros k row [Hk|Hk]%(im_ints _ _ _ _ _ Him); [by apply (co_ints _ _ Hd)|by apply (co_ints _ _ Hr)].
  - intros k row Ha [Hk|Hk]%Hp; [by apply (co_posts_ts _ _ Hd k)|by apply (co_posts_ts _ _ Hr k)].
  - intros k row Ha [Hk|Hk]%(im_ints _ _ _ _ _ Him);
      [by apply (co_ints_ts _ _ Hd k)|by apply (co_ints_ts _ _ Hr k)].
Qed.

Lemma imported_ratchets d r r0 d' :
  ratchets_ok d -> ratchets_ok r -> imported me d r r0 d' -> ratchets_ok d'.
Proof.
  intros Hd Hr Him k row Hk. pose proof (im_ratchets _ _ _ _ _ Him k) as E.
  destruct (lww_either (ratchet_view d k) (ratchet_view r k)) as [El|El]; rewrite El in E;
    unfold ratchet_view in E; rewrite Hk in E; symmetry in E;
    apply fmap_Some in E as (row' & Hrow' & [= _ ->]); [by apply (Hd k)|by apply (Hr k)].
Qed.

(** A table whose rows come from two others is no larger than both. *)
Lemma size_two_tables {K R} `{Countable K} (t a b : gmap K R) :
  (forall k row, t !! k = Some row -> a !! k = Some row \/ b !! k = Some row) ->
  (size t <= size a + size b)%nat.
Proof.
  intros Hsub. rewrite <-!size_dom.
  etransitivity; [apply (subseteq_size (dom t) (dom a ∪ dom b))|].
  - intros k [row Hk]%elem_of_dom. apply elem_of_union. rewrite !elem_of_dom.
    destruct (Hsub k row Hk) as [E|E]; rewrite E; eauto.
  - rewrite size_union_alt. etransitivity; [|apply Nat.add_le_mono_l, subseteq_size, subseteq_difference_l; reflexivity].
    done.
Qed.

Lemma imported_sizes d r r0 d' :
  small_tables d -> small_tables r -> imported me d r r0 d' ->
  Z.of_nat (size (posts d')) < 2 ^ 63 /\ Z.of_nat (size (interactions d')) < 2 ^ 63.
Proof.
  intros [] [] Him. split.
  - pose proof (size_two_tables (posts d') (posts d) (posts r)) as Hs.
    enough (size (posts d') <= size (posts d) + size (posts r))%nat by lia. apply Hs.
    intros k row. rewrite (im_posts _ _ _ _ _ Him). destruct (posts d !! k); [by left|].
    destruct (posts r !! k) as [row'|]; [|done]. cbn. case_match; [|done]. intros [= <-]. by right.
  - pose proof (size_two_tables (interactions d') (interactions d) (interactions r)) as Hs.
    enough (size (interactions d') <= size (interactions d) + size (interactions r))%nat by lia.
    apply Hs, Him.
Qed.
End after_import.

Section session.
Context `{Ed25519, !Ed25519Laws, HexCodec, !HexLaws, SqlOrder, !SqlOrderLaws,
  !Serde (list MediaAttachment), !SerdeLaws (list MediaAttachment), !Wire DeviceSyncFrame,
  !WireLaws DeviceSyncFrame, !Wire DeviceSyncAccepted, !WireLaws DeviceSyncAccepted}.
Abbreviation vec me d := (build_device_sync_vector d me).

Definition frames_fit (fs : list DeviceSyncFrame) : Prop :=
  Forall (fun f => Z.of_nat (length (to_vec f)) <= MAX_FRAME_SIZE) fs.

(** The messages of a session stay below the limits of the reader. *)
Record session_fits (me : string) (sk : SecretKey) (challenge : bytes) (i r : Db) : Prop := {
  ss_response : Z.of_nat (length (to_vec
    {| dy_challenge_response := sign_device_sync_challenge challenge sk; dy_vector := vec me r |}))
    <= 1000000;
  ss_responder fs : send_deltas r me (vec me r) (vec me i) = Ok fs -> frames_fit fs;
  ss_initiator i' fs : imported me i r r i' ->
    send_deltas i' me (vec me i) (vec me r) = Ok fs -> frames_fit fs;
}.

Lemma read_stream now me fs acc fuel :
  frames_fit fs -> (length fs < fuel)%nat ->
  import_deltas fuel now me (concat ((fun f => write_frame (to_vec f)) <$> fs) ++ write_frame []) acc =
    ((fold_left (import_frame now me) fs acc).1, Ok (fold_left (import_frame now me) fs acc).2).
Proof.
  intros Hfs. revert acc fuel. induction Hfs as [|f fs Hf _ IH]; intros acc [|fuel] Hfuel;
    try (cbn in Hfuel; lia).
  - cbn [import_deltas fmap list_fmap concat app fold_left]. rewrite <-(app_nil_r (write_frame [])).
    rewrite read_write_frame by (cbn; lia). by rewrite decide_True.
  - cbn [import_deltas fmap list_fmap concat fold_left]. rewrite <-app_assoc.
    unfold MAX_FRAME_SIZE in Hf.
    rewrite read_write_frame by lia. rewrite decide_False by apply to_vec_nonempty.
    unfold MAX_FRAME_SIZE. destruct (Z.ltb_spec 10000000 (Z.of_nat (length (to_vec f)))); [lia|].
    rewrite from_to_vec. rewrite IH by (cbn in Hfuel; lia). done.
Qed.

Lemma stream_length (fs : list DeviceSyncFrame) :
  (length fs <= length (concat ((fun f => write_frame (to_vec f)) <$> fs)))%nat.
Proof.
  induction fs as [|f fs IH]; cbn [fmap list_fmap concat length]; [lia|].
  rewrite length_app. unfold write_frame at 1. rewrite length_app, length_be_bytes. lia.
Qed.

Lemma read_deltas_written now me fs d :
  frames_fit fs -> exists st,
  read_deltas now me (concat ((fun f => write_frame (to_vec f)) <$> fs) ++ write_frame []) d =
    (fold_left (import_db now me) fs d, Ok st).
Proof.
  intros Hfs. unfold read_deltas. rewrite read_stream; [|done|].
  - rewrite import_frames_db. by eexists.
  - rewrite length_app. pose proof (stream_length fs). lia.
Qed.

Lemma challenge_signed sk ch :
  is_ok (verify_device_sync_challenge ch (sign_device_sync_challenge ch sk) (sk_public sk)) = true.
Proof. unfold verify_device_sync_challenge, sign_device_sync_challenge. by rewrite verify_signed. Qed.

Lemma device_session_spec now me sk challenge i r :
  device_ok me i -> device_ok me r -> session_fits me sk challenge i r ->
  exists i' r' st, device_session now i r me sk sk challenge = (i', r', Ok st) /\
    imported me i r r i' /\ imported me r i' i r'.
Proof.
  intros Hi Hr [Hresp Hf1 Hf2].
  destruct (send_and_import now me i r r) as (fs1 & E1 & Him1);
    [done|by apply Hr|by apply Hr|done|destruct (dv_small _ _ Hr); lia|destruct (dv_small _ _ Hr); lia|].
  set (i' := fold_left _ fs1 i) in *.
  destruct (imported_sizes me i r r i') as [Hs1 Hs2]; [apply Hi|apply Hr|done|].
  destruct (send_and_import now me r i' i) as (fs2 & E2 & Him2); [done| | |done|done|done|].
  { eapply imported_content; [apply Hi|apply Hr|done]. }
  { eapply imported_ratchets; [apply Hi|apply Hr|done]. }
  set (r' := fold_left _ fs2 r) in *. exists i', r'.
  destruct (read_deltas_written now me fs1 i) as [st1 R1]; [by apply Hf1|].
  destruct (read_deltas_written now me fs2 r) as [st2 R2]; [by eapply Hf2|].
  fold i' in R1. fold r' in R2. exists st1. split; [|done].
  pose proof (challenge_signed sk) as Hv.
  unfold device_session, handle_device_sync, answer_device_sync, device_sync_request, write_deltas.
  cbn [dr_challenge dr_challenge_sig dr_vector]. rewrite Hv, E1. cbn [mbind result_bind].
  unfold mbind, result_bind.
  unfold sync_with_device. rewrite (proj2 (Z.ltb_ge _ _)) by exact Hresp. cbn [bail_if].
  unfold mbind, result_bind. rewrite from_to_vec. cbn [dy_challenge_response dy_vector].
  rewrite Hv, R1. unfold write_deltas. rewrite E2. unfold mbind, result_bind. by rewrite R2.
Qed.
End session.

(** ** What a stream can do *)

Section guard.
Context `{Ed25519, HexCodec, SqlOrder, !Serde (list MediaAttachment), !Wire DeviceSyncFrame,
  !Wire DeviceSyncAccepted} (me : string).

(** Only own rows are added or replaced, and no stored content is altered. *)
Record only_own (d d' : Db) : Prop := {
  oo_posts k : k.1 <> me \/ is_Some (posts d !! k) -> posts d' !! k = posts d !! k;
  oo_interactions k : k.1 <> me \/ is_Some (interactions d !! k) ->
    interactions d' !! k = interactions d !! k;
  oo_social k : k.1 <> me -> social_graph d' !! k = social_graph d !! k;
  oo_bookmarks k : is_Some (bookmarks d !! k) -> bookmarks d' !! k = bookmarks d !! k;
  oo_rest : profiles d' = profiles d /\ peer_delegations d' = peer_delegations d /\
    linked_devices d' = linked_devices d /\
    peer_device_announcements d' = peer_device_announcements d /\
    notifications d' = notifications d /\ dm_conversations d' = dm_conversations d /\
    dm_messages d' = dm_messages d /\ dm_outbox d' = dm_outbox d /\
    follow_requests d' = follow_requests d /\ remote_social_meta d' = remote_social_meta d;
}.

Instance only_own_refl : Reflexive only_own.
Proof. by split. Qed.
Instance only_own_trans : Transitive only_own.
Proof.
  intros d1 d2 d3 [P1 I1 S1 B1 R1] [P2 I2 S2 B2 R2]. split.
  - intros k Hk. rewrite P2; [by apply P1|]. rewrite P1; tauto.
  - intros k Hk. rewrite I2; [by apply I1|]. rewrite I1; tauto.
  - intros k Hk. rewrite S2; auto.
  - intros k Hk. rewrite B2; [by apply B1|]. by rewrite B1.
  - destruct_and!. split_and!; congruence.
Qed.

Lemma own_insert_post p d : post_author p = me -> only_own d (insert_post p d).
Proof.
  intros Ha. split; try done. intros k Hk. cbn. rewrite lookup_insert_or_ignore.
  case_decide as Ek; [|done]. subst k. destruct (posts d !! _); [done|].
  cbn in Hk. destruct Hk as [?|[??]]; congruence.
Qed.

Lemma own_save_interaction i d : in_author i = me -> only_own d (save_interaction i d).
Proof.
  intros Ha. unfold save_interaction. case_match; [done|]. split; try done.
  intros k Hk. cbn. rewrite lookup_insert_or_ignore.
  case_decide as Ek; [|done]. subst k. destruct (interactions d !! _); [done|].
  cbn in Hk. destruct Hk as [?|[??]]; congruence.
Qed.

Lemma own_fold {A} (step : Db -> A -> Db) l d :
  (forall d a, only_own d (step d a)) -> only_own d (fold_left step l d).
Proof.
  intros Hs. revert d. induction l as [|a l IH]; intros d; cbn; [done|].
  etransitivity; [apply Hs|apply IH].
Qed.

Lemma own_fold_pair {A} (step : Db * Z -> A -> Db * Z) l dn :
  (forall dn a, only_own dn.1 (step dn a).1) -> only_own dn.1 (fold_left step l dn).1.
Proof.
  intros Hs. revert dn. induction l as [|a l IH]; intros dn; cbn; [done|].
  etransitivity; [apply Hs|apply IH].
Qed.

Lemma own_import now d f : only_own d (import_db now me d f).
Proof.
  destruct f as [ps|is_|l|l|l|l]; cbn [import_db].
  - apply own_fold. intros d' p. case_decide as Ha; [done|].
    apply own_insert_post. by destruct (decide (post_author p = me)).
  - apply own_fold. intros d' i. case_decide as Ha; [done|].
    apply own_save_interaction. by destruct (decide (in_author i = me)).
  - apply (own_fold_pair (merge_follow me) l (d, 0)). intros [d' n] e. cbn. case_match; [|done].
    split; try done. intros k Hk. cbn. rewrite lookup_upsert, decide_False; [done|]. by intros <-.
  - apply (own_fold_pair merge_mod l (d, 0)). intros [d' n] e. cbn. by case_match.
  - apply (own_fold_pair (merge_bookmark now) l (d, 0)). intros [d' n] b. cbn.
    destruct (is_bookmarked d' b) eqn:E; [done|]. split; try done. intros k Hk. cbn.
    rewrite lookup_insert_ne; [done|]. intros <-. apply bool_decide_eq_false in E. tauto.
  - apply (own_fold_pair merge_session l (d, 0)). intros [d' n] e. cbn. by case_match.
Qed.

Lemma own_import_deltas fuel now stream acc :
  only_own acc.1 (import_deltas fuel now me stream acc).1.
Proof.
  revert stream acc. induction fuel as [|fuel IH]; intros stream acc; cbn; [done|].
  destruct (read_frame stream) as [[[buf|] rest]|]; [|done..].
  destruct (from_slice buf) as [frame|]; [|done].
  etransitivity; [|apply IH]. destruct acc as [d st]. rewrite import_frame_db. apply own_import.
Qed.

Lemma own_read_deltas now stream d : only_own d (read_deltas now me stream d).1.
Proof. apply (own_import_deltas _ now stream (d, no_stats)). Qed.
End guard.

(** ** Theorems *)

(** C5: linked devices converge.  After a session both devices hold the
    last-writer-wins join of their follows, mutes and blocks, and ratchet
    sessions, and the union of their bookmarks; they agree on an entry exactly
    when no equal timestamps stood for different values, since each side keeps
    its own on a tie. *)
Theorem device_sync_converges `{Ed25519, !Ed25519Laws, HexCodec, !HexLaws, SqlOrder, !SqlOrderLaws,
    !Serde (list MediaAttachment), !SerdeLaws (list MediaAttachment), !Wire DeviceSyncFrame,
    !WireLaws DeviceSyncFrame, !Wire DeviceSyncAccepted, !WireLaws DeviceSyncAccepted}
    now me sk challenge i r :
  device_ok me i -> device_ok me r -> session_fits me sk challenge i r ->
  exists i' r' st, device_session now i r me sk sk challenge = (i', r', Ok st) /\
    (forall k, follow_view me i' k = lww (follow_view me i k) (follow_view me r k) /\
       follow_view me r' k = lww (follow_view me r k) (follow_view me i k) /\
       (follow_view me i' k = follow_view me r' k <->
        no_tie (follow_view me i k) (follow_view me r k))) /\
    (forall k, moderation_view i' k = lww (moderation_view i k) (moderation_view r k) /\
       moderation_view r' k = lww (moderation_view r k) (moderation_view i k) /\
       (moderation_view i' k = moderation_view r' k <->
        no_tie (moderation_view i k) (moderation_view r k))) /\
    (forall k, ratchet_view i' k = lww (ratchet_view i k) (ratchet_view r k) /\
       ratchet_view r' k = lww (ratchet_view r k) (ratchet_view i k) /\
       (ratchet_view i' k = ratchet_view r' k <-> no_tie (ratchet_view i k) (ratchet_view r k))) /\
    (forall id, (is_Some (bookmarks i' !! id) <-> is_Some (bookmarks i !! id) \/ is_Some (bookmarks r !! id)) /\
       (is_Some (bookmarks r' !! id) <-> is_Some (bookmarks i !! id) \/ is_Some (bookmarks r !! id))).
Proof.
  intros Hi Hr Hfit.
  destruct (device_session_spec now me sk challenge i r Hi Hr Hfit) as (i' & r' & st & E & Him1 & Him2).
  exists i', r', st. split; [done|]. split_and!.
  - intros k. rewrite (im_follows _ _ _ _ _ Him1), (im_follows _ _ _ _ _ Him2).
    split_and!; [done|done|apply lww_comm_iff].
  - intros k. rewrite (im_mod _ _ _ _ _ Him1), (im_mod _ _ _ _ _ Him2).
    split_and!; [done|done|apply lww_comm_iff].
  - intros k. rewrite (im_ratchets _ _ _ _ _ Him2), (im_ratchets _ _ _ _ _ Him1), lww_absorb.
    split_and!; [done|done|apply lww_comm_iff].
  - intros id. rewrite (im_bookmarks _ _ _ _ _ Him1), (im_bookmarks _ _ _ _ _ Him2). tauto.
Qed.

(** what a session does to the posts.  Each device receives exactly the own
    posts of the other that are newer than its newest own post, and keeps all it
    had; a post it lacks that is not newer is never sent, so the two can differ
    for good. *)
Theorem device_sync_posts `{Ed25519, !Ed25519Laws, HexCodec, !HexLaws, SqlOrder, !SqlOrderLaws,
    !Serde (list MediaAttachment), !SerdeLaws (list MediaAttachment), !Wire DeviceSyncFrame,
    !WireLaws DeviceSyncFrame, !Wire DeviceSyncAccepted, !WireLaws DeviceSyncAccepted}
    now me sk challenge i r :
  device_ok me i -> device_ok me r -> session_fits me sk challenge i r ->
  let after (d other : Db) (k : string * string) : option PostRow :=
    match posts d !! k with
    | Some row => Some row
    | None => row ← posts other !! k;
              if bool_decide (k.1 = me) && (newest pw_timestamp me (posts d) <? pw_timestamp row)
              then Some row else None
    end in
  exists i' r' st, device_session now i r me sk sk challenge = (i', r', Ok st) /\
    (forall k, posts i' !! k = after i r k) /\ (forall k, posts r' !! k = after r i k).
Proof.
  intros Hi Hr Hfit after.
  destruct (device_session_spec now me sk challenge i r Hi Hr Hfit) as (i' & r' & st & E & Him1 & Him2).
  exists i', r', st. split; [done|]. split; [apply Him1|]. intros k.
  rewrite (im_posts _ _ _ _ _ Him2). unfold after. destruct (posts r !! k) as [row|] eqn:Er; [done|].
  rewrite (im_posts _ _ _ _ _ Him1), Er. by destruct (posts i !! k).
Qed.

(** a device accepts nothing without a valid signature of the challenge, and
    whatever an accepted peer sends, only own rows are added or replaced:
    posts and interactions of others, stored own posts, other users' follows,
    profiles, keys, device lists and messages stay as they are. *)
Theorem device_sync_guarded `{Ed25519, HexCodec, SqlOrder, !Serde (list MediaAttachment),
    !Wire DeviceSyncFrame, !Wire DeviceSyncAccepted} now d me sk req incoming :
  let '(d', res) := handle_device_sync now d me sk req incoming in
  only_own me d d' /\
  (is_ok (verify_device_sync_challenge (dr_challenge req) (dr_challenge_sig req) (sk_public sk)) = false ->
   d' = d /\ is_ok res = false).
Proof.
  unfold handle_device_sync. destruct (answer_device_sync d me sk req) as [x|e] eqn:E.
  - pose proof (own_read_deltas me now incoming d) as Hown.
    destruct (read_deltas now me incoming d) as [d' res]. split; [exact Hown|]. intros Hv.
    unfold answer_device_sync in E. by rewrite Hv in E.
  - split; [apply only_own_refl|done].
Qed.

(** the challenge does not prove that the peer holds the signing key.  A peer
    without it that answers a request with the very signature it received is
    accepted, and so is one that repeats the challenge and signature of an
    earlier request, with any state vector: in both cases the frames of its
    choice are imported. *)
Theorem device_sync_reflected `{Ed25519, !Ed25519Laws, HexCodec, !HexLaws, SqlOrder, !SqlOrderLaws,
    !Serde (list MediaAttachment), !SerdeLaws (list MediaAttachment), !Wire DeviceSyncFrame,
    !WireLaws DeviceSyncFrame, !Wire DeviceSyncAccepted, !WireLaws DeviceSyncAccepted}
    now d d' me sk challenge v fs :
  let req := device_sync_request d me sk challenge in
  let reply := {| dy_challenge_response := dr_challenge_sig req; dy_vector := v |} in
  let replay := {| dr_challenge := dr_challenge req; dr_challenge_sig := dr_challenge_sig req;
                   dr_vector := v |} in
  let stream := concat ((fun f => write_frame (to_vec f)) <$> fs) ++ write_frame [] in
  frames_fit fs ->
  (Z.of_nat (length (to_vec reply)) <= 1000000 ->
   (sync_with_device now d me sk challenge (to_vec reply) stream).1 =
     fold_left (import_db now me) fs d) /\
  (is_ok (write_deltas d' me (build_device_sync_vector d' me) v) = true ->
   handle_device_sync now d' me sk replay stream = (fold_left (import_db now me) fs d', Ok tt)).
Proof.
  intros req reply replay stream Hfs.
  destruct (read_deltas_written now me fs d Hfs) as [st R]. fold stream in R.
  destruct (read_deltas_written now me fs d' Hfs) as [st' R']. fold stream in R'.
  pose proof (challenge_signed sk challenge) as Hv. split.
  - intros Hl. unfold sync_with_device. rewrite (proj2 (Z.ltb_ge _ _)) by exact Hl. cbn [bail_if].
    unfold mbind, result_bind. rewrite from_to_vec. cbn [dy_challenge_response dy_vector reply req
      device_sync_request dr_challenge_sig]. by rewrite Hv, R.
  - intros Hw. unfold handle_device_sync, answer_device_sync.
    cbn [dr_challenge dr_challenge_sig dr_vector replay req device_sync_request]. rewrite Hv.
    destruct (write_deltas _ _ _ _); [|done]. unfold mbind, result_bind. by rewrite R'.
Qed.

(** ** Witnesses *)

Lemma device_ok_empty me : device_ok me empty_db.
Proof.
  split; [split| | | |]; try (intros k r; cbn; by rewrite lookup_empty);
    try (intros k r _; cbn; by rewrite lookup_empty). by split.
Qed.

Lemma device_ok_insert_post me p d :
  0 < post_timestamp p < 2 ^ 63 -> small_tables (insert_post p d) -> device_ok me d ->
  device_ok me (insert_post p d).
Proof.
  intros Hp Hs [[Po Io Pt It] _ F M R]. split; [split|done|done|done|done]; try done.
  - apply insert_post_ok; [unfold is_u64; lia|done].
  - intros k r Ha [[-> ->]|Hr]%insert_post_inv; [|by apply (Pt k)].
    cbn. by rewrite as_i64_small by lia.
Qed.

Lemma device_ok_follow me now e d :
  device_ok me d -> device_ok me (follow now me e d).
Proof.
  intros [[Po Io Pt It] S F M R]. split; [by split|done| |done|done].
  intros pk r. cbn. rewrite lookup_upsert. case_decide as Hk; [|by apply F].
  intros [= <-]. destruct (social_graph d !! _) as [r0|]; cbn;
    split; try apply as_i64_range; eexists; (split; [done|apply as_i64_range]).
Qed.

Lemma device_ok_unfollow me now pk d :
  device_ok me d -> device_ok me (unfollow now me pk d).
Proof.
  intros [[Po Io Pt It] S F M R]. split; [by split|done| |done|done].
  intros pk' r. cbn. rewrite lookup_sql_update. destruct (social_graph d !! _) as [r0|] eqn:E; [|done].
  cbn. intros [= <-]. destruct (F _ _ E) as [Hc Hf]. case_bool_decide; [|by split].
  split; [apply as_i64_range|exact Hf].
Qed.

Definition bob_entry : SocialGraphEntry :=
  {| sg_pubkey := "kbob"; sg_followed_at := 5; sg_first_seen := 0; sg_last_seen := 0;
     sg_is_online := false |}.

Definition alice_key : SecretKey := "alice"%string.

(** The phone follows Bob and has the posts of times 10 and 30; the laptop has
    unfollowed him since and has the post of time 20. *)
Definition phone : Db :=
  insert_post (post_by "kalice" "p30" 30) (insert_post (post_by "kalice" "p10" 10)
    (follow 5 "kalice" bob_entry empty_db)).
Definition laptop : Db :=
  insert_post (post_by "kalice" "p20" 20)
    (unfollow 9 "kalice" "kbob" (follow 5 "kalice" bob_entry empty_db)).

Lemma phone_ok : device_ok "kalice" phone.
Proof.
  do 2 (apply device_ok_insert_post; [done|by vm_compute|]).
  apply device_ok_follow, device_ok_empty.
Qed.
Lemma laptop_ok : device_ok "kalice" laptop.
Proof.
  apply device_ok_insert_post; [done|by vm_compute|].
  apply device_ok_unfollow, device_ok_follow, device_ok_empty.
Qed.

Lemma phone_laptop_fit : session_fits "kalice" alice_key [1; 2] phone laptop.
Proof.
  split.
  - cbn [to_vec wire_accepted wire_countable length]. lia.
  - intros fs _. apply Forall_forall. intros f _.
    cbn [to_vec wire_device_frame wire_countable length]. unfold MAX_FRAME_SIZE. lia.
  - intros i' fs _ _. apply Forall_forall. intros f _.
    cbn [to_vec wire_device_frame wire_countable length]. unfold MAX_FRAME_SIZE. lia.
Qed.

(** Both devices have unfollowed Bob. *)
Lemma device_sync_converges_witness :
  exists i' r' st,
    device_session 7 phone laptop "kalice" alice_key alice_key [1; 2] = (i', r', Ok st) /\
    follow_view "kalice" i' "kbob" = Some ((Some 5, "removed"%string), 9) /\
    follow_view "kalice" r' "kbob" = Some ((Some 5, "removed"%string), 9).
Proof.
  destruct (device_sync_converges 7 "kalice" alice_key [1; 2] phone laptop phone_ok laptop_ok
    phone_laptop_fit) as (i' & r' & st & E & Hf & _).
  exists i', r', st. destruct (Hf "kbob"%string) as (F1 & F2 & _).
  split_and!; [exact E|rewrite F1; vm_compute; reflexivity|rewrite F2; vm_compute; reflexivity].
Defined.

(** The laptop receives the post of time 30 only, the phone nothing. *)
Lemma device_sync_posts_witness :
  exists i' r' st,
    device_session 7 phone laptop "kalice" alice_key alice_key [1; 2] = (i', r', Ok st) /\
    posts i' !! ("kalice", "p20")%string = None /\
    posts r' !! ("kalice", "p10")%string = None /\
    posts r' !! ("kalice", "p30")%string = Some (post_to_row (post_by "kalice" "p30" 30)).
Proof.
  destruct (device_sync_posts 7 "kalice" alice_key [1; 2] phone laptop phone_ok laptop_ok
    phone_laptop_fit) as (i' & r' & st & E & Hi & Hr).
  exists i', r', st. split_and!; [exact E|rewrite Hi; vm_compute; reflexivity|
    rewrite Hr; vm_compute; reflexivity|rewrite Hr; vm_compute; reflexivity].
Defined.

(** Whoever answers the phone with its own signature makes it follow Eve. *)
Lemma device_sync_reflected_witness :
  let eve := {| fe_pubkey := "keve"; fe_followed_at := 1; fe_state := "active"; fe_last_changed_at := 99 |} in
  let stream := write_frame (to_vec (DfFollows [eve])) ++ write_frame [] in
  let reply := to_vec {| dy_challenge_response := dr_challenge_sig (device_sync_request phone "kalice"
                           alice_key [1; 2]); dy_vector := build_device_sync_vector empty_db "kalice" |} in
  follow_view "kalice" (sync_with_device 7 phone "kalice" alice_key [1; 2] reply stream).1 "keve" =
    Some ((Some 1, "active"%string), 99) /\
  (handle_device_sync 7 laptop "kalice" alice_key {| dr_challenge := [1; 2];
     dr_challenge_sig := dr_challenge_sig (device_sync_request phone "kalice" alice_key [1; 2]);
     dr_vector := build_device_sync_vector empty_db "kalice" |} stream).2 = Ok tt.
Proof.
  intros eve stream reply.
  destruct (device_sync_reflected 7 phone laptop "kalice" alice_key [1; 2]
    (build_device_sync_vector empty_db "kalice") [DfFollows [eve]]) as [Hs Hh].
  - constructor; [|done]. cbn [to_vec wire_device_frame wire_countable length]. unfold MAX_FRAME_SIZE. lia.
  - cbn [fmap list_fmap concat] in Hs, Hh. rewrite app_nil_r in Hs, Hh. split.
    + unfold reply, stream. rewrite Hs; [vm_compute; reflexivity|].
      cbn [to_vec wire_accepted wire_countable length]. lia.
    + cbn [dr_challenge device_sync_request] in Hh. unfold stream.
      unshelve epose proof (Hh _) as E; [vm_compute; reflexivity|exact (f_equal snd E)].
Defined.
