(* ===== verification/Noise.v ===== *)
(** * Noise handshakes

    Model of [src-tauri/src/crypto/noise.rs] over the [snow] crate, which is the
    class [SnowLib]; [SnowLibLaws] is what the direct messages rely on. *)

From S2P Require Import Prelude Types Ratchet Store.

Local Open Scope Z_scope.

Definition NOISE_PATTERN : string := "Noise_IK_25519_ChaChaPoly_BLAKE2s".
Definition NOISE_PSK_PATTERN : string := "Noise_IKpsk2_25519_ChaChaPoly_BLAKE2s".

(** [snow::Builder] and [snow::HandshakeState].  A builder takes the pattern,
    the local private key, the remote public key of an initiator and the
    pre-shared key with its position.  Writing and reading fail with an error. *)
Class SnowLib := {
  HandshakeState : Type;
  TransportState : Type;
  build_initiator : string -> bytes -> bytes -> option (Z * bytes) -> option HandshakeState;
  build_responder : string -> bytes -> option (Z * bytes) -> option HandshakeState;
  hs_write : HandshakeState -> bytes -> option (HandshakeState * bytes);
  hs_read : HandshakeState -> bytes -> option (HandshakeState * bytes);
  hs_hash : HandshakeState -> bytes;
  hs_remote_static : HandshakeState -> option bytes;
  into_transport_mode : HandshakeState -> option TransportState;
  ts_write : TransportState -> bytes -> option (TransportState * bytes);
  ts_read : TransportState -> bytes -> option (TransportState * bytes);
}.

(** An IK handshake between matching keys succeeds, both ends hold the same
    hash, and the responder learns the initiator's public key. *)
Class SnowLibLaws `{SnowLib, RatchetPrims} := {
  noise_ik_agrees (a b : bytes) : exists i0 i1 i2 r0 r1 r2 m1 m2 ti tr,
    build_initiator NOISE_PATTERN a (x25519_base b) None = Some i0 /\
    hs_write i0 [] = Some (i1, m1) /\
    build_responder NOISE_PATTERN b None = Some r0 /\
    hs_read r0 m1 = Some (r1, []) /\
    hs_write r1 [] = Some (r2, m2) /\
    hs_read i1 m2 = Some (i2, []) /\
    into_transport_mode i2 = Some ti /\ into_transport_mode r2 = Some tr /\
    hs_hash i2 = hs_hash r2 /\ hs_remote_static r2 = Some (x25519_base a);
}.

Section noise.
Context `{SnowLib}.

Definition snow_err {A} (o : option A) : result AppError A := ok_or o Snow.

Definition noise_initiate (my_x25519_private peer_x25519_public : bytes)
    : result AppError (HandshakeState * bytes) :=
  initiator ← snow_err (build_initiator NOISE_PATTERN my_x25519_private peer_x25519_public None);
  snow_err (hs_write initiator []).

Definition noise_respond (my_x25519_private message : bytes)
    : result AppError (HandshakeState * bytes) :=
  responder ← snow_err (build_responder NOISE_PATTERN my_x25519_private None);
  '(responder, _) ← snow_err (hs_read responder message);
  snow_err (hs_write responder []).

(** The first 32 bytes of the hash, padded with zeros. *)
Definition extract_handshake_hash (hs : HandshakeState) : bytes :=
  take 32 (hs_hash hs ++ replicate 32 0).

Definition noise_complete_initiator (initiator : HandshakeState) (response : bytes)
    : result AppError bytes :=
  '(initiator, _) ← snow_err (hs_read initiator response);
  let hash := extract_handshake_hash initiator in
  _ ← snow_err (into_transport_mode initiator);
  Ok hash.

Definition noise_complete_responder (responder : HandshakeState)
    : result AppError (bytes * option bytes) :=
  let hash := extract_handshake_hash responder in
  let initiator_dm_pubkey :=
    s ← hs_remote_static responder; if decide (length s = 32%nat) then Some s else None in
  _ ← snow_err (into_transport_mode responder);
  Ok (hash, initiator_dm_pubkey).

(** ** Device pairing *)

Definition noise_psk_initiate (my_x25519_private peer_x25519_public psk : bytes)
    : result AppError (HandshakeState * bytes) :=
  initiator ← snow_err (build_initiator NOISE_PSK_PATTERN my_x25519_private peer_x25519_public
                          (Some (2, psk)));
  snow_err (hs_write initiator []).

Definition noise_psk_respond (my_x25519_private psk message : bytes)
    : result AppError (TransportState * bytes) :=
  responder ← snow_err (build_responder NOISE_PSK_PATTERN my_x25519_private (Some (2, psk)));
  '(responder, _) ← snow_err (hs_read responder message);
  '(responder, buf) ← snow_err (hs_write responder []);
  transport ← snow_err (into_transport_mode responder);
  Ok (transport, buf).

Definition noise_psk_complete_initiator (initiator : HandshakeState) (response : bytes)
    : result AppError TransportState :=
  '(initiator, _) ← snow_err (hs_read initiator response);
  snow_err (into_transport_mode initiator).

Definition noise_transport_encrypt (transport : TransportState) (plaintext : bytes)
    : result AppError (TransportState * bytes) :=
  snow_err (ts_write transport plaintext).

Definition noise_transport_decrypt (transport : TransportState) (ciphertext : bytes)
    : result AppError (TransportState * bytes) :=
  snow_err (ts_read transport ciphertext).
End noise.
