(* ===== verification/Dm.v ===== *)
(** * Direct messages

    Model of [src-tauri/src/dm/]: the sessions kept sealed in the database, the
    Noise handshake that starts one, sending with the outbox, receiving, and the
    acknowledgement.  The network is an argument: what a peer answers to a
    handshake, and whether an envelope was acknowledged.  [call-signal] is the
    event of the channel to the call handler.  An operation runs without
    interruption by others, although the code holds no lock between loading a
    session, using it and saving it ([concurrent_sends_reuse] of
    [DmTheorems.v] says what two sends that overlap do). *)

From S2P Require Import Prelude Text Types Ratchet Signing Validation Store Moderation Peers Messaging Handler Framing Noise.

Local Open Scope Z_scope.
Local Open Scope handler_scope.

(** The fields of [Identity] the direct messages use. *)
Record Identity : Type := {
  id_master_pubkey : string;
  id_dm_pubkey : string;
  id_dm_x25519_private : bytes;
  id_dm_x25519_public : bytes;
  id_ratchet_storage_key : bytes;
}.

Inductive DmHandshake : Type :=
| HsInit (noise_message : bytes) (sender : string)
| HsResponse (noise_message : bytes).

Inductive DmMessage : Type :=
| DmHandshakeMsg (h : DmHandshake)
| DmEnvelope (e : EncryptedEnvelope).

(** ** crypto.rs *)

(** The base64 crate. *)
Class Base64 := {
  b64_encode : bytes -> string;
  b64_decode : string -> option bytes;
}.
Class Base64Laws `{Base64} := {
  b64_decode_encode b : b64_decode (b64_encode b) = Some b;
}.

Section crypto.
Context `{RatchetPrims, Base64, HexCodec}.

(** [nonce_bytes] are the 12 random bytes. *)
Definition seal_ratchet_state (nonce_bytes key : bytes) (plaintext : string) : string :=
  b64_encode (nonce_bytes ++ aead_encrypt key nonce_bytes (str_bytes plaintext)).

Definition open_ratchet_state (key : bytes) (stored : string) : result AppError string :=
  blob ← ok_or (b64_decode stored) (Other "invalid base64 in ratchet state");
  _ ← bail_if (Z.of_nat (length blob) <=? 12) (Other "ratchet state too short");
  let '(nonce_bytes, ciphertext) := (take 12 blob, drop 12 blob) in
  plaintext_bytes ← ok_or (aead_decrypt key nonce_bytes ciphertext)
                      (Other "ratchet state decryption failed");
  ok_or (string_from_utf8 plaintext_bytes) (Other "ratchet state not valid UTF-8").

(** [hex::decode(s)?.try_into::<[u8; 32]>()]. *)
Definition hex_array_32 (s : string) (err : string) : result AppError bytes :=
  bytes ← match hex_decode s with Ok b => Ok b | Err _ => Err HexDecode end;
  _ ← bail_if (negb (Z.of_nat (length bytes) =? 32)) (Other err);
  Ok bytes.

Definition dm_pubkey_to_x25519 (hex_pubkey : string) : result AppError bytes :=
  hex_array_32 hex_pubkey "DM pubkey wrong length".

Definition ratchet_header_to_wire (header : RatchetHeader) : RatchetHeaderWire :=
  {| rw_dh_public := hex_encode (rh_dh_public header);
     rw_message_number := rh_message_number header;
     rw_previous_chain_length := rh_previous_chain_length header |}.

Definition wire_to_ratchet_header (wire : RatchetHeaderWire) : result AppError RatchetHeader :=
  dh_public ← hex_array_32 (rw_dh_public wire) "invalid dh_public length";
  Ok {| rh_dh_public := dh_public; rh_message_number := rw_message_number wire;
        rh_previous_chain_length := rw_previous_chain_length wire |}.
End crypto.

(** ** Documented behaviour of the crates *)

(** X25519 public keys are 32 bytes, and a ciphertext carries a tag. *)
Class DmPrimsLaws `{RatchetPrims} := {
  x25519_base_length a : length (x25519_base a) = 32%nat;
  x25519_base_u8 a : Forall is_u8 (x25519_base a);
  aead_tag k n p : aead_encrypt k n p <> [];
}.
(** What [serde_json::to_string] returns is a string, hence valid UTF-8. *)
Class JsonText (A : Type) `{Serde A} := {
  to_json_utf8 (a : A) : utf8_valid (str_bytes (to_json a)) = true;
}.

(** [if content.len() > 80 { format!("{}...", &content[..77]) } else { content }];
    [None] is the panic of the slice. *)
Definition preview (content : string) : option string :=
  if 80 <? str_len content then (fun s => s +:+ "...") <$> slice_to content 77 else Some content.

(** A step that panics. *)
Definition or_panic {A} (o : option A) : handler A :=
  fun d => match o with Some a => Done (a, d, []) | None => Panicked d [] end.

(** What the network does: the answer of the peer at a transport id to a
    handshake, and the outcome of sending an envelope and waiting for the ack. *)
Record Network : Type := {
  nw_handshake : string -> DmHandshake -> result AppError bytes;
  nw_send : string -> EncryptedEnvelope -> result AppError unit;
}.

Section dm.
Context `{RatchetPrims, SnowLib, Base64, HexCodec, Sha, SqlOrder, !Serde (list MediaAttachment),
  !Serde (list string), !Serde RatchetState, !Serde EncryptedEnvelope, !Wire DmPayload,
  !Wire DmHandshake}.

(** [ok_or_else(|| ... short_id(s) ...)?]: the message is built on [None]. *)
Definition some_or_log {A} (o : option A) (s err : string) : fallible A :=
  match o with
  | Some a => lift (Ok a)
  | None => _ ← log_short s; lift (Err (Other err))
  end.

(** [storage.f().await?]: a failed statement or transaction writes nothing. *)
Definition store (f : Db -> result AppError Db) : fallible unit :=
  fun d => match f d with
           | Ok d' => Done (Ok tt, d', [])
           | Err e => Done (Err e, d, [])
           end.
Definition save_session (now : Z) (nonce key : bytes) (peer_dm_pubkey : string) (st : RatchetState)
    : fallible unit :=
  store (fun d => Ok (save_ratchet_session peer_dm_pubkey (seal_ratchet_state nonce key (to_json st))
                        now d)).

Definition open_session (key : bytes) (stored : string) : result AppError RatchetState :=
  json ← open_ratchet_state key stored; from_json json.

(** ** handshake.rs *)

(** [rnd] is the randomness of the initiator's ratchet key. *)
Definition get_or_establish_session (net : Network) (now : Z) (nonce rnd : bytes) (me : Identity)
    (peer_master_pubkey : string) : fallible (RatchetState * string) :=
  _ ← log_short peer_master_pubkey;
  d ← get_db;
  peer_dm_pubkey ←? some_or_log (get_peer_dm_pubkey d peer_master_pubkey) peer_master_pubkey
                      "no DM pubkey cached";
  match get_ratchet_session d peer_dm_pubkey with
  | Some stored =>
      _ ← log_short peer_master_pubkey;
      state ←? lift (open_session (id_ratchet_storage_key me) stored);
      lift (Ok (state, peer_dm_pubkey))
  | None =>
      _ ← log_short peer_master_pubkey;
      node_ids ←? lift (get_peer_transport_node_ids d peer_master_pubkey);
      transport_id ←? some_or_log (head node_ids) peer_master_pubkey "no transport NodeId";
      peer_x25519_public ←? lift (dm_pubkey_to_x25519 peer_dm_pubkey);
      '(initiator_hs, msg1) ←? lift (noise_initiate (id_dm_x25519_private me) peer_x25519_public);
      _ ← log_short peer_master_pubkey;
      resp_bytes ←? lift (nw_handshake net transport_id (HsInit msg1 (id_dm_pubkey me)));
      _ ←? lift (bail_if (65536 <? Z.of_nat (length resp_bytes)) (Other "too long"));
      resp ←? lift (from_slice resp_bytes);
      noise_response ←? lift (match resp with
                              | HsResponse m => Ok m
                              | HsInit _ _ => Err (Other "unexpected handshake response")
                              end);
      shared_secret ←? lift (noise_complete_initiator initiator_hs noise_response);
      let ratchet := init_alice shared_secret peer_x25519_public rnd in
      _ ←? save_session now nonce (id_ratchet_storage_key me) peer_dm_pubkey ratchet;
      _ ← log_short peer_master_pubkey;
      lift (Ok (ratchet, peer_dm_pubkey))
  end.

Definition handle_handshake (now : Z) (nonce : bytes) (me : Identity) (peer_dm_pubkey : string)
    (noise_message : bytes) : fallible bytes :=
  _ ← log_short peer_dm_pubkey;
  '(responder_hs, response_msg) ←? lift (noise_respond (id_dm_x25519_private me) noise_message);
  '(shared_secret, initiator_dm_pubkey) ←? lift (noise_complete_responder responder_hs);
  claimed_key ←? lift (dm_pubkey_to_x25519 peer_dm_pubkey);
  _ ←? lift (match initiator_dm_pubkey with
             | Some actual => bail_if (bool_decide (actual <> claimed_key)) (Other "sender mismatch")
             | None => Err (Other "no initiator key")
             end);
  let ratchet := init_bob shared_secret (id_dm_x25519_private me, id_dm_x25519_public me) in
  _ ←? save_session now nonce (id_ratchet_storage_key me) peer_dm_pubkey ratchet;
  _ ← log_short peer_dm_pubkey;
  lift (Ok (to_vec (HsResponse response_msg))).

(** ** Sending *)

(** The debug log line is below the level of the application.  [None] of
    [encrypt] is a panic.  Loading, encrypting and saving are one step here. *)
Definition encrypt_and_save (net : Network) (now : Z) (nonce rnd nonce' : bytes) (me : Identity)
    (peer_pubkey : string) (payload : DmPayload) : fallible EncryptedEnvelope :=
  '(ratchet, peer_dm_pubkey) ←? get_or_establish_session net now nonce rnd me peer_pubkey;
  '(ratchet, (header, ciphertext)) ← or_panic (encrypt ratchet (to_vec payload));
  _ ←? save_session now nonce' (id_ratchet_storage_key me) peer_dm_pubkey ratchet;
  lift (Ok {| env_sender := id_dm_pubkey me; env_ratchet_header := ratchet_header_to_wire header;
              env_ciphertext := ciphertext |}).

Definition try_send_envelope (net : Network) (peer_master_pubkey : string)
    (envelope : EncryptedEnvelope) : fallible unit :=
  d ← get_db;
  node_ids ←? lift (get_peer_transport_node_ids d peer_master_pubkey);
  transport_id ←? some_or_log (head node_ids) peer_master_pubkey "no transport NodeId";
  lift (nw_send net transport_id envelope).

Definition mark_delivered (message_id : string) : handler unit :=
  _ ← modify (mark_dm_delivered message_id);
  emit "dm-delivered".

(** [DmHandler::send_dm]; [outbox_id] is the generated id. *)
Definition send_dm (net : Network) (now : Z) (nonce rnd nonce' : bytes) (outbox_id : string)
    (me : Identity) (peer_pubkey : string) (message : DirectMessage) : fallible unit :=
  envelope ←? encrypt_and_save net now nonce rnd nonce' me peer_pubkey (Message message);
  sent ← try_send_envelope net peer_pubkey envelope;
  match (sent : result AppError unit) with
  | Ok _ =>
      _ ← log_short peer_pubkey;
      _ ← mark_delivered (dm_id message);
      lift (Ok tt)
  | Err _ =>
      _ ← log_short peer_pubkey;
      store (insert_outbox_message outbox_id peer_pubkey (to_json envelope) now (dm_id message))
  end.

Definition send_signal (net : Network) (now : Z) (nonce rnd nonce' : bytes) (me : Identity)
    (peer_pubkey : string) (payload : DmPayload) : fallible unit :=
  envelope ←? encrypt_and_save net now nonce rnd nonce' me peer_pubkey payload;
  try_send_envelope net peer_pubkey envelope.

(** The loop of [flush_all_outbox]. *)
Fixpoint flush_entries (net : Network) (entries : list (string * string * string * string))
    : handler unit :=
  match entries with
  | [] => mret tt
  | (id, peer_pubkey, envelope_json, message_id) :: rest =>
      _ ← (match from_json envelope_json with
           | Err _ => log_short id
           | Ok envelope =>
               sent ← try_send_envelope net peer_pubkey envelope;
               match (sent : result AppError unit) with
               | Ok _ =>
                   _ ← log_short peer_pubkey;
                   _ ← modify (remove_outbox_message id);
                   mark_delivered message_id
               | Err _ => mret tt
               end
           end : handler unit);
      flush_entries net rest
  end.
Definition flush_all_outbox (net : Network) : handler unit :=
  d ← get_db; flush_entries net (get_all_outbox_messages d).

(** The command [send_dm] of [commands/dm.rs]; [to] is the peer's key. *)
Definition send_dm_command (net : Network) (now : Z) (nonce rnd nonce' : bytes)
    (msg_id outbox_id : string) (me : Identity) (to content : string) (media : list MediaAttachment)
    (reply_to : option string) : fallible StoredMessage :=
  _ ← log_short to;
  let conv_id := conversation_id (id_master_pubkey me) to in
  preview ← or_panic (preview content);
  let stored := {| st_id := msg_id; st_conversation_id := conv_id;
                   st_from_pubkey := id_master_pubkey me; st_to_pubkey := to;
                   st_content := content; st_timestamp := now; st_media := media;
                   st_read := false; st_delivered := false; st_reply_to := reply_to |} in
  _ ←? store (upsert_conversation to (id_master_pubkey me) now preview);
  _ ←? store (insert_dm_message stored);
  _ ← log_short msg_id;
  _ ← send_dm net now nonce rnd nonce' outbox_id me to
        {| dm_id := msg_id; dm_content := content; dm_timestamp := now; dm_media := media;
           dm_reply_to := reply_to |};
  lift (Ok stored).

(** The other commands of [commands/dm.rs]; the names of two of them are taken
    by the statements they run. *)
Definition DEFAULT_DM_LIMIT : Z := 50.
Definition get_dm_messages_command (me : Identity) (peer_pubkey : string) (limit before : option Z)
    : fallible (list StoredMessage) :=
  d ← get_db;
  let conv_id := conversation_id (id_master_pubkey me) peer_pubkey in
  msgs ←? lift (get_dm_messages d conv_id (default DEFAULT_DM_LIMIT limit) before);
  _ ← log_short peer_pubkey;
  _ ← log_short conv_id;
  lift (Ok msgs).
Definition mark_dm_read (me : Identity) (peer_pubkey : string) : handler unit :=
  modify (mark_conversation_read peer_pubkey (id_master_pubkey me)).
Definition delete_dm_message_command (message_id : string) : handler unit :=
  modify (fun d => (delete_dm_message message_id d).1).
(** A failure to send is only logged. *)
Definition send_dm_signal (net : Network) (now : Z) (nonce rnd nonce' : bytes) (me : Identity)
    (to signal_type : string) (message_id : option string) : fallible unit :=
  payload ←? lift (if decide (signal_type = "typing"%string) then Ok Typing
                   else if decide (signal_type = "read"%string) then
                     id ← ok_or message_id (Other "message_id required for read signal"); Ok (Read id)
                   else Err (Other ("unknown signal type: " +:+ signal_type)));
  sent ← send_signal net now nonce rnd nonce' me to payload;
  match (sent : result AppError unit) with
  | Ok _ => lift (Ok tt)
  | Err _ => _ ← log_short to; lift (Ok tt)
  end.

(** ** Receiving *)

(** The [match payload], with the new ratchet state sealed. *)
Definition handle_payload (now : Z) (me : Identity) (peer_dm_pubkey ratchet_sealed : string)
    (payload : DmPayload) : fallible unit :=
  d ← get_db;
  match payload with
  | Message msg =>
      peer_master_pubkey ←? some_or_log (get_master_pubkey_for_dm_pubkey d peer_dm_pubkey)
                              peer_dm_pubkey "no master pubkey for DM key";
      preview ← or_panic (preview (dm_content msg));
      let stored_msg :=
        {| st_id := dm_id msg;
           st_conversation_id := conversation_id (id_master_pubkey me) peer_master_pubkey;
           st_from_pubkey := peer_master_pubkey; st_to_pubkey := id_master_pubkey me;
           st_content := dm_content msg; st_timestamp := dm_timestamp msg;
           st_media := dm_media msg; st_read := false; st_delivered := true;
           st_reply_to := dm_reply_to msg |} in
      _ ←? store (receive_dm_message_atomically peer_dm_pubkey peer_master_pubkey ratchet_sealed now
                    stored_msg preview);
      _ ← log_short peer_master_pubkey;
      _ ← emit "dm-received";
      lift (Ok tt)
  | Delivered message_id =>
      _ ← modify (save_ratchet_session peer_dm_pubkey ratchet_sealed now);
      _ ← modify (mark_dm_delivered message_id);
      _ ← emit "dm-delivered";
      lift (Ok tt)
  | Read message_id =>
      _ ← modify (save_ratchet_session peer_dm_pubkey ratchet_sealed now);
      _ ← modify (mark_dm_read_by_id message_id);
      _ ← emit "dm-read";
      lift (Ok tt)
  | Typing =>
      _ ← modify (save_ratchet_session peer_dm_pubkey ratchet_sealed now);
      _ ← match get_master_pubkey_for_dm_pubkey d peer_dm_pubkey with
          | Some _ => emit "typing-indicator"
          | None => mret tt
          end;
      lift (Ok tt)
  | CallOffer _ _ | CallAnswer _ | CallReject _ | CallHangup _ =>
      _ ← modify (save_ratchet_session peer_dm_pubkey ratchet_sealed now);
      _ ← match get_master_pubkey_for_dm_pubkey d peer_dm_pubkey with
          | Some _ => emit "call-signal"
          | None => mret tt
          end;
      lift (Ok tt)
  end.

(** [rnd] is the randomness of a ratchet step, [nonce] that of the seal. *)
Definition handle_encrypted_message (now : Z) (nonce rnd : bytes) (me : Identity)
    (peer_dm_pubkey : string) (envelope : EncryptedEnvelope) : fallible unit :=
  d ← get_db;
  stored ←? some_or_log (get_ratchet_session d peer_dm_pubkey) peer_dm_pubkey "no session";
  ratchet ←? lift (open_session (id_ratchet_storage_key me) stored);
  header ←? lift (wire_to_ratchet_header (env_ratchet_header envelope));
  let '(ratchet, decrypted) := decrypt ratchet header (env_ciphertext envelope) rnd in
  plaintext ←? lift (match decrypted with Ok p => Ok p | Err e => Err (Crypto e) end);
  let ratchet_sealed := seal_ratchet_state nonce (id_ratchet_storage_key me) (to_json ratchet) in
  payload ←? lift (from_slice plaintext);
  handle_payload now me peer_dm_pubkey ratchet_sealed payload.

(** What [accept] answers. *)
Inductive DmReply : Type :=
| RefusedBlocked
| HandshakeReply (response : bytes)
| NoReply
| AckReply.

(** [accept], from the remote transport id and the parsed message. *)
Definition accept_dm (now : Z) (nonce rnd : bytes) (me : Identity) (remote_str : string)
    (msg : DmMessage) : fallible DmReply :=
  _ ← log_short remote_str;
  d ← get_db;
  let remote_pubkey := default remote_str (get_master_pubkey_for_transport d remote_str) in
  if is_blocked d remote_pubkey then
    _ ← log_short remote_pubkey; lift (Ok RefusedBlocked)
  else
    match msg with
    | DmHandshakeMsg (HsInit noise_message sender) =>
        response ←? handle_handshake now nonce me sender noise_message;
        lift (Ok (HandshakeReply response))
    | DmHandshakeMsg (HsResponse _) => _ ← log_short remote_str; lift (Ok NoReply)
    | DmEnvelope envelope =>
        handled ← handle_encrypted_message now nonce rnd me (env_sender envelope) envelope;
        match (handled : result AppError unit) with
        | Ok _ => lift (Ok AckReply)
        | Err _ => _ ← log_short remote_str; lift (Ok AckReply)
        end
    end.
End dm.
