(* ===== verification/ConcreteDm.v ===== *)
(** * Concrete crates of the direct messages

    Instances of [SnowLib], [Base64] and the formats of the direct messages that
    satisfy their laws, for the witnesses: the handshake message is the sender's
    public key, base64 and JSON are the text of a [Countable] code. *)

From stdpp Require Import countable.
From S2P Require Import Prelude Types Ratchet Signing Concrete Store ConcreteStore Framing ConcreteWire Noise Dm.

Local Open Scope Z_scope.

#[export] Instance toy_dm_laws : DmPrimsLaws.
Proof.
  split; intros.
  - cbn. done.
  - cbn. repeat (constructor; [unfold is_u8; lia|]). constructor; [|done].
    unfold is_u8. apply Z.mod_pos_bound. lia.
  - done.
Qed.

(** ** Noise *)

Record ToyHandshake : Type := {
  th_initiator : bool;
  th_private : bytes;
  th_remote : option bytes;
}.

#[export] Instance toy_snow : SnowLib := {
  HandshakeState := ToyHandshake;
  TransportState := unit;
  build_initiator _ a p _ := Some {| th_initiator := true; th_private := a; th_remote := Some p |};
  build_responder _ b _ := Some {| th_initiator := false; th_private := b; th_remote := None |};
  hs_write h p := Some (h, x25519_base (th_private h) ++ p);
  hs_read h m :=
    Some ({| th_initiator := th_initiator h; th_private := th_private h;
             th_remote := if th_initiator h then th_remote h else Some (take 32 m) |}, drop 32 m);
  hs_hash h := match th_remote h with Some r => x25519_mult (th_private h) r | None => [] end;
  hs_remote_static := th_remote;
  into_transport_mode _ := Some tt;
  ts_write t p := Some (t, p);
  ts_read t p := Some (t, p);
}.

#[export] Instance toy_snow_laws : SnowLibLaws.
Proof.
  split. intros a b.
  assert (forall c, take 32 (x25519_base c ++ []) = x25519_base c /\ drop 32 (x25519_base c ++ []) = [])
    as Hm by done.
  eexists _, _, _, _, _, _, _, _, tt, tt. split_and!; try reflexivity.
  cbn [hs_hash toy_snow th_remote th_private th_initiator].
  rewrite (proj1 (Hm a)). apply x25519_agree.
Qed.

(** ** Texts *)

#[export] Instance toy_base64 : Base64 := {
  b64_encode b := pos_text (encode b);
  b64_decode s := decode (text_pos s);
}.
#[export] Instance toy_base64_laws : Base64Laws.
Proof. split. intros b. cbn. by rewrite text_pos_text, decode_encode. Qed.

#[export] Instance SkippedKey_eq_dec : EqDecision SkippedKey.
Proof. solve_decision. Defined.
#[export] Instance SkippedKey_countable : Countable SkippedKey.
Proof.
  refine (inj_countable' (fun k => (sk_ratchet_public k, sk_message_number k, sk_message_key k))
    (fun '(a, b, c) => {| sk_ratchet_public := a; sk_message_number := b; sk_message_key := c |}) _).
  by intros [].
Defined.
#[export] Instance RatchetState_eq_dec : EqDecision RatchetState.
Proof. solve_decision. Defined.
#[export] Instance RatchetState_countable : Countable RatchetState.
Proof.
  refine (inj_countable' (fun s => (dh_self_private s, dh_self_public s, dh_remote_public s, root_key s,
      chain_key_send s, chain_key_recv s, send_count s, recv_count s, prev_send_count s, skipped_keys s))
    (fun '(a, b, c, d, e, f, g, h, i, j) => {| dh_self_private := a; dh_self_public := b;
      dh_remote_public := c; root_key := d; chain_key_send := e; chain_key_recv := f;
      send_count := g; recv_count := h; prev_send_count := i; skipped_keys := j |}) _). by intros [].
Defined.
#[export] Instance RatchetHeaderWire_eq_dec : EqDecision RatchetHeaderWire.
Proof. solve_decision. Defined.
#[export] Instance EncryptedEnvelope_eq_dec : EqDecision EncryptedEnvelope.
Proof. solve_decision. Defined.
#[export] Instance EncryptedEnvelope_countable : Countable EncryptedEnvelope.
Proof.
  refine (inj_countable' (fun e => (env_sender e, rw_dh_public (env_ratchet_header e),
      rw_message_number (env_ratchet_header e), rw_previous_chain_length (env_ratchet_header e),
      env_ciphertext e))
    (fun '(a, b, c, d, e) => {| env_sender := a;
      env_ratchet_header := {| rw_dh_public := b; rw_message_number := c;
        rw_previous_chain_length := d |}; env_ciphertext := e |}) _). by intros [? [] ?].
Defined.
#[export] Instance DirectMessage_eq_dec : EqDecision DirectMessage.
Proof. solve_decision. Defined.
#[export] Instance DirectMessage_countable : Countable DirectMessage.
Proof.
  refine (inj_countable' (fun m => (dm_id m, dm_content m, dm_timestamp m, dm_media m, dm_reply_to m))
    (fun '(a, b, c, d, e) => {| dm_id := a; dm_content := b; dm_timestamp := c; dm_media := d;
      dm_reply_to := e |}) _). by intros [].
Defined.
#[export] Instance DmPayload_eq_dec : EqDecision DmPayload.
Proof. solve_decision. Defined.
#[export] Instance DmPayload_countable : Countable DmPayload.
Proof.
  refine (inj_countable' (fun p => match p with Message m => inl (inl m) | Typing => inl (inr None)
      | Read i => inl (inr (Some (0, i, false))) | Delivered i => inl (inr (Some (1, i, false)))
      | CallOffer i v => inl (inr (Some (2, i, v))) | CallAnswer i => inr (0, i)
      | CallReject i => inr (1, i) | CallHangup i => inr (2, i) end)
    (fun x => match x with inl (inl m) => Message m | inl (inr None) => Typing
      | inl (inr (Some (k, i, v))) => if decide (k = 0) then Read i
          else if decide (k = 1) then Delivered i else CallOffer i v
      | inr (k, i) => if decide (k = 0) then CallAnswer i
          else if decide (k = 1) then CallReject i else CallHangup i end) _). by intros [].
Defined.
#[export] Instance DmHandshake_eq_dec : EqDecision DmHandshake.
Proof. solve_decision. Defined.
#[export] Instance DmHandshake_countable : Countable DmHandshake.
Proof.
  refine (inj_countable' (fun h => match h with HsInit m s => inl (m, s) | HsResponse m => inr m end)
    (fun x => match x with inl (m, s) => HsInit m s | inr m => HsResponse m end) _). by intros [].
Defined.

#[export] Instance serde_ratchet : Serde RatchetState := serde_countable _.
#[export] Instance serde_ratchet_laws : SerdeLaws RatchetState.
Proof. apply serde_countable_laws. Qed.
#[export] Instance serde_envelope : Serde EncryptedEnvelope := serde_countable _.
#[export] Instance wire_payload : Wire DmPayload := wire_countable _.
#[export] Instance wire_payload_laws : WireLaws DmPayload.
Proof. apply wire_countable_laws. Qed.
#[export] Instance wire_handshake : Wire DmHandshake := wire_countable _.
#[export] Instance wire_handshake_laws : WireLaws DmHandshake.
Proof. apply wire_countable_laws. Qed.

#[export] Instance ratchet_text : JsonText RatchetState.
Proof.
  split. intros st. cbn [to_json serde_ratchet serde_countable].
  induction (encode st) as [p IH|p IH|]; [| |done]; exact IH.
Qed.
