(* ===== verification/DmTheorems.v ===== *)
(** * Direct messages end to end

    The sessions in two databases refine the ratchet session over a lossy
    network: every reachable pair of databases stands for a reachable [net], so
    a delivered envelope is decrypted to the payload sent and stored. *)

From S2P Require Import Prelude Text Types Ratchet Signing Concrete RatchetNet RatchetSafety Validation Store ConcreteStore Moderation Peers Messaging Handler Framing ConcreteWire Noise Dm ConcreteDm.

Local Open Scope Z_scope.

(** ** Strings and their bytes *)

(** ** Sealed sessions *)

Section sessions.
Context `{RatchetPrims, !RatchetLaws, !DmPrimsLaws, Base64, !Base64Laws, HexCodec, !HexLaws,
  !Serde RatchetState, !SerdeLaws RatchetState, !JsonText RatchetState}.

Lemma open_seal nonce key s :
  length nonce = 12%nat -> utf8_valid (str_bytes s) = true ->
  open_ratchet_state key (seal_ratchet_state nonce key s) = Ok s.
Proof.
  intros Hn Hs. unfold open_ratchet_state, seal_ratchet_state. rewrite b64_decode_encode.
  unfold mbind, result_bind, ok_or at 1.
  assert (12 < Z.of_nat (length (nonce ++ aead_encrypt key nonce (str_bytes s)))) as Hl.
  { rewrite length_app, Hn. pose proof (aead_tag key nonce (str_bytes s)) as Ht.
    destruct (aead_encrypt _ _ _); [done|]. cbn [length]. lia. }
  rewrite (proj2 (Z.leb_gt _ _)) by done. cbn [bail_if].
  rewrite <-Hn, take_app_length, drop_app_length, aead_decrypt_encrypt.
  unfold ok_or, string_from_utf8. by rewrite Hs, bytes_str_bytes.
Qed.

Lemma open_session_sealed nonce key st :
  length nonce = 12%nat -> open_session key (seal_ratchet_state nonce key (to_json st)) = Ok st.
Proof.
  intros Hn. unfold open_session. rewrite open_seal by (try apply to_json_utf8; done).
  apply from_to_json.
Qed.

Lemma wire_header_roundtrip h a :
  rh_dh_public h = x25519_base a -> wire_to_ratchet_header (ratchet_header_to_wire h) = Ok h.
Proof.
  intros Hh. unfold wire_to_ratchet_header, ratchet_header_to_wire, hex_array_32. cbn.
  rewrite Hh, hex_decode_encode by apply x25519_base_u8. unfold mbind, result_bind.
  rewrite x25519_base_length. cbn. rewrite <-Hh. by destruct h.
Qed.

Lemma dm_pubkey_roundtrip a : dm_pubkey_to_x25519 (hex_encode (x25519_base a)) = Ok (x25519_base a).
Proof.
  unfold dm_pubkey_to_x25519, hex_array_32. rewrite hex_decode_encode by apply x25519_base_u8.
  unfold mbind, result_bind. by rewrite x25519_base_length.
Qed.
End sessions.

(** ** Running the handlers *)

Lemma run_some_or_log {A B} (o : option A) s err (f : A -> fallible B) d :
  try_bind (some_or_log o s err) f d =
    match o with
    | Some a => f a d
    | None => match short_id s with Some _ => Done (Err (Other err), d, []) | None => Panicked d [] end
    end.
Proof.
  unfold some_or_log. destruct o as [a|]; [by rewrite run_try_lift|].
  rewrite run_try, run_log. by destruct (short_id s).
Qed.
Lemma run_or_panic {A B} (o : option A) (f : A -> handler B) d :
  (or_panic o ≫= f) d = match o with Some a => f a d | None => Panicked d [] end.
Proof. rewrite run_bind. unfold or_panic. destruct o; [apply after_nil|done]. Qed.
Lemma run_store {B} g (f : unit -> fallible B) d :
  try_bind (store g) f d = match g d with Ok d' => f tt d' | Err e => Done (Err e, d, []) end.
Proof. rewrite run_try. unfold store. destruct (g d); [apply after_nil|done]. Qed.
#[export] Hint Rewrite @run_some_or_log @run_or_panic @run_store : run.

Section two_party.
Context `{RatchetPrims, !RatchetLaws, !DmPrimsLaws, SnowLib, Base64, !Base64Laws, HexCodec, !HexLaws,
  Sha, SqlOrder, !SqlOrderLaws, !Serde (list MediaAttachment), !Serde (list string),
  !Serde RatchetState, !SerdeLaws RatchetState, !JsonText RatchetState, !Serde EncryptedEnvelope,
  !Wire DmPayload, !WireLaws DmPayload, !Wire DmHandshake, !WireLaws DmHandshake}.

(** The session of [me] with [peer] in the database. *)
Definition session_of (me peer : Identity) (d : Db) : option RatchetState :=
  stored ← get_ratchet_session d (id_dm_pubkey peer);
  res_ok (open_session (id_ratchet_storage_key me) stored).

(** The keys of [peer] are cached. *)
Definition knows (peer : Identity) (d : Db) : Prop :=
  get_peer_dm_pubkey d (id_master_pubkey peer) = Some (id_dm_pubkey peer) /\
  get_master_pubkey_for_dm_pubkey d (id_dm_pubkey peer) = Some (id_master_pubkey peer).

Lemma session_saved me peer now nonce st d :
  length nonce = 12%nat ->
  session_of me peer (save_ratchet_session (id_dm_pubkey peer)
    (seal_ratchet_state nonce (id_ratchet_storage_key me) (to_json st)) now d) = Some st.
Proof.
  intros Hn. unfold session_of, get_ratchet_session. cbn. rewrite lookup_insert_eq. cbn.
  by rewrite open_session_sealed.
Qed.

Lemma encrypt_and_save_run net now nonce rnd nonce' me peer payload d st :
  session_of me peer d = Some st -> knows peer d ->
  encrypt_and_save net now nonce rnd nonce' me (id_master_pubkey peer) payload d =
    match short_id (id_master_pubkey peer), encrypt st (to_vec payload) with
    | Some _, Some (st', (h, c)) =>
        Done (Ok {| env_sender := id_dm_pubkey me; env_ratchet_header := ratchet_header_to_wire h;
                    env_ciphertext := c |},
              save_ratchet_session (id_dm_pubkey peer)
                (seal_ratchet_state nonce' (id_ratchet_storage_key me) (to_json st')) now d, [])
    | _, _ => Panicked d []
    end.
Proof.
  intros Hs [Hk _]. unfold session_of in Hs.
  destruct (get_ratchet_session d (id_dm_pubkey peer)) as [stored|] eqn:Eg; [|done]. cbn in Hs.
  destruct (open_session _ stored) as [st0|] eqn:Eo; [|done]. cbn in Hs. injection Hs as ->.
  unfold encrypt_and_save, get_or_establish_session. rewrite run_try, run_log.
  destruct (short_id (id_master_pubkey peer)) eqn:Esh; [|done].
  rewrite run_get, run_some_or_log, Hk, Eg, run_log, Esh, run_try_lift, Eo, run_lift. cbv beta iota.
  rewrite run_or_panic.
  destruct (encrypt st (to_vec payload)) as [[st' [h c]]|] eqn:Ee; [|done].
  cbv beta iota. unfold save_session. by rewrite run_store, run_lift.
Qed.

Lemma encrypt_and_save_session net now nonce rnd nonce' me peer payload d st env d' ev :
  session_of me peer d = Some st -> knows peer d ->
  encrypt_and_save net now nonce rnd nonce' me (id_master_pubkey peer) payload d =
    Done (Ok env, d', ev) ->
  exists st' h c, encrypt st (to_vec payload) = Some (st', (h, c)) /\
    env = {| env_sender := id_dm_pubkey me; env_ratchet_header := ratchet_header_to_wire h;
             env_ciphertext := c |} /\
    d' = save_ratchet_session (id_dm_pubkey peer)
           (seal_ratchet_state nonce' (id_ratchet_storage_key me) (to_json st')) now d.
Proof.
  intros Hs Hk. rewrite (encrypt_and_save_run _ _ _ _ _ _ _ _ _ _ Hs Hk).
  destruct (short_id _); [|done].
  destruct (encrypt st (to_vec payload)) as [[st' [h c]]|]; [|done].
  intros [= <- <- <-]. by exists st', h, c.
Qed.

(** ** The receive transaction *)

(** A new conversation needs a peer that has none yet. *)
Definition conversation_free (conv_id peer : string) (d : Db) : Prop :=
  is_Some (dm_conversations d !! conv_id) \/
  forall k r, dm_conversations d !! k = Some r -> cw_peer_pubkey r <> peer.

(** Otherwise the unique index on the peer refuses it. *)
Definition conversation_taken (conv_id peer : string) (d : Db) : Prop :=
  dm_conversations d !! conv_id = None /\
  exists k r, dm_conversations d !! k = Some r /\ cw_peer_pubkey r = peer.

(** The transaction: the session and the message are stored together, a taken
    id keeps its row, and the conversation counts one more unread message. *)
Record received_message (dm_key sealed : string) (now : Z) (msg : StoredMessage) (preview : string)
    (d d' : Db) : Prop := {
  rm_session : dm_ratchet_sessions d' =
    <[dm_key := {| rr_state_json := sealed; rr_updated_at := as_i64 now |}]> (dm_ratchet_sessions d);
  rm_messages : dm_messages d' = insert_or_ignore (st_id msg) (message_to_row msg) (dm_messages d);
  rm_conversation : (fun r => (cw_last_message_at r, cw_last_message_preview r, cw_unread_count r)) <$>
    dm_conversations d' !! st_conversation_id msg =
    Some (as_i64 (st_timestamp msg), preview,
          match dm_conversations d !! st_conversation_id msg with
          | Some r => cw_unread_count r + 1 | None => 1 end);
  rm_delegations : peer_delegations d' = peer_delegations d;
}.

Lemma sql_count_zero {K R} `{Countable K} (P : K * R -> bool) (t : gmap K R) :
  (forall k r, t !! k = Some r -> P (k, r) = false) -> sql_count P t = 0.
Proof.
  intros Hno. unfold sql_count. replace (filter P (map_to_list t)) with (@nil (K * R)); [done|].
  symmetry. apply filter_nil_iff, Forall_forall. intros [k r] Hin%elem_of_map_to_list.
  rewrite (Hno k r Hin). by intros [].
Qed.

(** The conversation of a message is found or made, and keeps its count. *)
Lemma put_conversation_ok conv peer ts preview d :
  conversation_free conv peer d ->
  exists r, put_conversation conv peer ts preview d = Ok (set_dm_conversations (<[conv := r]> (dm_conversations d)) d) /\
    cw_last_message_at r = ts /\ cw_last_message_preview r = preview /\
    cw_unread_count r = match dm_conversations d !! conv with Some r => cw_unread_count r | None => 0 end.
Proof.
  intros Hfree. unfold put_conversation. destruct (dm_conversations d !! conv) as [r|] eqn:Ec; [by eexists|].
  rewrite sql_count_zero; [by eexists|]. intros k r Hr.
  apply bool_decide_eq_false. destruct Hfree as [[? ?]|Hf]; [congruence|by apply (Hf k)].
Qed.

Lemma receive_ok dm_key peer sealed now msg preview d :
  conversation_free (st_conversation_id msg) peer d ->
  exists d', receive_dm_message_atomically dm_key peer sealed now msg preview d = Ok d' /\
    received_message dm_key sealed now msg preview d d'.
Proof.
  intros Hfree. unfold receive_dm_message_atomically. set (conv := st_conversation_id msg) in *.
  destruct (put_conversation_ok conv peer (as_i64 (st_timestamp msg)) preview (save_ratchet_session dm_key sealed now d) Hfree)
    as (r & -> & Ha & Hp & Hu). cbn [dm_conversations save_ratchet_session set_dm_ratchet_sessions] in Hu |- *.
  unfold mbind, result_bind, insert_dm_message. fold conv.
  cbn [dm_conversations dm_messages set_dm_conversations]. rewrite lookup_insert_eq.
  assert (forall t, (fun r => (cw_last_message_at r, cw_last_message_preview r, cw_unread_count r)) <$>
    sql_update (fun kr => bool_decide (kr.1 = conv)) (fun r => set_cw_unread (cw_unread_count r + 1) r)
      (dm_conversations (set_dm_messages t (set_dm_conversations (<[conv := r]> (dm_conversations d))
        (save_ratchet_session dm_key sealed now d)))) !! conv =
    Some (as_i64 (st_timestamp msg), preview,
      match dm_conversations d !! conv with Some r => cw_unread_count r + 1 | None => 1 end)) as Hc.
  { intros t. cbn [dm_conversations set_dm_messages set_dm_conversations]. rewrite lookup_sql_update, lookup_insert_eq.
    cbn -[as_i64]. rewrite bool_decide_eq_true_2 by done. cbn -[as_i64]. rewrite Ha, Hp, Hu.
    by destruct (dm_conversations d !! conv). }
  cbn [dm_messages save_ratchet_session set_dm_ratchet_sessions].
  destruct (dm_messages d !! st_id msg) as [row|] eqn:Em; (eexists; split; [reflexivity|]; split; try done;
    try (unfold insert_or_ignore; rewrite Em; done)).
  - exact (Hc (dm_messages d)).
  - exact (Hc (<[st_id msg := message_to_row msg]> (dm_messages d))).
Qed.

Lemma receive_taken dm_key peer sealed now msg preview d :
  conversation_taken (st_conversation_id msg) peer d ->
  receive_dm_message_atomically dm_key peer sealed now msg preview d = Err Sqlx.
Proof.
  intros [Hc (k & r & Hr & Hp)]. unfold receive_dm_message_atomically, put_conversation.
  cbn [dm_conversations save_ratchet_session set_dm_ratchet_sessions]. rewrite Hc.
  assert (0 < sql_count (fun kr : string * ConversationRow => bool_decide (cw_peer_pubkey kr.2 = peer))
    (dm_conversations d)) as Hn.
  { apply sql_count_pos. exists k, r. split; [done|]. by apply bool_decide_eq_true. }
  by rewrite (proj2 (Z.ltb_lt _ _)) by done.
Qed.

Lemma conversation_cases conv peer d : conversation_free conv peer d \/ conversation_taken conv peer d.
Proof.
  destruct (dm_conversations d !! conv) as [r|] eqn:Ec; [by left; left|].
  set (P := fun kr : string * ConversationRow => bool_decide (cw_peer_pubkey kr.2 = peer)).
  destruct (Z.ltb_spec 0 (sql_count P (dm_conversations d))) as [Hn|Hn].
  - right. split; [done|]. apply sql_count_pos in Hn as (k & r & Hr & Hp). exists k, r. split; [done|].
    by apply bool_decide_eq_true in Hp.
  - left. right. intros k r Hr Hp. assert (0 < sql_count P (dm_conversations d)); [|lia].
    apply sql_count_pos. exists k, r. split; [done|]. by apply bool_decide_eq_true.
Qed.

(** ** Receiving *)

(** How a message is stored. *)
Definition message_of (me peer : Identity) (msg : DirectMessage) : StoredMessage :=
  {| st_id := dm_id msg;
     st_conversation_id := conversation_id (id_master_pubkey me) (id_master_pubkey peer);
     st_from_pubkey := id_master_pubkey peer; st_to_pubkey := id_master_pubkey me;
     st_content := dm_content msg; st_timestamp := dm_timestamp msg; st_media := dm_media msg;
     st_read := false; st_delivered := true; st_reply_to := dm_reply_to msg |}.

(** The outcome of a decrypted message: it is stored with the session; the task
    panics afterwards if the log line cannot shorten the peer's key, and before
    if the preview cuts a character; and nothing is stored if the peer has a
    conversation under another id. *)
Definition message_handled (now : Z) (me peer : Identity) (sealed : string) (msg : DirectMessage)
    (d : Db) (o : outcome (result AppError unit)) : Prop :=
  let conv := conversation_id (id_master_pubkey me) (id_master_pubkey peer) in
  match preview (dm_content msg) with
  | None => o = Panicked d []
  | Some pv =>
      (conversation_free conv (id_master_pubkey peer) d /\
       exists d', received_message (id_dm_pubkey peer) sealed now (message_of me peer msg) pv d d' /\
         o = match short_id (id_master_pubkey peer) with
             | Some _ => Done (Ok tt, d', ["dm-received"%string])
             | None => Panicked d' []
             end) \/
      (conversation_taken conv (id_master_pubkey peer) d /\ o = Done (Err Sqlx, d, []))
  end.

Lemma session_of_open me peer d st :
  session_of me peer d = Some st ->
  exists stored, get_ratchet_session d (id_dm_pubkey peer) = Some stored /\
    open_session (id_ratchet_storage_key me) stored = Ok st.
Proof.
  unfold session_of. destruct (get_ratchet_session d _) as [stored|]; [|done]. cbn. intros E.
  exists stored. split; [done|]. destruct (open_session _ _); [|done]. cbn in E. congruence.
Qed.

Lemma handle_encrypted_run now nonce rnd me peer env d st header :
  session_of me peer d = Some st -> wire_to_ratchet_header (env_ratchet_header env) = Ok header ->
  handle_encrypted_message now nonce rnd me (id_dm_pubkey peer) env d =
    match decrypt st header (env_ciphertext env) rnd with
    | (st', Ok plaintext) =>
        match from_slice plaintext with
        | Ok payload => handle_payload now me (id_dm_pubkey peer)
            (seal_ratchet_state nonce (id_ratchet_storage_key me) (to_json st')) payload d
        | Err e => Done (Err e, d, [])
        end
    | (_, Err e) => Done (Err (Crypto e), d, [])
    end.
Proof.
  intros (stored & Hg & Ho)%session_of_open Hh. unfold handle_encrypted_message.
  rewrite run_get, run_some_or_log, Hg, run_try_lift, Ho, run_try_lift, Hh.
  destruct (decrypt st header _ rnd) as [st' [p|e]]; rewrite run_try_lift; [|done].
  by rewrite run_try_lift.
Qed.

Lemma receive_tables dm_key peer sealed now msg pv d d' :
  receive_dm_message_atomically dm_key peer sealed now msg pv d = Ok d' ->
  peer_delegations d' = peer_delegations d /\
  dm_ratchet_sessions d' !! dm_key = Some {| rr_state_json := sealed; rr_updated_at := as_i64 now |}.
Proof.
  unfold receive_dm_message_atomically. intros (d1 & E1 & (d2 & E2 & [= <-])%bind_Ok)%bind_Ok.
  assert (peer_delegations d1 = peer_delegations d /\ dm_ratchet_sessions d1 =
    dm_ratchet_sessions (save_ratchet_session dm_key sealed now d)) as [Hp Hr].
  { revert E1. unfold put_conversation. case_match; [by intros [= <-]|].
    by intros (? & _ & [= <-])%bind_Ok. }
  assert (peer_delegations d2 = peer_delegations d1 /\
    dm_ratchet_sessions d2 = dm_ratchet_sessions d1) as [Hp2 Hr2].
  { revert E2. unfold insert_dm_message. case_match; [by intros [= <-]|].
    by intros (? & _ & [= <-])%bind_Ok. }
  cbn. rewrite Hp2, Hp, Hr2, Hr. split; [done|]. cbn. by rewrite lookup_insert_eq.
Qed.

(** Whatever the payload, an error writes nothing; success stores the session
    and leaves the cached keys, and so does what a panic leaves if it wrote
    anything. *)
Lemma handle_payload_end now me dm_key sealed payload d :
  let o := handle_payload now me dm_key sealed payload d in
  (end_db o = d /\ (forall d' ev, o <> Done (Ok tt, d', ev))) \/
  (peer_delegations (end_db o) = peer_delegations d /\
   dm_ratchet_sessions (end_db o) !! dm_key =
     Some {| rr_state_json := sealed; rr_updated_at := as_i64 now |} /\
   (forall e d' ev, o <> Done (Err e, d', ev))).
Proof.
  unfold handle_payload. rewrite run_get. destruct payload as [msg| | | | | | |].
  { rewrite run_some_or_log. destruct (get_master_pubkey_for_dm_pubkey d dm_key) as [peer|].
    2: { left. by destruct (short_id dm_key). }
    rewrite run_or_panic. destruct (preview (dm_content msg)) as [pv|]; [|by left]. rewrite run_store.
    destruct (receive_dm_message_atomically _ _ _ _ _ _ _) as [d1|e] eqn:E; [|by left]. right.
    apply receive_tables in E as [Hp Hs]. rewrite run_log. destruct (short_id peer); by split_and!. }
  all: right; try (destruct (get_master_pubkey_for_dm_pubkey d dm_key)).
  all: repeat (rewrite run_modify || rewrite run_emit || rewrite run_lift || rewrite run_bind);
    cbn; (split; [done|split; [by rewrite lookup_insert_eq|done]]).
Qed.

Lemma handle_payload_message now me peer sealed msg d :
  knows peer d -> message_handled now me peer sealed msg d
    (handle_payload now me (id_dm_pubkey peer) sealed (Message msg) d).
Proof.
  intros [_ Hk]. unfold message_handled, handle_payload. rewrite run_get, run_some_or_log, Hk, run_or_panic.
  destruct (preview (dm_content msg)) as [pv|]; [|done]. rewrite run_store. fold (message_of me peer msg).
  destruct (conversation_cases (conversation_id (id_master_pubkey me) (id_master_pubkey peer))
    (id_master_pubkey peer) d) as [Hf|Ht].
  - left. split; [done|].
    destruct (receive_ok (id_dm_pubkey peer) (id_master_pubkey peer) sealed now (message_of me peer msg) pv d Hf)
      as (d' & -> & Hr). exists d'. split; [done|]. rewrite run_log. by destruct (short_id _).
  - right. split; [done|]. by rewrite (receive_taken _ _ _ _ (message_of me peer msg) _ _ Ht).
Qed.

(** ** Two databases and the envelopes between them *)

(** Envelopes in flight (on the wire or in the outbox) with the payload their
    sender encrypted, and the DH public keys generated so far. *)
Record dm_net : Type := {
  d_a : Db;
  d_b : Db;
  fly_b : list (EncryptedEnvelope * DmPayload);
  fly_a : list (EncryptedEnvelope * DmPayload);
  d_used : list bytes;
}.
Definition dm_swap (s : dm_net) : dm_net :=
  {| d_a := d_b s; d_b := d_a s; fly_b := fly_a s; fly_a := fly_b s; d_used := d_used s |}.

(** [ia] sends, or does anything else that leaves the row of its session with
    [ib] and the cached keys of [ib]: it sends to others, hears from them, caches
    identities.  An envelope to [ib] is handled, be it with success, with an
    error or with a panic, or lost.  Each is one step: the code has no lock
    between loading a session and saving it, so that steps on the same session
    that overlap are outside ([concurrent_sends_reuse] below); a second handshake
    starts a new session. *)
Inductive dm_half (ia ib : Identity) : dm_net -> dm_net -> Prop :=
| dms_send s net now nonce rnd nonce' payload env d' ev :
    length nonce' = 12%nat ->
    (forall st, session_of ia ib (d_a s) = Some st -> send_count st + 1 + 2 * MAX_SKIP < 2 ^ 32) ->
    encrypt_and_save net now nonce rnd nonce' ia (id_master_pubkey ib) payload (d_a s) =
      Done (Ok env, d', ev) ->
    dm_half ia ib s {| d_a := d'; d_b := d_b s; fly_b := fly_b s ++ [(env, payload)];
                       fly_a := fly_a s; d_used := d_used s |}
| dms_deliver s l1 env payload l2 now nonce rnd :
    fly_b s = l1 ++ (env, payload) :: l2 ->
    length nonce = 12%nat -> x25519_base rnd ∉ d_used s ->
    dm_half ia ib s {| d_a := d_a s;
                       d_b := end_db (handle_encrypted_message now nonce rnd ib (env_sender env) env (d_b s));
                       fly_b := l1 ++ l2; fly_a := fly_a s; d_used := x25519_base rnd :: d_used s |}
| dms_lose s l1 x l2 :
    fly_b s = l1 ++ x :: l2 ->
    dm_half ia ib s {| d_a := d_a s; d_b := d_b s; fly_b := l1 ++ l2; fly_a := fly_a s;
                       d_used := d_used s |}
| dms_local s d' :
    get_ratchet_session d' (id_dm_pubkey ib) = get_ratchet_session (d_a s) (id_dm_pubkey ib) ->
    knows ib d' ->
    dm_half ia ib s {| d_a := d'; d_b := d_b s; fly_b := fly_b s; fly_a := fly_a s;
                       d_used := d_used s |}.

Definition dm_step (ia ib : Identity) (s s' : dm_net) : Prop :=
  dm_half ia ib s s' \/ dm_half ib ia (dm_swap s) (dm_swap s').

(** ** The refinement *)

Definition flight_rel (sender : Identity) (x : EncryptedEnvelope * DmPayload) (f : flight) : Prop :=
  env_sender x.1 = id_dm_pubkey sender /\
  wire_to_ratchet_header (env_ratchet_header x.1) = Ok (fl_header f) /\
  env_ciphertext x.1 = fl_ciphertext f /\ fl_plaintext f = to_vec x.2.

Record dm_rel (ia ib : Identity) (s : dm_net) (n : net) : Prop := {
  dr_a : session_of ia ib (d_a s) = Some (na n);
  dr_b : session_of ib ia (d_b s) = Some (nb n);
  dr_knows_a : knows ib (d_a s);
  dr_knows_b : knows ia (d_b s);
  dr_fly_b : Forall2 (flight_rel ia) (fly_b s) (to_b n);
  dr_fly_a : Forall2 (flight_rel ib) (fly_a s) (to_a n);
  dr_used : used n ⊆ d_used s;
}.

(** The databases after the handshake, and everything after. *)
Definition dm_reachable (ia ib : Identity) (s : dm_net) : Prop :=
  exists s0 ss rnd bob, x25519_base rnd <> x25519_base bob /\
    dm_rel ia ib s0 (net_init ss rnd bob) /\ rtc (dm_step ia ib) s0 s.

Lemma dm_rel_swap ia ib s n : dm_rel ia ib s n -> dm_rel ib ia (dm_swap s) (swap n).
Proof. by intros []. Qed.

Lemma swap_swap n : swap (swap n) = n.
Proof. by destruct n. Qed.
Lemma dm_swap_swap s : dm_swap (dm_swap s) = s.
Proof. by destruct s. Qed.

Lemma encrypt_header st pt st' h c :
  encrypt st pt = Some (st', (h, c)) -> rh_dh_public h = dh_self_public st.
Proof.
  unfold encrypt. destruct (chain_key_send st); [|done]. cbn -[kdf_ck]. destruct (kdf_ck _).
  by intros [= _ <- _].
Qed.

Lemma net_inv_key n : net_inv n -> exists a, dh_self_public (na n) = x25519_base a.
Proof. intros (? & ? & ? & [Hi|Hi]); eexists; [apply Hi|apply (i_Q_key _ _ _ _ _ _ _ _ Hi)]. Qed.

Lemma knows_eq peer d d' : peer_delegations d' = peer_delegations d -> knows peer d -> knows peer d'.
Proof.
  intros E [H1' H2']. unfold knows, get_peer_dm_pubkey, get_master_pubkey_for_dm_pubkey in *.
  by rewrite E.
Qed.
Lemma session_of_eq me peer d d' :
  get_ratchet_session d' (id_dm_pubkey peer) = get_ratchet_session d (id_dm_pubkey peer) ->
  session_of me peer d' = session_of me peer d.
Proof. intros E. unfold session_of. by rewrite E. Qed.

Lemma dm_half_refines ia ib s n s' :
  net_inv n -> dm_rel ia ib s n -> dm_half ia ib s s' ->
  exists n', (n' = n \/ half_step n n') /\ dm_rel ia ib s' n'.
Proof.
  intros Hinv [Ha Hb Ka Kb Fb Fa Hu] Hs.
  destruct Hs as [s net now nonce rnd nonce' payload env d' ev Hlen Hcount He
    |s l1 env payload l2 now nonce rnd Hf Hlen Hrnd|s l1 x l2 Hf|s d' Hr Hp].
  - eapply encrypt_and_save_session in He as (st' & h & c & Ee & -> & ->); [|done..].
    eexists. split; [right; eapply step_send; [by apply Hcount|exact Ee]|].
    split; cbn [d_a d_b fly_b fly_a d_used na nb to_b to_a used]; try done.
    + by apply session_saved.
    + apply Forall2_app; [done|]. constructor; [|done]. split_and!; try done. cbn.
      destruct (net_inv_key n Hinv) as [a Hk]. eapply wire_header_roundtrip.
      by rewrite (encrypt_header _ _ _ _ _ Ee).
  - rewrite Hf in Fb. apply Forall2_app_inv_l in Fb as (w1 & w & F1 & F2 & Ew).
    apply Forall2_cons_inv_l in F2 as (f & w2 & (Es & Eh & Ec & Ep) & F2 & ->).
    cbn in Es, Eh, Ec, Ep.
    rewrite Es, (handle_encrypted_run _ _ _ _ _ _ _ _ _ Hb Eh), Ec.
    assert (x25519_base rnd ∉ used n) as Hrnd' by (intros Hx; by apply Hrnd, Hu).
    assert (used n ⊆ x25519_base rnd :: d_used s) as Hu' by (intros x Hx; right; by apply Hu).
    assert (exists n', (n' = n \/ half_step n n') /\ dm_rel ia ib
      {| d_a := d_a s; d_b := d_b s; fly_b := l1 ++ l2; fly_a := fly_a s;
         d_used := x25519_base rnd :: d_used s |} n') as Hlost.
    { eexists. split; [right; eapply step_lose; exact Ew|]. split; try done. by apply Forall2_app. }
    destruct (decrypt (nb n) (fl_header f) (fl_ciphertext f) rnd) as [b' [pt|e]] eqn:Ed; [|done].
    destruct (from_slice pt) as [payload'|e]; [|done].
    edestruct handle_payload_end as [[-> _]|(Hdel & Hrow & _)]; [done|].
    eexists. split; [right; eapply step_deliver; [exact Ew|exact Hrnd'|exact Ed]|].
    split; cbn [d_a d_b fly_b fly_a d_used na nb to_b to_a used]; try done.
    + unfold session_of, get_ratchet_session. rewrite Hrow. cbn. by rewrite open_session_sealed.
    + by eapply knows_eq.
    + by apply Forall2_app.
    + intros x [->|Hx]%elem_of_cons; [left|right; by apply Hu].
  - rewrite Hf in Fb. apply Forall2_app_inv_l in Fb as (w1 & w & F1 & F2 & Ew).
    apply Forall2_cons_inv_l in F2 as (f & w2 & _ & F2 & ->).
    eexists. split; [right; eapply step_lose; exact Ew|]. split; try done. by apply Forall2_app.
  - exists n. split; [by left|]. split; cbn [d_a d_b fly_b fly_a d_used]; try done.
    by rewrite (session_of_eq _ _ _ _ Hr).
Qed.

Lemma dm_step_refines ia ib s n s' :
  net_inv n -> dm_rel ia ib s n -> dm_step ia ib s s' ->
  exists n', (n' = n \/ net_step n n') /\ dm_rel ia ib s' n'.
Proof.
  intros Hinv Hr [Hs|Hs].
  - destruct (dm_half_refines _ _ _ _ _ Hinv Hr Hs) as (n' & [->|Hn] & Hr');
      [exists n|exists n']; (split; [|done]); [by left|by right; left].
  - apply net_inv_swap in Hinv. apply dm_rel_swap in Hr.
    destruct (dm_half_refines _ _ _ _ _ Hinv Hr Hs) as (n' & Hn & Hr').
    exists (swap n'). split.
    + destruct Hn as [->|Hn]; [left; apply swap_swap|]. right. right. by rewrite swap_swap.
    + apply dm_rel_swap in Hr'. by rewrite dm_swap_swap in Hr'.
Qed.

Lemma dm_reachable_net ia ib s :
  dm_reachable ia ib s -> exists n, net_reachable n /\ dm_rel ia ib s n.
Proof.
  intros (s0 & ss & rnd & bob & Hne & Hr & Hsteps).
  assert (net_reachable (net_init ss rnd bob)) as Hn by (exists ss, rnd, bob; split; [done|apply rtc_refl]).
  revert Hr Hn. generalize (net_init ss rnd bob). induction Hsteps as [s|s1 s2 s3 Hs _ IH].
  - intros n Hr Hn. by exists n.
  - intros n Hr Hn. destruct (dm_step_refines _ _ _ _ _ (net_reachable_inv n Hn) Hr Hs)
      as (n' & [->|Hn'] & Hr'); [by eapply IH|].
    apply (IH n' Hr'). destruct Hn as (x & y & z & ? & ?). exists x, y, z. split; [done|].
    by eapply rtc_r.
Qed.

Lemma dm_deliver ia ib s env msg now nonce rnd :
  dm_reachable ia ib s -> (env, Message msg) ∈ fly_b s -> x25519_base rnd ∉ d_used s ->
  let o := handle_encrypted_message now nonce rnd ib (env_sender env) env (d_b s) in
  (exists st' : RatchetState, message_handled now ib ia
     (seal_ratchet_state nonce (id_ratchet_storage_key ib) (to_json st')) msg (d_b s) o) \/
  (o = Done (Err (Crypto TooManySkipped), d_b s, []) /\
   exists st header, session_of ib ia (d_b s) = Some st /\
     wire_to_ratchet_header (env_ratchet_header env) = Ok header /\ ~ within_skip st header).
Proof.
  intros (n & Hn & [Ha Hb Ka Kb Fb Fa Hu])%dm_reachable_net Hin Hrnd. cbv zeta.
  pose proof (net_reachable_inv n Hn) as (ckP & ckQ & ckO & Hinv).
  assert (delivers (nb n) (to_b n) (used n)) as Hdel.
  { destruct Hinv as [Hi|Hi]; apply inv_delivers in Hi; tauto. }
  apply list_elem_of_lookup in Hin as [i Hi].
  destruct (Forall2_lookup_l _ _ _ _ _ Fb Hi) as (f & Hf & Es & Eh & Ec & Ep). cbn in Es, Eh, Ec, Ep.
  assert (x25519_base rnd ∉ used n) as Hrnd' by (intros Hy; by apply Hrnd, Hu).
  apply list_elem_of_lookup_2 in Hf.
  destruct (Hdel f rnd Hf Hrnd') as (st' & r & Ed & [Er|[Er Hw]]).
  - left. rewrite Es, (handle_encrypted_run _ _ _ _ _ _ _ _ _ Hb Eh), Ec, Ed, Er, Ep, from_to_vec.
    exists st'. by apply handle_payload_message.
  - right. rewrite Es, (handle_encrypted_run _ _ _ _ _ _ _ _ _ Hb Eh), Ec, Ed, Er.
    split; [done|]. by exists (nb n), (fl_header f).
Qed.

(** ** The handshake *)

(** The keys an identity derives from its DM secret. *)
Definition dm_keys (me : Identity) : Prop :=
  id_dm_x25519_public me = x25519_base (id_dm_x25519_private me) /\
  id_dm_pubkey me = hex_encode (x25519_base (id_dm_x25519_private me)).

(** The responder stores [init_bob] for the authenticated key of the initiator. *)
Lemma handle_handshake_ok `{!SnowLibLaws} now nonce ia ib d hs msg1 :
  dm_keys ia -> dm_keys ib -> is_Some (short_id (id_dm_pubkey ia)) ->
  noise_initiate (id_dm_x25519_private ia) (x25519_base (id_dm_x25519_private ib)) = Ok (hs, msg1) ->
  exists ss m2,
    handle_handshake now nonce ib (id_dm_pubkey ia) msg1 d =
      Done (Ok (to_vec (HsResponse m2)),
            save_ratchet_session (id_dm_pubkey ia) (seal_ratchet_state nonce (id_ratchet_storage_key ib)
              (to_json (init_bob ss (id_dm_x25519_private ib, id_dm_x25519_public ib)))) now d, []) /\
    noise_complete_initiator hs m2 = Ok ss.
Proof.
  intros [Pa Ka] [Pb Kb] [y Hy] Hi.
  destruct (noise_ik_agrees (id_dm_x25519_private ia) (id_dm_x25519_private ib))
    as (i0 & i1 & i2 & r0 & r1 & r2 & m1 & m2 & ti & tr & B1 & W1 & B2 & R1 & W2 & R2 & T1 & T2 & Eh & Er).
  revert Hi. unfold noise_initiate, snow_err. rewrite B1. cbn. rewrite W1. cbn. intros [= <- <-].
  exists (extract_handshake_hash r2), m2. split.
  - unfold handle_handshake. rewrite run_log, Hy, run_try_lift. unfold noise_respond, snow_err.
    rewrite B2. cbn. rewrite R1. cbn. rewrite W2. cbn. rewrite run_try_lift.
    unfold noise_complete_responder, snow_err. rewrite Er, T2. cbn.
    rewrite x25519_base_length. cbn. rewrite run_try_lift, Ka, dm_pubkey_roundtrip, run_try_lift.
    rewrite decide_True by done. rewrite bool_decide_eq_false_2 by (intros []; done). cbn [bail_if]. unfold save_session.
    by rewrite run_store, run_log, <-Ka, Hy, run_lift.
  - unfold noise_complete_initiator, snow_err. rewrite R2. cbn. rewrite T1. cbn.
    unfold extract_handshake_hash. by rewrite Eh.
Qed.

Lemma handle_handshake_resp now nonce ib sender m d r d' ev :
  handle_handshake now nonce ib sender m d = Done (Ok r, d', ev) -> exists m', r = to_vec (HsResponse m').
Proof.
  unfold handle_handshake, save_session. rewrite run_log. destruct (short_id sender) eqn:Es; [|done].
  rewrite run_try_lift. destruct (noise_respond _ _) as [[hs m2]|]; [|done].
  rewrite run_try_lift. destruct (noise_complete_responder hs) as [[ss k]|]; [|done].
  rewrite run_try_lift. destruct (dm_pubkey_to_x25519 sender) as [c|]; [|done].
  rewrite run_try_lift. destruct (match k with Some _ => _ | None => _ end); [|done].
  rewrite run_store, run_log, Es, run_lift. intros [= <- _ _]. by exists m2.
Qed.

(** The network leads to [ib], whose database is [d]. *)
Definition answers (net : Network) (now : Z) (nonce : bytes) (ib : Identity) (d : Db) : Prop :=
  forall t noise_message sender, nw_handshake net t (HsInit noise_message sender) =
    match handle_handshake now nonce ib sender noise_message d with
    | Done (Ok resp, _, _) => Ok resp
    | Done (Err e, _, _) => Err e
    | Panicked _ _ => Err (Other "connection lost")
    end.

Lemma establish_session `{!SnowLibLaws} net now now' nonce nonce' rnd ia ib da db t ts :
  dm_keys ia -> dm_keys ib -> length nonce = 12%nat -> length nonce' = 12%nat ->
  is_Some (short_id (id_dm_pubkey ia)) -> is_Some (short_id (id_master_pubkey ib)) ->
  knows ib da -> knows ia db -> get_ratchet_session da (id_dm_pubkey ib) = None ->
  get_peer_transport_node_ids da (id_master_pubkey ib) = Ok (t :: ts) ->
  answers net now' nonce' ib db ->
  (forall t h resp, nw_handshake net t h = Ok resp -> Z.of_nat (length resp) <= 65536) ->
  exists ss noise_message resp da' db',
    handle_handshake now' nonce' ib (id_dm_pubkey ia) noise_message db = Done (Ok resp, db', []) /\
    get_or_establish_session net now nonce rnd ia (id_master_pubkey ib) da =
      Done (Ok (init_alice ss (x25519_base (id_dm_x25519_private ib)) rnd, id_dm_pubkey ib), da', []) /\
    dm_rel ia ib {| d_a := da'; d_b := db'; fly_b := []; fly_a := [];
        d_used := [x25519_base rnd; x25519_base (id_dm_x25519_private ib)] |}
      (net_init ss rnd (id_dm_x25519_private ib)).
Proof.
  intros Ka Kb Hn Hn' Sa [y Sb] Nb Na Hnone Ht Hans Hlen.
  destruct (noise_ik_agrees (id_dm_x25519_private ia) (id_dm_x25519_private ib))
    as (i0 & i1 & _ & _ & _ & _ & m1 & _ & _ & _ & B1 & W1 & _).
  assert (noise_initiate (id_dm_x25519_private ia) (x25519_base (id_dm_x25519_private ib)) =
    Ok (i1, m1)) as Hi by (unfold noise_initiate, snow_err; rewrite B1; cbn; by rewrite W1).
  destruct (handle_handshake_ok now' nonce' ia ib db i1 m1 Ka Kb Sa Hi) as (ss & m2 & Eh & Ec).
  exists ss, m1, (to_vec (HsResponse m2)). eexists _, _. split; [exact Eh|].
  pose proof Kb as [Pb Kb']. split.
  - unfold get_or_establish_session. rewrite run_log, Sb, run_get, run_some_or_log.
    destruct Nb as [-> _]. rewrite Hnone, run_log, Sb, run_try_lift, Ht, run_some_or_log. cbn [head].
    rewrite run_try_lift, Kb', dm_pubkey_roundtrip, run_try_lift, Hi, run_log, Sb, run_try_lift.
    rewrite Hans, Eh, run_try_lift. rewrite (proj2 (Z.ltb_ge _ _)) by (eapply (Hlen t); by rewrite Hans, Eh). cbn [bail_if].
    rewrite run_try_lift, from_to_vec, run_try_lift, run_try_lift, Ec.
    unfold save_session. by rewrite run_store, run_log, Sb, run_lift, <-Kb'.
  - split; cbn [d_a d_b fly_b fly_a d_used net_init na nb to_b to_a used]; try done.
    + by apply session_saved.
    + rewrite Pb. by apply session_saved.
Qed.

(** ** Traffic with others *)

(** The session row of [key] and the cached keys stay. *)
Definition others_kept (key : string) (d d' : Db) : Prop :=
  get_ratchet_session d' key = get_ratchet_session d key /\ peer_delegations d' = peer_delegations d.
#[local] Instance others_kept_refl key : Reflexive (others_kept key).
Proof. by split. Qed.
#[local] Instance others_kept_trans key : Transitive (others_kept key).
Proof. intros d1 d2 d3 [A1 B1] [A2 B2]. split; congruence. Qed.

Lemma save_others key k sealed now d : k <> key -> others_kept key d (save_ratchet_session k sealed now d).
Proof. intros Hk. split; [|done]. unfold get_ratchet_session. cbn. by rewrite lookup_insert_ne. Qed.
Lemma always_store R `{!Reflexive R} f : (forall d d', f d = Ok d' -> R d d') -> always R (store f).
Proof. intros Hf d. unfold store. destruct (f d) as [d'|e] eqn:E; [by apply Hf|done]. Qed.
Lemma always_save_session key k now nonce sk st :
  k <> key -> always (others_kept key) (save_session now nonce sk k st).
Proof. intros Hk. apply always_store; [tc_solve|]. intros d d' [= <-]. by apply save_others. Qed.
Lemma always_some_or_log {A} key (o : option A) s err : always (others_kept key) (some_or_log o s err).
Proof. unfold some_or_log, lift. by solve_always. Qed.
Lemma always_or_panic {A} key (o : option A) : always (others_kept key) (or_panic o).
Proof. intros d. unfold or_panic. by destruct o. Qed.
Lemma always_try {A B} key (m : fallible A) (f : A -> fallible B) :
  always (others_kept key) m -> (forall a, always (others_kept key) (f a)) ->
  always (others_kept key) (try_bind m f).
Proof.
  intros Hm Hf. unfold try_bind. apply always_bind; [tc_solve|done|]. intros [a|e]; [apply Hf|].
  unfold lift. by solve_always.
Qed.
Lemma always_lift {A} key (r : result AppError A) : always (others_kept key) (lift r).
Proof. unfold lift. by solve_always. Qed.

Ltac solve_others :=
  repeat first
    [progress intros
    |apply always_try
    |apply always_some_or_log
    |apply always_or_panic
    |apply always_lift
    |by apply always_save_session
    |lazymatch goal with |- always _ (let (_, _) := ?x in _) => destruct x end
    |progress solve_always].

Lemma establish_others net now nonce rnd me peer key d :
  get_peer_dm_pubkey d peer <> Some key ->
  let o := get_or_establish_session net now nonce rnd me peer d in
  others_kept key d (end_db o) /\ forall st k d' ev, o = Done (Ok (st, k), d', ev) -> k <> key.
Proof.
  intros Hk. cbv zeta. unfold get_or_establish_session. rewrite run_log.
  destruct (short_id peer) eqn:Es; [|done]. rewrite run_get, run_some_or_log.
  destruct (get_peer_dm_pubkey d peer) as [k|]; [|by rewrite Es].
  assert (k <> key) as Hne by congruence. split.
  - match goal with |- others_kept _ _ (end_db (?m d)) =>
      enough (always (others_kept key) m) as Ha by apply Ha end.
    destruct (get_ratchet_session d k); solve_others.
  - intros st k' d' ev. destruct (get_ratchet_session d k) as [stored|].
    + rewrite run_log, Es, run_try_lift. destruct (open_session _ _); [|done]. rewrite run_lift. congruence.
    + rewrite run_log, Es, run_try_lift. destruct (get_peer_transport_node_ids d peer); [|done].
      rewrite run_some_or_log. destruct (head _) as [t|]; [|by rewrite Es]. rewrite run_try_lift.
      destruct (dm_pubkey_to_x25519 k); [|done]. rewrite run_try_lift.
      destruct (noise_initiate _ _) as [[hs m1]|]; [|done]. rewrite run_log, Es, run_try_lift.
      destruct (nw_handshake _ _ _) as [resp|]; [|done]. rewrite run_try_lift.
      destruct (bail_if _ _); [|done]. rewrite run_try_lift. destruct (from_slice resp) as [r|]; [|done].
      rewrite run_try_lift. destruct r as [|m2]; [done|]. rewrite run_try_lift.
      destruct (noise_complete_initiator _ _); [|done]. unfold save_session. rewrite run_store, run_log, Es, run_lift.
      congruence.
Qed.

Lemma encrypt_others net now nonce rnd nonce' me peer payload key d :
  get_peer_dm_pubkey d peer <> Some key ->
  others_kept key d (end_db (encrypt_and_save net now nonce rnd nonce' me peer payload d)).
Proof.
  intros Hk. destruct (establish_others net now nonce rnd me peer key d Hk) as [Ho Hne].
  unfold encrypt_and_save. rewrite run_try.
  destruct (get_or_establish_session net now nonce rnd me peer d) as [[[[[st k]|e] d1] ev1]|d1 ev1];
    [|done..]. specialize (Hne _ _ _ _ eq_refl). rewrite end_db_after. etransitivity; [exact Ho|].
  match goal with |- others_kept _ _ (end_db (?m ?d)) =>
    enough (always (others_kept key) m) as Ha by apply Ha end. solve_others.
Qed.

(** Whatever is sent to a user with another DM key, or not cached. *)
Lemma send_others net now nonce rnd nonce' ob me peer msg key d :
  get_peer_dm_pubkey d peer <> Some key ->
  others_kept key d (end_db (send_dm net now nonce rnd nonce' ob me peer msg d)).
Proof.
  intros Hk. pose proof (encrypt_others net now nonce rnd nonce' me peer (Message msg) key d Hk) as Ho.
  unfold send_dm. rewrite run_try. destruct (encrypt_and_save _ _ _ _ _ _ _ _ d) as [[[[env|e] d1] ev1]|d1 ev1];
    [|done..]. rewrite end_db_after. etransitivity; [exact Ho|].
  match goal with |- others_kept _ _ (end_db (?m ?d)) =>
    enough (always (others_kept key) m) as Ha by apply Ha end.
  apply always_bind; [tc_solve|unfold try_send_envelope; solve_others|].
  intros [u|e]; unfold mark_delivered; solve_others; try done.
  apply always_store; [tc_solve|]. by intros d0 d' (? & _ & [= <-])%bind_Ok.
Qed.

(** The DM key a message names as its sender's; a response names none. *)
Definition dm_sender (msg : DmMessage) : option string :=
  match msg with
  | DmHandshakeMsg (HsInit _ sender) => Some sender
  | DmHandshakeMsg (HsResponse _) => None
  | DmEnvelope env => Some (env_sender env)
  end.

Lemma receive_others dm_key peer sealed now msg pv d d' key :
  dm_key <> key -> receive_dm_message_atomically dm_key peer sealed now msg pv d = Ok d' -> others_kept key d d'.
Proof.
  intros Hne. unfold receive_dm_message_atomically, insert_dm_message, put_conversation.
  intros (d1 & E1 & (d2 & E2 & [= <-])%bind_Ok)%bind_Ok. revert E1 E2.
  case_match; [intros [= <-]|intros (? & _ & [= <-])%bind_Ok];
    (case_match; [intros [= <-]|intros (? & _ & [= <-])%bind_Ok]);
    (split; [|done]; unfold get_ratchet_session; cbn; by rewrite lookup_insert_ne).
Qed.

(** Whatever arrives that names another DM key. *)
Lemma accept_others now nonce rnd me remote msg key d :
  dm_sender msg <> Some key -> others_kept key d (end_db (accept_dm now nonce rnd me remote msg d)).
Proof.
  intros Hne. enough (always (others_kept key) (accept_dm now nonce rnd me remote msg)) as Ha by apply Ha.
  unfold accept_dm. apply always_bind; [tc_solve|solve_others|]. intros _.
  apply always_bind; [tc_solve|solve_others|]. intros d0. case_match; [solve_others|].
  destruct msg as [[m sender|m]|env]; cbn in Hne; [|solve_others|].
  - assert (sender <> key) by congruence. unfold handle_handshake.
    solve_others; destruct k; solve_others.
  - assert (env_sender env <> key) by congruence. apply always_bind; [tc_solve| |intros [u|e]; solve_others].
    unfold handle_encrypted_message. apply always_bind; [tc_solve|solve_others|]. intros d1.
    repeat (apply always_try; [solve_others|intros ?]).
    destruct (decrypt _ _ _ _) as [st' r]. repeat (apply always_try; [solve_others|intros ?]).
    unfold handle_payload. solve_others; try (by apply save_others); try done.
    apply always_store; [tc_solve|]. intros d2 d3. by apply receive_others.
Qed.

Lemma dm_reachable_step ia ib s s' : dm_reachable ia ib s -> dm_step ia ib s s' -> dm_reachable ia ib s'.
Proof.
  intros (s0 & ss & rnd & bob & Hne & Hr & Hs) Hstep. exists s0, ss, rnd, bob. split_and!; [done..|].
  by eapply rtc_r.
Qed.

(** [ia]'s database after other traffic. *)
Definition with_a (d' : Db) (s : dm_net) : dm_net :=
  {| d_a := d'; d_b := d_b s; fly_b := fly_b s; fly_a := fly_a s; d_used := d_used s |}.

Lemma dm_reachable_others ia ib s d' :
  dm_reachable ia ib s -> others_kept (id_dm_pubkey ib) (d_a s) d' -> dm_reachable ia ib (with_a d' s).
Proof.
  intros Hs [Hrow Hdel]. pose proof (dm_reachable_net ia ib s Hs) as (n & _ & Hr).
  eapply dm_reachable_step; [exact Hs|]. left. apply dms_local; [done|].
  eapply knows_eq; [exact Hdel|apply Hr].
Qed.

(** ** Sends that overlap *)

(** Two sends to the same peer that both load the session before either saves
    it encrypt with the same message key under the same header, so that the
    receiver, which drops the key after its use, can read at most one. *)
Lemma concurrent_sends_reuse st p1 p2 st1 h1 c1 st2 h2 c2 :
  encrypt st p1 = Some (st1, (h1, c1)) -> encrypt st p2 = Some (st2, (h2, c2)) ->
  st1 = st2 /\ h1 = h2 /\ exists key, c1 = encrypt_message key p1 /\ c2 = encrypt_message key p2.
Proof.
  unfold encrypt. destruct (chain_key_send st) as [ck|]; [|done]. cbn -[kdf_ck encrypt_message].
  destruct (kdf_ck ck) as [ck' key]. intros [= <- <- <-] [= <- <- <-]. split_and!; [done..|]. by exists key.
Qed.

(** ** Failures *)

Lemma preview_None content :
  preview content = None <->
  80 < str_len content /\ is_char_boundary (String.list_ascii_of_string content) 77 = false.
Proof.
  unfold preview, slice_to. destruct (Z.ltb_spec 80 (str_len content)) as [Hl|Hl].
  - destruct (is_char_boundary _ _); cbn; split; try done. by intros [_ ?].
  - split; [done|]. lia.
Qed.

(** The responder of a handshake has no sending chain until it receives. *)
Lemma encrypt_init_bob ss kp pt : encrypt (init_bob ss kp) pt = None.
Proof. done. Qed.
End two_party.

(** ** Theorems *)

(** C2: direct messages refine the ratchet protocol. From the handshake on,
    through any sequence of sends (while the message counters stay [2 *
    MAX_SKIP] below 2^32), deliveries in any order, losses and any other changes
    of the databases that leave the row of this session and the cached keys of
    the peer, the two stored sessions and the envelopes in flight are those of a
    reachable ratchet session. Sends to others, handshakes and envelopes from
    others are among these changes. Not covered are a second handshake with the
    same peer, and operations on the same session that overlap. *)
Theorem dm_refines_ratchet `{RatchetPrims, !RatchetLaws, !DmPrimsLaws, SnowLib, Base64, !Base64Laws,
    HexCodec, !HexLaws, Sha, SqlOrder, !SqlOrderLaws, !Serde (list MediaAttachment),
    !Serde (list string), !Serde RatchetState, !SerdeLaws RatchetState, !JsonText RatchetState,
    !Serde EncryptedEnvelope, !Wire DmPayload, !WireLaws DmPayload, !Wire DmHandshake} ia ib s :
  dm_reachable ia ib s ->
  (exists n, net_reachable n /\ dm_rel ia ib s n) /\
  (forall net now nonce rnd nonce' outbox_id peer msg,
     get_peer_dm_pubkey (d_a s) peer <> Some (id_dm_pubkey ib) ->
     dm_reachable ia ib
       (with_a (end_db (send_dm net now nonce rnd nonce' outbox_id ia peer msg (d_a s))) s)) /\
  (forall now nonce rnd remote msg, dm_sender msg <> Some (id_dm_pubkey ib) ->
     dm_reachable ia ib (with_a (end_db (accept_dm now nonce rnd ia remote msg (d_a s))) s)).
Proof.
  intros Hs. split; [by apply dm_reachable_net|]. split; intros; (apply dm_reachable_others; [done|]).
  - by apply send_others.
  - by apply accept_others.
Qed.

(** C3: an envelope in flight that carries a message is decrypted and stored:
    the message row (unless its id was taken), the conversation with its preview
    and one more unread message, and the new session, in one transaction; the
    task panics after that if the log line cannot shorten the sender's key.  The
    other outcomes store nothing: [TooManySkipped], for a gap above [MAX_SKIP]; a
    panic, for a content whose preview cuts a character at byte 77; an error of
    the database, if the peer already has a conversation under another id. *)
Theorem dm_delivery `{RatchetPrims, !RatchetLaws, !DmPrimsLaws, SnowLib, Base64, !Base64Laws,
    HexCodec, !HexLaws, Sha, SqlOrder, !SqlOrderLaws, !Serde (list MediaAttachment),
    !Serde (list string), !Serde RatchetState, !SerdeLaws RatchetState, !JsonText RatchetState,
    !Serde EncryptedEnvelope, !Wire DmPayload, !WireLaws DmPayload, !Wire DmHandshake}
    ia ib s env msg now nonce rnd :
  dm_reachable ia ib s -> (env, Message msg) ∈ fly_b s -> x25519_base rnd ∉ d_used s ->
  let o := handle_encrypted_message now nonce rnd ib (env_sender env) env (d_b s) in
  (exists st' : RatchetState, message_handled now ib ia
     (seal_ratchet_state nonce (id_ratchet_storage_key ib) (to_json st')) msg (d_b s) o) \/
  (o = Done (Err (Crypto TooManySkipped), d_b s, []) /\
   exists st header, session_of ib ia (d_b s) = Some st /\
     wire_to_ratchet_header (env_ratchet_header env) = Ok header /\ ~ within_skip st header).
Proof. apply dm_deliver. Qed.

(** C11: the Noise handshake over a network that leads to the peer gives both
    databases the matching initial sessions: the pair is where
    [dm_refines_ratchet] starts. *)
Theorem dm_handshake_establishes `{RatchetPrims, !RatchetLaws, !DmPrimsLaws, SnowLib, !SnowLibLaws,
    Base64, !Base64Laws, HexCodec, !HexLaws, Sha, SqlOrder, !SqlOrderLaws,
    !Serde (list MediaAttachment), !Serde (list string), !Serde RatchetState,
    !SerdeLaws RatchetState, !JsonText RatchetState, !Serde EncryptedEnvelope, !Wire DmPayload,
    !WireLaws DmPayload, !Wire DmHandshake, !WireLaws DmHandshake}
    net now now' nonce nonce' rnd ia ib da db t ts :
  dm_keys ia -> dm_keys ib -> length nonce = 12%nat -> length nonce' = 12%nat ->
  is_Some (short_id (id_dm_pubkey ia)) -> is_Some (short_id (id_master_pubkey ib)) ->
  knows ib da -> knows ia db -> get_ratchet_session da (id_dm_pubkey ib) = None ->
  get_peer_transport_node_ids da (id_master_pubkey ib) = Ok (t :: ts) ->
  answers net now' nonce' ib db ->
  (forall t h resp, nw_handshake net t h = Ok resp -> Z.of_nat (length resp) <= 65536) ->
  exists ss noise_message resp da' db',
    handle_handshake now' nonce' ib (id_dm_pubkey ia) noise_message db = Done (Ok resp, db', []) /\
    get_or_establish_session net now nonce rnd ia (id_master_pubkey ib) da =
      Done (Ok (init_alice ss (x25519_base (id_dm_x25519_private ib)) rnd, id_dm_pubkey ib), da', []) /\
    dm_rel ia ib {| d_a := da'; d_b := db'; fly_b := []; fly_a := [];
        d_used := [x25519_base rnd; x25519_base (id_dm_x25519_private ib)] |}
      (net_init ss rnd (id_dm_x25519_private ib)).
Proof. apply establish_session. Qed.

(** a message whose content is longer than 80 bytes with byte 77 inside a
    character can neither be sent (the command panics before it stores or sends
    anything) nor received (the handler panics before it stores anything); no
    other content makes the preview panic. *)
Theorem dm_preview_panics `{RatchetPrims, SnowLib, Base64, HexCodec, Sha, SqlOrder,
    !Serde (list MediaAttachment), !Serde (list string), !Serde RatchetState,
    !Serde EncryptedEnvelope, !Wire DmPayload, !Wire DmHandshake} (content : string) :
  (preview content = None <->
   80 < str_len content /\ is_char_boundary (String.list_ascii_of_string content) 77 = false) /\
  (preview content = None ->
   (forall net now nonce rnd nonce' msg_id outbox_id me to media reply_to d,
      send_dm_command net now nonce rnd nonce' msg_id outbox_id me to content media reply_to d = Panicked d []) /\
   (forall now me peer sealed msg d, dm_content msg = content -> knows peer d ->
      handle_payload now me (id_dm_pubkey peer) sealed (Message msg) d = Panicked d [])).
Proof.
  split; [apply preview_None|]. intros Hp. split.
  - intros. unfold send_dm_command. rewrite run_log. destruct (short_id to); [|done].
    by rewrite run_or_panic, Hp.
  - intros now me peer sealed msg d <- [_ Hk]. unfold handle_payload.
    by rewrite run_get, run_some_or_log, Hk, run_or_panic, Hp.
Qed.

(** the acknowledgement does not say that the message was handled.  When
    the handler fails, the receiver's database is unchanged and the envelope is
    acknowledged all the same; the sender then marks the message as delivered
    and keeps nothing in its outbox. *)
Theorem dm_acked_though_lost `{RatchetPrims, SnowLib, Base64, HexCodec, Sha, SqlOrder,
    !Serde (list MediaAttachment), !Serde (list string), !Serde RatchetState,
    !Serde EncryptedEnvelope, !Wire DmPayload, !Wire DmHandshake}
    now nonce rnd ib remote env d e d' ev x :
  handle_encrypted_message now nonce rnd ib (env_sender env) env d = Done (Err e, d', ev) ->
  short_id remote = Some x ->
  is_blocked d (default remote (get_master_pubkey_for_transport d remote)) = false ->
  accept_dm now nonce rnd ib remote (DmEnvelope env) d = Done (Ok AckReply, d', ev) /\
  (forall net now nonce rnd nonce' outbox_id ia peer msg da da' ev' t ts y,
     encrypt_and_save net now nonce rnd nonce' ia peer (Message msg) da = Done (Ok env, da', ev') ->
     get_peer_transport_node_ids da' peer = Ok (t :: ts) -> nw_send net t env = Ok tt ->
     short_id peer = Some y ->
     send_dm net now nonce rnd nonce' outbox_id ia peer msg da =
       Done (Ok tt, mark_dm_delivered (dm_id msg) da', ev' ++ ["dm-delivered"%string])).
Proof.
  intros Hh Hx Hb. split.
  - unfold accept_dm. rewrite run_log, Hx, run_get, Hb, run_bind, Hh.
    cbv beta iota. rewrite run_log, Hx, run_lift. cbn. by rewrite app_nil_r.
  - intros net now1 nonce1 rnd1 nonce1' ob ia peer msg da da' ev' t ts y He Ht Hs Hy.
    unfold send_dm. rewrite run_try, He, run_bind. unfold try_send_envelope.
    rewrite run_get, run_try_lift, Ht, run_some_or_log. cbn [head]. rewrite run_lift, Hs.
    rewrite run_log, Hy. done.
Qed.

(** the side that answered a handshake cannot send before it has received a
    message: [encrypt] panics for want of a sending chain. *)
Theorem dm_responder_cannot_send_first `{RatchetPrims, !RatchetLaws, !DmPrimsLaws, SnowLib, Base64,
    !Base64Laws, HexCodec, !HexLaws, Sha, SqlOrder, !SqlOrderLaws, !Serde (list MediaAttachment),
    !Serde (list string), !Serde RatchetState, !SerdeLaws RatchetState, !JsonText RatchetState,
    !Serde EncryptedEnvelope, !Wire DmPayload, !Wire DmHandshake}
    net now nonce rnd nonce' me peer payload d ss kp :
  session_of me peer d = Some (init_bob ss kp) -> knows peer d ->
  encrypt_and_save net now nonce rnd nonce' me (id_master_pubkey peer) payload d = Panicked d [].
Proof.
  intros Hs Hk. rewrite (encrypt_and_save_run _ _ _ _ _ _ _ _ _ _ Hs Hk).
  by destruct (short_id _).
Qed.

(** C10: a session is stored under a DM key only for the holder of its secret:
    when the handshake is answered, the static key that Noise authenticated is
    the claimed one and the stored session is the responder's for that
    handshake; otherwise the database is as before. *)
Theorem dm_handshake_authenticated `{RatchetPrims, SnowLib, Base64, HexCodec, Sha, SqlOrder,
    !Serde (list MediaAttachment), !Serde (list string), !Serde RatchetState,
    !Serde EncryptedEnvelope, !Wire DmPayload, !Wire DmHandshake}
    now nonce me sender m d :
  match handle_handshake now nonce me sender m d with
  | Done (Ok resp, d', _) => exists hs response ss k,
      noise_respond (id_dm_x25519_private me) m = Ok (hs, response) /\
      noise_complete_responder hs = Ok (ss, Some k) /\ dm_pubkey_to_x25519 sender = Ok k /\
      resp = to_vec (HsResponse response) /\
      d' = save_ratchet_session sender (seal_ratchet_state nonce (id_ratchet_storage_key me)
             (to_json (init_bob ss (id_dm_x25519_private me, id_dm_x25519_public me)))) now d
  | Done (Err _, d', _) | Panicked d' _ => d' = d
  end.
Proof.
  unfold handle_handshake, save_session. rewrite run_log. destruct (short_id sender) eqn:Es; [|done].
  rewrite run_try_lift. destruct (noise_respond _ _) as [[hs m2]|]; [|done].
  rewrite run_try_lift. destruct (noise_complete_responder hs) as [[ss k]|] eqn:Ec; [|done].
  rewrite run_try_lift. destruct (dm_pubkey_to_x25519 sender) as [c|]; [|done].
  rewrite run_try_lift. destruct k as [k|]; [|done].
  destruct (bool_decide (k <> c)) eqn:Ek; [done|]. cbn [bail_if].
  apply bool_decide_eq_false, dec_stable in Ek as ->.
  rewrite run_store, run_log, Es, run_lift. by exists hs, m2, ss, c.
Qed.

(** ** Witnesses *)

Definition alice_id : Identity :=
  {| id_master_pubkey := "kalice"; id_dm_pubkey := hex_encode (x25519_base [3]);
     id_dm_x25519_private := [3]; id_dm_x25519_public := x25519_base [3];
     id_ratchet_storage_key := [33] |}.
Definition bob_id : Identity :=
  {| id_master_pubkey := "kbob"; id_dm_pubkey := hex_encode (x25519_base [5]);
     id_dm_x25519_private := [5]; id_dm_x25519_public := x25519_base [5];
     id_ratchet_storage_key := [55] |}.
Definition identity_of (x : Identity) (transport : string) : IdentityResponse :=
  {| ir_master_pubkey := id_master_pubkey x;
     ir_delegation := {| dl_master_pubkey := id_master_pubkey x; dl_signing_pubkey := id_master_pubkey x;
       dl_key_index := 0; dl_dm_pubkey := id_dm_pubkey x; dl_dm_key_index := 0; dl_issued_at := 1;
       dl_signature := "" |};
     ir_transport_node_ids := [transport]; ir_profile := None |}.
Definition alice_db : Db := cache_peer_identity 1 (identity_of bob_id "tbob") empty_db.
Definition bob_db : Db := cache_peer_identity 1 (identity_of alice_id "talice") empty_db.
Definition nonce_0 : bytes := replicate 12 0.
Definition to_bob : Network :=
  {| nw_handshake t h :=
       match h with
       | HsInit m s => match handle_handshake 7 nonce_0 bob_id s m bob_db with
                       | Done (Ok resp, _, _) => Ok resp
                       | Done (Err e, _, _) => Err e
                       | Panicked _ _ => Err (Other "connection lost")
                       end
       | HsResponse _ => Err (Other "connection lost")
       end;
     nw_send _ _ := Ok tt |}.


(** A session and one message in flight. *)
Definition alice_ready : Db :=
  save_ratchet_session (id_dm_pubkey bob_id) (seal_ratchet_state nonce_0 [33]
    (to_json (init_alice [9] (x25519_base [5]) [1; 2]))) 7 alice_db.
Definition bob_ready : Db :=
  save_ratchet_session (id_dm_pubkey alice_id) (seal_ratchet_state nonce_0 [55]
    (to_json (init_bob [9] ([5], x25519_base [5])))) 7 bob_db.
Definition start : dm_net :=
  {| d_a := alice_ready; d_b := bob_ready; fly_b := []; fly_a := [];
     d_used := [x25519_base [1; 2]; x25519_base [5]] |}.
Definition hi : DirectMessage :=
  {| dm_id := "m1"; dm_content := "hi"; dm_timestamp := 9; dm_media := []; dm_reply_to := None |}.
Definition sent_hi : option (EncryptedEnvelope * Db) :=
  '(st, (h, c)) ← encrypt (init_alice [9] (x25519_base [5]) [1; 2]) (to_vec (Message hi));
  Some ({| env_sender := id_dm_pubkey alice_id; env_ratchet_header := ratchet_header_to_wire h;
           env_ciphertext := c |},
        save_ratchet_session (id_dm_pubkey bob_id) (seal_ratchet_state nonce_0 [33] (to_json st)) 8
          alice_ready).

Lemma start_rel : dm_rel alice_id bob_id start (net_init [9] [1; 2] [5]).
Proof.
  split; [by apply (session_saved alice_id bob_id 7 nonce_0)
    |by apply (session_saved bob_id alice_id 7 nonce_0)|done..].
Qed.

Lemma send_hi net rnd d' env :
  sent_hi = Some (env, d') ->
  encrypt_and_save net 8 nonce_0 rnd nonce_0 alice_id "kbob" (Message hi) alice_ready =
    Done (Ok env, d', []).
Proof.
  intros Hs. rewrite (encrypt_and_save_run net 8 nonce_0 rnd nonce_0 alice_id bob_id (Message hi)
    alice_ready _ (dr_a _ _ _ _ start_rel) (dr_knows_a _ _ _ _ start_rel)).
  unfold sent_hi in Hs. cbn [na net_init].
  destruct (encrypt _ _) as [[st [h c]]|]; [|done]. cbn in Hs |- *. by injection Hs as <- <-.
Qed.

Lemma hi_reachable env d' :
  sent_hi = Some (env, d') ->
  dm_reachable alice_id bob_id {| d_a := d'; d_b := bob_ready; fly_b := [(env, Message hi)]; fly_a := [];
    d_used := d_used start |}.
Proof.
  intros Hs. exists start, [9], [1; 2], [5]. split; [done|]. split; [apply start_rel|].
  apply rtc_once. left. apply (dms_send _ _ start to_bob 8 nonce_0 [] nonce_0 _ _ _ []); [done| |by apply send_hi].
  intros st Hst. pose proof (eq_trans (eq_sym Hst) (dr_a _ _ _ _ start_rel)) as Hst'. by injection Hst' as ->.
Qed.

Lemma dm_handshake_establishes_witness :
  exists ss m resp da db,
    handle_handshake 7 nonce_0 bob_id (id_dm_pubkey alice_id) m bob_db = Done (Ok resp, db, []) /\
    get_or_establish_session to_bob 7 nonce_0 [1; 2] alice_id (id_master_pubkey bob_id) alice_db =
      Done (Ok (init_alice ss (x25519_base [5]) [1; 2], id_dm_pubkey bob_id), da, []) /\
    dm_rel alice_id bob_id {| d_a := da; d_b := db; fly_b := []; fly_a := [];
        d_used := [x25519_base [1; 2]; x25519_base [5]] |} (net_init ss [1; 2] [5]).
Proof.
  apply (dm_handshake_establishes to_bob 7 7 nonce_0 nonce_0 [1; 2] alice_id bob_id alice_db bob_db
    "tbob" []).
  - by split.
  - by split.
  - reflexivity.
  - reflexivity.
  - eexists; vm_compute; reflexivity.
  - eexists; vm_compute; reflexivity.
  - split; vm_compute; reflexivity.
  - split; vm_compute; reflexivity.
  - vm_compute. reflexivity.
  - vm_compute. reflexivity.
  - intros t m s. reflexivity.
  - intros t [m s|m] resp; [|done]. cbn [nw_handshake to_bob].
    destruct (handle_handshake _ _ _ _ _ _) as [[[[r|e] ?] ?]|] eqn:E; [|done..].
    intros [= <-]. apply handle_handshake_resp in E as [m' ->]. done.
Defined.

Lemma dm_refines_ratchet_witness :
  exists env d' n, sent_hi = Some (env, d') /\ net_reachable n /\
    dm_rel alice_id bob_id {| d_a := d'; d_b := bob_ready; fly_b := [(env, Message hi)]; fly_a := [];
      d_used := d_used start |} n.
Proof.
  destruct sent_hi as [[env d']|] eqn:Hs; [|discriminate Hs].
  destruct (dm_refines_ratchet _ _ _ (hi_reachable env d' Hs)) as ((n & Hn & Hr) & _).
  by exists env, d', n.
Defined.

Lemma dm_delivery_witness :
  exists env d', sent_hi = Some (env, d') /\
    let o := handle_encrypted_message 9 nonce_0 [4] bob_id (env_sender env) env bob_ready in
    ((exists st' : RatchetState, message_handled 9 bob_id alice_id
        (seal_ratchet_state nonce_0 [55] (to_json st')) hi bob_ready o) \/
     (o = Done (Err (Crypto TooManySkipped), bob_ready, []) /\
      exists st header, session_of bob_id alice_id bob_ready = Some st /\
        wire_to_ratchet_header (env_ratchet_header env) = Ok header /\ ~ within_skip st header)).
Proof.
  destruct sent_hi as [[env d']|] eqn:Hs; [|discriminate Hs]. exists env, d'. split; [done|].
  eapply (dm_delivery alice_id bob_id _ env hi 9 nonce_0 [4] (hi_reachable env d' Hs)).
  - cbn [fly_b]. by left.
  - cbn [d_used start]. vm_compute. intros H. by repeat (inversion H as [|? ? ? H']; subst; clear H; rename H' into H).
Defined.

Lemma dm_acked_though_lost_witness :
  exists env d',
    sent_hi = Some (env, d') /\
    accept_dm 9 nonce_0 [4] bob_id "talice" (DmEnvelope env) bob_db = Done (Ok AckReply, bob_db, []) /\
    send_dm to_bob 8 nonce_0 [] nonce_0 "o1" alice_id "kbob" hi alice_ready =
      Done (Ok tt, mark_dm_delivered "m1" d', ["dm-delivered"%string]).
Proof.
  destruct sent_hi as [[env d']|] eqn:Hs; [|discriminate Hs]. exists env, d'. split; [done|].
  destruct (dm_acked_though_lost 9 nonce_0 [4] bob_id "talice" env bob_db (Other "no session") bob_db []
    "talice") as [Ha Hd].
  - unfold sent_hi in Hs. destruct (encrypt _ _) as [[? [? ?]]|]; [|done]. cbn in Hs.
    injection Hs as <- _. reflexivity.
  - reflexivity.
  - vm_compute. reflexivity.
  - split; [exact Ha|].
    apply (Hd to_bob 8 nonce_0 [] nonce_0 "o1"%string alice_id "kbob"%string hi alice_ready d' [] "tbob"%string
      [] "kbob"%string); [by apply send_hi| |reflexivity..].
    unfold sent_hi in Hs. destruct (encrypt _ _) as [[? [? ?]]|]; [|done]. cbn in Hs.
    injection Hs as _ <-. vm_compute. reflexivity.
Defined.

Lemma dm_responder_cannot_send_first_witness :
  encrypt_and_save to_bob 8 nonce_0 [] nonce_0 bob_id (id_master_pubkey alice_id) Typing bob_ready = Panicked bob_ready [].
Proof.
  apply (dm_responder_cannot_send_first to_bob 8 nonce_0 [] nonce_0 bob_id alice_id Typing bob_ready [9]
    ([5], x25519_base [5])).
  - apply (dr_b _ _ _ _ start_rel).
  - apply (dr_knows_b _ _ _ _ start_rel).
Defined.

(** Eve, with the secret [4], claims the key of alice. *)
Lemma dm_handshake_authenticated_witness :
  match handle_handshake 7 nonce_0 bob_id (id_dm_pubkey alice_id) (x25519_base [4]) bob_db with
  | Done (Err e, d, _) => e = Other "sender mismatch" /\ d = bob_db
  | _ => False
  end.
Proof.
  pose proof (dm_handshake_authenticated 7 nonce_0 bob_id (id_dm_pubkey alice_id) (x25519_base [4]) bob_db) as Hd.
  destruct (handle_handshake _ _ _ _ _ _) as [[[r d] ev]|] eqn:E; [|discriminate E].
  destruct r as [resp|e]; [discriminate E|]. split; [by injection E|exact Hd].
Defined.
