(* ===== verification/Audio.v ===== *)
(** * Audio frames

    Model of [src-tauri/src/audio/transport.rs], [codec.rs] and [aec.rs]: the
    wire format of audio frames, and the buffers that cut a stream of samples
    into frames.  The Opus codec and the echo canceller are parameters; a sample
    is of any type. *)

From S2P Require Import Prelude Types Store Framing.

Local Open Scope Z_scope.

(** ** transport.rs *)

Definition HEADER_SIZE : nat := 9.
Definition TAG_NORMAL : Z := 0.
Definition TAG_CHECKPOINT : Z := 1.

Record AudioFrame : Type := {
  af_seq : Z; (* u32 *)
  af_timestamp : Z; (* u32 *)
  af_tag : Z; (* u8 *)
  af_payload : bytes;
}.

Definition encode_audio_frame (f : AudioFrame) : bytes :=
  be_bytes 4 (af_seq f) ++ be_bytes 4 (af_timestamp f) ++ [af_tag f] ++ af_payload f.

Definition decode_audio_frame (buf : bytes) : result AppError AudioFrame :=
  _ ← bail_if (length buf <? HEADER_SIZE)%nat (Other "audio frame too short");
  Ok {| af_seq := from_be (take 4 buf); af_timestamp := from_be (take 4 (drop 4 buf));
        af_tag := nth 8 buf 0; af_payload := drop HEADER_SIZE buf |}.

Definition as_u16 (x : Z) : Z := x mod 2 ^ 16.

(** The bytes written to the stream: the length is cast to [u16]. *)
Definition write_audio_frame (f : AudioFrame) : bytes :=
  let frame := encode_audio_frame f in
  be_bytes 2 (as_u16 (Z.of_nat (length frame))) ++ frame.

(** [stream] is what the peer wrote until it finished the stream.  [closed] says
    whether the library reports [ClosedStream] at its end, which is [Ok (None, _)],
    or another error. *)
Definition read_audio_frame (closed : bool) (stream : bytes)
    : result AppError (option AudioFrame * bytes) :=
  if bool_decide (stream = []) && closed then Ok (None, [])
  else
    '(len_buf, rest) ← read_exact 2 stream;
    let len := from_be len_buf in
    _ ← bail_if (len <? Z.of_nat HEADER_SIZE) (Other "audio frame length too short");
    '(buf, rest) ← read_exact (Z.to_nat len) rest;
    f ← decode_audio_frame buf;
    Ok (Some f, rest).

(** The frames a reader gets from a finished stream, and whether it ended with
    [None]. *)
Fixpoint read_audio_frames (fuel : nat) (closed : bool) (stream : bytes) : list AudioFrame * bool :=
  match fuel with
  | O => ([], false)
  | S fuel =>
      match read_audio_frame closed stream with
      | Ok (Some f, rest) => let '(fs, ok) := read_audio_frames fuel closed rest in (f :: fs, ok)
      | Ok (None, _) => ([], true)
      | Err _ => ([], false)
      end
  end.

Definition frame_wf (f : AudioFrame) : Prop :=
  is_u32 (af_seq f) /\ is_u32 (af_timestamp f) /\ is_u8 (af_tag f).

(** ** codec.rs *)

Definition SAMPLE_RATE : Z := 48000.
Definition FRAME_DURATION_MS : Z := 20.
Definition SAMPLES_PER_FRAME : Z := SAMPLE_RATE * FRAME_DURATION_MS / 1000.
Definition FRAME_SIZE : nat := Z.to_nat SAMPLES_PER_FRAME.

(** [buf.extend(samples)], then the oldest samples beyond [cap] are drained. *)
Definition extend_capped {S} (cap : nat) (buf samples : list S) : list S :=
  let buf := buf ++ samples in drop (length buf - cap) buf.

(** [while buf.len() >= n { f(buf.drain(..n)) }]: the frames and the rest.  The
    length of the buffer is enough fuel for [0 < n]. *)
Fixpoint drain_frames {S} (fuel n : nat) (buf : list S) : list (list S) * list S :=
  match fuel with
  | O => ([], buf)
  | Datatypes.S fuel =>
      if (n <=? length buf)%nat then
        let '(frames, rest) := drain_frames fuel n (drop n buf) in (take n buf :: frames, rest)
      else ([], buf)
  end.

(** The encoder of the opus crate: its state and [encode_float], [None] for an
    error. *)
Class OpusLib (Sample : Type) := {
  Encoder : Type;
  encode_float : Encoder -> list Sample -> Encoder * option bytes;
}.

Section encoder.
Context {Sample : Type} `{OpusLib Sample}.

Record OpusEncoder : Type := {
  oe_encoder : Encoder;
  oe_buffer : list Sample;
}.

(** The packets of the frames; an encoding error is only logged. *)
Fixpoint encode_frames (e : Encoder) (frames : list (list Sample)) : Encoder * list bytes :=
  match frames with
  | [] => (e, [])
  | f :: frames =>
      let '(e, out) := encode_float e f in
      let '(e, packets) := encode_frames e frames in
      (e, match out with Some p => p :: packets | None => packets end)
  end.

Definition push_samples (enc : OpusEncoder) (samples : list Sample) : OpusEncoder * list bytes :=
  let buffer := extend_capped (FRAME_SIZE * 10) (oe_buffer enc) samples in
  let '(frames, rest) := drain_frames (length buffer) FRAME_SIZE buffer in
  let '(e, packets) := encode_frames (oe_encoder enc) frames in
  ({| oe_encoder := e; oe_buffer := rest |}, packets).
End encoder.
Arguments OpusEncoder Sample {_}.

(** ** aec.rs *)

Definition FRAME_SAMPLES : nat := 480.

(** The canceller of the aec3 crate. *)
Class Aec3 (Sample : Type) := {
  EchoCanceller3 : Type;
  analyze_render : EchoCanceller3 -> list Sample -> EchoCanceller3;
  aec_process : EchoCanceller3 -> list Sample -> EchoCanceller3 * list Sample;
}.

Section aec.
Context {Sample : Type} `{Aec3 Sample}.

Record EchoCanceller : Type := {
  ec_inner : EchoCanceller3;
  ec_render_buf : list Sample;
  ec_capture_buf : list Sample;
}.

Definition render (ec : EchoCanceller) (samples : list Sample) : EchoCanceller :=
  let buf := ec_render_buf ec ++ samples in
  let '(frames, rest) := drain_frames (length buf) FRAME_SAMPLES buf in
  {| ec_inner := fold_left analyze_render frames (ec_inner ec); ec_render_buf := rest;
     ec_capture_buf := ec_capture_buf ec |}.

Fixpoint process_frames (e : EchoCanceller3) (frames : list (list Sample))
    : EchoCanceller3 * list Sample :=
  match frames with
  | [] => (e, [])
  | f :: frames =>
      let '(e, cleaned) := aec_process e f in
      let '(e, out) := process_frames e frames in
      (e, cleaned ++ out)
  end.

Definition process_capture (ec : EchoCanceller) (samples : list Sample) : EchoCanceller * list Sample :=
  let buf := ec_capture_buf ec ++ samples in
  let '(frames, rest) := drain_frames (length buf) FRAME_SAMPLES buf in
  let '(e, out) := process_frames (ec_inner ec) frames in
  ({| ec_inner := e; ec_render_buf := ec_render_buf ec; ec_capture_buf := rest |}, out).
End aec.
Arguments EchoCanceller Sample {_}.

(** ** Facts *)

Lemma encode_length f : length (encode_audio_frame f) = (9 + length (af_payload f))%nat.
Proof. unfold encode_audio_frame. rewrite !length_app, !length_be_bytes. cbn. lia. Qed.

Lemma decode_encode_frame f : frame_wf f -> decode_audio_frame (encode_audio_frame f) = Ok f.
Proof.
  intros (Hs & Ht & Hg). unfold decode_audio_frame. rewrite encode_length.
  destruct (Nat.ltb_spec (9 + length (af_payload f)) HEADER_SIZE) as [Hl|_];
    [unfold HEADER_SIZE in Hl; lia|]. cbn [bail_if].
  unfold mbind, result_bind, encode_audio_frame, HEADER_SIZE.
  pose proof (length_be_bytes 4 (af_seq f)) as L1. pose proof (length_be_bytes 4 (af_timestamp f)) as L2.
  rewrite take_app_length' by done. rewrite drop_app_length' by done.
  rewrite take_app_length' by done.
  rewrite app_nth2 by lia. rewrite L1. change (8 - 4)%nat with 4%nat. rewrite app_nth2 by lia.
  rewrite L2. rewrite !from_be_be_bytes. change (256 ^ Z.of_nat 4) with (2 ^ 32).
  unfold is_u32 in *. rewrite !Z.mod_small by lia.
  replace (drop 9 _) with (af_payload f); [by destruct f|].
  change 9%nat with (4 + (4 + 1))%nat. rewrite <-!drop_drop, drop_app_length', drop_app_length' by done.
  done.
Qed.

(** The length of a frame fits its prefix. *)
Definition frame_fits (f : AudioFrame) : Prop := Z.of_nat (length (af_payload f)) <= 65526.

Lemma read_write_audio closed f rest :
  frame_wf f -> frame_fits f ->
  read_audio_frame closed (write_audio_frame f ++ rest) = Ok (Some f, rest).
Proof.
  intros Hwf Hfit. unfold read_audio_frame, write_audio_frame, frame_fits in *.
  set (len := Z.of_nat (length (encode_audio_frame f))).
  assert (9 <= len < 2 ^ 16) as Hlen by (unfold len; rewrite encode_length; lia).
  rewrite bool_decide_eq_false_2 by done. cbn [andb].
  pose proof (read_exact_app (be_bytes 2 (as_u16 len)) (encode_audio_frame f ++ rest)) as E.
  rewrite length_be_bytes in E. rewrite <-app_assoc, E. unfold mbind, result_bind.
  rewrite from_be_be_bytes. unfold as_u16. change (256 ^ Z.of_nat 2) with (2 ^ 16).
  rewrite Z.mod_mod, Z.mod_small by lia.
  rewrite (proj2 (Z.ltb_ge _ _)) by (unfold HEADER_SIZE; lia). cbn [bail_if].
  unfold len. rewrite Nat2Z.id, read_exact_app. by rewrite decode_encode_frame.
Qed.

Lemma read_written_frames closed fs fuel :
  Forall frame_wf fs -> Forall frame_fits fs -> (length fs < fuel)%nat ->
  read_audio_frames fuel closed (concat (write_audio_frame <$> fs)) = (fs, closed).
Proof.
  intros Hwf. revert fuel. induction Hwf as [|f fs Hf _ IH]; intros fuel Hfit Hfuel;
    (destruct fuel as [|fuel]; [cbn in Hfuel; lia|]).
  - cbn. by destruct closed.
  - inversion Hfit as [|? ? Hf1 Hf2]; subst. cbn [fmap list_fmap concat read_audio_frames].
    rewrite read_write_audio by done. by rewrite IH by (cbn in Hfuel; try lia; done).
Qed.

(** A longer frame: the prefix holds the length modulo [2^16]. *)
Lemma read_overlong_frame closed f rest :
  65527 <= Z.of_nat (length (af_payload f)) < 65536 ->
  read_audio_frame closed (write_audio_frame f ++ rest) =
    Err (Other "audio frame length too short").
Proof.
  intros Hlen. unfold read_audio_frame, write_audio_frame.
  rewrite bool_decide_eq_false_2 by done. cbn [andb].
  set (len := Z.of_nat (length (encode_audio_frame f))).
  pose proof (read_exact_app (be_bytes 2 (as_u16 len)) (encode_audio_frame f ++ rest)) as E.
  rewrite length_be_bytes in E. rewrite <-app_assoc, E. unfold mbind, result_bind.
  rewrite from_be_be_bytes. unfold as_u16. change (256 ^ Z.of_nat 2) with (2 ^ 16).
  rewrite Z.mod_mod by lia.
  assert (len mod 2 ^ 16 = len - 65536) as -> by
    (unfold len; rewrite encode_length; symmetry; apply (Z.mod_unique _ _ 1); lia).
  rewrite (proj2 (Z.ltb_lt _ _)); [done|]. unfold len, HEADER_SIZE. rewrite encode_length. lia.
Qed.

(** ** Chunks of samples *)

Section drain.
Context {S : Type} (n : nat) (Hn : (0 < n)%nat).

Lemma drain_frames_fuel fuel fuel' (buf : list S) :
  (length buf <= fuel)%nat -> (length buf <= fuel')%nat ->
  drain_frames fuel n buf = drain_frames fuel' n buf.
Proof.
  revert fuel' buf. induction fuel as [|fuel IH]; intros [|fuel'] buf H1 H2;
    cbn [drain_frames]; try done.
  - destruct buf; [cbn [length]|cbn in *; lia]. destruct (Nat.leb_spec n 0); [lia|done].
  - destruct buf; [cbn [length]|cbn in *; lia]. destruct (Nat.leb_spec n 0); [lia|done].
  - destruct (Nat.leb_spec n (length buf)); [|done].
    rewrite (IH fuel'); [done|cbn [length] in *; rewrite length_drop; cbn [length]; lia..].
Qed.

Definition frames_of (buf : list S) : list (list S) * list S := drain_frames (length buf) n buf.

Lemma frames_of_short buf : (length buf < n)%nat -> frames_of buf = ([], buf).
Proof.
  intros Hs. unfold frames_of. destruct (length buf) eqn:E; cbn; [done|].
  rewrite (proj2 (Nat.leb_gt _ _)) by lia. done.
Qed.
Lemma frames_of_long buf :
  (n <= length buf)%nat ->
  frames_of buf = (take n buf :: (frames_of (drop n buf)).1, (frames_of (drop n buf)).2).
Proof.
  intros Hl. unfold frames_of at 1. destruct (length buf) eqn:E; [lia|]. cbn [drain_frames].
  rewrite E, (proj2 (Nat.leb_le _ _)) by lia.
  rewrite (drain_frames_fuel _ (length (drop n buf))) by (rewrite length_drop; lia).
  unfold frames_of. by destruct (drain_frames _ _ _).
Qed.

(** Induction on the number of frames in a buffer. *)
Lemma frames_ind (P : list S -> Prop) :
  (forall buf, (length buf < n)%nat -> P buf) ->
  (forall buf, (n <= length buf)%nat -> P (drop n buf) -> P buf) -> forall buf, P buf.
Proof.
  intros Hs Hl buf. remember (length buf) as m eqn:E. revert buf E.
  induction (lt_wf m) as [m _ IH]. intros buf ->.
  destruct (Nat.lt_ge_cases (length buf) n); [by apply Hs|]. apply Hl; [done|].
  eapply IH; [|done]. rewrite length_drop. lia.
Qed.

Lemma frames_of_rest buf : (length (frames_of buf).2 < n)%nat.
Proof.
  induction buf as [buf H|buf H IH] using frames_ind; [by rewrite frames_of_short|].
  by rewrite frames_of_long.
Qed.

Lemma frames_of_whole buf :
  concat (frames_of buf).1 ++ (frames_of buf).2 = buf /\ Forall (fun f => length f = n) (frames_of buf).1.
Proof.
  induction buf as [buf H|buf H [IH1 IH2]] using frames_ind; [by rewrite frames_of_short|].
  rewrite frames_of_long by done. cbn [fst snd concat]. split.
  - by rewrite <-app_assoc, IH1, take_drop.
  - constructor; [rewrite length_take; lia|done].
Qed.

(** Samples that arrive later continue the rest. *)
Lemma frames_of_app buf more :
  frames_of (buf ++ more) =
    ((frames_of buf).1 ++ (frames_of ((frames_of buf).2 ++ more)).1,
     (frames_of ((frames_of buf).2 ++ more)).2).
Proof.
  induction buf as [buf H|buf H IH] using frames_ind.
  - rewrite (frames_of_short buf) by done. apply surjective_pairing.
  - rewrite (frames_of_long (buf ++ more)) by (rewrite length_app; lia).
    rewrite take_app_le, drop_app_le by done. rewrite IH. by rewrite (frames_of_long buf H).
Qed.
End drain.
Global Arguments frames_of {S} n buf.
