(* ===== verification/AudioTheorems.v ===== *)
(** * Audio frames: theorems

    Frames written to a stream are read back; how the samples are cut into
    chunks does not change the packets or the echo-cancelled signal. *)

From S2P Require Import Prelude Types Store Framing Audio.

Local Open Scope Z_scope.

Section encoder.
Context {Sample : Type} `{OpusLib Sample}.

(** The packets of several chunks, pushed one after the other. *)
Fixpoint push_chunks (enc : OpusEncoder Sample) (chunks : list (list Sample))
    : OpusEncoder Sample * list bytes :=
  match chunks with
  | [] => (enc, [])
  | c :: chunks =>
      let '(enc, ps) := push_samples enc c in
      let '(enc, qs) := push_chunks enc chunks in (enc, ps ++ qs)
  end.

(** The reference: the whole signal cut into frames at once. *)
Definition encode_signal (enc : OpusEncoder Sample) (signal : list Sample)
    : OpusEncoder Sample * list bytes :=
  let '(frames, rest) := frames_of FRAME_SIZE (oe_buffer enc ++ signal) in
  let '(e, packets) := encode_frames (oe_encoder enc) frames in
  ({| oe_encoder := e; oe_buffer := rest |}, packets).

Lemma encode_frames_app e fs gs :
  encode_frames e (fs ++ gs) =
    let '(e, ps) := encode_frames e fs in let '(e, qs) := encode_frames e gs in (e, ps ++ qs).
Proof.
  revert e. induction fs as [|f fs IH]; intros e; cbn.
  - by destruct (encode_frames e gs).
  - destruct (encode_float e f) as [e' out]. rewrite IH.
    destruct (encode_frames e' fs) as [e2 ps]. destruct (encode_frames e2 gs) as [e3 qs].
    by destruct out.
Qed.

Lemma frame_size_pos : (0 < FRAME_SIZE)%nat.
Proof. unfold FRAME_SIZE. vm_compute. lia. Qed.

Lemma push_samples_signal enc c :
  (length (oe_buffer enc) < FRAME_SIZE)%nat -> (length c <= FRAME_SIZE * 9)%nat ->
  push_samples enc c = encode_signal enc c.
Proof.
  intros Hb Hc. unfold push_samples, encode_signal, extend_capped.
  rewrite length_app. replace (length (oe_buffer enc) + length c - FRAME_SIZE * 10)%nat with 0%nat by lia.
  by rewrite drop_0.
Qed.

Lemma encode_signal_buffer enc signal :
  (length (oe_buffer (encode_signal enc signal).1) < FRAME_SIZE)%nat.
Proof.
  unfold encode_signal. pose proof (frames_of_rest _ frame_size_pos (oe_buffer enc ++ signal)) as Hr.
  destruct (frames_of _ _) as [frames rest]. by destruct (encode_frames _ _).
Qed.

Lemma encode_signal_app enc c signal :
  encode_signal enc (c ++ signal) =
    let '(enc, ps) := encode_signal enc c in
    let '(enc, qs) := encode_signal enc signal in (enc, ps ++ qs).
Proof.
  unfold encode_signal. rewrite app_assoc, (frames_of_app _ frame_size_pos).
  destruct (frames_of FRAME_SIZE (oe_buffer enc ++ c)) as [f1 r1]. cbn [fst snd].
  rewrite encode_frames_app. destruct (encode_frames (oe_encoder enc) f1) as [e ps]. cbn [oe_buffer oe_encoder].
  destruct (frames_of FRAME_SIZE (r1 ++ signal)) as [f2 r2]. cbn [fst snd].
  by destruct (encode_frames e f2).
Qed.

Lemma push_chunks_signal enc chunks :
  (length (oe_buffer enc) < FRAME_SIZE)%nat ->
  Forall (fun c => length c <= FRAME_SIZE * 9)%nat chunks ->
  push_chunks enc chunks = encode_signal enc (concat chunks).
Proof.
  intros Hb Hc. revert enc Hb. induction Hc as [|c chunks Hc _ IH]; intros enc Hb; cbn [push_chunks concat].
  - unfold encode_signal. rewrite app_nil_r, (frames_of_short _ frame_size_pos) by done. by destruct enc.
  - rewrite encode_signal_app, push_samples_signal by done.
    pose proof (encode_signal_buffer enc c) as Hb'.
    destruct (encode_signal enc c) as [enc' ps]. by rewrite IH.
Qed.
End encoder.

Section aec.
Context {Sample : Type} `{Aec3 Sample}.

Fixpoint capture_chunks (ec : EchoCanceller Sample) (chunks : list (list Sample))
    : EchoCanceller Sample * list Sample :=
  match chunks with
  | [] => (ec, [])
  | c :: chunks =>
      let '(ec, out) := process_capture ec c in
      let '(ec, out') := capture_chunks ec chunks in (ec, out ++ out')
  end.

Lemma process_frames_app e fs gs :
  process_frames e (fs ++ gs) =
    let '(e, ps) := process_frames e fs in let '(e, qs) := process_frames e gs in (e, ps ++ qs).
Proof.
  revert e. induction fs as [|f fs IH]; intros e; cbn.
  - by destruct (process_frames e gs).
  - destruct (aec_process e f) as [e' out]. rewrite IH.
    destruct (process_frames e' fs) as [e2 ps]. destruct (process_frames e2 gs) as [e3 qs].
    by rewrite app_assoc.
Qed.

Lemma frame_samples_pos : (0 < FRAME_SAMPLES)%nat.
Proof. unfold FRAME_SAMPLES. lia. Qed.

Lemma process_capture_app ec c signal :
  process_capture ec (c ++ signal) =
    let '(ec, out) := process_capture ec c in
    let '(ec, out') := process_capture ec signal in (ec, out ++ out').
Proof.
  unfold process_capture. fold (frames_of FRAME_SAMPLES (ec_capture_buf ec ++ c ++ signal)).
  fold (frames_of FRAME_SAMPLES (ec_capture_buf ec ++ c)).
  rewrite app_assoc, (frames_of_app _ frame_samples_pos).
  destruct (frames_of FRAME_SAMPLES (ec_capture_buf ec ++ c)) as [f1 r1]. cbn [fst snd].
  rewrite process_frames_app. destruct (process_frames (ec_inner ec) f1) as [e ps].
  cbn [ec_capture_buf ec_inner ec_render_buf]. fold (frames_of FRAME_SAMPLES (r1 ++ signal)).
  destruct (frames_of FRAME_SAMPLES (r1 ++ signal)) as [f2 r2]. cbn [fst snd].
  by destruct (process_frames e f2).
Qed.

Lemma process_capture_buffer ec c :
  (length (ec_capture_buf (process_capture ec c).1) < FRAME_SAMPLES)%nat.
Proof.
  pose proof (frames_of_rest _ frame_samples_pos (ec_capture_buf ec ++ c)) as Hr.
  unfold process_capture. fold (frames_of FRAME_SAMPLES (ec_capture_buf ec ++ c)).
  destruct (frames_of _ _) as [f1 r1]. by destruct (process_frames _ _).
Qed.

Lemma capture_chunks_signal ec chunks :
  (length (ec_capture_buf ec) < FRAME_SAMPLES)%nat ->
  capture_chunks ec chunks = process_capture ec (concat chunks).
Proof.
  revert ec. induction chunks as [|c chunks IH]; intros ec Hb; cbn [capture_chunks concat].
  - unfold process_capture. rewrite app_nil_r. fold (frames_of FRAME_SAMPLES (ec_capture_buf ec)).
    rewrite (frames_of_short _ frame_samples_pos) by done. by destruct ec.
  - rewrite process_capture_app. pose proof (process_capture_buffer ec c) as Hb'.
    destruct (process_capture ec c) as [ec' out]. by rewrite IH.
Qed.
End aec.

(** ** Theorems *)

(** every frame that is written is read back, in order; the longest payload
    that survives is 65526 bytes: one a little longer wraps the [u16] length and
    the reader rejects it. *)
Theorem audio_stream_roundtrip closed fs fuel :
  Forall frame_wf fs -> (length fs < fuel)%nat ->
  (Forall frame_fits fs ->
   read_audio_frames fuel closed (concat (write_audio_frame <$> fs)) = (fs, closed)) /\
  (forall f rest, 65527 <= Z.of_nat (length (af_payload f)) < 65536 ->
   read_audio_frame closed (write_audio_frame f ++ rest) =
     Err (Other "audio frame length too short")).
Proof. intros Hwf Hf. split; [intros Hfit; by apply read_written_frames|]. intros; by apply read_overlong_frame. Qed.

(** the packets and the echo-cancelled signal do not depend on how the
    samples are cut into chunks: pushing chunks of at most nine frames equals
    framing the whole signal, nothing is dropped, and less than a frame waits. *)
Theorem chunking_equivalence {Sample} `{OpusLib Sample, Aec3 Sample}
    (enc : OpusEncoder Sample) (ec : EchoCanceller Sample) chunks :
  (length (oe_buffer enc) < FRAME_SIZE)%nat -> (length (ec_capture_buf ec) < FRAME_SAMPLES)%nat ->
  Forall (fun c => length c <= FRAME_SIZE * 9)%nat chunks ->
  push_chunks enc chunks = encode_signal enc (concat chunks) /\
  (length (oe_buffer (push_chunks enc chunks).1) < FRAME_SIZE)%nat /\
  capture_chunks ec chunks = process_capture ec (concat chunks).
Proof.
  intros Hb Hc Hch. rewrite push_chunks_signal by done. split; [done|].
  split; [apply encode_signal_buffer|by apply capture_chunks_signal].
Qed.

(** ** Witnesses *)

Definition sample_frames : list AudioFrame :=
  [{| af_seq := 7; af_timestamp := 960; af_tag := TAG_NORMAL; af_payload := [1; 2; 3] |};
   {| af_seq := 2 ^ 32 - 1; af_timestamp := 0; af_tag := TAG_CHECKPOINT; af_payload := [] |}].

Lemma audio_stream_roundtrip_witness :
  read_audio_frames 3 true (concat (write_audio_frame <$> sample_frames)) = (sample_frames, true).
Proof.
  apply (audio_stream_roundtrip true sample_frames 3).
  - unfold sample_frames, frame_wf, is_u32, is_u8. do 2 (constructor; [by repeat split|]). done.
  - cbn. lia.
  - unfold sample_frames, frame_fits. do 2 (constructor; [by repeat split|]). done.
Defined.

(** An encoder that keeps the frames, and a canceller that does nothing. *)
Definition echo_opus : OpusLib Z := {| Encoder := unit; encode_float e f := (e, Some f) |}.
Definition no_aec : Aec3 Z :=
  {| EchoCanceller3 := unit; analyze_render e _ := e; aec_process e f := (e, f) |}.

Lemma chunking_equivalence_witness :
  let enc : @OpusEncoder Z echo_opus := {| oe_encoder := tt : @Encoder Z echo_opus; oe_buffer := [] |} in
  (@push_chunks Z echo_opus enc [replicate 500 1; replicate 500 2]).2 = [replicate 500 1 ++ replicate 460 2].
Proof.
  intros enc.
  destruct (@chunking_equivalence Z echo_opus no_aec enc
    {| ec_inner := tt : @EchoCanceller3 Z no_aec; ec_render_buf := []; ec_capture_buf := [] |}
    [replicate 500 1; replicate 500 2]) as (E & _ & _).
  - vm_compute. lia.
  - vm_compute. lia.
  - repeat constructor; rewrite length_replicate; vm_compute; lia.
  - rewrite E. vm_compute. reflexivity.
Defined.
