(* ===== verification/StageAuth.v ===== *)
(** * Authentication of the mixed stream

    Model of [src-tauri/src/stage/auth.rs]: the host chains a hash over the Opus
    frames and signs it every [CHECKPOINT_INTERVAL] frames; a listener follows
    the chain.  [listen] is the part of [run_listener_once] of
    [stage/pipeline.rs] that splits a frame, checks it and plays it. *)

From S2P Require Import Prelude Types Signing Store Audio.

Local Open Scope Z_scope.

(** [SHA-256] of the sha2 crate. *)
Class Sha256 := { sha256 : bytes -> bytes }.
Class Sha256Laws `{Sha256} := { sha256_length b : length (sha256 b) = 32%nat }.

Definition CHECKPOINT_INTERVAL : Z := 50.
Definition CHECKPOINT_EXTRA : nat := 96.
Definition zero_hash : bytes := replicate 32 0.

Section auth.
Context `{Ed25519, Sha256}.

(** ** Host *)

Record HostAuthState : Type := {
  ha_chain_hash : bytes;
  ha_sequence : Z; (* u64 *)
  ha_signing_key : SecretKey;
}.

Definition host_auth_new (signing_key : SecretKey) : HostAuthState :=
  {| ha_chain_hash := zero_hash; ha_sequence := 0; ha_signing_key := signing_key |}.

(** [HostAuthState::process]: the tag and the wire payload. *)
Definition process (st : HostAuthState) (opus : bytes) : HostAuthState * (Z * bytes) :=
  let chain_hash := sha256 (ha_chain_hash st ++ opus) in
  let sequence := add_u64 (ha_sequence st) 1 in
  let st' := {| ha_chain_hash := chain_hash; ha_sequence := sequence;
                ha_signing_key := ha_signing_key st |} in
  if sequence mod CHECKPOINT_INTERVAL =? 0 then
    (st', (TAG_CHECKPOINT,
           chain_hash ++ sig_to_bytes (sk_sign (ha_signing_key st) chain_hash) ++ opus))
  else (st', (TAG_NORMAL, opus)).

(** The wire frames of a sequence of packets. *)
Fixpoint host_stream (st : HostAuthState) (packets : list bytes) : list (Z * bytes) :=
  match packets with
  | [] => []
  | opus :: packets => let '(st, wire) := process st opus in wire :: host_stream st packets
  end.

(** ** Listener *)

Inductive AuthResult : Type := AuthOk | Unverified | Verified | TamperDetected | InvalidSignature.

#[global] Instance AuthResult_eq_dec : EqDecision AuthResult.
Proof. solve_decision. Defined.

Record ListenerAuthState : Type := {
  la_chain_hash : bytes;
  la_verified : bool;
  la_compromised : bool;
  la_host_pubkey : PublicKey;
}.

Definition listener_auth_new (host_pubkey : PublicKey) : ListenerAuthState :=
  {| la_chain_hash := zero_hash; la_verified := false; la_compromised := false;
     la_host_pubkey := host_pubkey |}.

Definition set_compromised (st : ListenerAuthState) : ListenerAuthState :=
  {| la_chain_hash := la_chain_hash st; la_verified := la_verified st; la_compromised := true;
     la_host_pubkey := la_host_pubkey st |}.
Definition set_chain (h : bytes) (st : ListenerAuthState) : ListenerAuthState :=
  {| la_chain_hash := h; la_verified := true; la_compromised := la_compromised st;
     la_host_pubkey := la_host_pubkey st |}.

Definition verify_frame (st : ListenerAuthState) (opus : bytes) (tag_byte : Z)
    (checkpoint : option (bytes * bytes)) : ListenerAuthState * AuthResult :=
  if la_compromised st then (st, TamperDetected)
  else if negb (la_verified st) then
    match checkpoint with
    | None => (st, Unverified)
    | Some (wire_hash, wire_sig) =>
        if pk_verify (la_host_pubkey st) wire_hash (sig_from_bytes wire_sig)
        then (set_chain wire_hash st, Verified)
        else (set_compromised st, InvalidSignature)
    end
  else
    let st := set_chain (sha256 (la_chain_hash st ++ opus)) st in
    if tag_byte =? TAG_NORMAL then (st, AuthOk)
    else match checkpoint with
    | None => (st, AuthOk)
    | Some (wire_hash, wire_sig) =>
        if bool_decide (la_chain_hash st <> wire_hash) then (set_compromised st, TamperDetected)
        else if pk_verify (la_host_pubkey st) wire_hash (sig_from_bytes wire_sig)
        then (st, Verified)
        else (set_compromised st, InvalidSignature)
    end.

Definition decode_checkpoint_payload (payload : bytes)
    : result AppError (bytes * bytes * bytes) :=
  _ ← bail_if (length payload <? CHECKPOINT_EXTRA)%nat (Other "checkpoint payload too short");
  Ok (take 32 payload, take 64 (drop 32 payload), drop 96 payload).

(** Splits the checkpoint from the Opus bytes; [None] for a malformed one. *)
Definition split_frame (frame : Z * bytes) : option (option (bytes * bytes) * bytes) :=
  let '(tag, payload) := frame in
  if tag =? TAG_CHECKPOINT then
    match decode_checkpoint_payload payload with
    | Ok (hash, sig, opus) => Some (Some (hash, sig), opus)
    | Err _ => None
    end
  else Some (None, payload).

(** The frames played, with the result of their check.  A malformed checkpoint is
    skipped; the listener disconnects at the first fatal result. *)
Fixpoint listen (st : ListenerAuthState) (frames : list (Z * bytes))
    : ListenerAuthState * list (AuthResult * bytes) * option AuthResult :=
  match frames with
  | [] => (st, [], None)
  | frame :: frames =>
      match split_frame frame with
      | None => listen st frames
      | Some (checkpoint, opus) =>
          let '(st, r) := verify_frame st opus frame.1 checkpoint in
          match r with
          | TamperDetected | InvalidSignature => (st, [], Some r)
          | _ =>
              let '(st, played, stopped) := listen st frames in (st, (r, opus) :: played, stopped)
          end
      end
  end.
End auth.
