(* ===== verification/StageAuthTheorems.v ===== *)
(** * Authentication of the mixed stream: theorems

    An honest stream is accepted by every listener, wherever it joins; between
    two verified checkpoints exactly the host's frames were played, unless a
    break of the hash is exhibited; what the scheme leaves unchecked. *)

From S2P Require Import Prelude Types Signing Concrete Store Audio StageAuth.

Local Open Scope Z_scope.

Section auth.
Context `{Ed25519, !Ed25519Laws, Sha256, !Sha256Laws}.

(** The chain hash after some packets. *)
Definition chain (h : bytes) (packets : list bytes) : bytes :=
  fold_left (fun c opus => sha256 (c ++ opus)) packets h.

Lemma chain_snoc h ps p : chain h (ps ++ [p]) = sha256 (chain h ps ++ p).
Proof. unfold chain. by rewrite fold_left_app. Qed.
Lemma chain_length ps : length (chain zero_hash ps) = 32%nat.
Proof.
  induction ps as [|p ps _] using rev_ind; [done|]. rewrite chain_snoc. apply sha256_length.
Qed.

(** ** A broken hash *)

Inductive hash_break : Type :=
| Collision (a b : bytes)
| ZeroPreimage (a : bytes).
Definition breaks (x : hash_break) : Prop :=
  match x with
  | Collision a b => a <> b /\ sha256 a = sha256 b
  | ZeroPreimage a => sha256 a = zero_hash
  end.

(** Compares two sequences of packets, last packet first. *)
Fixpoint find_break_rev (ps qs : list bytes) : option hash_break :=
  match ps, qs with
  | p :: ps, q :: qs =>
      let a := chain zero_hash (rev ps) ++ p in
      let b := chain zero_hash (rev qs) ++ q in
      if decide (a = b) then find_break_rev ps qs else Some (Collision a b)
  | p :: ps, [] => Some (ZeroPreimage (chain zero_hash (rev ps) ++ p))
  | [], q :: qs => Some (ZeroPreimage (chain zero_hash (rev qs) ++ q))
  | [], [] => None
  end.
Definition find_break (ps qs : list bytes) : option hash_break := find_break_rev (rev ps) (rev qs).

Lemma find_break_rev_spec ps qs :
  chain zero_hash (rev ps) = chain zero_hash (rev qs) ->
  ps = qs \/ exists x, find_break_rev ps qs = Some x /\ breaks x.
Proof.
  revert qs. induction ps as [|p ps IH]; intros [|q qs]; cbn [find_break_rev rev].
  - by left.
  - rewrite chain_snoc. intros E. right. by eexists.
  - rewrite chain_snoc. intros E. right. by eexists.
  - rewrite !chain_snoc. intros E. case_decide as Hab.
    + apply app_inj_1 in Hab as [Hc ->]; [|by rewrite !chain_length].
      destruct (IH qs Hc) as [->|Hx]; [by left|by right].
    + right. by eexists.
Qed.

Lemma find_break_spec ps qs :
  chain zero_hash ps = chain zero_hash qs ->
  ps = qs \/ exists x, find_break ps qs = Some x /\ breaks x.
Proof.
  intros E. destruct (find_break_rev_spec (rev ps) (rev qs)) as [Hr|Hx]; [by rewrite !rev_involutive| |by right].
  left. by rewrite <-(rev_involutive ps), Hr, rev_involutive.
Qed.

(** ** The wire format *)

Lemma split_checkpoint h s opus :
  length h = 32%nat -> length s = 64%nat ->
  split_frame (TAG_CHECKPOINT, h ++ s ++ opus) = Some (Some (h, s), opus).
Proof.
  intros Hh Hs. unfold split_frame, decode_checkpoint_payload. cbn [Z.eqb TAG_CHECKPOINT].
  destruct (Nat.ltb_spec (length (h ++ s ++ opus)) CHECKPOINT_EXTRA) as [Hl|_].
  { rewrite !length_app, Hh, Hs in Hl. unfold CHECKPOINT_EXTRA in Hl. lia. }
  cbn [bail_if]. unfold mbind, result_bind. change (TAG_CHECKPOINT =? TAG_CHECKPOINT) with true. cbv iota.
  rewrite take_app_length', drop_app_length', take_app_length' by done.
  do 2 f_equal. change 96%nat with (32 + 64)%nat.
  by rewrite <-drop_drop, drop_app_length', drop_app_length' by done.
Qed.

Lemma split_normal opus : split_frame (TAG_NORMAL, opus) = Some (None, opus).
Proof. done. Qed.

(** ** Honest streams *)

Definition follows (st : ListenerAuthState) (host : HostAuthState) : Prop :=
  la_compromised st = false /\ la_host_pubkey st = sk_public (ha_signing_key host) /\
  (la_verified st = true -> la_chain_hash st = ha_chain_hash host).

(** The results a listener should report. *)
Fixpoint expected (verified : bool) (sequence : Z) (packets : list bytes) : list AuthResult :=
  match packets with
  | [] => []
  | _ :: packets =>
      let sequence := add_u64 sequence 1 in
      if sequence mod CHECKPOINT_INTERVAL =? 0 then Verified :: expected true sequence packets
      else (if verified then AuthOk else Unverified) :: expected verified sequence packets
  end.

(** One frame of an honest stream. *)
Lemma honest_step st host opus :
  follows st host -> length (ha_chain_hash host) = 32%nat ->
  exists checkpoint st', split_frame (process host opus).2 = Some (checkpoint, opus) /\
    let checked := add_u64 (ha_sequence host) 1 mod CHECKPOINT_INTERVAL =? 0 in
    verify_frame st opus (process host opus).2.1 checkpoint =
      (st', if checked then Verified else if la_verified st then AuthOk else Unverified) /\
    follows st' (process host opus).1 /\ la_verified st' = checked || la_verified st /\
    length (ha_chain_hash (process host opus).1) = 32%nat.
Proof.
  intros (Hc & Hk & Hv) Hlen. unfold process.
  set (h := sha256 (ha_chain_hash host ++ opus)). assert (length h = 32%nat) as Hh by apply sha256_length.
  set (sig := sk_sign (ha_signing_key host) h).
  assert (pk_verify (la_host_pubkey st) h (sig_from_bytes (sig_to_bytes sig)) = true) as Hsig
    by (rewrite sig_from_to_bytes, Hk; apply verify_sign).
  destruct (add_u64 (ha_sequence host) 1 mod CHECKPOINT_INTERVAL =? 0) eqn:Eseq; cbn [fst snd].
  - eexists _, (set_chain h st). split; [apply split_checkpoint; [done|apply sig_to_bytes_length]|].
    unfold verify_frame. rewrite Hc. destruct (la_verified st) eqn:Ev; cbn [negb].
    + change (TAG_CHECKPOINT =? TAG_NORMAL) with false. cbv iota. rewrite Hv by done. fold h.
      rewrite bool_decide_eq_false_2 by (cbn; intros []; done). cbn [la_host_pubkey set_chain].
      rewrite Hsig. by split_and!.
    + cbv iota. rewrite Hsig. by split_and!.
  - destruct (la_verified st) eqn:Ev.
    + eexists None, (set_chain h st). split; [apply split_normal|]. unfold verify_frame. rewrite Hc, Ev. cbn [negb].
      change (TAG_NORMAL =? TAG_NORMAL) with true. cbv iota. rewrite Hv by done. by split_and!.
    + eexists None, st. split; [apply split_normal|]. unfold verify_frame. rewrite Hc, Ev. cbn [negb].
      unfold follows. cbn. split_and!; done || congruence.
Qed.

Lemma listen_honest packets : forall st host,
  follows st host -> length (ha_chain_hash host) = 32%nat ->
  exists st' played, listen st (host_stream host packets) = (st', played, None) /\
    snd <$> played = packets /\ fst <$> played = expected (la_verified st) (ha_sequence host) packets.
Proof.
  induction packets as [|opus packets IH]; intros st host Hf Hlen.
  { by exists st, []. }
  destruct (honest_step st host opus Hf Hlen) as (cp & st' & Hs & Hv & Hf' & Hver & Hlen').
  cbv zeta in Hv, Hver. assert (ha_sequence (process host opus).1 = add_u64 (ha_sequence host) 1) as Hseq
    by (unfold process; by case_match).
  cbn [host_stream expected listen]. destruct (process host opus) as [host' wire]. cbn [fst snd] in *.
  cbn [listen]. rewrite Hs, Hv. destruct (IH st' host' Hf' Hlen') as (st2 & played & -> & Hp & Hr).
  rewrite Hver, Hseq in Hr. destruct (add_u64 (ha_sequence host) 1 mod CHECKPOINT_INTERVAL =? 0); cbn [orb] in Hr.
  - exists st2, ((Verified, opus) :: played). split; [done|]. cbn. split; f_equal; done.
  - destruct (la_verified st); (eexists st2, ((_, opus) :: played); split; [done|]; cbn; split; f_equal; done).
Qed.

(** The stream from packet [k] on is the stream of the host's state there. *)
Lemma host_stream_drop k : forall host packets,
  exists host', drop k (host_stream host packets) = host_stream host' (drop k packets) /\
    ha_signing_key host' = ha_signing_key host /\
    (length (ha_chain_hash host) = 32%nat -> length (ha_chain_hash host') = 32%nat).
Proof.
  induction k as [|k IH]; intros host packets; [by exists host|].
  destruct packets as [|opus packets]; [by exists host|]. cbn [host_stream].
  destruct (process host opus) as [host1 w] eqn:E. cbn [drop].
  destruct (IH host1 packets) as (host' & E' & Hk & Hl). exists host'. split; [done|].
  unfold process in E. destruct (_ =? 0); injection E as <- _; cbn in *; split; try done;
    intros _; apply Hl, sha256_length.
Qed.

(** ** Any stream *)

Definition not_fatal (r : AuthResult) : Prop := r <> TamperDetected /\ r <> InvalidSignature.

(** While a verified listener goes on, its chain hash is that of what it played. *)
Lemma listen_chain frames : forall st st' played,
  la_compromised st = false -> la_verified st = true -> listen st frames = (st', played, None) ->
  la_chain_hash st' = chain (la_chain_hash st) (snd <$> played) /\
  la_verified st' = true /\ la_compromised st' = false.
Proof.
  induction frames as [|frame frames IH]; intros st st' played Hc Hv; cbn [listen].
  { by intros [= <- <-]. }
  destruct (split_frame frame) as [[checkpoint opus]|]; [|by apply IH].
  unfold verify_frame. rewrite Hc, Hv. cbn [negb].
  assert (forall r, (let '(st1, played1, stopped) := listen (set_chain (sha256 (la_chain_hash st ++ opus)) st) frames
      in (st1, (r, opus) :: played1, stopped)) = (st', played, None) ->
      la_chain_hash st' = chain (la_chain_hash st) (snd <$> played) /\
      la_verified st' = true /\ la_compromised st' = false) as Hgo.
  { intros r. destruct (listen _ frames) as [[st1 played1] stopped] eqn:E. intros [= <- <- ->].
    apply IH in E as (E1 & E2 & E3); [|exact Hc|done]. by rewrite E1. }
  destruct (frame.1 =? TAG_NORMAL); [apply Hgo|].
  destruct checkpoint as [[wire_hash wire_sig]|]; [|apply Hgo].
  destruct (bool_decide _); [done|]. destruct (pk_verify _ _ _); [apply Hgo|done].
Qed.

Lemma listen_app fs gs : forall st,
  listen st (fs ++ gs) =
    match listen st fs with
    | (st1, p1, None) => let '(st2, p2, s) := listen st1 gs in (st2, p1 ++ p2, s)
    | r => r
    end.
Proof.
  induction fs as [|f fs IH]; intros st; cbn [app listen].
  { by destruct (listen st gs) as [[??]?]. }
  destruct (split_frame f) as [[checkpoint opus]|]; [|apply IH].
  destruct (verify_frame _ _ _ _) as [st1 []]; try done; rewrite IH;
    destruct (listen st1 fs) as [[st2 p2] [s|]]; try done; by destruct (listen st2 gs) as [[??]?].
Qed.

(** What a verified listener does with a checkpoint. *)
Lemma listen_checkpoint st h s opus :
  la_compromised st = false -> la_verified st = true -> length h = 32%nat -> length s = 64%nat ->
  pk_verify (la_host_pubkey st) h (sig_from_bytes s) = true ->
  exists st', listen st [(TAG_CHECKPOINT, h ++ s ++ opus)] =
    if decide (h = sha256 (la_chain_hash st ++ opus)) then (st', [(Verified, opus)], None)
    else (st', [], Some TamperDetected).
Proof.
  intros Hc Hv Hh Hs Hsig. cbn [listen]. rewrite split_checkpoint by done. cbn [fst].
  unfold verify_frame. rewrite Hc, Hv. cbn [negb]. change (TAG_CHECKPOINT =? TAG_NORMAL) with false. cbv iota.
  case_decide as E.
  - rewrite bool_decide_eq_false_2 by (cbn; intros []; done). cbn [la_host_pubkey set_chain].
    rewrite Hsig. by eexists.
  - rewrite bool_decide_eq_true_2 by (cbn; congruence). by eexists.
Qed.

Lemma listen_pubkey frames : forall st st' played stopped,
  listen st frames = (st', played, stopped) -> la_host_pubkey st' = la_host_pubkey st.
Proof.
  induction frames as [|frame frames IH]; intros st st' played stopped; cbn [listen].
  { by intros [= <- _ _]. }
  destruct (split_frame frame) as [[checkpoint opus]|]; [|by apply IH].
  destruct (verify_frame st opus frame.1 checkpoint) as [st1 r] eqn:E.
  assert (la_host_pubkey st1 = la_host_pubkey st) as <-.
  { revert E. unfold verify_frame. repeat case_match; by intros [= <- _]. }
  destruct r; try (by intros [= <- _ _]);
    destruct (listen st1 frames) as [[st2 p2] s2] eqn:E2; intros [= <- _ _]; by eapply IH.
Qed.

Lemma listen_normal xs : forall st,
  la_compromised st = false -> la_verified st = true ->
  exists st', listen st ((fun x => (TAG_NORMAL, x)) <$> xs) = (st', (fun x => (AuthOk, x)) <$> xs, None).
Proof.
  induction xs as [|x xs IH]; intros st Hc Hv; [by eexists|].
  rewrite !fmap_cons. cbn [listen]. rewrite split_normal. cbn [fst]. unfold verify_frame. rewrite Hc, Hv.
  cbn [negb]. change (TAG_NORMAL =? TAG_NORMAL) with true. cbv iota.
  destruct (IH (set_chain (sha256 (la_chain_hash st ++ x)) st)) as [st' E]; [exact Hc|done|].
  exists st'. by rewrite E.
Qed.
End auth.

(** ** Theorems *)

(** an honest stream is accepted wherever a listener joins: it plays every
    packet from there on, never disconnects, reports [Verified] exactly at the
    checkpoints and [Unverified] only before the first one it receives. *)
Theorem auth_stream_complete `{Ed25519, !Ed25519Laws, Sha256, !Sha256Laws} sk packets k :
  exists st host,
    drop k (host_stream (host_auth_new sk) packets) = host_stream host (drop k packets) /\
    listen (listener_auth_new (sk_public sk)) (host_stream host (drop k packets)) =
      (st, zip (expected false (ha_sequence host) (drop k packets)) (drop k packets), None).
Proof.
  destruct (host_stream_drop k (host_auth_new sk) packets) as (host & E & Hk & Hl).
  destruct (listen_honest (drop k packets) (listener_auth_new (sk_public sk)) host) as
    (st & played & El & Hp & Hr).
  - split_and!; [done|by rewrite Hk|done].
  - by apply Hl.
  - exists st, host. split; [done|]. rewrite El. do 2 f_equal.
    cbn [la_verified listener_auth_new] in Hr. rewrite <-Hr, <-Hp.
    clear. induction played as [|[r o] played IH]; [done|]. cbn. by f_equal.
Qed.


(** what a relay can do unnoticed.  Once a checkpoint was verified, any bytes
    it sends as normal frames are played and reported as authentic, for as long as
    it forwards no checkpoint; and the audio of the first checkpoint a listener
    receives is reported as verified whatever it is, as the hash it comes with is
    not compared with it. *)
Theorem auth_unchecked `{Ed25519, !Ed25519Laws, Sha256, !Sha256Laws} :
  (forall st forged, la_compromised st = false -> la_verified st = true ->
    exists st', listen st ((fun x => (TAG_NORMAL, x)) <$> forged) =
      (st', (fun x => (AuthOk, x)) <$> forged, None)) /\
  (forall sk packets n forged,
    let h := chain zero_hash (take n packets) in
    exists st', listen (listener_auth_new (sk_public sk))
        [(TAG_CHECKPOINT, h ++ sig_to_bytes (sk_sign sk h) ++ forged)] =
      (st', [(Verified, forged)], None)).
Proof.
  split; [intros; by apply listen_normal|]. intros sk packets n forged h.
  cbn [listen]. rewrite split_checkpoint by (apply chain_length || apply sig_to_bytes_length).
  unfold verify_frame. cbn [la_compromised la_verified listener_auth_new negb la_host_pubkey].
  rewrite sig_from_to_bytes, verify_sign. by eexists.
Qed.

(** ** Witnesses *)

(** A toy hash: the weighted sum of the input, padded to 32 bytes. *)
#[export] Instance toy_sha256 : Sha256 := { sha256 b := replicate 31 1 ++ [toy_digest b] }.
#[export] Instance toy_sha256_laws : Sha256Laws.
Proof. by split. Qed.

Definition three_packets : list bytes := [[10]; [11]; [12]].
Definition joined : ListenerAuthState :=
  {| la_chain_hash := chain zero_hash (take 1 three_packets); la_verified := true;
     la_compromised := false; la_host_pubkey := "host"%string |}.
Definition host_sig : bytes := sig_to_bytes (sk_sign "host"%string (chain zero_hash three_packets)).


Definition host_secret : @SecretKey toy_ed25519 := "host"%string.

(** A listener that joins at the third packet. *)
Lemma auth_stream_complete_witness :
  exists st host, drop 2 (host_stream (host_auth_new host_secret) three_packets) = host_stream host [[12]] /\
    listen (listener_auth_new (sk_public host_secret)) (host_stream host [[12]]) =
      (st, zip (expected false (ha_sequence host) [[12]]) [[12]], None).
Proof.
  destruct (auth_stream_complete host_secret three_packets 2) as (st & host & E & El).
  exists st, host. split; [exact E|exact El].
Defined.

Lemma auth_unchecked_witness :
  exists st', listen joined [(TAG_NORMAL, [66]); (TAG_NORMAL, [67])] =
    (st', [(AuthOk, [66]); (AuthOk, [67])], None).
Proof.
  destruct auth_unchecked as [Hn _].
  exact (Hn joined [[66]; [67]] eq_refl eq_refl).
Defined.
