(* ===== verification/Topology.v ===== *)
(** * Listener topology

    Model of [src-tauri/src/stage/topology.rs]: the host assigns every listener
    to the host itself or to a volunteer relay, within their capacities. *)

From S2P Require Import Prelude.

Local Open Scope Z_scope.

Inductive SourceKind : Type := SkHost | SkRelay.
#[export] Instance SourceKind_eq_dec : EqDecision SourceKind.
Proof. solve_decision. Defined.

Record Source : Type := {
  so_kind : SourceKind;
  so_endpoint_id : string;
  so_capacity : Z; (* u32 *)
  so_assigned : Z; (* u32 *)
}.

Record TopologyManager : Type := {
  tm_sources : list Source;
  tm_assignments : gmap string string;
}.

Definition topology_new (host_endpoint_id : string) (host_capacity : Z) : TopologyManager :=
  {| tm_sources := [{| so_kind := SkHost; so_endpoint_id := host_endpoint_id;
                       so_capacity := host_capacity; so_assigned := 0 |}];
     tm_assignments := ∅ |}.

Definition add_relay (endpoint_id : string) (capacity : Z) (t : TopologyManager) : TopologyManager :=
  if existsb (fun s => bool_decide (so_endpoint_id s = endpoint_id)) (tm_sources t) then t
  else {| tm_sources := tm_sources t ++ [{| so_kind := SkRelay; so_endpoint_id := endpoint_id;
                                           so_capacity := capacity; so_assigned := 0 |}];
          tm_assignments := tm_assignments t |}.

Definition set_assigned (n : Z) (s : Source) : Source :=
  {| so_kind := so_kind s; so_endpoint_id := so_endpoint_id s; so_capacity := so_capacity s;
     so_assigned := n |}.

(** [iter_mut().find(p)] and an update of what it finds. *)
Fixpoint update_first (p : Source -> bool) (f : Source -> Source) (l : list Source) : list Source :=
  match l with
  | [] => []
  | s :: l => if p s then f s :: l else s :: update_first p f l
  end.

(** Releases the slot of [pubkey]. *)
Definition release (pubkey : string) (t : TopologyManager) : TopologyManager :=
  match tm_assignments t !! pubkey with
  | None => t
  | Some old =>
      {| tm_sources := update_first (fun s => bool_decide (so_endpoint_id s = old))
           (fun s => set_assigned (saturating_sub (so_assigned s) 1) s) (tm_sources t);
         tm_assignments := delete pubkey (tm_assignments t) |}
  end.

Definition has_room (s : Source) : bool := so_assigned s <? so_capacity s.

(** [max_by_key(|s| s.capacity - s.assigned)]: the last of the largest. *)
Fixpoint max_room (best : option Source) (l : list Source) : option Source :=
  match l with
  | [] => best
  | s :: l =>
      max_room (match best with
                | Some b => if so_capacity b - so_assigned b <=? so_capacity s - so_assigned s
                            then Some s else Some b
                | None => Some s
                end) l
  end.

Definition choose_source (sources : list Source) : option Source :=
  match find (fun s => bool_decide (so_kind s = SkHost) && has_room s) sources with
  | Some s => Some s
  | None => max_room None (List.filter has_room sources)
  end.

(** The endpoint ids are distinct, so the chosen source is the first with its id. *)
Definition assign_listener (pubkey : string) (t : TopologyManager) : TopologyManager * option string :=
  let t := release pubkey t in
  match choose_source (tm_sources t) with
  | None => (t, None)
  | Some source =>
      ({| tm_sources := update_first (fun s => bool_decide (so_endpoint_id s = so_endpoint_id source))
            (fun s => set_assigned (so_assigned s + 1) s) (tm_sources t);
          tm_assignments := <[pubkey := so_endpoint_id source]> (tm_assignments t) |},
       Some (so_endpoint_id source))
  end.

(** ** The invariant *)

(** The listeners assigned to an endpoint. *)
Definition load (t : TopologyManager) (e : string) : Z :=
  Z.of_nat (size (filter (fun kv => kv.2 = e) (tm_assignments t))).

Record topology_ok (t : TopologyManager) : Prop := {
  tk_distinct : NoDup (so_endpoint_id <$> tm_sources t);
  tk_counts : Forall (fun s => so_assigned s = load t (so_endpoint_id s) /\
                               so_assigned s <= so_capacity s) (tm_sources t);
  tk_known pk e : tm_assignments t !! pk = Some e -> e ∈ so_endpoint_id <$> tm_sources t;
}.

Lemma topology_new_ok e c : 0 <= c -> topology_ok (topology_new e c).
Proof.
  intros Hc. split; cbn.
  - apply NoDup_singleton.
  - by repeat constructor.
  - intros pk e'. by rewrite lookup_empty.
Qed.

Lemma add_relay_ok e c t : 0 <= c -> topology_ok t -> topology_ok (add_relay e c t).
Proof.
  intros Hc [Hd Hn Hk]. unfold add_relay. destruct (existsb _ _) eqn:E; [by split|].
  assert (e ∉ so_endpoint_id <$> tm_sources t) as He.
  { intros (s & -> & Hs)%list_elem_of_fmap. apply not_true_iff_false in E. apply E.
    apply existsb_exists. exists s. split; [by apply list_elem_of_In|by apply bool_decide_eq_true]. }
  split; cbn [tm_sources tm_assignments].
  - rewrite fmap_app. apply NoDup_app. split; [done|]. split; [|apply NoDup_singleton].
    intros x Hx ->%list_elem_of_singleton. done.
  - apply Forall_app. split; [done|]. constructor; [|done]. cbn [so_assigned so_capacity so_endpoint_id].
    split; [|done]. unfold load. cbn [tm_assignments].
    replace (filter (fun kv => kv.2 = e) (tm_assignments t)) with (∅ : gmap string string); [done|].
    symmetry. apply map_empty_filter. intros pk e' He' E'. cbn in E'. subst e'. by apply He, (Hk pk).
  - intros pk e' He'. rewrite fmap_app, elem_of_app. left. by apply (Hk pk).
Qed.

(** Updating the only source with an endpoint. *)
Lemma update_first_fmap p f l :
  (forall s, so_endpoint_id (f s) = so_endpoint_id s) ->
  so_endpoint_id <$> update_first p f l = so_endpoint_id <$> l.
Proof.
  intros Hf. induction l as [|s l IH]; [done|]. cbn. destruct (p s); cbn; by rewrite ?Hf, ?IH.
Qed.

Lemma update_first_Forall (P Q : Source -> Prop) e f l :
  NoDup (so_endpoint_id <$> l) -> Forall P l ->
  (forall s, P s -> so_endpoint_id s = e -> Q (f s)) ->
  (forall s, P s -> so_endpoint_id s <> e -> Q s) ->
  Forall Q (update_first (fun s => bool_decide (so_endpoint_id s = e)) f l).
Proof.
  intros Hd Hl Hf Hg. induction Hl as [|s l Hs Hl IH]; [done|]. cbn in Hd |- *.
  apply NoDup_cons in Hd as [Hn Hd]. case_bool_decide as He.
  - constructor; [by apply Hf|]. apply Forall_forall. intros s' Hs'.
    apply Hg; [by eapply Forall_forall in Hl|]. intros E. apply Hn. rewrite He, <-E.
    by apply list_elem_of_fmap_2.
  - constructor; [by apply Hg|by apply IH].
Qed.

Lemma load_delete t pk e old :
  tm_assignments t !! pk = Some old ->
  Z.of_nat (size (filter (fun kv => kv.2 = e) (delete pk (tm_assignments t)))) =
    load t e - (if decide (old = e) then 1 else 0).
Proof.
  intros Hpk. unfold load. rewrite map_filter_delete. case_decide as E.
  - subst old. assert (filter (fun kv => kv.2 = e) (tm_assignments t) !! pk = Some e) as Hf
      by (by apply map_lookup_filter_Some).
    rewrite map_size_delete_Some by (by eexists).
    assert (size (filter (fun kv => kv.2 = e) (tm_assignments t)) <> 0)%nat as Hz.
    { intros Hz. apply map_size_empty_iff in Hz. by rewrite Hz in Hf. }
    lia.
  - rewrite delete_id; [lia|]. apply map_lookup_filter_None. right. intros x Hx. by simplify_eq.
Qed.

Lemma load_insert t pk e e' :
  tm_assignments t !! pk = None ->
  Z.of_nat (size (filter (fun kv => kv.2 = e) (<[pk := e']> (tm_assignments t)))) =
    load t e + (if decide (e' = e) then 1 else 0).
Proof.
  intros Hpk. unfold load. case_decide as E.
  - subst e'. rewrite map_filter_insert_True by done. rewrite map_size_insert_None; [lia|].
    apply map_lookup_filter_None. by left.
  - rewrite map_filter_insert_False by done. rewrite map_filter_delete, delete_id; [lia|].
    apply map_lookup_filter_None. by left.
Qed.

Lemma release_ok pk t : topology_ok t -> topology_ok (release pk t).
Proof.
  intros [Hd Hn Hk]. unfold release. destruct (tm_assignments t !! pk) as [old|] eqn:E; [|by split].
  split; cbn [tm_sources tm_assignments].
  - by rewrite update_first_fmap.
  - eapply update_first_Forall; [done|exact Hn| |].
    + intros s [Hs Hcap] He. cbn [so_assigned so_capacity so_endpoint_id set_assigned]. unfold load at 1.
      cbn [tm_assignments]. rewrite (load_delete _ _ _ _ E), decide_True by done.
      assert (0 < load t (so_endpoint_id s)) as Hpos.
      { unfold load. assert (filter (fun kv => kv.2 = so_endpoint_id s) (tm_assignments t) !! pk = Some old)
          as Hf by (apply map_lookup_filter_Some; by rewrite He).
        enough (size (filter (fun kv => kv.2 = so_endpoint_id s) (tm_assignments t)) <> 0)%nat by lia.
        intros Hz. apply map_size_empty_iff in Hz. by rewrite Hz in Hf. }
      unfold saturating_sub. lia.
    + intros s [Hs Hcap] He. unfold load at 1. cbn [tm_assignments].
      rewrite (load_delete _ _ _ _ E), decide_False by congruence. split; [lia|done].
  - intros pk' e'. rewrite lookup_delete_Some, update_first_fmap by done. intros [_ Hx]. by apply (Hk pk').
Qed.

Lemma release_free pk t : tm_assignments (release pk t) !! pk = None.
Proof.
  unfold release. destruct (tm_assignments t !! pk) eqn:E; [|done]. apply lookup_delete_eq.
Qed.

Lemma max_room_spec best l s :
  max_room best l = Some s ->
  (Some s = best \/ s ∈ l) /\
  (forall b, best = Some b -> so_capacity b - so_assigned b <= so_capacity s - so_assigned s) /\
  (forall s', s' ∈ l -> so_capacity s' - so_assigned s' <= so_capacity s - so_assigned s).
Proof.
  revert best. induction l as [|x l IH]; intros best; cbn.
  - intros ->. split; [by left|]. split; [by intros ? [= ->]|]. intros s' []%elem_of_nil.
  - intros E. apply IH in E as (H1' & H2' & H3').
    assert (forall b, best = Some b ->
      so_capacity b - so_assigned b <= so_capacity s - so_assigned s) as Hb.
    { intros b ->. destruct (Z.leb_spec (so_capacity b - so_assigned b) (so_capacity x - so_assigned x));
        specialize (H2' _ eq_refl); lia. }
    split_and!; [|done|].
    + rewrite elem_of_cons. destruct best as [b|]; [destruct (_ <=? _)|];
        destruct H1' as [[= ->]|?]; auto.
    + intros s' [->|Hs']%elem_of_cons; [|by apply H3'].
      destruct best as [b|]; [destruct (Z.leb_spec (so_capacity b - so_assigned b) (so_capacity x - so_assigned x));
        specialize (H2' _ eq_refl); lia|by apply H2'].
Qed.

Lemma max_room_None best l : max_room best l = None -> best = None /\ l = [].
Proof.
  revert best. induction l as [|x l IH]; intros best; cbn; [done|].
  intros [E _]%IH. destruct best; [destruct (_ <=? _)|]; done.
Qed.

(** The host while it has room, then a source with the most room. *)
Lemma choose_source_Some sources s :
  choose_source sources = Some s ->
  s ∈ sources /\ has_room s = true /\
  (so_kind s = SkHost \/
   (forall h, h ∈ sources -> so_kind h = SkHost -> has_room h = false) /\
   (forall s', s' ∈ sources -> has_room s' = true ->
      so_capacity s' - so_assigned s' <= so_capacity s - so_assigned s)).
Proof.
  unfold choose_source. destruct (find _ sources) as [h|] eqn:Ef.
  - intros [= ->]. apply find_some in Ef as [Hin [Hk Hr]%andb_true_iff].
    apply bool_decide_eq_true in Hk. split; [by apply list_elem_of_In|]. split; [done|by left].
  - intros (H1' & _ & H3')%max_room_spec. destruct H1' as [|Hin]; [done|].
    apply list_elem_of_In, filter_In in Hin as [Hin Hr]. apply list_elem_of_In in Hin.
    split_and!; [done..|]. right. split.
    + intros h Hh Hk. apply list_elem_of_In in Hh. apply (find_none _ _ Ef) in Hh.
      rewrite bool_decide_eq_true_2 in Hh by done. exact Hh.
    + intros s' Hs' Hr'. apply H3', list_elem_of_In, filter_In. split; [by apply list_elem_of_In|done].
Qed.

Lemma choose_source_None sources :
  choose_source sources = None <-> Forall (fun s => has_room s = false) sources.
Proof.
  unfold choose_source. split.
  - destruct (find _ sources) as [h|] eqn:Ef; [done|]. intros [_ E]%max_room_None.
    apply Forall_forall. intros s Hs. destruct (has_room s) eqn:Hr; [|done].
    assert (In s (List.filter has_room sources)) as Hin by
      (apply filter_In; split; [by apply list_elem_of_In|done]). by rewrite E in Hin.
  - intros Hf. destruct (find _ sources) as [h|] eqn:Ef.
    + apply find_some in Ef as [Hin [_ Hr]%andb_true_iff]. apply list_elem_of_In in Hin.
      eapply Forall_forall in Hf; [|exact Hin]. congruence.
    + destruct (max_room _ _) as [s|] eqn:Em; [|done].
      apply max_room_spec in Em as ([?|Hin] & _); [done|].
      apply list_elem_of_In, filter_In in Hin as [Hin Hr]. apply list_elem_of_In in Hin.
      eapply Forall_forall in Hf; [|exact Hin]. congruence.
Qed.

Lemma NoDup_fmap_lookup_inj {A B} (f : A -> B) (l : list A) x y :
  NoDup (f <$> l) -> x ∈ l -> y ∈ l -> f x = f y -> x = y.
Proof.
  intros Hd [i Hi]%list_elem_of_lookup [j Hj]%list_elem_of_lookup E.
  assert (i = j) as ->; [|congruence].
  eapply (NoDup_lookup (f <$> l)); [done|by rewrite list_lookup_fmap, Hi|].
  by rewrite list_lookup_fmap, Hj, E.
Qed.

Lemma assign_listener_ok pk t : topology_ok t -> topology_ok (assign_listener pk t).1.
Proof.
  intros Hok. apply (release_ok pk) in Hok. unfold assign_listener.
  pose proof (release_free pk t) as Hfree. destruct Hok as [Hd Hn Hk].
  set (t' := release pk t) in *.
  destruct (choose_source (tm_sources t')) as [s|] eqn:Ec; [|by split]. cbn [fst].
  apply choose_source_Some in Ec as (Hin & Hroom & _).
  split; cbn [tm_sources tm_assignments].
  - by rewrite update_first_fmap.
  - eapply (update_first_Forall (fun x => (so_assigned x = load t' (so_endpoint_id x) /\
        so_assigned x <= so_capacity x) /\ (so_endpoint_id x = so_endpoint_id s -> x = s)));
      [done| | |].
    + apply Forall_forall. intros x Hx. split; [by eapply Forall_forall in Hn|].
      intros He. by eapply NoDup_fmap_lookup_inj.
    + intros x [[Ha Hc] Hs] He. rewrite (Hs He) in *. unfold has_room in Hroom.
      apply Z.ltb_lt in Hroom. cbn [so_assigned so_capacity so_endpoint_id set_assigned]. unfold load at 1.
      cbn [tm_assignments]. rewrite load_insert, decide_True by done. lia.
    + intros x [[Ha Hc] _] He. unfold load at 1. cbn [tm_assignments].
      rewrite load_insert, decide_False by congruence. split; [lia|done].
  - intros pk' e'. rewrite lookup_insert_Some, update_first_fmap by done.
    intros [[_ <-]|[_ He]]; [by apply list_elem_of_fmap_2|by apply (Hk pk')].
Qed.
