(* ===== verification/Stage.v ===== *)
(** * Stages

    Model of [src-tauri/src/stage/{state,control,control_handler,moderation,
    lifecycle,mod}.rs]: the live state of a room, the control messages received
    over gossip, and the commands of the actor.  Audio tasks, timers and
    connections are effects; an effect is emitted where the code starts or stops
    them.  [None] is a panic of the actor: [short_id] in a log line. *)

From S2P Require Import Prelude Types Validation Signing Store Framing Topology.

Local Open Scope Z_scope.

(** ** state.rs *)

Record Participant : Type := {
  p_pubkey : string;
  p_role : StageRole;
  p_hand_raised : bool;
  p_self_muted : bool;
  p_host_muted : bool;
  p_last_seen_ms : Z;
  p_node_id : option string;
}.

(** The handles of the audio tasks are flags: whether the task exists. *)
Record ActiveStage : Type := {
  as_stage_id : string;
  as_title : string;
  as_host_pubkey : string;
  as_my_pubkey : string;
  as_my_role : StageRole;
  as_self_muted : bool;
  as_started_at : Z;
  as_participants : gmap string Participant;
  as_mixer : bool; (* mixer_handle, fanout, sfu_hub and host_sfu_fanout *)
  as_topology : option TopologyManager;
  as_relay : bool;
  as_ticket : option StageTicket;
  as_listener_upstream_id : option string;
  as_listener_pipeline : bool;
  as_speaker_mixer : bool;
  as_host_node_id : string;
  as_banned_node_ids : gset string;
}.

Definition set_participants (ps : gmap string Participant) (s : ActiveStage) : ActiveStage :=
  {| as_stage_id := as_stage_id s; as_title := as_title s; as_host_pubkey := as_host_pubkey s;
     as_my_pubkey := as_my_pubkey s; as_my_role := as_my_role s; as_self_muted := as_self_muted s;
     as_started_at := as_started_at s; as_participants := ps; as_mixer := as_mixer s;
     as_topology := as_topology s; as_relay := as_relay s; as_ticket := as_ticket s;
     as_listener_upstream_id := as_listener_upstream_id s;
     as_listener_pipeline := as_listener_pipeline s; as_speaker_mixer := as_speaker_mixer s;
     as_host_node_id := as_host_node_id s; as_banned_node_ids := as_banned_node_ids s |}.
Definition set_topology (t : TopologyManager) (s : ActiveStage) : ActiveStage :=
  {| as_stage_id := as_stage_id s; as_title := as_title s; as_host_pubkey := as_host_pubkey s;
     as_my_pubkey := as_my_pubkey s; as_my_role := as_my_role s; as_self_muted := as_self_muted s;
     as_started_at := as_started_at s; as_participants := as_participants s; as_mixer := as_mixer s;
     as_topology := Some t; as_relay := as_relay s; as_ticket := as_ticket s;
     as_listener_upstream_id := as_listener_upstream_id s;
     as_listener_pipeline := as_listener_pipeline s; as_speaker_mixer := as_speaker_mixer s;
     as_host_node_id := as_host_node_id s; as_banned_node_ids := as_banned_node_ids s |}.
(** The fields of a change of role: role, listener pipeline, speaker mixer. *)
Definition set_role (r : StageRole) (pipeline mixer : bool) (s : ActiveStage) : ActiveStage :=
  {| as_stage_id := as_stage_id s; as_title := as_title s; as_host_pubkey := as_host_pubkey s;
     as_my_pubkey := as_my_pubkey s; as_my_role := r; as_self_muted := as_self_muted s;
     as_started_at := as_started_at s; as_participants := as_participants s; as_mixer := as_mixer s;
     as_topology := as_topology s; as_relay := as_relay s; as_ticket := as_ticket s;
     as_listener_upstream_id := as_listener_upstream_id s;
     as_listener_pipeline := pipeline; as_speaker_mixer := mixer;
     as_host_node_id := as_host_node_id s; as_banned_node_ids := as_banned_node_ids s |}.
Definition set_self_muted (m : bool) (s : ActiveStage) : ActiveStage :=
  {| as_stage_id := as_stage_id s; as_title := as_title s; as_host_pubkey := as_host_pubkey s;
     as_my_pubkey := as_my_pubkey s; as_my_role := as_my_role s; as_self_muted := m;
     as_started_at := as_started_at s; as_participants := as_participants s; as_mixer := as_mixer s;
     as_topology := as_topology s; as_relay := as_relay s; as_ticket := as_ticket s;
     as_listener_upstream_id := as_listener_upstream_id s;
     as_listener_pipeline := as_listener_pipeline s; as_speaker_mixer := as_speaker_mixer s;
     as_host_node_id := as_host_node_id s; as_banned_node_ids := as_banned_node_ids s |}.
Definition set_upstream (u : string) (s : ActiveStage) : ActiveStage :=
  {| as_stage_id := as_stage_id s; as_title := as_title s; as_host_pubkey := as_host_pubkey s;
     as_my_pubkey := as_my_pubkey s; as_my_role := as_my_role s; as_self_muted := as_self_muted s;
     as_started_at := as_started_at s; as_participants := as_participants s; as_mixer := as_mixer s;
     as_topology := as_topology s; as_relay := as_relay s; as_ticket := as_ticket s;
     as_listener_upstream_id := Some u; as_listener_pipeline := true;
     as_speaker_mixer := as_speaker_mixer s; as_host_node_id := as_host_node_id s;
     as_banned_node_ids := as_banned_node_ids s |}.
Definition set_relay (s : ActiveStage) : ActiveStage :=
  {| as_stage_id := as_stage_id s; as_title := as_title s; as_host_pubkey := as_host_pubkey s;
     as_my_pubkey := as_my_pubkey s; as_my_role := as_my_role s; as_self_muted := as_self_muted s;
     as_started_at := as_started_at s; as_participants := as_participants s; as_mixer := as_mixer s;
     as_topology := as_topology s; as_relay := true; as_ticket := as_ticket s;
     as_listener_upstream_id := as_listener_upstream_id s;
     as_listener_pipeline := as_listener_pipeline s; as_speaker_mixer := as_speaker_mixer s;
     as_host_node_id := as_host_node_id s; as_banned_node_ids := as_banned_node_ids s |}.
Definition set_banned (b : gset string) (s : ActiveStage) : ActiveStage :=
  {| as_stage_id := as_stage_id s; as_title := as_title s; as_host_pubkey := as_host_pubkey s;
     as_my_pubkey := as_my_pubkey s; as_my_role := as_my_role s; as_self_muted := as_self_muted s;
     as_started_at := as_started_at s; as_participants := as_participants s; as_mixer := as_mixer s;
     as_topology := as_topology s; as_relay := as_relay s; as_ticket := as_ticket s;
     as_listener_upstream_id := as_listener_upstream_id s;
     as_listener_pipeline := as_listener_pipeline s; as_speaker_mixer := as_speaker_mixer s;
     as_host_node_id := as_host_node_id s; as_banned_node_ids := b |}.

Definition p_set_role (r : StageRole) (p : Participant) : Participant :=
  {| p_pubkey := p_pubkey p; p_role := r; p_hand_raised := p_hand_raised p;
     p_self_muted := p_self_muted p; p_host_muted := p_host_muted p;
     p_last_seen_ms := p_last_seen_ms p; p_node_id := p_node_id p |}.
Definition p_set_hand (b : bool) (p : Participant) : Participant :=
  {| p_pubkey := p_pubkey p; p_role := p_role p; p_hand_raised := b;
     p_self_muted := p_self_muted p; p_host_muted := p_host_muted p;
     p_last_seen_ms := p_last_seen_ms p; p_node_id := p_node_id p |}.
Definition p_set_muted (self host : bool) (p : Participant) : Participant :=
  {| p_pubkey := p_pubkey p; p_role := p_role p; p_hand_raised := p_hand_raised p;
     p_self_muted := self; p_host_muted := host;
     p_last_seen_ms := p_last_seen_ms p; p_node_id := p_node_id p |}.

Definition is_moderator (stage : ActiveStage) (sender_pubkey : string) : bool :=
  bool_decide (sender_pubkey = as_host_pubkey stage) ||
  match as_participants stage !! sender_pubkey with
  | Some p => bool_decide (p_role p = CoHost)
  | None => false
  end.

(** ** control.rs *)

Definition HEARTBEAT_INTERVAL_MS : Z := 15000.
Definition PRESENCE_EXPIRY_MS : Z := 45000.

Definition control_stage_id (c : StageControl) : string :=
  match c with
  | Announce sid _ _ _ | End_ sid | Presence sid _ _ _ _ | RelayVolunteer sid _ _ _
  | RelayAssignment sid _ _ _ | RaiseHand sid _ | LowerHand sid _ | PromoteSpeaker sid _
  | DemoteSpeaker sid _ | MuteSpeaker sid _ | SelfMuteToggle sid _ _ | Kick sid _ | Ban sid _
  | Reaction sid _ _ | Chat sid _ _ => sid
  end.
Definition stage_id_matches (control : StageControl) (stage_id : string) : bool :=
  bool_decide (control_stage_id control = stage_id).

Section control.
Context `{Ed25519, HexCodec, JsonCodec}.

(** What [receive_loop] does with a parsed message: whether the actor gets it. *)
Definition accept_control (stage_id : string) (signed : SignedStageControl) : bool :=
  match pk_parse (sc_sender_pubkey signed) with
  | Err _ => false
  | Ok sender_pubkey =>
      is_ok (verify_stage_control signed sender_pubkey) &&
      stage_id_matches (sc_control signed) stage_id
  end.

(** The message of [heartbeat_loop] and of the join: the role is the one at the
    start of the task. *)
Definition presence_message (stage_id pubkey : string) (role : StageRole) (node_id : option string)
    (signing_key : SecretKey) (ts : Z) : SignedStageControl :=
  sign_stage_control (Presence stage_id pubkey role ts node_id) (pk_to_string (sk_public signing_key))
    signing_key ts.
End control.

(** ** The actor *)

Inductive StageEffect : Type :=
| EmitStage (e : StageEvent)
| BroadcastControl (signed : SignedStageControl)
| CancelStage
| CancelListener
| StartSpeaker (host_node_id : string)
| StartListener (upstream host_pubkey : string)
| StartRelay (upstream : string)
| StartControlPlane (stage_id my_pubkey : string) (role : StageRole) (node_id : string)
| StartMixer
| StartSweep
| StartAnnouncer (ticket : StageTicket)
| BroadcastEnded (stage_id : string)
| HandleConnection (remote : string)
| CloseConnection (remote : string).

(** The state after a message, and its effects; [None] is a panic. *)
Definition actor_step : Type := option (option ActiveStage * list StageEffect).
Definition goes_on (s : ActiveStage) (effects : list StageEffect) : actor_step := Some (Some s, effects).

(** The stage is dropped: [stage.cancel.cancel(); take().control_plane.shutdown()]. *)
Definition leaves (stage_id : string) (e : StageEvent) : actor_step :=
  _ ← short_id stage_id; Some (None, [CancelStage; EmitStage e]).

Definition update_participant (f : Participant -> Participant) (pubkey : string) (s : ActiveStage)
    : ActiveStage :=
  set_participants (alter f pubkey (as_participants s)) s.

Section actor.
Context `{Ed25519, HexCodec, JsonCodec, HashOrder}.

(** [Presence]: [now] is the time of arrival. *)
Definition on_presence (now : Z) (s : ActiveStage) (pubkey : string) (role : StageRole) (timestamp : Z)
    (node_id : option string) : actor_step :=
  let old := as_participants s !! pubkey in
  let entry := default {| p_pubkey := pubkey; p_role := role; p_hand_raised := false;
                          p_self_muted := false; p_host_muted := false;
                          p_last_seen_ms := timestamp; p_node_id := node_id |} old in
  let entry := {| p_pubkey := p_pubkey entry; p_role := role; p_hand_raised := p_hand_raised entry;
                  p_self_muted := p_self_muted entry; p_host_muted := p_host_muted entry;
                  p_last_seen_ms := now;
                  p_node_id := match node_id with Some _ => node_id | None => p_node_id entry end |} in
  goes_on (set_participants (<[pubkey := entry]> (as_participants s)) s)
    (match old with None => [EmitStage (EvParticipantJoined pubkey role)] | Some _ => [] end).

(** [RelayVolunteer] on the host: the listeners routed to the new relay. *)
Fixpoint assign_all (t : TopologyManager) (relay_node_id : string) (listeners : list string)
    : TopologyManager * list string :=
  match listeners with
  | [] => (t, [])
  | pk :: listeners =>
      let '(t, assignment) := assign_listener pk t in
      let '(t, relayed) := assign_all t relay_node_id listeners in
      (t, if bool_decide (assignment = Some relay_node_id) then pk :: relayed else relayed)
  end.

Definition on_relay_volunteer (now : Z) (signing_key : SecretKey) (s : ActiveStage)
    (relay_pubkey relay_node_id : string) (capacity : Z) : actor_step :=
  match as_my_role s, as_topology s with
  | Host, Some topology =>
      let topology := add_relay relay_node_id capacity topology in
      let listeners := p_pubkey <$>
        List.filter (fun p => bool_decide (p_role p = Listener)) (hash_values (as_participants s)) in
      let '(topology, relay_listeners) := assign_all topology relay_node_id listeners in
      goes_on (set_topology topology s)
        (match relay_listeners with
         | [] => []
         | _ => [BroadcastControl (sign_stage_control
                   (RelayAssignment (as_stage_id s) relay_pubkey relay_node_id relay_listeners)
                   (pk_to_string (sk_public signing_key)) signing_key now)]
         end)
  | _, _ => goes_on s []
  end.

(** [End]: only from the host. *)
Definition on_end (s : ActiveStage) (from_host : bool) : actor_step :=
  if from_host then leaves (as_stage_id s) (EvEnded (as_stage_id s)) else goes_on s [].

(** [RaiseHand] and [LowerHand]: the event is emitted for unknown participants too. *)
Definition on_raise_hand (s : ActiveStage) (pubkey : string) : actor_step :=
  goes_on (update_participant (p_set_hand true) pubkey s) [EmitStage (EvHandRaised pubkey)].
Definition on_lower_hand (s : ActiveStage) (pubkey : string) : actor_step :=
  goes_on (update_participant (p_set_hand false) pubkey s) [EmitStage (EvHandLowered pubkey)].

(** [PromoteSpeaker] of a moderator: the promoted one becomes a speaker. *)
Definition on_promote (s : ActiveStage) (pubkey : string) : actor_step :=
  let s := update_participant (p_set_role Speaker) pubkey s in
  let event := EmitStage (EvRoleChanged pubkey Speaker) in
  if decide (pubkey = as_my_pubkey s) then
    goes_on (set_role Speaker false true s)
      ((if as_listener_pipeline s then [CancelListener] else []) ++
       [StartSpeaker (as_host_node_id s); event])
  else goes_on s [event].

(** [DemoteSpeaker]: the role changes, and the speaker's pipeline goes on. *)
Definition on_demote (s : ActiveStage) (pubkey : string) : actor_step :=
  let s := update_participant (p_set_role Listener) pubkey s in
  goes_on (if decide (pubkey = as_my_pubkey s)
           then set_role Listener (as_listener_pipeline s) (as_speaker_mixer s) s else s)
    [EmitStage (EvRoleChanged pubkey Listener)].

Definition on_mute (s : ActiveStage) (pubkey : string) : actor_step :=
  goes_on (update_participant (fun p => p_set_muted (p_self_muted p) true p) pubkey s)
    [EmitStage (EvMuteChanged pubkey
      (default false (p_self_muted <$> as_participants s !! pubkey)) true)].

Definition on_self_mute (s : ActiveStage) (pubkey : string) (muted : bool) : actor_step :=
  goes_on (update_participant (fun p => p_set_muted muted (p_host_muted p) p) pubkey s)
    [EmitStage (EvMuteChanged pubkey muted
      (default false (p_host_muted <$> as_participants s !! pubkey)))].

(** What [Kick] and [Ban] end with. *)
Definition remove_participant (s : ActiveStage) (pubkey : string) : actor_step :=
  let s := set_participants (delete pubkey (as_participants s)) s in
  if decide (pubkey = as_my_pubkey s) then leaves (as_stage_id s) EvKicked
  else goes_on s [EmitStage (EvParticipantLeft pubkey)].

Definition on_relay_assignment (s : ActiveStage) (relay_node_id : string)
    (listener_pubkeys : list string) : actor_step :=
  if bool_decide (as_my_pubkey s ∈ listener_pubkeys) then
    _ ← short_id relay_node_id;
    goes_on (set_upstream relay_node_id s)
      ((if as_listener_pipeline s then [CancelListener] else []) ++
       [StartListener relay_node_id (as_host_pubkey s)])
  else goes_on s [].

(** [Ban]: the node the participant announced is kept out. *)
Definition on_ban (s : ActiveStage) (pubkey : string) : actor_step :=
  remove_participant
    (match as_participants s !! pubkey ≫= p_node_id with
     | Some node_id => set_banned ({[ node_id ]} ∪ as_banned_node_ids s) s
     | None => s
     end) pubkey.

(** [handle_control].  A message whose guard fails falls through to [_ => {}]. *)
Definition handle_control (now : Z) (signing_key : SecretKey) (active : option ActiveStage)
    (signed : SignedStageControl) : actor_step :=
  match active with
  | None => Some (None, [])
  | Some s =>
      let sender := sc_sender_pubkey signed in
      let from_host := bool_decide (sender = as_host_pubkey s) in
      let if_moderator (step : actor_step) := if is_moderator s sender then step else goes_on s [] in
      match sc_control signed with
      | Presence _ pubkey role timestamp node_id => on_presence now s pubkey role timestamp node_id
      | End_ _ => on_end s from_host
      | RaiseHand _ pubkey => on_raise_hand s pubkey
      | LowerHand _ pubkey => on_lower_hand s pubkey
      | PromoteSpeaker _ pubkey => if_moderator (on_promote s pubkey)
      | DemoteSpeaker _ pubkey => if_moderator (on_demote s pubkey)
      | MuteSpeaker _ pubkey => if_moderator (on_mute s pubkey)
      | SelfMuteToggle _ pubkey muted => on_self_mute s pubkey muted
      | Kick _ pubkey => if_moderator (remove_participant s pubkey)
      | Reaction _ pubkey emoji => goes_on s [EmitStage (EvReaction pubkey emoji)]
      | Chat _ pubkey text => goes_on s [EmitStage (EvChat pubkey text)]
      | RelayVolunteer _ relay_pubkey relay_node_id capacity =>
          on_relay_volunteer now signing_key s relay_pubkey relay_node_id capacity
      | RelayAssignment _ _ relay_node_id listener_pubkeys =>
          if from_host then on_relay_assignment s relay_node_id listener_pubkeys else goes_on s []
      | Ban _ pubkey => if from_host then on_ban s pubkey else goes_on s []
      | Announce _ _ _ _ => goes_on s []
      end
  end.
End actor.
