(* ===== verification/StageActor.v ===== *)
(** * Commands of the stage actor

    Model of the commands of [src-tauri/src/stage/{moderation,lifecycle,mod}.rs]
    and of the acceptance of connections in [pipeline.rs].  The clock does not
    advance during a command; [Wire StageTicket] is the JSON of a ticket. *)

From S2P Require Import Prelude Types Validation Signing Store Framing Topology Stage.

Local Open Scope Z_scope.

(** The fields of [Identity] a stage uses. *)
Record StageIdentity `{Ed25519} : Type := {
  si_master_pubkey : string;
  si_transport_node_id : string;
  si_signing_key : SecretKey;
}.

(** [s.chars().take(n)]: the bytes before the [n + 1]-th character. *)
Fixpoint take_chars_list (n : nat) (l : list Ascii.ascii) : list Ascii.ascii :=
  match l with
  | [] => []
  | a :: l =>
      if (128 <=? byte_of a) && (byte_of a <? 192) then a :: take_chars_list n l
      else match n with O => [] | S n => a :: take_chars_list n l end
  end.
Definition take_chars (n : nat) (s : string) : string :=
  String.string_of_list_ascii (take_chars_list n (String.list_ascii_of_string s)).

(** The reply of a command, the state after it and its effects. *)
Definition command (A : Type) : Type :=
  option (result AppError A * option ActiveStage * list StageEffect).
Definition refuses {A} (msg : string) (active : option ActiveStage) : command A :=
  Some (Err (Other msg), active, []).
Definition replies {A} (a : A) (s : ActiveStage) (effects : list StageEffect) : command A :=
  Some (Ok a, Some s, effects).

(** A log line with [short_id(s)], which can panic. *)
Definition logs {A} (s : string) (k : option A) : option A :=
  match short_id s with Some _ => k | None => None end.

Section commands.
Context `{Ed25519, HexCodec, JsonCodec, HashOrder, !Wire StageTicket}.

Definition ticket_to_string (t : StageTicket) : string := hex_encode (to_vec t).
Definition ticket_from_str (s : string) : result string StageTicket :=
  bytes ← match hex_decode s with Ok b => Ok b | Err e => Err ("invalid ticket hex: " +:+ e) end;
  match from_slice bytes with Ok t => Ok t | Err _ => Err "invalid ticket JSON"%string end.

(** ** mod.rs *)

Definition with_active {A} (action : string) (active : option ActiveStage) (f : ActiveStage -> command A)
    : command A :=
  match active with
  | None => refuses ("cannot " +:+ action +:+ ": not in a stage") active
  | Some s => f s
  end.

Definition require_host_active {A} (action : string) (active : option ActiveStage)
    (f : ActiveStage -> command A) : command A :=
  with_active action active (fun s =>
    match as_my_role s with
    | Host | CoHost => f s
    | _ => refuses ("cannot " +:+ action +:+ ": not the host") active
    end).

Definition participant_view (p : Participant) : StageParticipant :=
  {| sp_pubkey := p_pubkey p; sp_role := p_role p; sp_display_name := None; sp_avatar_hash := None;
     sp_hand_raised := p_hand_raised p; sp_self_muted := p_self_muted p;
     sp_host_muted := p_host_muted p |}.

Definition build_state (s : ActiveStage) : StageState :=
  {| ss_stage_id := as_stage_id s; ss_title := as_title s; ss_host_pubkey := as_host_pubkey s;
     ss_my_pubkey := as_my_pubkey s; ss_my_role := as_my_role s;
     ss_participants := participant_view <$> hash_values (as_participants s);
     ss_started_at := as_started_at s; ss_ticket := ticket_to_string <$> as_ticket s |}.

Definition build_active_announcement (active : option ActiveStage) : option StageAnnouncement :=
  s ← active;
  if decide (as_my_role s <> Host) then None
  else ticket ← as_ticket s;
    Some {| sa_stage_id := as_stage_id s; sa_title := as_title s; sa_ticket := ticket;
            sa_host_pubkey := as_host_pubkey s; sa_started_at := as_started_at s |}.

(** [broadcast_control]: a failure is only logged. *)
Definition broadcast_control (id : StageIdentity) (now : Z) (control : StageControl) : StageEffect :=
  BroadcastControl (sign_stage_control control (pk_to_string (sk_public (si_signing_key id)))
    (si_signing_key id) now).
(** The key string the closures of [broadcast_control] receive. *)
Definition signing_pubkey (id : StageIdentity) : string := pk_to_string (sk_public (si_signing_key id)).

(** ** moderation.rs *)

Definition raise_hand (id : StageIdentity) (now : Z) (active : option ActiveStage) : command unit :=
  with_active "raise hand" active (fun s =>
    replies tt s [broadcast_control id now (RaiseHand (as_stage_id s) (signing_pubkey id));
                  EmitStage (EvHandRaised (as_my_pubkey s))]).

Definition lower_hand (id : StageIdentity) (now : Z) (active : option ActiveStage) : command unit :=
  with_active "lower hand" active (fun s =>
    replies tt s [broadcast_control id now (LowerHand (as_stage_id s) (signing_pubkey id));
                  EmitStage (EvHandLowered (as_my_pubkey s))]).

Definition toggle_self_mute (id : StageIdentity) (now : Z) (active : option ActiveStage) : command bool :=
  match active with
  | None => refuses "not in a stage" active
  | Some s =>
      let muted := negb (as_self_muted s) in
      replies muted (set_self_muted muted s)
        [broadcast_control id now (SelfMuteToggle (as_stage_id s) (signing_pubkey id) muted);
         EmitStage (EvMuteChanged (as_my_pubkey s) muted false)]
  end.

Definition send_reaction (id : StageIdentity) (now : Z) (emoji : string) (active : option ActiveStage)
    : command unit :=
  with_active "send reaction" active (fun s =>
    let emoji := take_chars 16 emoji in
    replies tt s [broadcast_control id now (Reaction (as_stage_id s) (signing_pubkey id) emoji);
                  EmitStage (EvReaction (as_my_pubkey s) emoji)]).

Definition send_chat (id : StageIdentity) (now : Z) (text : string) (active : option ActiveStage)
    : command unit :=
  with_active "send chat" active (fun s =>
    let text := take_chars 500 text in
    replies tt s [broadcast_control id now (Chat (as_stage_id s) (signing_pubkey id) text);
                  EmitStage (EvChat (as_my_pubkey s) text)]).

Definition promote_speaker (id : StageIdentity) (now : Z) (pubkey : string)
    (active : option ActiveStage) : command unit :=
  require_host_active "promote" active (fun s =>
    replies tt (update_participant (p_set_role Speaker) pubkey s)
      [broadcast_control id now (PromoteSpeaker (as_stage_id s) pubkey);
       EmitStage (EvRoleChanged pubkey Speaker)]).

Definition demote_speaker (id : StageIdentity) (now : Z) (pubkey : string)
    (active : option ActiveStage) : command unit :=
  require_host_active "demote" active (fun s =>
    replies tt (update_participant (p_set_role Listener) pubkey s)
      [broadcast_control id now (DemoteSpeaker (as_stage_id s) pubkey);
       EmitStage (EvRoleChanged pubkey Listener)]).

(** The debug log line is below the level of the application. *)
Definition sweep_presence (now : Z) (active : option ActiveStage) : option ActiveStage * list StageEffect :=
  match active with
  | None => (None, [])
  | Some s =>
      let cutoff := saturating_sub now PRESENCE_EXPIRY_MS in
      let expired := p_pubkey <$> List.filter
        (fun p => (p_last_seen_ms p <? cutoff) && bool_decide (p_pubkey p <> as_my_pubkey s))
        (hash_values (as_participants s)) in
      (Some (set_participants (fold_left (fun m pk => delete pk m) expired (as_participants s)) s),
       (fun pk => EmitStage (EvParticipantLeft pk)) <$> expired)
  end.

(** [relayed] is the result of [start_relay_pipeline]. *)
Definition volunteer_as_relay (id : StageIdentity) (now : Z) (relayed : result AppError unit)
    (capacity : Z) (active : option ActiveStage) : command unit :=
  match active with
  | None => refuses "not in a stage" active
  | Some s =>
      match as_listener_upstream_id s with
      | None => refuses "no upstream audio source to relay from" active
      | Some upstream_id =>
          match relayed with
          | Err e => Some (Err e, active, [])
          | Ok _ =>
              logs (si_transport_node_id id) (replies tt (set_relay s)
                [StartRelay upstream_id;
                 broadcast_control id now (RelayVolunteer (as_stage_id s) (as_my_pubkey s)
                   (si_transport_node_id id) capacity)])
          end
      end
  end.

(** ** lifecycle.rs *)

(** The stage a host starts, the only participant of which it is. *)
Definition hosted_stage (id : StageIdentity) (now : Z) (stage_id title : string) (ticket : StageTicket)
    : ActiveStage :=
  let me := si_master_pubkey id in
  let node_id := si_transport_node_id id in
  {| as_stage_id := stage_id; as_title := title; as_host_pubkey := me; as_my_pubkey := me;
     as_my_role := Host; as_self_muted := false; as_started_at := now;
     as_participants :=
       {[ me := {| p_pubkey := me; p_role := Host; p_hand_raised := false; p_self_muted := false;
                   p_host_muted := false; p_last_seen_ms := now; p_node_id := Some node_id |} ]};
     as_mixer := true; as_topology := Some (topology_new node_id 15); as_relay := false;
     as_ticket := Some ticket; as_listener_upstream_id := None; as_listener_pipeline := false;
     as_speaker_mixer := false; as_host_node_id := node_id; as_banned_node_ids := ∅ |}.

(** What [ControlPlane::start] sets off: its tasks and the first [Presence]. *)
Definition control_plane_start (id : StageIdentity) (now : Z) (stage_id : string) (role : StageRole)
    : list StageEffect :=
  let me := si_master_pubkey id in
  let node_id := si_transport_node_id id in
  [StartControlPlane stage_id me role node_id;
   BroadcastControl (presence_message stage_id me role (Some node_id) (si_signing_key id) now)].

(** [subscribed] is the result of the gossip subscription in
    [ControlPlane::start], [mixed] that of [spawn_mixer]; [stage_id] is the
    generated id.  Without a mixer the control plane goes on: dropping its token
    cancels nothing. *)
Definition create_stage (id : StageIdentity) (now : Z) (stage_id : string)
    (subscribed mixed : result AppError unit) (title : string) (active : option ActiveStage)
    : command StageTicket :=
  match active with
  | Some _ => refuses "already in a stage" active
  | None =>
      let ticket := {| tk_stage_id := stage_id; tk_host_pubkey := signing_pubkey id;
                       tk_host_node_id := si_transport_node_id id; tk_title := title |} in
      match subscribed with
      | Err e => Some (Err e, None, [])
      | Ok _ =>
          let announced := control_plane_start id now stage_id Host ++
            [broadcast_control id now (Announce stage_id title (si_master_pubkey id) now)] in
          match mixed with
          | Err e => Some (Err e, None, announced)
          | Ok _ =>
              let s := hosted_stage id now stage_id title ticket in
              logs stage_id (replies ticket s (announced ++
                [StartMixer; StartSweep; StartAnnouncer ticket; EmitStage (EvStateSnapshot (build_state s))]))
          end
      end
  end.

(** The stage of a listener: nobody is known before the first [Presence], and
    the host is the signing key of the ticket. *)
Definition joined_stage (id : StageIdentity) (now : Z) (ticket : StageTicket) : ActiveStage :=
  {| as_stage_id := tk_stage_id ticket; as_title := tk_title ticket;
     as_host_pubkey := tk_host_pubkey ticket; as_my_pubkey := si_master_pubkey id;
     as_my_role := Listener; as_self_muted := false; as_started_at := now; as_participants := ∅;
     as_mixer := false; as_topology := None; as_relay := false; as_ticket := None;
     as_listener_upstream_id := Some (tk_host_node_id ticket); as_listener_pipeline := true;
     as_speaker_mixer := false; as_host_node_id := tk_host_node_id ticket; as_banned_node_ids := ∅ |}.

Definition join_stage (id : StageIdentity) (now : Z) (subscribed : result AppError unit)
    (ticket : StageTicket) (active : option ActiveStage) : command unit :=
  match active with
  | Some _ => refuses "already in a stage" active
  | None =>
      match subscribed with
      | Err e => Some (Err e, None, [])
      | Ok _ =>
          let s := joined_stage id now ticket in
          logs (tk_stage_id ticket) (replies tt s
            (control_plane_start id now (tk_stage_id ticket) Listener ++
             [StartSweep; StartListener (tk_host_node_id ticket) (tk_host_pubkey ticket);
              EmitStage (EvStateSnapshot (build_state s))]))
      end
  end.

Definition leave_stage (active : option ActiveStage) : command unit :=
  match active with
  | None => refuses "not in a stage" active
  | Some s =>
      logs (as_stage_id s) (Some (Ok tt, None, [CancelStage; EmitStage (EvEnded (as_stage_id s))]))
  end.

Definition end_stage (id : StageIdentity) (now : Z) (active : option ActiveStage) : command unit :=
  match active with
  | None => refuses "not in a stage" active
  | Some s =>
      if decide (as_my_role s <> Host) then refuses "only the host can end the stage" active
      else
        logs (as_stage_id s) (Some (Ok tt, None,
          [broadcast_control id now (End_ (as_stage_id s)); CancelStage; BroadcastEnded (as_stage_id s);
           EmitStage (EvEnded (as_stage_id s))]))
  end.
End commands.

(** ** pipeline.rs: connections *)

Definition CONN_TYPE_SPEAKER : Z := 1.
Definition CONN_TYPE_LISTENER : Z := 2.

Inductive ConnDecision : Type :=
| NotInStage | Banned | Dropped | UnknownType | WrongRole
| RelayListener | HostListener | HostSpeaker.

(** [handle_incoming_connection] up to the choice of the stream's use.
    [conn_type] is the type byte, [None] when no stream or byte arrives in time. *)
Definition incoming_connection (active : option ActiveStage) (remote : string) (conn_type : option Z)
    : option ConnDecision :=
  match active with
  | None => Some NotInStage
  | Some s =>
      if bool_decide (remote ∈ as_banned_node_ids s) then _ ← short_id remote; Some Banned
      else if as_relay s then
        _ ← short_id remote;
        match conn_type with
        | None => Some Dropped
        | Some t => Some (if t =? CONN_TYPE_LISTENER then RelayListener else UnknownType)
        end
      else match as_my_role s with
      | Host =>
          _ ← short_id remote;
          match conn_type with
          | None => Some Dropped
          | Some t => Some (if t =? CONN_TYPE_SPEAKER then HostSpeaker
                            else if t =? CONN_TYPE_LISTENER then HostListener else UnknownType)
          end
      | _ => Some WrongRole
      end
  end.

(** The SFU hub: the fanout and connection registered for a node.  A number
    stands for both. *)
Abbreviation SfuHub := (gmap string nat).

(** A speaker connects: the subscriptions [(from, to)] opened, where [None] is the
    host's own voice. *)
Definition speaker_connects (hub : SfuHub) (remote : string) (conn : nat)
    : SfuHub * list (option nat * nat) :=
  (<[remote := conn]> hub,
   concat ((fun '(_, e) => [(Some e, conn); (Some conn, e)]) <$> map_to_list hub) ++ [(None, conn)]).

(** The end of [speaker_recv_sfu_loop] of any connection of the node. *)
Definition speaker_leaves (hub : SfuHub) (remote : string) : SfuHub := delete remote hub.
