(* ===== verification/StageHandle.v ===== *)
(** * The task of the stage actor and its handle

    Model of the queue of the stage actor: the commands of
    [src-tauri/src/stage/command.rs] with the type of their reply, the dispatch
    of [stage/mod.rs], the methods of [StageActorHandle], and the commands of
    [commands/stage.rs] that call them.  Commands are handled one after the
    other, so that a call is its command handled at once; a panic in a command
    ends the task, and with it the queue. *)

From S2P Require Import Prelude Types Validation Signing Store Framing Topology Stage StageActor.

Local Open Scope Z_scope.

(** A command and the type of what is sent on its reply channel, [unit] if it
    has none. *)
Inductive StageCommand : Type -> Type :=
| CmdCreateStage (title : string) : StageCommand (result AppError StageTicket)
| CmdJoinStage (ticket : StageTicket) : StageCommand (result AppError unit)
| CmdLeaveStage : StageCommand (result AppError unit)
| CmdEndStage : StageCommand (result AppError unit)
| CmdIncomingConnection (remote : string) : StageCommand unit
| CmdControlReceived (signed : SignedStageControl) : StageCommand unit
| CmdSweepPresence : StageCommand unit
| CmdPromoteSpeaker (pubkey : string) : StageCommand (result AppError unit)
| CmdDemoteSpeaker (pubkey : string) : StageCommand (result AppError unit)
| CmdRaiseHand : StageCommand (result AppError unit)
| CmdLowerHand : StageCommand (result AppError unit)
| CmdToggleSelfMute : StageCommand (result AppError bool)
| CmdSendReaction (emoji : string) : StageCommand (result AppError unit)
| CmdSendChat (text : string) : StageCommand (result AppError unit)
| CmdVolunteerAsRelay (capacity : Z) : StageCommand (result AppError unit)
| CmdGetState : StageCommand (option StageState)
| CmdGetActiveAnnouncement : StageCommand (option StageAnnouncement).

(** What a command finds: the clock, a fresh id, and the results of the gossip
    subscription, of the start of the mixer and of that of the relay. *)
Record StageEnv : Type := {
  en_now : Z;
  en_stage_id : string;
  en_subscribed : result AppError unit;
  en_mixed : result AppError unit;
  en_relayed : result AppError unit;
}.

(** What the queue delivers: a command and what it finds. *)
Record StageInput : Type := {
  in_reply : Type;
  in_cmd : StageCommand in_reply;
  in_env : StageEnv;
}.

(** The task of the actor; a panic drops it with its queue. *)
Inductive ActorTask : Type := Running (active : option ActiveStage) | Gone.

Section handle.
Context `{Ed25519, HexCodec, JsonCodec, HashOrder, !Wire StageTicket}.
Context (id : StageIdentity) (env : StageEnv).

(** [handle]: the reply, the state afterwards and the effects. *)
Definition handle {A} (cmd : StageCommand A) (active : option ActiveStage)
    : option (A * option ActiveStage * list StageEffect) :=
  let now := en_now env in
  match cmd in StageCommand A return option (A * option ActiveStage * list StageEffect) with
  | CmdCreateStage title =>
      create_stage id now (en_stage_id env) (en_subscribed env) (en_mixed env) title active
  | CmdJoinStage ticket => join_stage id now (en_subscribed env) ticket active
  | CmdLeaveStage => leave_stage active
  | CmdEndStage => end_stage id now active
  | CmdIncomingConnection remote =>
      Some (tt, active, [match active with
                         | Some _ => HandleConnection remote
                         | None => CloseConnection remote
                         end])
  | CmdControlReceived signed =>
      match handle_control now (si_signing_key id) active signed with
      | Some (active, effects) => Some (tt, active, effects)
      | None => None
      end
  | CmdPromoteSpeaker pubkey => promote_speaker id now pubkey active
  | CmdDemoteSpeaker pubkey => demote_speaker id now pubkey active
  | CmdSweepPresence =>
      let '(active, effects) := sweep_presence now active in Some (tt, active, effects)
  | CmdVolunteerAsRelay capacity => volunteer_as_relay id now (en_relayed env) capacity active
  | CmdRaiseHand => raise_hand id now active
  | CmdLowerHand => lower_hand id now active
  | CmdToggleSelfMute => toggle_self_mute id now active
  | CmdSendReaction emoji => send_reaction id now emoji active
  | CmdSendChat text => send_chat id now text active
  | CmdGetState => Some (build_state <$> active, active, [])
  | CmdGetActiveAnnouncement => Some (build_active_announcement active, active, [])
  end.

(** The loop of [run] on one command, and what its sender receives. *)
Definition run_command {A} (cmd : StageCommand A) (task : ActorTask)
    : option A * ActorTask * list StageEffect :=
  match task with
  | Gone => (None, Gone, [])
  | Running active =>
      match handle cmd active with
      | Some (reply, active, effects) => (Some reply, Running active, effects)
      | None => (None, Gone, [])
      end
  end.

(** ** The handle *)

(** The body the methods with a result share: the send fails on a closed queue,
    and the reply is dropped with the task. *)
Definition ask {A} (cmd : StageCommand (result AppError A)) (task : ActorTask)
    : result AppError A * ActorTask * list StageEffect :=
  match task with
  | Gone => (Err (Other "stage actor closed"), task, [])
  | Running _ =>
      let '(reply, task, effects) := run_command cmd task in
      (default (Err (Other "stage actor dropped reply")) reply, task, effects)
  end.
(** Those without: both failures are [None]. *)
Definition query {A} (cmd : StageCommand (option A)) (task : ActorTask) : option A :=
  default None (run_command cmd task).1.1.
End handle.

(** [run], on the commands that came. *)
Fixpoint run `{Ed25519, HexCodec, JsonCodec, HashOrder, !Wire StageTicket} (id : StageIdentity)
    (inputs : list StageInput) (task : ActorTask) : ActorTask :=
  match inputs with
  | [] => task
  | i :: inputs => run id inputs (run_command id (in_env i) (in_cmd i) task).1.2
  end.

(** The methods of [StageActorHandle], with the names of the commands they send. *)
Section methods.
Context `{Ed25519, HexCodec, JsonCodec, HashOrder, !Wire StageTicket}.
Context (id : StageIdentity) (env : StageEnv).

Definition create_stage (title : string) := ask id env (CmdCreateStage title).
Definition join_stage (ticket : StageTicket) := ask id env (CmdJoinStage ticket).
Definition leave_stage := ask id env CmdLeaveStage.
Definition end_stage := ask id env CmdEndStage.
Definition promote_speaker (pubkey : string) := ask id env (CmdPromoteSpeaker pubkey).
Definition demote_speaker (pubkey : string) := ask id env (CmdDemoteSpeaker pubkey).
Definition get_state := query id env CmdGetState.
Definition get_active_announcement := query id env CmdGetActiveAnnouncement.
Definition toggle_self_mute := ask id env CmdToggleSelfMute.
Definition raise_hand := ask id env CmdRaiseHand.
Definition lower_hand := ask id env CmdLowerHand.
Definition send_reaction (emoji : string) := ask id env (CmdSendReaction emoji).
Definition send_chat (text : string) := ask id env (CmdSendChat text).
Definition volunteer_as_relay (capacity : Z) := ask id env (CmdVolunteerAsRelay capacity).
Definition incoming_connection (remote : string) (task : ActorTask) : ActorTask * list StageEffect :=
  let '(_, task, effects) := run_command id env (CmdIncomingConnection remote) task in (task, effects).
End methods.

(** [StageHandler::accept]: the log line comes first; a panic there ends only
    the task of the connection. *)
Definition accept_stage `{Ed25519, HexCodec, JsonCodec, HashOrder, !Wire StageTicket}
    (id : StageIdentity) (env : StageEnv) (remote : string) (task : ActorTask)
    : ActorTask * list StageEffect :=
  match short_id remote with
  | Some _ => incoming_connection id env remote task
  | None => (task, [])
  end.

(** ** commands/stage.rs: a ticket travels as a string *)

Section commands.
Context `{Ed25519, HexCodec, JsonCodec, HashOrder, !Wire StageTicket}.
Context (id : StageIdentity) (env : StageEnv).

Definition create_stage_command (title : string) (task : ActorTask)
    : result AppError string * ActorTask * list StageEffect :=
  let '(r, task, effects) := create_stage id env title task in
  (ticket ← r; Ok (ticket_to_string ticket), task, effects).

Definition join_stage_command (ticket : string) (task : ActorTask)
    : result AppError unit * ActorTask * list StageEffect :=
  match ticket_from_str ticket with
  | Err e => (Err (Other e), task, [])
  | Ok ticket => join_stage id env ticket task
  end.

Definition leave_stage_command := leave_stage id env.
Definition end_stage_command := end_stage id env.
Definition get_stage_state (task : ActorTask) : result AppError (option StageState) :=
  Ok (get_state id env task).
Definition stage_promote_speaker := promote_speaker id env.
Definition stage_demote_speaker := demote_speaker id env.
Definition stage_toggle_mute := toggle_self_mute id env.
Definition stage_raise_hand := raise_hand id env.
Definition stage_lower_hand := lower_hand id env.
Definition stage_send_reaction := send_reaction id env.
Definition stage_send_chat := send_chat id env.
Definition stage_volunteer_relay := volunteer_as_relay id env.
End commands.
