(* ===== verification/StageTheorems.v ===== *)
(** * Theorems on stages

    The well-formedness invariant of the actor over any run of messages,
    commands and sweeps; the guarantees of the listener topology; what a sender
    without privileges can and cannot do; a promotion from the host to the
    promoted listener. *)

From S2P Require Import Prelude Types Validation Signing Concrete SigningTheorems Store ConcreteStore Framing ConcreteWire Topology Stage StageHandle StageActor.

Local Open Scope Z_scope.

(** ** Topology *)

Inductive TopologyOp : Type :=
| OpAddRelay (endpoint_id : string) (capacity : Z)
| OpAssign (pubkey : string).

Definition topology_op (t : TopologyManager) (op : TopologyOp) : TopologyManager :=
  match op with
  | OpAddRelay e c => add_relay e c t
  | OpAssign pk => (assign_listener pk t).1
  end.

(** The capacities are u32. *)
Definition op_typed (op : TopologyOp) : Prop :=
  match op with OpAddRelay _ c => 0 <= c | OpAssign _ => True end.

Lemma topology_run_ok ops t :
  topology_ok t -> Forall op_typed ops -> topology_ok (fold_left topology_op ops t).
Proof.
  intros Ht Hops. revert t Ht. induction Hops as [|op ops Hop Hops IH]; intros t Ht; [done|].
  apply IH. destruct op; [by apply add_relay_ok|by apply assign_listener_ok].
Qed.

Lemma release_other pk pk' t :
  pk <> pk' -> tm_assignments (release pk t) !! pk' = tm_assignments t !! pk'.
Proof.
  intros Hne. unfold release. destruct (tm_assignments t !! pk); [|done]. by apply lookup_delete_ne.
Qed.


(** ** The actor's invariant *)

Definition keyed (ps : gmap string Participant) : Prop :=
  map_Forall (fun pk p => p_pubkey p = pk) ps.

(** [short_id] does not panic. *)
Definition loggable (s : string) : Prop := is_Some (short_id s).

Record stage_ok (s : ActiveStage) : Prop := {
  ok_keyed : keyed (as_participants s);
  ok_role : as_my_role s <> CoHost;
  ok_host : as_my_role s = Host -> is_Some (as_topology s) /\ is_Some (as_ticket s);
  ok_topology t : as_topology s = Some t -> topology_ok t;
  ok_relay : as_relay s = true -> is_Some (as_listener_upstream_id s);
  ok_listener : as_listener_pipeline s = true -> is_Some (as_listener_upstream_id s);
  ok_speaker : as_my_role s = Speaker -> as_speaker_mixer s = true;
  ok_logged : loggable (as_stage_id s);
}.
Create HintDb stage.
Definition actor_ok (a : option ActiveStage) : Prop := forall s, a = Some s -> stage_ok s.

Lemma actor_ok_none : actor_ok None.
Proof. done. Qed.
Lemma actor_ok_some s : stage_ok s -> actor_ok (Some s).
Proof. by intros ? ? [= <-]. Qed.
#[export] Hint Resolve actor_ok_none actor_ok_some : stage.

Lemma keyed_alter f pk ps : (forall p, p_pubkey (f p) = p_pubkey p) -> keyed ps -> keyed (alter f pk ps).
Proof.
  intros Hf Hk pk' p. destruct (decide (pk' = pk)) as [->|Hne].
  - rewrite lookup_alter_eq. intros (q & Hq & ->)%fmap_Some. rewrite Hf. by apply Hk.
  - rewrite lookup_alter_ne by done. apply Hk.
Qed.
Lemma keyed_delete pk ps : keyed ps -> keyed (delete pk ps).
Proof. intros Hk. by apply map_Forall_delete. Qed.
Lemma keyed_delete_all expired ps : keyed ps -> keyed (fold_left (fun m pk => delete pk m) expired ps).
Proof.
  revert ps. induction expired as [|pk l IH]; intros ps Hk; [done|]. by apply IH, keyed_delete.
Qed.
#[export] Hint Resolve keyed_delete keyed_delete_all : stage.

Lemma set_participants_ok ps s : keyed ps -> stage_ok s -> stage_ok (set_participants ps s).
Proof. intros Hk []. by split. Qed.
Lemma update_participant_ok f pk s :
  (forall p, p_pubkey (f p) = p_pubkey p) -> stage_ok s -> stage_ok (update_participant f pk s).
Proof. intros Hf Hs. apply set_participants_ok; [|done]. apply keyed_alter, Hs. done. Qed.
Lemma set_topology_ok t s : topology_ok t -> stage_ok s -> stage_ok (set_topology t s).
Proof.
  intros Ht []. split; cbn; auto.
  - intros HR. destruct (ok_host0 HR). by eauto.
  - by intros ? [= <-].
Qed.
Lemma promoted_ok s : stage_ok s -> stage_ok (set_role Speaker false true s).
Proof. intros []. by split. Qed.
Lemma demoted_ok lp sm s :
  (lp = true -> as_listener_pipeline s = true) -> stage_ok s -> stage_ok (set_role Listener lp sm s).
Proof. intros Hlp []. split; cbn; auto; done. Qed.
Lemma set_self_muted_ok m s : stage_ok s -> stage_ok (set_self_muted m s).
Proof. intros []. by split. Qed.
Lemma set_upstream_ok u s : stage_ok s -> stage_ok (set_upstream u s).
Proof. intros []. split; cbn; auto; by eauto. Qed.
Lemma set_relay_ok s : is_Some (as_listener_upstream_id s) -> stage_ok s -> stage_ok (set_relay s).
Proof. intros Hu []. by split. Qed.
Lemma set_banned_ok b s : stage_ok s -> stage_ok (set_banned b s).
Proof. intros []. by split. Qed.
#[export] Hint Resolve set_participants_ok update_participant_ok set_topology_ok promoted_ok demoted_ok
  set_self_muted_ok set_upstream_ok set_relay_ok set_banned_ok ok_keyed : stage.

Lemma goes_on_ok s eff a eff' : goes_on s eff = Some (a, eff') -> stage_ok s -> actor_ok a.
Proof. intros [= <- <-]. auto with stage. Qed.
Lemma leaves_ok sid e a eff : leaves sid e = Some (a, eff) -> actor_ok a.
Proof. unfold leaves. destruct (short_id sid); [|done]. intros [= <- <-]. done. Qed.
Lemma replies_ok {A} (x : A) s eff r a eff' :
  replies x s eff = Some (r, a, eff') -> stage_ok s -> actor_ok a.
Proof. intros [= <- <- <-]. auto with stage. Qed.

(** The handlers of the control messages, unfolded. *)
Ltac unfold_control := unfold handle_control, on_end, on_raise_hand, on_lower_hand, on_promote,
  on_demote, on_mute, on_self_mute, on_ban, on_relay_assignment, remove_participant.

(** Messages are typed: a capacity is a u32. *)
Definition control_typed (c : StageControl) : Prop :=
  match c with RelayVolunteer _ _ _ capacity => 0 <= capacity | _ => True end.

Lemma assign_all_ok relay listeners t : topology_ok t -> topology_ok (assign_all t relay listeners).1.
Proof.
  revert t. induction listeners as [|pk l IH]; intros t Ht; [done|]. cbn.
  pose proof (assign_listener_ok pk t Ht) as Ha. destruct (assign_listener pk t) as [t1 a].
  specialize (IH t1 Ha). by destruct (assign_all t1 relay l).
Qed.

Section actor.
Context `{Ed25519, HexCodec, JsonCodec, HashOrder, !Wire StageTicket}.

Lemma on_presence_ok now s pk role ts nid a eff :
  on_presence now s pk role ts nid = Some (a, eff) -> stage_ok s -> actor_ok a.
Proof.
  intros E Hs. eapply goes_on_ok; [exact E|]. apply set_participants_ok; [|done].
  apply map_Forall_insert_2; [|apply Hs]. cbn.
  destruct (as_participants s !! pk) as [p|] eqn:Ep; cbn; [by apply Hs in Ep|done].
Qed.

Lemma on_relay_volunteer_ok now k s rpk nid cap a eff :
  on_relay_volunteer now k s rpk nid cap = Some (a, eff) -> 0 <= cap -> stage_ok s -> actor_ok a.
Proof.
  unfold on_relay_volunteer. intros E Hc Hs.
  destruct (as_my_role s) eqn:Er; try (by eapply goes_on_ok).
  destruct (as_topology s) as [t|] eqn:Et; [|by eapply goes_on_ok].
  set (ls := _ <$> _) in E. pose proof (assign_all_ok nid ls (add_relay nid cap t)) as Ha.
  destruct (assign_all _ nid ls) as [t' relayed]. eapply goes_on_ok; [exact E|].
  apply set_topology_ok; [|done]. apply Ha, add_relay_ok; [done|]. by apply Hs.
Qed.

Lemma handle_control_ok now k s signed a eff :
  handle_control now k (Some s) signed = Some (a, eff) -> control_typed (sc_control signed) ->
  stage_ok s -> actor_ok a.
Proof.
  unfold_control. intros E Ht Hs.
  destruct (sc_control signed); cbn in Ht;
    repeat first
      [ by eapply on_presence_ok | by eapply on_relay_volunteer_ok
      | by eapply leaves_ok
      | eapply goes_on_ok; [exact E|]
      | match type of E with context [if ?b then _ else _] => destruct b end
      | match type of E with context [short_id ?x] => destruct (short_id x); [|done] end
      | progress cbn [mbind option_bind] in E ].
  all: repeat (case_decide || case_match); eauto 8 with stage.
Qed.

Lemma logs_Some {A} x (k : option A) r : logs x k = Some r -> k = Some r.
Proof. unfold logs. by destruct (short_id x). Qed.
Lemma with_active_ok {A} action a (f : ActiveStage -> command A) r a' eff :
  with_active action a f = Some (r, a', eff) -> actor_ok a ->
  (forall s, stage_ok s -> f s = Some (r, a', eff) -> actor_ok a') -> actor_ok a'.
Proof.
  intros E Ha Hf. destruct a as [s|]; cbn in E; [by eapply Hf, E; apply Ha|].
  by injection E as <- <- <-.
Qed.
Lemma require_host_active_ok {A} action a (f : ActiveStage -> command A) r a' eff :
  require_host_active action a f = Some (r, a', eff) -> actor_ok a ->
  (forall s, stage_ok s -> f s = Some (r, a', eff) -> actor_ok a') -> actor_ok a'.
Proof.
  intros E Ha Hf. eapply with_active_ok; [exact E|done|]. intros s Hs Es.
  cbv beta in Es. destruct (as_my_role s); try (by eapply Hf, Es); by injection Es as <- <- <-.
Qed.

(** A log line that did not panic. *)
Lemma logs_loggable {A} x (k : option A) r : logs x k = Some r -> loggable x /\ k = Some r.
Proof. unfold logs, loggable. by destruct (short_id x). Qed.

Lemma create_stage_ok id now sid subscribed mixed title a r a' eff :
  create_stage id now sid subscribed mixed title a = Some (r, a', eff) -> actor_ok a -> actor_ok a'.
Proof.
  unfold create_stage. destruct a as [s|]; [by intros [= <- <- <-]|].
  destruct subscribed; [|by intros [= <- <- <-]]. destruct mixed; [|by intros [= <- <- <-]].
  intros [Hl E]%logs_loggable _. eapply replies_ok; [exact E|]. split; cbn; try done.
  - by apply map_Forall_singleton.
  - intros t [= <-]. by apply topology_new_ok.
Qed.

Lemma join_stage_ok id now subscribed ticket a r a' eff :
  join_stage id now subscribed ticket a = Some (r, a', eff) -> actor_ok a -> actor_ok a'.
Proof.
  unfold join_stage. destruct a as [s|]; [by intros [= <- <- <-]|].
  destruct subscribed; [|by intros [= <- <- <-]]. intros [Hl E]%logs_loggable _.
  eapply replies_ok; [exact E|]. by split.
Qed.

Lemma leave_stage_ok a r a' eff : leave_stage a = Some (r, a', eff) -> actor_ok a -> actor_ok a'.
Proof. destruct a as [s|]; cbn; [intros E%logs_Some|intros E]; by injection E as <- <- <-. Qed.
Lemma end_stage_ok id now a r a' eff : end_stage id now a = Some (r, a', eff) -> actor_ok a -> actor_ok a'.
Proof.
  destruct a as [s|]; cbn; [|by intros [= <- <- <-]]. case_decide; [by intros [= <- <- <-]|].
  intros E%logs_Some. by injection E as <- <- <-.
Qed.
Lemma toggle_self_mute_ok id now a r a' eff :
  toggle_self_mute id now a = Some (r, a', eff) -> actor_ok a -> actor_ok a'.
Proof.
  intros E Ha. destruct a as [s|]; cbn in E; [|by injection E as <- <- <-].
  eapply replies_ok; [exact E|]. by apply set_self_muted_ok, Ha.
Qed.
Lemma volunteer_as_relay_ok id now relayed capacity a r a' eff :
  volunteer_as_relay id now relayed capacity a = Some (r, a', eff) -> actor_ok a -> actor_ok a'.
Proof.
  intros E Ha. destruct a as [s|]; cbn in E; [|by injection E as <- <- <-].
  destruct (as_listener_upstream_id s) eqn:Eu; [|by injection E as <- <- <-].
  destruct relayed; [|by injection E as <- <- <-]. apply logs_Some in E.
  eapply replies_ok; [exact E|]. apply set_relay_ok; [by rewrite Eu|by apply Ha].
Qed.
Lemma sweep_presence_ok now a : actor_ok a -> actor_ok (sweep_presence now a).1.
Proof.
  intros Ha. destruct a as [s|]; cbn [sweep_presence fst]; [|done]. apply actor_ok_some.
  specialize (Ha s eq_refl). eauto with stage.
Qed.

(** What the queue can hold: control messages passed the receive loop of a
    stage, which need not be the present one. *)
Definition admissible (i : StageInput) : Prop :=
  match in_cmd i with
  | CmdControlReceived signed =>
      control_typed (sc_control signed) /\ exists sid, accept_control sid signed = true
  | _ => True
  end.

(** A command whose log line panics: it names a stage or a node with a
    character across the eighth byte. *)
Definition unloggable (id : StageIdentity) (i : StageInput) : Prop :=
  match in_cmd i with
  | CmdCreateStage _ => ~ loggable (en_stage_id (in_env i))
  | CmdJoinStage ticket => ~ loggable (tk_stage_id ticket)
  | CmdVolunteerAsRelay _ => ~ loggable (si_transport_node_id id)
  | CmdControlReceived signed =>
      match sc_control signed with RelayAssignment _ _ node _ => ~ loggable node | _ => False end
  | _ => False
  end.

Lemma handle_ok id i a r a' eff :
  handle id (in_env i) (in_cmd i) a = Some (r, a', eff) -> admissible i -> actor_ok a -> actor_ok a'.
Proof.
  destruct i as [A cmd env]. cbn [in_cmd in_env in_reply] in *. intros E Hi Ha.
  destruct cmd; cbn [handle] in E;
    try (by injection E as <- <- <-);
    try (eapply with_active_ok; [exact E|done|]; intros s Hs Er; by eapply replies_ok; [exact Er|]);
    try (eapply require_host_active_ok; [exact E|done|]; intros s Hs Er;
         eapply replies_ok; [exact Er|]; by apply update_participant_ok).
  - by eapply create_stage_ok.
  - by eapply join_stage_ok.
  - by eapply leave_stage_ok.
  - by eapply end_stage_ok.
  - destruct (handle_control _ _ _ _) as [[a2 eff2]|] eqn:Ec; [|done]. injection E as <- <- <-.
    destruct a as [s|]; [|by injection Ec as <- <-]. eapply handle_control_ok; [exact Ec|apply Hi|by apply Ha].
  - destruct (sweep_presence _ a) as [a2 eff2] eqn:Es. injection E as <- <- <-.
    change a2 with (a2, eff2).1. rewrite <-Es. by apply sweep_presence_ok.
  - by eapply toggle_self_mute_ok.
  - by eapply volunteer_as_relay_ok.
Qed.

Lemma logs_None {A} x (k : option A) : logs x k = None -> k <> None -> ~ loggable x.
Proof. unfold logs, loggable. intros E Hk [y Hy]. by rewrite Hy in E. Qed.
Lemma leaves_None sid e : leaves sid e = None -> ~ loggable sid.
Proof. unfold leaves, loggable. intros E [y Hy]. by rewrite Hy in E. Qed.

Lemma handle_control_alive now k s signed :
  handle_control now k (Some s) signed = None -> stage_ok s ->
  match sc_control signed with RelayAssignment _ _ node _ => ~ loggable node | _ => False end.
Proof.
  unfold_control. intros E [??????? Hl].
  assert (forall e, leaves (as_stage_id s) e <> None) as Hn by (by intros e ?%leaves_None).
  destruct (sc_control signed); try done;
    repeat first
      [ done | by destruct (Hn _ E)
      | match type of E with context [if ?b then _ else _] => destruct b end ].
  - unfold on_relay_volunteer in E. destruct (as_my_role s); try done. destruct (as_topology s); [|done].
    by destruct (assign_all _ _ _).
  - cbn in E. intros [y Hy]. by rewrite Hy in E.
  - cbn in E. intros [y Hy]. by rewrite Hy in E.
  - case_match; exact (Hn _ E).
Qed.

Lemma handle_alive id i a :
  handle id (in_env i) (in_cmd i) a = None -> actor_ok a -> unloggable id i.
Proof.
  destruct i as [A cmd env]. unfold unloggable. cbn [in_cmd in_env in_reply]. intros E Ha.
  assert (forall s, a = Some s -> loggable (as_stage_id s)) as Hl by (intros s Es; by apply Ha).
  destruct a as [s|].
  - specialize (Hl s eq_refl). destruct cmd; cbn [handle] in E; try done.
    + by eapply logs_None in E.
    + cbn in E. destruct (decide (as_my_role s <> Host)); [done|]. by eapply logs_None in E.
    + destruct (handle_control _ _ _ _) as [[??]|] eqn:Ec; [done|].
      apply handle_control_alive in Ec; [|by apply Ha]. done.
    + cbn in E. by destruct (as_my_role s).
    + cbn in E. by destruct (as_my_role s).
    + cbn in E. destruct (as_listener_upstream_id s); [|done]. destruct (en_relayed env); [|done].
      by eapply logs_None in E.
  - destruct cmd; cbn in E; try done; (destruct (en_subscribed env); [|done]).
    + destruct (en_mixed env); [|done]. by eapply logs_None in E.
    + by eapply logs_None in E.
Qed.

Lemma run_gone id inputs : run id inputs Gone = Gone.
Proof. by induction inputs. Qed.

(** C14: Whatever the queue of an actor delivers, in any order from the idle
    state, an active stage is well formed: every participant is stored under its
    own key, a host has a topology (with a consistent routing table) and a
    ticket, a relay and a listener pipeline have an upstream, a speaker has a
    mixer, and the own role is never that of a co-host.  The task itself ends
    only at a command whose log line cuts a character of the id it names. *)
Theorem stage_well_formed (id : StageIdentity) (inputs : list StageInput)
    (Hinputs : Forall admissible inputs) :
  match run id inputs (Running None) with
  | Running (Some s) => stage_ok s
  | Running None => True
  | Gone => Exists (unloggable id) inputs
  end.
Proof.
  assert (actor_ok None) as Ha by done. revert Ha Hinputs. generalize (@None ActiveStage).
  induction inputs as [|i inputs IH]; intros a Ha Hinputs; cbn [run].
  { destruct a as [s|]; [by apply Ha|done]. }
  apply Forall_cons in Hinputs as [Hi Hinputs]. cbn [run_command].
  destruct (handle id (in_env i) (in_cmd i) a) as [[[r a'] eff]|] eqn:E; cbn [fst snd].
  - specialize (IH a' (handle_ok _ _ _ _ _ _ E Hi Ha) Hinputs).
    destruct (run id inputs (Running a')) as [[s|]|]; [done..|]. by right.
  - rewrite run_gone. left. by eapply handle_alive.
Qed.

(** Such a ticket is all it takes: joining it from the idle state ends the task,
    and every later call fails until the application is started again. *)
Lemma ticket_kills_actor id env ticket inputs :
  ~ loggable (tk_stage_id ticket) -> en_subscribed env = Ok tt ->
  StageHandle.join_stage id env ticket (Running None) =
    (Err (Other "stage actor dropped reply"), Gone, []) /\
  forall env' title, StageHandle.create_stage id env' title (run id inputs Gone) =
    (Err (Other "stage actor closed"), Gone, []).
Proof.
  intros Hl Hs. split; [|intros; by rewrite run_gone].
  unfold StageHandle.join_stage, ask, run_command, handle, join_stage, logs. rewrite Hs.
  destruct (short_id (tk_stage_id ticket)) eqn:E; [|done]. by destruct Hl; eexists.
Qed.

(** The string a host is given joins the stage of its ticket, under the signing
    key of the host, wherever it is pasted. *)
Lemma ticket_joins `{!HexLaws, !WireLaws StageTicket} host env title s task eff listener env' :
  let ticket := {| tk_stage_id := en_stage_id env; tk_host_pubkey := signing_pubkey host;
                   tk_host_node_id := si_transport_node_id host; tk_title := title |} in
  Forall is_u8 (to_vec ticket) ->
  create_stage_command host env title (Running None) = (Ok s, task, eff) ->
  en_subscribed env' = Ok tt ->
  (join_stage_command listener env' s (Running None)).1 =
    (Ok tt, Running (Some (joined_stage listener (en_now env') ticket))).
Proof.
  intros ticket Hb E Hs.
  unfold create_stage_command, StageHandle.create_stage, ask, run_command, handle, create_stage in E.
  destruct (en_subscribed env); [|by injection E]. destruct (en_mixed env); [|by injection E].
  unfold logs in E. destruct (short_id (en_stage_id env)) as [x|] eqn:El; [|by injection E].
  cbn in E. injection E as <- _ _. unfold join_stage_command, ticket_from_str, ticket_to_string.
  rewrite hex_decode_encode by done. cbn. rewrite from_to_vec.
  unfold StageHandle.join_stage, ask, run_command, handle, join_stage, logs. rewrite Hs. cbn. by rewrite El.
Qed.

(** A message of an earlier stage that still waits in the queue is obeyed in the
    next one, since nothing looks at its stage id again: the end of the old
    stage ends the new stage of the same host. *)
Lemma stale_end_obeyed now k s sid signed :
  accept_control sid signed = true -> sc_control signed = End_ sid ->
  sid <> as_stage_id s -> sc_sender_pubkey signed = as_host_pubkey s -> loggable (as_stage_id s) ->
  handle_control now k (Some s) signed = Some (None, [CancelStage; EmitStage (EvEnded (as_stage_id s))]).
Proof.
  intros _ Ec _ Es [y Hy]. unfold_control. rewrite Ec, bool_decide_eq_true_2 by done.
  unfold leaves. by rewrite Hy.
Qed.
End actor.

(** ** Privileges *)

(** The effects any member may cause. *)
Definition harmless (e : StageEffect) : Prop :=
  match e with EmitStage (EvEnded _ | EvKicked) => False | EmitStage _ | BroadcastControl _ => True
  | _ => False end.

(** The message is a presence of [pubkey] with [role]. *)
Definition announces (c : StageControl) (pubkey : string) (role : StageRole) : Prop :=
  exists sid ts nid, c = Presence sid pubkey role ts nid.

(** What the message may change of the participant under [pk]: the fields of
    its presence, and the flags for the raised hand and the own mute, by a
    message that names it (whoever sends it). *)
Record member_kept (c : StageControl) (pk : string) (p p' : Participant) : Prop := {
  mk_pubkey : p_pubkey p' = p_pubkey p;
  mk_host_muted : p_host_muted p' = p_host_muted p;
  mk_presence : (p_role p' = p_role p /\ p_last_seen_ms p' = p_last_seen_ms p /\ p_node_id p' = p_node_id p) \/
    announces c pk (p_role p');
  mk_self_muted : p_self_muted p' = p_self_muted p \/ exists sid, c = SelfMuteToggle sid pk (p_self_muted p');
  mk_hand : p_hand_raised p' = p_hand_raised p \/
    exists sid, c = if p_hand_raised p' then RaiseHand sid pk else LowerHand sid pk;
}.

(** No participant is removed, and one is added only by its presence. *)
Definition members_kept (c : StageControl) (s s' : ActiveStage) : Prop :=
  (forall pk p, as_participants s !! pk = Some p ->
     exists p', as_participants s' !! pk = Some p' /\ member_kept c pk p p') /\
  (forall pk p', as_participants s' !! pk = Some p' -> as_participants s !! pk = None ->
     announces c pk (p_role p') /\ p_pubkey p' = pk /\ p_host_muted p' = false).

Lemma member_kept_refl c pk p : member_kept c pk p p.
Proof. split; auto. Qed.

Lemma members_kept_alter c f pk s :
  (forall p, member_kept c pk p (f p)) -> members_kept c s (update_participant f pk s).
Proof.
  intros Hf. split; intros pk' p Hp; cbn in *.
  - destruct (decide (pk' = pk)) as [->|Hne].
    + rewrite lookup_alter_eq, Hp. exists (f p). auto.
    + rewrite lookup_alter_ne by done. exists p. auto using member_kept_refl.
  - intros Hn. destruct (decide (pk' = pk)) as [->|Hne].
    + by rewrite lookup_alter_eq, Hn in Hp.
    + rewrite lookup_alter_ne in Hp by done. congruence.
Qed.
Lemma members_kept_refl c s s' : as_participants s' = as_participants s -> members_kept c s s'.
Proof.
  intros E. split; intros pk p Hp; rewrite E in *; [|congruence].
  exists p. auto using member_kept_refl.
Qed.

Lemma members_kept_presence c s s' pk role sid ts nid p' :
  c = Presence sid pk role ts nid -> as_participants s' = <[pk := p']> (as_participants s) ->
  p_role p' = role ->
  (forall p, as_participants s !! pk = Some p -> p_pubkey p' = p_pubkey p /\ p_host_muted p' = p_host_muted p /\
     p_self_muted p' = p_self_muted p /\ p_hand_raised p' = p_hand_raised p) ->
  (as_participants s !! pk = None -> p_pubkey p' = pk /\ p_host_muted p' = false) ->
  members_kept c s s'.
Proof.
  intros -> E Hr Hold Hnew. split; intros k p Hp; rewrite E in *; destruct (decide (k = pk)) as [->|Hne].
  - rewrite lookup_insert_eq. exists p'. split; [done|]. destruct (Hold p Hp) as (? & ? & ? & ?).
    split; auto. right. rewrite Hr. by exists sid, ts, nid.
  - rewrite lookup_insert_ne by done. exists p. auto using member_kept_refl.
  - rewrite lookup_insert_eq in Hp. injection Hp as <-. intros Hn. split; [|by apply Hnew].
    rewrite Hr. by exists sid, ts, nid.
  - rewrite lookup_insert_ne in Hp by done. congruence.
Qed.

(** A message that is only shown, or changes flags of a participant. *)
Ltac stays :=
  eexists _, _; split; [reflexivity|]; split_and!;
    [by repeat constructor
    |first [by apply members_kept_refl
           |apply members_kept_alter; intros; split; cbn; by eauto]|try done; by eauto 10..].

Section privileges.
Context `{Ed25519Laws, HexCodec, !HexLaws, JsonCodec, !JsonLaws, HashOrder, !Wire StageTicket}.

(** C21: A message whose sender is neither the host nor a moderator of the
    receiver never panics, never ends the stage or stops a pipeline, and leaves
    the host, the own role and mute, the bans and the audio upstream alone.  It
    removes no participant and adds only the one whose presence it is; it sets or
    lifts no host mute, changes a role only as a presence of that participant,
    and the flags for the own mute and the raised hand only of the participant it
    names -- which need not be its sender. *)
Theorem stage_unprivileged (now : Z) (k : SecretKey) (s : ActiveStage) (signed : SignedStageControl)
    (Hsender : is_moderator s (sc_sender_pubkey signed) = false) :
  exists s' eff, handle_control now k (Some s) signed = Some (Some s', eff) /\
    Forall harmless eff /\ members_kept (sc_control signed) s s' /\
    as_my_role s' = as_my_role s /\ as_banned_node_ids s' = as_banned_node_ids s /\
    as_listener_upstream_id s' = as_listener_upstream_id s /\
    as_listener_pipeline s' = as_listener_pipeline s /\ as_relay s' = as_relay s /\
    as_host_pubkey s' = as_host_pubkey s /\ as_self_muted s' = as_self_muted s /\
    (as_topology s' = as_topology s \/ exists sid rpk rnid cap,
       sc_control signed = RelayVolunteer sid rpk rnid cap /\ as_my_role s = Host).
Proof.
  unfold_control. rewrite Hsender.
  assert (bool_decide (sc_sender_pubkey signed = as_host_pubkey s) = false) as -> by
    (unfold is_moderator in Hsender; by apply orb_false_iff in Hsender as [? _]).
  destruct (sc_control signed) as [| |sid pk role ts nid|sid rpk rnid cap| | | | | | | | | | |] eqn:Ec;
    cbn [andb]; try by stays.
  - eexists _, _. split; [reflexivity|]. split_and!; try done; [| |by left].
    + destruct (as_participants s !! pk); by repeat constructor.
    + eapply members_kept_presence; [done|reflexivity|done|by intros p ->|by intros ->].
  - unfold on_relay_volunteer.
    destruct (as_my_role s) eqn:Er; try destruct (as_topology s) eqn:Et;
      try by stays.
    destruct (assign_all _ _ _) as [t' relayed]. destruct relayed; stays.
Qed.

Lemma accept_signed sid c key ts :
  control_stage_id c = sid ->
  accept_control sid (sign_stage_control c (pk_to_string (sk_public key)) key ts) = true.
Proof.
  intros Hc. unfold accept_control. cbn [sc_sender_pubkey sign_stage_control].
  rewrite pk_parse_to_string. unfold verify_stage_control, sign_stage_control.
  cbn [sc_signature sc_sender_pubkey sc_control sc_timestamp]. rewrite hex_to_signature_to_hex.
  cbn. rewrite verify_or_sign. cbn. by apply bool_decide_eq_true.
Qed.

(** Any key holder makes itself a moderator of every receiver: the presence
    it signs for its own signing key with the role of a co-host passes the
    receive loop and is believed, after which it removes any participant of
    the receiver, or the receiver itself, from the stage. *)
Theorem stage_escalation (now : Z) (k attacker : SecretKey) (s : ActiveStage) (ts : Z) :
  let apk := pk_to_string (sk_public attacker) in
  let sid := as_stage_id s in
  let claim := sign_stage_control (Presence sid apk CoHost ts None) apk attacker ts in
  let kick victim := sign_stage_control (Kick sid victim) apk attacker ts in
  accept_control sid claim = true /\ (forall victim, accept_control sid (kick victim) = true) /\
  exists s' eff, handle_control now k (Some s) claim = Some (Some s', eff) /\
    is_moderator s' apk = true /\
    (forall victim, victim <> as_my_pubkey s ->
       handle_control now k (Some s') (kick victim) =
         Some (Some (set_participants (delete victim (as_participants s')) s'),
               [EmitStage (EvParticipantLeft victim)])) /\
    handle_control now k (Some s') (kick (as_my_pubkey s)) = leaves sid EvKicked.
Proof.
  intros apk sid claim kick. split; [by apply accept_signed|]. split; [intros v; by apply accept_signed|].
  eexists _, _. split; [reflexivity|].
  match goal with |- is_moderator ?s' _ = _ /\ _ => assert (is_moderator s' apk = true) as Hm end.
  { unfold is_moderator. cbn [as_participants set_participants]. rewrite lookup_insert_eq. cbn [p_role].
    by rewrite (bool_decide_eq_true_2 (CoHost = CoHost)), orb_true_r. }
  split; [exact Hm|]. split; [intros v Hv|]; unfold_control;
    cbn [kick sc_control sign_stage_control sc_sender_pubkey]; fold apk; rewrite Hm;
    cbn [as_my_pubkey set_participants]; [by rewrite decide_False|by rewrite decide_True].
Qed.
End privileges.

(** ** Presence and promotion *)

Lemma lookup_delete_all expired (ps : gmap string Participant) pk :
  fold_left (fun m k => delete k m) expired ps !! pk = if decide (pk ∈ expired) then None else ps !! pk.
Proof.
  revert ps. induction expired as [|k l IH]; intros ps; cbn; [by rewrite decide_False by set_solver|].
  rewrite IH. destruct (decide (pk = k)) as [->|Hne].
  - rewrite lookup_delete_eq, (decide_True (P := k ∈ k :: l)) by set_solver. by destruct (decide _).
  - rewrite lookup_delete_ne by done. destruct (decide (pk ∈ l)) as [Hin|Hin].
    + by rewrite decide_True by set_solver.
    + by rewrite decide_False by set_solver.
Qed.

Lemma NoDup_fmap_bfilter {A B} (f : A -> B) p (l : list A) : NoDup (f <$> l) -> NoDup (f <$> List.filter p l).
Proof.
  induction l as [|x l IH]; [done|]. cbn. intros [Hx Hl]%NoDup_cons. destruct (p x); [|by apply IH].
  cbn. apply NoDup_cons. split; [|by apply IH]. intros (y & E & Hy)%list_elem_of_fmap. apply Hx.
  apply list_elem_of_fmap. exists y. split; [done|].
  by apply list_elem_of_In, filter_In in Hy as [Hy%list_elem_of_In _].
Qed.

Lemma keyed_values_NoDup `{HashOrderLaws} ps : keyed ps -> NoDup (p_pubkey <$> hash_values ps).
Proof.
  intros Hk. rewrite (hash_values_perm ps). rewrite <-list_fmap_compose.
  rewrite (list_fmap_ext _ fst); [apply NoDup_fst_map_to_list|].
  intros i [pk p] Hi. apply list_elem_of_lookup_2, elem_of_map_to_list in Hi. by apply Hk in Hi.
Qed.

Section promotion.
Context `{Ed25519Laws, HexCodec, !HexLaws, JsonCodec, !JsonLaws, HashOrder, !HashOrderLaws, !Wire StageTicket}.

(** In a well-formed stage a sweep removes exactly the other participants
    not heard of for more than 45 seconds, reports each of them as left once,
    and changes nothing else. *)
Theorem sweep_exact (now : Z) (s : ActiveStage) (Hok : stage_ok s) :
  let silent p := (p_last_seen_ms p <? saturating_sub now 45000) &&
                  bool_decide (p_pubkey p <> as_my_pubkey s) in
  exists s' gone, sweep_presence now (Some s) = (Some s', (fun pk => EmitStage (EvParticipantLeft pk)) <$> gone) /\
    s' = set_participants (as_participants s') s /\
    NoDup gone /\
    (forall pk, pk ∈ gone <-> exists p, as_participants s !! pk = Some p /\ silent p = true) /\
    (forall pk, as_participants s' !! pk =
       p ← as_participants s !! pk; if silent p then None else Some p).
Proof.
  intros silent.
  set (gone := p_pubkey <$> List.filter silent (hash_values (as_participants s))).
  assert (forall p, In p (hash_values (as_participants s)) <-> exists pk, as_participants s !! pk = Some p) as Hv.
  { intros p. rewrite <-list_elem_of_In. rewrite (hash_values_perm (as_participants s)).
    rewrite list_elem_of_fmap. split.
    - intros ([pk q] & -> & Hq). apply elem_of_map_to_list in Hq. by exists pk.
    - intros [pk Hp]. exists (pk, p). split; [done|]. by apply elem_of_map_to_list. }
  assert (forall pk, pk ∈ gone <-> exists p, as_participants s !! pk = Some p /\ silent p = true) as Hg.
  { intros pk. unfold gone. rewrite list_elem_of_fmap. split.
    - intros (p & -> & Hp). apply list_elem_of_In, filter_In in Hp as [[pk Hp]%Hv Hs]. exists p.
      by rewrite (ok_keyed s Hok pk p Hp).
    - intros (p & Hp & Hs). exists p. split; [by rewrite (ok_keyed s Hok pk p Hp)|].
      apply list_elem_of_In, filter_In. split; [apply Hv; by exists pk|done]. }
  eexists _, gone. split; [reflexivity|]. split; [done|]. split; [|split; [exact Hg|]].
  - apply NoDup_fmap_bfilter. by apply keyed_values_NoDup, Hok.
  - intros pk. cbn [as_participants set_participants]. fold silent. change (p_pubkey <$> _) with gone.
    rewrite lookup_delete_all. destruct (decide (pk ∈ gone)) as [Hin|Hin].
    + apply Hg in Hin as (p & -> & Hs). cbn. by rewrite Hs.
    + destruct (as_participants s !! pk) as [p|] eqn:Ep; [|done]. cbn.
      destruct (silent p) eqn:Hs; [|done]. exfalso. apply Hin, Hg. by exists p.
Qed.

(** A stage created by one participant and joined by another with its
    ticket: the host's command to promote the listener is accepted by the
    listener, which becomes a speaker, stops listening and connects its
    microphone to the host. *)
Theorem promotion_delivered (host listener : StageIdentity) (t1 t2 t3 t4 : Z) (sid title : string)
    (ticket : StageTicket) (sh sl : ActiveStage) (eff1 eff2 : list StageEffect)
    (Hcreate : create_stage host t1 sid (Ok tt) (Ok tt) title None = Some (Ok ticket, Some sh, eff1))
    (Hjoin : join_stage listener t2 (Ok tt) ticket None = Some (Ok tt, Some sl, eff2)) :
  exists sh' m shown sl',
    promote_speaker host t3 (si_master_pubkey listener) (Some sh) =
      Some (Ok tt, Some sh', [BroadcastControl m; shown]) /\
    accept_control (as_stage_id sl) m = true /\
    handle_control t4 (si_signing_key listener) (Some sl) m =
      Some (Some sl', [CancelListener; StartSpeaker (si_transport_node_id host);
                       EmitStage (EvRoleChanged (si_master_pubkey listener) Speaker)]) /\
    as_my_role sl' = Speaker /\ as_speaker_mixer sl' = true /\ as_listener_pipeline sl' = false.
Proof.
  unfold create_stage in Hcreate. apply logs_Some in Hcreate. injection Hcreate as <- <- _.
  unfold join_stage in Hjoin. apply logs_Some in Hjoin. injection Hjoin as <- _.
  eexists _, _, _, _. split; [reflexivity|]. split; [by apply accept_signed|].
  split.
  - unfold_control. cbn [sc_control sign_stage_control sc_sender_pubkey].
    unfold is_moderator at 1. cbn [as_host_pubkey as_my_pubkey update_participant set_participants].
    rewrite bool_decide_eq_true_2 by done. cbn [orb]. rewrite decide_True by done. reflexivity.
  - by split_and!.
Qed.

(** The heartbeat a listener keeps sending carries the role it joined
    with, so the next one after a promotion makes it a listener again for the
    host, whatever the host had recorded. *)
Theorem heartbeat_reverts_promotion (host listener : StageIdentity) (t2 t3 t4 : Z)
    (ticket : StageTicket) (sh sl : ActiveStage) (eff2 : list StageEffect)
    (Hjoin : join_stage listener t2 (Ok tt) ticket None = Some (Ok tt, Some sl, eff2))
    (Hhost : as_my_role sh = Host) :
  let me := si_master_pubkey listener in
  exists role sh' shown sh'' eff,
    StartControlPlane (tk_stage_id ticket) me role (si_transport_node_id listener) ∈ eff2 /\
    promote_speaker host t3 me (Some sh) = Some (Ok tt, Some sh', shown) /\
    handle_control t4 (si_signing_key host) (Some sh')
      (presence_message (tk_stage_id ticket) me role (Some (si_transport_node_id listener))
         (si_signing_key listener) t4) = Some (Some sh'', eff) /\
    p_role <$> as_participants sh'' !! me = Some Listener.
Proof.
  unfold join_stage in Hjoin. apply logs_Some in Hjoin. injection Hjoin as _ <-.
  intros me. exists Listener. eexists _, _, _, _. split; [by left|].
  split; [unfold promote_speaker, require_host_active; cbn; rewrite Hhost; reflexivity|].
  split; [reflexivity|]. cbn. by rewrite lookup_insert_eq.
Qed.

(** Demoting a speaker changes its role only: the speaker's own pipeline, which
    sends its microphone, is not stopped, and it does not listen again. *)
Theorem demotion_keeps_speaking (host : StageIdentity) (k : SecretKey) (t1 t2 : Z) (s : ActiveStage)
    (Hhost : as_host_pubkey s = signing_pubkey host) (Hspeaks : as_my_role s = Speaker)
    (Hok : stage_ok s) :
  exists s', handle_control t2 k (Some s) (sign_stage_control
      (DemoteSpeaker (as_stage_id s) (as_my_pubkey s)) (signing_pubkey host) (si_signing_key host) t1) =
      Some (Some s', [EmitStage (EvRoleChanged (as_my_pubkey s) Listener)]) /\
    as_my_role s' = Listener /\ as_speaker_mixer s' = true /\
    as_listener_pipeline s' = as_listener_pipeline s.
Proof.
  eexists. unfold_control. cbn [sc_control sign_stage_control sc_sender_pubkey].
  unfold is_moderator. rewrite Hhost, bool_decide_eq_true_2 by done. cbn [orb].
  cbn [as_my_pubkey update_participant set_participants]. destruct (decide _) as [_|[]]; [|done].
  split; [reflexivity|]. split_and!; [done| |done]. exact (ok_speaker s Hok Hspeaks).
Qed.
End promotion.

(** ** The SFU hub *)

(** Speakers connect one after the other; [l] holds their node and connection. *)
Fixpoint connect_all (hub : SfuHub) (l : list (string * nat)) : SfuHub * list (option nat * nat) :=
  match l with
  | [] => (hub, [])
  | (remote, conn) :: l =>
      let '(hub, subs) := speaker_connects hub remote conn in
      let '(hub, more) := connect_all hub l in (hub, subs ++ more)
  end.

Lemma elem_of_connects (hub : SfuHub) remote conn o c :
  (o, c) ∈ (speaker_connects hub remote conn).2 <->
  (exists r e, hub !! r = Some e /\ ((o = Some e /\ c = conn) \/ (o = Some conn /\ c = e))) \/
  (o = None /\ c = conn).
Proof.
  cbn. rewrite elem_of_app, list_elem_of_singleton.
  assert ((o, c) = (None, conn) <-> o = None /\ c = conn) as -> by naive_solver.
  assert ((o, c) ∈ concat ((fun '(_, e) => [(Some e, conn); (Some conn, e)]) <$> map_to_list hub) <->
    exists r e, hub !! r = Some e /\ ((o = Some e /\ c = conn) \/ (o = Some conn /\ c = e))) as ->; [|done].
  rewrite list_elem_of_In, in_concat. split.
  - intros (l & Hl & Hin). apply list_elem_of_In, list_elem_of_fmap in Hl as ([r e] & -> & Hr).
    apply elem_of_map_to_list in Hr. exists r, e. split; [done|]. cbn in Hin. naive_solver.
  - intros (r & e & Hr & Hoc). exists [(Some e, conn); (Some conn, e)]. split.
    + apply list_elem_of_In, list_elem_of_fmap. exists (r, e). split; [done|]. by apply elem_of_map_to_list.
    + cbn. naive_solver.
Qed.

Lemma connect_all_subs hub l o c :
  NoDup (l.*1) -> (forall r, r ∈ l.*1 -> hub !! r = None) ->
  ((o, c) ∈ (connect_all hub l).2 <->
    c ∈ l.*2 /\ o = None \/
    exists e, o = Some e /\
      ((exists r, hub !! r = Some e) /\ c ∈ l.*2 \/ (exists r, hub !! r = Some c) /\ e ∈ l.*2 \/
       exists i j x y, i <> j /\ l !! i = Some (x, e) /\ l !! j = Some (y, c))).
Proof.
  revert hub. induction l as [|[remote conn] l IH]; intros hub Hd Hf.
  - cbn. split; [by intros []%elem_of_nil|].
    intros [[[]%elem_of_nil _]|(e & _ & [[_ []%elem_of_nil]|[[_ []%elem_of_nil]|(i & ? & ? & ? & _ & ? & _)]])].
    by rewrite lookup_nil in *.
  - cbn [connect_all]. pose proof (elem_of_connects hub remote conn o c) as Hc.
    destruct (speaker_connects hub remote conn) as [hub' subs] eqn:E.
    cbn [snd] in Hc. injection E as <- Esubs. clear Esubs.
    rewrite fmap_cons in Hd, Hf. cbn [fst] in Hd, Hf. apply NoDup_cons in Hd as [Hn Hd].
    specialize (IH (<[remote := conn]> hub) Hd). unshelve epose proof (IH _) as IH'.
    { intros r Hr. rewrite lookup_insert_ne by (intros ->; done). apply Hf. by right. }
    clear IH. destruct (connect_all _ l) as [hub'' more]. cbn [snd] in *.
    rewrite elem_of_app, Hc, IH', fmap_cons. clear Hc IH'. cbn [snd].
    assert (forall e, (exists r, (<[remote := conn]> hub : SfuHub) !! r = Some e) <->
      e = conn \/ exists r, hub !! r = Some e) as Hh.
    { intros e. split.
      - intros [r [[<- <-]|[? Hr]]%lookup_insert_Some]; [by left|]. right. by exists r.
      - intros [->|[r Hr]]; [exists remote; apply lookup_insert_eq|]. exists r.
        rewrite lookup_insert_ne; [done|]. intros <-. rewrite Hf in Hr by (by left). done. }
    setoid_rewrite Hh. setoid_rewrite elem_of_cons. clear Hh Hf Hn Hd.
    assert (forall e, e ∈ l.*2 <-> exists i x, l !! i = Some (x, e)) as Hl.
    { intros e. rewrite list_elem_of_fmap. split.
      - intros ([x y] & -> & [i Hi]%list_elem_of_lookup). by exists i, x.
      - intros (i & x & Hi). exists (x, e). split; [done|]. by apply list_elem_of_lookup_2 in Hi. }
    assert (forall e, (exists i j x y, i <> j /\ ((remote, conn) :: l) !! i = Some (x, e) /\
        ((remote, conn) :: l) !! j = Some (y, c)) <->
      (e = conn /\ c ∈ l.*2) \/ (c = conn /\ e ∈ l.*2) \/
      exists i j x y, i <> j /\ l !! i = Some (x, e) /\ l !! j = Some (y, c)) as Hp.
    { intros e. rewrite !Hl. split.
      - intros ([|i] & [|j] & x & y & Hij & Hi & Hj); cbn in Hi, Hj; simplify_eq; [naive_solver..|].
        right. right. exists i, j, x, y. auto.
      - intros [(-> & j & y & Hj)|[(-> & i & x & Hi)|(i & j & x & y & Hij & Hi & Hj)]].
        + by exists 0%nat, (S j), remote, y.
        + by exists (S i), 0%nat, x, remote.
        + exists (S i), (S j), x, y. auto. }
    setoid_rewrite Hp. clear Hp Hl. naive_solver.
Qed.

(** When speakers with distinct nodes have connected to a host, in any
    order, streams lead exactly from every speaker to every other speaker and
    from the host's own voice to each. *)
Theorem sfu_full_mesh (l : list (string * nat)) (Hnodes : NoDup (l.*1)) (o : option nat) (c : nat) :
  (o, c) ∈ (connect_all ∅ l).2 <->
  match o with
  | None => c ∈ l.*2
  | Some e => exists i j x y, i <> j /\ l !! i = Some (x, e) /\ l !! j = Some (y, c)
  end.
Proof.
  rewrite connect_all_subs by (done || (intros; apply lookup_empty)).
  assert (forall e, (exists r, (∅ : SfuHub) !! r = Some e) <-> False) as He by
    (intros e; split; [intros [r Hr]; by rewrite lookup_empty in Hr|done]).
  setoid_rewrite He. destruct o as [e|]; naive_solver.
Qed.

(** A speaker that reconnects before its old stream ends is removed from the hub
    by the end of the old stream. *)
Lemma sfu_reconnect_lost (hub : SfuHub) remote (old new : nat) :
  let hub := (speaker_connects (speaker_connects hub remote old).1 remote new).1 in
  hub !! remote = Some new /\ speaker_leaves hub remote !! remote = None.
Proof. cbn. split; [apply lookup_insert_eq|apply lookup_delete_eq]. Qed.

(** ** Witnesses *)

#[export] Instance wire_ticket : Wire StageTicket := wire_countable _.


Definition host_key : @SecretKey toy_ed25519 := "host"%string.
Definition listener_key : @SecretKey toy_ed25519 := "listener"%string.
Definition eve_key : @SecretKey toy_ed25519 := "eve"%string.
Definition host_id : StageIdentity :=
  {| si_master_pubkey := "mh"; si_transport_node_id := "host-node"; si_signing_key := host_key |}.
Definition listener_id : StageIdentity :=
  {| si_master_pubkey := "ml"; si_transport_node_id := "listener-node"; si_signing_key := listener_key |}.
Definition stage_ticket : StageTicket :=
  {| tk_stage_id := "stage-1"; tk_host_pubkey := "khost"; tk_host_node_id := "host-node"; tk_title := "t" |}.

Definition at_time (now : Z) : StageEnv :=
  {| en_now := now; en_stage_id := "stage-1"; en_subscribed := Ok tt; en_mixed := Ok tt; en_relayed := Ok tt |}.

(** A listener joins and is promoted by a message of the host. *)
Lemma stage_well_formed_witness :
  let inputs :=
    [{| in_cmd := CmdJoinStage stage_ticket; in_env := at_time 0 |};
     {| in_cmd := CmdControlReceived (sign_stage_control (PromoteSpeaker "stage-1" "ml") "khost" host_key 1);
        in_env := at_time 1 |}] in
  Forall admissible inputs /\
  exists s, run listener_id inputs (Running None) = Running (Some s) /\ as_my_role s = Speaker /\ stage_ok s.
Proof.
  intros inputs. assert (Forall admissible inputs) as Hin.
  { repeat constructor. exists "stage-1"%string. vm_compute. reflexivity. }
  split; [exact Hin|]. pose proof (stage_well_formed listener_id inputs Hin) as H.
  eexists. split; [reflexivity|]. split; [reflexivity|]. exact H.
Defined.

Definition listening : ActiveStage :=
  {| as_stage_id := "stage-1"; as_title := "t"; as_host_pubkey := "khost"; as_my_pubkey := "ml";
     as_my_role := Listener; as_self_muted := false; as_started_at := 0;
     as_participants := {[ "mz"%string := {| p_pubkey := "mz"; p_role := Speaker; p_hand_raised := false;
       p_self_muted := false; p_host_muted := false; p_last_seen_ms := 60000; p_node_id := None |};
       "my"%string := {| p_pubkey := "my"; p_role := Listener; p_hand_raised := false;
       p_self_muted := false; p_host_muted := false; p_last_seen_ms := 10; p_node_id := None |} ]};
     as_mixer := false; as_topology := None; as_relay := false; as_ticket := None;
     as_listener_upstream_id := Some "host-node"; as_listener_pipeline := true;
     as_speaker_mixer := false; as_host_node_id := "host-node"; as_banned_node_ids := ∅ |}.

(** Eve kicks, in vain. *)
Lemma stage_unprivileged_witness :
  let kick := sign_stage_control (Kick "stage-1" "mz") "keve" eve_key 1 in
  exists s' eff, handle_control 1 listener_key (Some listening) kick = Some (Some s', eff) /\
    is_Some (as_participants s' !! "mz"%string).
Proof.
  intros kick. destruct (stage_unprivileged 1 listener_key listening kick) as (s' & eff & E & _ & Hm & _).
  - vm_compute. reflexivity.
  - exists s', eff. split; [exact E|]. destruct (proj1 Hm "mz"%string _ (eq_refl _)) as (p' & Hp & _). by exists p'.
Defined.

(** Eve claims to be a co-host first. *)
Lemma stage_escalation_witness :
  exists s' eff,
    handle_control 1 listener_key (Some listening)
      (sign_stage_control (Presence "stage-1" "keve" CoHost 1 None) "keve" eve_key 1) = Some (Some s', eff) /\
    is_moderator s' "keve" = true.
Proof.
  destruct (stage_escalation 1 listener_key eve_key listening 1) as (_ & _ & s' & eff & E & Hm & _).
  exists s', eff. split; [exact E|exact Hm].
Defined.

Lemma listening_ok : stage_ok listening.
Proof.
  split; try done; [|by eexists]. apply map_Forall_insert_2; [done|]. by apply map_Forall_singleton.
Qed.

Lemma sweep_exact_witness :
  exists s' gone, sweep_presence 60100 (Some listening) =
      (Some s', (fun pk => EmitStage (EvParticipantLeft pk)) <$> gone) /\
    as_participants s' !! "my"%string = None /\ is_Some (as_participants s' !! "mz"%string).
Proof.
  destruct (sweep_exact 60100 listening listening_ok) as (s' & gone & E & _ & _ & _ & Hl).
  exists s', gone. split; [exact E|]. rewrite !Hl.
  split; [vm_compute; reflexivity|by eexists].
Defined.

Lemma promotion_delivered_witness :
  exists sh sl eff1 eff2 sh' m shown sl' eff,
    create_stage host_id 0 "stage-1" (Ok tt) (Ok tt) "t" None = Some (Ok stage_ticket, Some sh, eff1) /\
    join_stage listener_id 1 (Ok tt) stage_ticket None = Some (Ok tt, Some sl, eff2) /\
    promote_speaker host_id 2 "ml" (Some sh) = Some (Ok tt, Some sh', [BroadcastControl m; shown]) /\
    handle_control 3 listener_key (Some sl) m = Some (Some sl', eff) /\ as_my_role sl' = Speaker.
Proof.
  eexists _, _, _, _.
  match goal with |- exists _ _ _ _ _, ?c = Some (_, Some ?sh, ?e1) /\ ?j = Some (_, Some ?sl, ?e2) /\ _ =>
    assert (c = Some (Ok stage_ticket, Some sh, e1)) as Hc by reflexivity;
    assert (j = Some (Ok tt, Some sl, e2)) as Hj by reflexivity end.
  destruct (promotion_delivered host_id listener_id 0 1 2 3 _ _ _ _ _ _ _ Hc Hj)
    as (sh' & m & shown & sl' & Hp & _ & Hh & Hr & _).
  exists sh', m, shown, sl'. eexists.
  split; [exact Hc|]. split; [exact Hj|]. split; [exact Hp|]. split; [exact Hh|exact Hr].
Defined.

Definition hosting : ActiveStage := set_role Host false false listening.

Lemma heartbeat_reverts_promotion_witness :
  exists role sh' shown sh'' eff,
    promote_speaker host_id 2 "ml" (Some hosting) = Some (Ok tt, Some sh', shown) /\
    handle_control 3 host_key (Some sh')
      (presence_message "stage-1" "ml" role (Some "listener-node") listener_key 3) = Some (Some sh'', eff) /\
    p_role <$> as_participants sh'' !! "ml"%string = Some Listener.
Proof.
  epose proof (eq_refl : join_stage listener_id 1 (Ok tt) stage_ticket None = Some (Ok tt, Some _, _)) as Hj.
  pose proof (heartbeat_reverts_promotion host_id listener_id 1 2 3 stage_ticket hosting _ _ Hj eq_refl) as H.
  destruct H as (role & sh' & shown & sh'' & eff & _ & Hp & Hh & Hr).
  exists role, sh', shown, sh'', eff. split; [exact Hp|]. split; [exact Hh|exact Hr].
Defined.

Definition speaking : ActiveStage := set_role Speaker false true listening.
Lemma speaking_ok : stage_ok speaking.
Proof. apply promoted_ok, listening_ok. Qed.

Lemma demotion_keeps_speaking_witness :
  exists s', handle_control 2 listener_key (Some speaking)
      (sign_stage_control (DemoteSpeaker "stage-1" "ml") "khost" host_key 1) =
      Some (Some s', [EmitStage (EvRoleChanged "ml" Listener)]) /\
    as_my_role s' = Listener /\ as_speaker_mixer s' = true.
Proof.
  destruct (demotion_keeps_speaking host_id listener_key 1 2 speaking eq_refl eq_refl speaking_ok)
    as (s' & E & Hr & Hm & _).
  exists s'. split; [exact E|]. split; [exact Hr|exact Hm].
Defined.

Lemma sfu_full_mesh_witness :
  (Some 1%nat, 2%nat) ∈ (connect_all ∅ [("a"%string, 1%nat); ("b"%string, 2%nat)]).2 /\
  ~ (Some 1%nat, 1%nat) ∈ (connect_all ∅ [("a"%string, 1%nat); ("b"%string, 2%nat)]).2.
Proof.
  assert (NoDup ["a"%string; "b"%string]) as Hd by
    (apply NoDup_cons; split; [set_solver|apply NoDup_singleton]).
  split.
  - apply (sfu_full_mesh [("a"%string, 1%nat); ("b"%string, 2%nat)] Hd).
    by exists 0%nat, 1%nat, "a"%string, "b"%string.
  - intros H. apply (sfu_full_mesh [("a"%string, 1%nat); ("b"%string, 2%nat)] Hd) in H
      as (i & j & x & y & Hij & Hi & Hj).
    destruct i as [|[|i]]; simplify_eq/=. destruct j as [|[|j]]; simplify_eq/=.
Defined.
