(* ===== verification/FollowRequests.v ===== *)
(** * Follow requests and preferences

    Model of [src-tauri/src/storage/follow_requests.rs],
    [src-tauri/src/storage/preferences.rs] and [src-tauri/src/preferences.rs].
    The preferences are a table of their own, which no other statement reads. *)

From S2P Require Import Prelude Types Store.

Local Open Scope Z_scope.

(** ** follow_requests.rs *)

Record FollowRequestEntry : Type := {
  fqe_pubkey : string;
  fqe_timestamp : Z;
  fqe_status : string;
  fqe_created_at : Z;
  fqe_expires_at : Z;
}.

Definition request_status (d : Db) (pubkey : string) : option string :=
  fq_status <$> follow_requests d !! pubkey.

Definition insert_follow_request (pubkey : string) (timestamp created_at expires_at : Z) (d : Db)
    : Db * bool :=
  if decide (request_status d pubkey = Some "approved"%string) then (d, false)
  else (set_follow_requests
          (<[pubkey := {| fq_timestamp := as_i64 timestamp; fq_status := "pending";
                          fq_created_at := as_i64 created_at;
                          fq_expires_at := as_i64 expires_at |}]> (follow_requests d)) d, true).

(** [UPDATE ... SET status = new WHERE pubkey = ?1 AND status = 'pending'], and
    whether a row was affected. *)
Definition decide_request (new : string) (pubkey : string) (d : Db) : Db * bool :=
  let affected kr := bool_decide (kr.1 = pubkey /\ fq_status kr.2 = "pending"%string) in
  (set_follow_requests
     (sql_update affected
        (fun r => {| fq_timestamp := fq_timestamp r; fq_status := new;
                     fq_created_at := fq_created_at r; fq_expires_at := fq_expires_at r |})
        (follow_requests d)) d,
   0 <? sql_count affected (follow_requests d)).

Definition approve_follow_request : string -> Db -> Db * bool := decide_request "approved".
Definition deny_follow_request : string -> Db -> Db * bool := decide_request "denied".

Definition is_approved_follower (d : Db) (pubkey : string) : bool :=
  0 <? sql_count (fun kr => bool_decide (kr.1 = pubkey /\ fq_status kr.2 = "approved"%string))
         (follow_requests d).

Definition get_pending_follow_request_count (d : Db) : Z :=
  as_u64 (sql_count (fun kr => bool_decide (fq_status kr.2 = "pending"%string)) (follow_requests d)).

Section requests.
Context `{SqlOrder}.

Definition get_follow_requests (d : Db) : list FollowRequestEntry :=
  (fun kr => {| fqe_pubkey := kr.1; fqe_timestamp := as_u64 (fq_timestamp kr.2);
                fqe_status := fq_status kr.2; fqe_created_at := as_u64 (fq_created_at kr.2);
                fqe_expires_at := as_u64 (fq_expires_at kr.2) |}) <$>
    sql_select (fun _ => true) (fun kr => - fq_created_at kr.2) (follow_requests d).
End requests.

(** ** Preferences *)

Definition Preferences : Type := gmap string string.

Definition get_preference (prefs : Preferences) (key : string) : option string :=
  (prefs : gmap string string) !! key.
Definition set_preference (key value : string) (prefs : Preferences) : Preferences :=
  <[key := value]> (prefs : gmap string string).
Definition get_bool_preference (prefs : Preferences) (key : string) : bool :=
  match get_preference prefs key with
  | Some v => bool_decide (v = "1"%string)
  | None => false
  end.
Definition set_bool_preference (key : string) (value : bool) : Preferences -> Preferences :=
  set_preference key (if value then "1" else "0").

Definition MDNS_DISCOVERY : string := "mdns_discovery".
Definition DHT_DISCOVERY : string := "dht_discovery".
Definition SHARE_FOLLOWS : string := "share_follows".
Definition SHARE_FOLLOWERS : string := "share_followers".

Definition get_mdns_discovery (prefs : Preferences) : bool := get_bool_preference prefs MDNS_DISCOVERY.
Definition get_dht_discovery (prefs : Preferences) : bool := get_bool_preference prefs DHT_DISCOVERY.

(** Shared unless the preference is "0". *)
Definition shared_unless_0 (prefs : Preferences) (key : string) : bool :=
  match get_preference prefs key with
  | Some v => bool_decide (v <> "0"%string)
  | None => true
  end.
Definition get_share_follows (prefs : Preferences) : bool := shared_unless_0 prefs SHARE_FOLLOWS.
Definition get_share_followers (prefs : Preferences) : bool := shared_unless_0 prefs SHARE_FOLLOWERS.

(** ** Facts *)

Lemma request_status_insert pk ts c e d pk' :
  request_status (insert_follow_request pk ts c e d).1 pk' =
    if decide (pk' = pk /\ request_status d pk <> Some "approved"%string) then Some "pending"%string
    else request_status d pk'.
Proof.
  unfold insert_follow_request. destruct (decide (request_status d pk = _)) as [E|E]; cbn [fst].
  - rewrite decide_False; [done|]. intros [-> Hn]. done.
  - unfold request_status at 1. cbn [follow_requests set_follow_requests].
    destruct (decide (pk' = pk)) as [->|Hne].
    + by rewrite lookup_insert_eq, decide_True.
    + rewrite lookup_insert_ne by done. rewrite decide_False; [done|]. by intros [? _].
Qed.
