(* ===== verification/Peer.v ===== *)
(** * The peer protocol

    Model of [src-tauri/src/peer/{mod,follow_protocol,list_sharing,client}.rs],
    of [push.rs], of the neighbour events of [gossip/own_feed.rs] and of the
    commands that follow, approve and deny.  A response that is read from the
    network is an argument; a failure to write the reply is not modelled.
    [AcceptError] is [Other]. *)

From S2P Require Import Prelude Types Signing Validation Store Social Moderation Notifications Peers Handler Ingest FollowRequests.

Local Open Scope Z_scope.
Local Open Scope handler_scope.

(** ** protocol.rs *)

Inductive FollowResponse : Type := Approved (identity : IdentityResponse) | Denied | Pending.

Record FollowsListResponse : Type := {
  fl_pubkey : string;
  fl_follows : list SocialGraphEntry;
  fl_hidden : bool;
}.
Record FollowersListResponse : Type := {
  fw_pubkey : string;
  fw_followers : list SocialGraphEntry;
  fw_hidden : bool;
}.

Definition MAX_PUSH_POSTS : nat := 50.
Definition MAX_PUSH_INTERACTIONS : nat := 200.

Record PushMessage : Type := {
  pm_author : string;
  pm_posts : list Post;
  pm_interactions : list Interaction;
  pm_profile : option Profile;
}.
Record PushAck : Type := {
  pa_received_post_ids : list string;
  pa_received_interaction_ids : list string;
}.

(** The responses a client can find in a reply. *)
Inductive PeerResponse : Type :=
| RespSyncSummary | RespPushAck | RespFollowResponse (r : FollowResponse)
| RespIdentity (i : IdentityResponse)
| RespLinkBundle (noise_response encrypted_bundle : bytes)
| RespFollowsList (l : FollowsListResponse)
| RespFollowersList (l : FollowersListResponse)
| RespDeviceSyncAccepted.

Definition FOLLOW_REQUEST_TTL_MS : Z := 30 * 24 * 60 * 60 * 1000.

(** The fields of [Identity] the protocol reads. *)
Record PeerIdentity : Type := {
  pi_master_pubkey : string;
  pi_delegation : SigningKeyDelegation;
  pi_transport_node_id : string;
}.

Section peer.
Context `{Ed25519, HexCodec, JsonCodec, Sha, SqlOrder, !Serde SigningKeyDelegation,
  !Serde (list string), !Serde (list MediaAttachment)}.

(** ** mod.rs *)

Definition identity_response (me : PeerIdentity) (d : Db) : IdentityResponse :=
  {| ir_master_pubkey := pi_master_pubkey me; ir_delegation := pi_delegation me;
     ir_transport_node_ids := [pi_transport_node_id me];
     ir_profile := get_profile d (pi_master_pubkey me) |}.

(** The identity behind a transport id. *)
Definition resolve_peer (d : Db) (remote_str : string) : string :=
  default remote_str (get_master_pubkey_for_transport d remote_str).

(** ** follow_protocol.rs *)

(** The checks of a follow request, before anything is stored. *)
Definition check_follow_request (remote_str : string) (req : FollowRequest) : fallible unit :=
  if is_ok (verify_delegation (fr_delegation req)) then
    if decide (dl_master_pubkey (fr_delegation req) <> fr_requester req) then
      _ ← log_short (dl_master_pubkey (fr_delegation req));
      _ ← log_short (fr_requester req);
      lift (Err (Other "delegation master_pubkey mismatch"))
    else match pk_parse (dl_signing_pubkey (fr_delegation req)) with
    | Err _ => _ ← log_short remote_str; lift (Err (Other "invalid signing pubkey in delegation"))
    | Ok signer =>
        if is_ok (verify_follow_request req signer) then lift (Ok tt)
        else _ ← log_short remote_str; lift (Err (Other "invalid signature"))
    end
  else _ ← log_short remote_str; lift (Err (Other "invalid delegation")).

Definition handle_follow_request (now : Z) (me : PeerIdentity) (remote_str : string)
    (req : FollowRequest) : fallible FollowResponse :=
  _ ←? check_follow_request remote_str req;
  _ ← modify (cache_peer_identity now
        {| ir_master_pubkey := fr_requester req; ir_delegation := fr_delegation req;
           ir_transport_node_ids := [remote_str]; ir_profile := None |});
  d ← get_db;
  match get_visibility d (pi_master_pubkey me) with
  | Listed =>
      if is_approved_follower d (fr_requester req) then
        _ ← log_short (fr_requester req);
        lift (Ok (Approved (identity_response me d)))
      else
        let '(d', stored) := insert_follow_request (fr_requester req) (fr_timestamp req) now
                               (now + FOLLOW_REQUEST_TTL_MS) d in
        if stored then
          _ ← modify (fun _ => d');
          _ ← log_short (fr_requester req);
          _ ← modify (insert_notification "follow_request" (fr_requester req) None None now);
          _ ← emit "follow-request-received";
          _ ← emit "notification-received";
          lift (Ok Pending)
        else lift (Ok (Approved (identity_response me d)))
  | Public =>
      _ ← log_short (fr_requester req);
      lift (Ok (Approved (identity_response me d)))
  | Private => _ ← log_short (fr_requester req); lift (Ok Denied)
  end.

(** ** list_sharing.rs *)

(** Who may see the lists; the sync handler applies the same rule. *)
Definition list_allowed (d : Db) (my_pubkey remote_pubkey : string) : bool :=
  match get_visibility d my_pubkey with
  | Public => true
  | Listed => is_follower d my_pubkey remote_pubkey
  | Private => is_mutual d my_pubkey remote_pubkey
  end.

Definition handle_follows_list_request (prefs : Preferences) (d : Db) (my_pubkey remote_str : string)
    : FollowsListResponse :=
  let share := list_allowed d my_pubkey (resolve_peer d remote_str) && get_share_follows prefs in
  {| fl_pubkey := my_pubkey;
     fl_follows := if share then default [] (res_ok (get_follows d my_pubkey)) else [];
     fl_hidden := negb share |}.

Definition handle_followers_list_request (prefs : Preferences) (d : Db) (my_pubkey remote_str : string)
    : FollowersListResponse :=
  let share := list_allowed d my_pubkey (resolve_peer d remote_str) && get_share_followers prefs in
  {| fw_pubkey := my_pubkey;
     fw_followers := if share then default [] (res_ok (get_followers d my_pubkey)) else [];
     fw_hidden := negb share |}.

(** ** push.rs *)

Definition push_allowed (d : Db) (my_pubkey remote_pubkey : string) : bool :=
  match get_visibility d my_pubkey with
  | Public | Listed =>
      is_follower d my_pubkey remote_pubkey ||
      match get_follows d my_pubkey with
      | Ok f => existsb (fun e => bool_decide (sg_pubkey e = remote_pubkey)) f
      | Err _ => false
      end
  | Private => is_mutual d my_pubkey remote_pubkey
  end.

Fixpoint push_posts (now : Z) (my_pubkey remote_pubkey : string) (l : list Post)
    : handler (list string) :=
  match l with
  | [] => mret []
  | post :: l =>
      d ← get_db;
      taken ← (if decide (post_author post <> remote_pubkey) then mret false
               else if is_hidden d remote_pubkey then mret false
               else process_incoming_post now my_pubkey post);
      ids ← push_posts now my_pubkey remote_pubkey l;
      mret (if taken : bool then post_id post :: ids else ids)
  end.

(** An interaction is acknowledged whether or not it is stored. *)
Fixpoint push_interactions (now : Z) (my_pubkey remote_pubkey : string) (l : list Interaction)
    : handler (list string) :=
  match l with
  | [] => mret []
  | i :: l =>
      d ← get_db;
      if decide (in_author i <> remote_pubkey) then push_interactions now my_pubkey remote_pubkey l
      else if is_hidden d remote_pubkey then push_interactions now my_pubkey remote_pubkey l
      else
        _ ← process_incoming_interaction now my_pubkey i remote_pubkey;
        ids ← push_interactions now my_pubkey remote_pubkey l;
        mret (in_id i :: ids)
  end.

(** The signature is only checked against a cached key that parses. *)
Definition push_profile (remote_pubkey : string) (profile : option Profile) : handler unit :=
  match profile with
  | None => mret tt
  | Some profile =>
      if is_ok (validate_profile profile) then
        d ← get_db;
        let signer_ok :=
          match get_peer_signing_pubkey d remote_pubkey with
          | Some signing_pubkey =>
              match pk_parse signing_pubkey with
              | Ok pk => is_ok (verify_profile_signature profile pk)
              | Err _ => true
              end
          | None => true
          end in
        if signer_ok : bool then
          _ ← modify (save_profile remote_pubkey profile); emit "profile-updated"
        else log_short remote_pubkey
      else log_short remote_pubkey
  end.

(** What is done with an admitted push. *)
Definition take_push (now : Z) (my_pubkey remote_pubkey : string) (msg : PushMessage) : fallible PushAck :=
  post_ids ← push_posts now my_pubkey remote_pubkey (pm_posts msg);
  interaction_ids ← push_interactions now my_pubkey remote_pubkey (pm_interactions msg);
  _ ← push_profile remote_pubkey (pm_profile msg);
  _ ← (if decide (post_ids = [] /\ interaction_ids = []) then mret tt else emit "feed-updated"
         : handler unit);
  _ ← log_short remote_pubkey;
  lift (Ok {| pa_received_post_ids := post_ids; pa_received_interaction_ids := interaction_ids |}).

Definition handle_push (now : Z) (my_pubkey remote_str : string) (msg : PushMessage)
    : fallible PushAck :=
  d ← get_db;
  let remote_pubkey := resolve_peer d remote_str in
  if decide (pm_author msg <> remote_pubkey) then
    _ ← log_short (pm_author msg); _ ← log_short remote_pubkey;
    lift (Err (Other "author mismatch"))
  else if negb (push_allowed d my_pubkey remote_pubkey) then
    _ ← log_short remote_pubkey; lift (Err (Other "unauthorized"))
  else if (MAX_PUSH_POSTS <? length (pm_posts msg))%nat then lift (Err (Other "too many posts"))
  else if (MAX_PUSH_INTERACTIONS <? length (pm_interactions msg))%nat then
    lift (Err (Other "too many interactions"))
  else take_push now my_pubkey remote_pubkey msg.

(** ** client.rs *)

(** [response] is what the connection and the parser yield. *)
Definition query_identity (response : result AppError PeerResponse) : result AppError IdentityResponse :=
  r ← response;
  match r with
  | RespIdentity identity => Ok identity
  | _ => Err (Other "unexpected response")
  end.

Definition fetch_remote_follows (response : result AppError PeerResponse)
    : result AppError FollowsListResponse :=
  r ← response;
  match r with RespFollowsList l => Ok l | _ => Err (Other "unexpected response") end.
Definition fetch_remote_followers (response : result AppError PeerResponse)
    : result AppError FollowersListResponse :=
  r ← response;
  match r with RespFollowersList l => Ok l | _ => Err (Other "unexpected response") end.

(** The request sent. *)
Definition follow_request (now : Z) (me : PeerIdentity) (signing_key : SecretKey) : FollowRequest :=
  {| fr_requester := pi_master_pubkey me; fr_timestamp := now;
     fr_signature := sign_follow_request (pi_master_pubkey me) now signing_key;
     fr_delegation := pi_delegation me |}.
(** What is done with the response: no check of the identity. *)
Definition send_follow_request (now : Z) (response : result AppError FollowResponse)
    : fallible FollowResponse :=
  r ←? lift response;
  match r with
  | Approved identity => _ ← modify (cache_peer_identity now identity); lift (Ok r)
  | _ => lift (Ok r)
  end.

(** ** own_feed.rs *)

(** The identity of a new neighbour is cached as it comes. *)
Definition neighbor_identity (now : Z) (transport_id : string) (response : result AppError PeerResponse)
    : handler string :=
  match query_identity response with
  | Ok identity =>
      let master := ir_master_pubkey identity in
      _ ← modify (cache_peer_identity now identity);
      _ ← modify (fun d => match ir_profile identity with
                           | Some profile => save_profile master profile d
                           | None => d
                           end);
      _ ← log_short transport_id;
      _ ← log_short master;
      mret master
  | Err _ => _ ← log_short transport_id; mret transport_id
  end.

Definition neighbor_up (now : Z) (my_id transport_id : string) (response : result AppError PeerResponse)
    : handler unit :=
  _ ← log_short transport_id;
  pubkey ← neighbor_identity now transport_id response;
  d ← get_db;
  let '(d', is_new) := upsert_follower my_id pubkey now d in
  _ ← modify (fun _ => d');
  _ ← emit "follower-changed";
  _ ← (if is_new : bool then
         _ ← modify (insert_notification "follower" pubkey None None now);
         _ ← emit "new-follower";
         emit "notification-received"
       else mret tt : handler unit);
  d ← get_db;
  if is_following d my_id pubkey then log_short pubkey else mret tt.

Definition neighbor_down (my_id transport_id : string) : handler unit :=
  _ ← log_short transport_id;
  _ ← modify (fun d => set_follower_offline my_id (resolve_peer d transport_id) d);
  emit "follower-changed".

(** ** The commands *)

(** [follow_user] up to the subscription: the identity is resolved, cached and
    followed; the result is the topic to join with its bootstrap nodes. *)
Definition follow_user (now : Z) (me : PeerIdentity) (node_id : string)
    (response : result AppError PeerResponse) : fallible (string * list string) :=
  if decide (node_id = pi_transport_node_id me) then lift (Err (Other "cannot follow yourself"))
  else
    _ ← log_short node_id;
    match query_identity response with
    | Err _ => _ ← log_short node_id; lift (Err (Other "failed to query identity"))
    | Ok identity =>
        let pubkey := ir_master_pubkey identity in
        _ ← log_short node_id;
        _ ← log_short pubkey;
        _ ← modify (cache_peer_identity now identity);
        _ ← modify (fun d => match ir_profile identity with
                             | Some profile => save_profile pubkey profile d
                             | None => d
                             end);
        if decide (pubkey = pi_master_pubkey me) then lift (Err (Other "cannot follow yourself"))
        else
          let node_ids := match ir_transport_node_ids identity with
                          | [] => [node_id]
                          | ids => ids
                          end in
          _ ← log_short pubkey;
          _ ← modify (follow now (pi_master_pubkey me)
                {| sg_pubkey := pubkey; sg_followed_at := now; sg_first_seen := 0;
                   sg_last_seen := 0; sg_is_online := false |});
          _ ← log_short pubkey;
          lift (Ok (pubkey, node_ids))
    end.

Definition approve_follow_request_command (now : Z) (my_id pubkey : string) : handler bool :=
  _ ← log_short pubkey;
  d ← get_db;
  let '(d', approved) := approve_follow_request pubkey d in
  _ ← modify (fun _ => if approved then (upsert_follower my_id pubkey now d').1 else d');
  mret approved.

Definition deny_follow_request_command (pubkey : string) : handler bool :=
  _ ← log_short pubkey;
  d ← get_db;
  let '(d', denied) := deny_follow_request pubkey d in
  _ ← modify (fun _ => d');
  mret denied.
End peer.
