(* ===== verification/PeerTheorems.v ===== *)
(** * Theorems on the peer protocol

    What a push can change; when a follow request is approved; and how the cache
    of peer identities can be filled with somebody else's keys and addresses. *)

From S2P Require Import Prelude Types Ratchet Signing Concrete SigningTheorems Validation Store ConcreteStore Social Moderation Posts Interactions Notifications Peers Handler Ingest Gossip GossipTheorems Framing Sync FollowRequests Peer.

Local Open Scope Z_scope.

Section push.
Context `{Ed25519, HexCodec, JsonCodec, Sha, SqlOrder, !SqlOrderLaws,
  !Serde (list MediaAttachment), !Serde SigningKeyDelegation, !Serde (list string)}.

(** The profile passed the check of the push: a signature by the cached key of
    [pk], if there is one that parses. *)
Definition push_signed (d : Db) (pk : string) (profile : Profile) : Prop :=
  forall text key, get_peer_signing_pubkey d pk = Some text -> pk_parse text = Ok key ->
    verify_profile_signature profile key = Ok tt.

(** What handling the posts [ps], interactions [ns] and profile [pf] of [pk]
    may do to the database. *)
Record pushed (now : Z) (pk : string) (ps : list Post) (ns : list Interaction) (pf : option Profile)
    (d d' : Db) : Prop := {
  pu_isolated : isolated pk no_id d d';
  pu_delegations : peer_delegations d' = peer_delegations d;
  pu_posts_kept : posts d ⊆ posts d';
  pu_interactions_kept : interactions d ⊆ interactions d';
  pu_posts k row : posts d' !! k = Some row -> posts d !! k = Some row \/
    exists post, post ∈ ps /\ k = (pk, post_id post) /\ row = post_to_row post /\ genuine_post now d post;
  pu_interactions k row : interactions d' !! k = Some row -> interactions d !! k = Some row \/
    exists i, i ∈ ns /\ k = (pk, in_id i) /\ row = interaction_to_row i /\ genuine_interaction now d i;
  pu_profile : profiles d' = profiles d \/ exists p, pf = Some p /\ validate_profile p = Ok tt /\
    push_signed d pk p /\ profiles d' = profiles (save_profile pk p d);
}.

Lemma resolve_signer_same d d' pk :
  peer_delegations d' = peer_delegations d -> resolve_signer d' pk = resolve_signer d pk.
Proof. intros E. unfold resolve_signer, get_peer_signing_pubkey. by rewrite E. Qed.

#[export] Instance pushed_refl now pk ps ns pf : Reflexive (pushed now pk ps ns pf).
Proof. intros d. split; try done; by left. Qed.
#[export] Instance pushed_trans now pk ps ns pf : Transitive (pushed now pk ps ns pf).
Proof.
  intros d1 d2 d3 [I1 D1 K1 L1 P1 N1 F1] [I2 D2 K2 L2 P2 N2 F2]. split.
  - by etransitivity.
  - congruence.
  - by etransitivity.
  - by etransitivity.
  - intros k row Hk. destruct (P2 k row Hk) as [Hk'|(post & Hp & Ek & Er & Hv & s & Hs & Hg)]; [by apply P1|].
    right. exists post. split_and!; try done. split; [done|]. exists s.
    by rewrite (resolve_signer_same d1 d2) in Hs.
  - intros k row Hk. destruct (N2 k row Hk) as [Hk'|(i & Hp & Ek & Er & Hv & s & Hs & Hg)]; [by apply N1|].
    right. exists i. split_and!; try done. split; [done|]. exists s.
    by rewrite (resolve_signer_same d1 d2) in Hs.
  - destruct F2 as [->|(p & Hp & Hv & Hs & ->)]; [done|]. right. exists p. split_and!; try done.
    { intros text key. unfold push_signed, get_peer_signing_pubkey in *. rewrite D1 in Hs. apply Hs. }
    destruct F1 as [E|(q & Hq & _ & _ & E)]; cbn in *; rewrite E; [done|].
    assert (q = p) as -> by congruence. by rewrite insert_insert_eq.
Qed.

Lemma ingest_delegations now my_id post :
  always (fun d d' => peer_delegations d' = peer_delegations d) (process_incoming_post now my_id post).
Proof.
  assert (Reflexive (fun d d' => peer_delegations d' = peer_delegations d)) by done.
  assert (Transitive (fun d d' => peer_delegations d' = peer_delegations d)) by (intros ???; congruence).
  unfold process_incoming_post, notify_post. by solve_always.
Qed.
Lemma ingest_interaction_delegations now my_id i pk :
  always (fun d d' => peer_delegations d' = peer_delegations d)
    (process_incoming_interaction now my_id i pk).
Proof.
  assert (Reflexive (fun d d' => peer_delegations d' = peer_delegations d)) by done.
  assert (Transitive (fun d d' => peer_delegations d' = peer_delegations d)) by (intros ???; congruence).
  unfold process_incoming_interaction. solve_always; try done; unfold save_interaction; by case_match.
Qed.

Lemma pushed_post now my_id ps ns pf post :
  post ∈ ps -> always (pushed now (post_author post) ps ns pf) (process_incoming_post now my_id post).
Proof.
  intros Hin d. pose proof (ingest_post_isolated now my_id post d) as Hi.
  pose proof (ingest_delegations now my_id post d) as Hd.
  pose proof (ingest_post_same_profiles now my_id post d) as Hpf.
  destruct (ingest_post_end now my_id post d) as [->|(Hg & Hps & His)]; [done|]. split; try done; [| | | |by left].
  - rewrite Hps. cbn. apply insert_or_ignore_subseteq.
  - by rewrite His.
  - intros k row. rewrite Hps. cbn. rewrite lookup_insert_or_ignore. case_decide as Hk; [|by left].
    destruct (posts d !! (post_author post, post_id post)) eqn:Ep; intros [= <-].
    + left. by rewrite <-Hk.
    + right. by exists post.
  - intros k row. rewrite His. by left.
Qed.

Lemma pushed_interaction now my_id pk ps ns pf i :
  i ∈ ns -> always (pushed now pk ps ns pf) (process_incoming_interaction now my_id i pk).
Proof.
  intros Hin d. pose proof (ingest_interaction_isolated now my_id i pk d) as Hi.
  pose proof (ingest_interaction_delegations now my_id i pk d) as Hd.
  destruct (ingest_interaction_end now my_id i pk d) as [->|(Ha & Hg & Hps & His)]; [done|].
  set (d' := end_db _) in *.
  assert (posts d' = posts d) as Ep by (rewrite Hps; unfold save_interaction; by case_match).
  pose proof (ingest_interaction_same_profiles now my_id i pk d) as Hpf.
  split; try done; [| | | |by left].
  - by rewrite Ep.
  - rewrite His. unfold save_interaction. case_match; [done|]. apply insert_or_ignore_subseteq.
  - intros k row. rewrite Ep. by left.
  - intros k row. rewrite His. unfold save_interaction. case_match; [by left|]. cbn.
    rewrite lookup_insert_or_ignore. case_decide as Hk; [|by left].
    destruct (interactions d !! (in_author i, in_id i)) eqn:En; intros [= <-].
    + left. by rewrite <-Hk.
    + right. exists i. split_and!; try done. by rewrite <-Hk, Ha.
Qed.

Lemma push_posts_pushed now my_id pk ps ns pf l :
  l ⊆ ps -> always (pushed now pk ps ns pf) (push_posts now my_id pk l).
Proof.
  induction l as [|post l IH]; intros Hl; cbn [push_posts]; [by solve_always|].
  assert (always (pushed now pk ps ns pf) (push_posts now my_id pk l)) as IHl by (apply IH; set_solver).
  assert (post_author post = pk -> always (pushed now pk ps ns pf) (process_incoming_post now my_id post)) as Hi.
  { intros <-. apply pushed_post. set_solver. }
  destruct (decide (post_author post <> pk)) as [|Ha%dec_stable]; [by solve_always|].
  specialize (Hi Ha). by solve_always.
Qed.

(** An acknowledged post is stored. *)
Lemma push_posts_acked now my_id pk l d ids d' ev :
  push_posts now my_id pk l d = Done (ids, d', ev) ->
  forall i, i ∈ ids -> is_Some (posts d' !! (pk, i)).
Proof.
  revert d ids d' ev. induction l as [|post l IH]; intros d ids d' ev; cbn [push_posts].
  { intros [= <- <- <-]. by intros i ?%elem_of_nil. }
  rewrite run_get. intros (taken & d1 & ev1 & ev2 & E1 & E & _)%bind_done.
  apply bind_done in E as (ids2 & d2 & ev3 & ev4 & E2 & [= <- <- _] & _).
  pose proof (IH _ _ _ _ E2) as Hs. intros i. destruct taken; [|apply Hs].
  rewrite elem_of_cons. intros [->|?]; [|by apply Hs].
  destruct (decide (post_author post <> pk)) as [|Ha%dec_stable]; [by injection E1|].
  destruct (is_hidden d pk); [by injection E1|]. subst pk.
  apply ingest_post_spec in E1 as [[? _]|(_ & _ & Hps & _)]; [done|].
  assert (is_Some (posts d1 !! (post_author post, post_id post))) as [r Hr].
  { rewrite Hps. cbn. rewrite lookup_insert_or_ignore, decide_True by done. by case_match. }
  exists r. eapply lookup_weaken; [exact Hr|].
  apply (always_done _ _ _ _ _ _ (push_posts_pushed now my_id (post_author post) l [] None l ltac:(done)) E2).
Qed.

Lemma push_interactions_spec now my_id pk ps ns pf l :
  l ⊆ ns -> always (pushed now pk ps ns pf) (push_interactions now my_id pk l).
Proof.
  induction l as [|i l IH]; intros Hl; cbn [push_interactions]; [by solve_always|].
  assert (always (pushed now pk ps ns pf) (push_interactions now my_id pk l)) as IHl by (apply IH; set_solver).
  assert (always (pushed now pk ps ns pf) (process_incoming_interaction now my_id i pk)) as Hi by
    (apply pushed_interaction; set_solver).
  by solve_always.
Qed.

Lemma pushed_profile now pk ps ns p d :
  validate_profile p = Ok tt -> push_signed d pk p -> pushed now pk ps ns (Some p) d (save_profile pk p d).
Proof. intros Hv Hs. split; try done; [apply isolated_profile|by left|by left|]. right. by exists p. Qed.

Lemma push_profile_spec now pk ps ns pf : always (pushed now pk ps ns pf) (push_profile pk pf).
Proof.
  intros d. unfold push_profile. destruct pf as [p|]; [|done].
  destruct (is_ok (validate_profile p)) eqn:Ev; [|by rewrite end_db_log].
  rewrite run_get. destruct (match get_peer_signing_pubkey d pk with Some _ => _ | None => _ end) eqn:Es;
    [|by rewrite end_db_log].
  rewrite run_modify. apply pushed_profile; [by apply unit_ok|].
  intros text key Ht Hk. rewrite Ht, Hk in Es. by apply unit_ok.
Qed.
End push.

Section push_theorem.
Context `{Ed25519, HexCodec, JsonCodec, Sha, SqlOrder, !SqlOrderLaws,
  !Serde (list MediaAttachment), !Serde SigningKeyDelegation, !Serde (list string)}.

(** The receiver takes the push: it comes from the identity cached for the
    transport id, which the visibility of the receiver admits, and is small. *)
Definition push_accepted (d : Db) (my_pubkey remote_str : string) (msg : PushMessage) : Prop :=
  pm_author msg = resolve_peer d remote_str /\ push_allowed d my_pubkey (resolve_peer d remote_str) = true /\
  (length (pm_posts msg) <= 50)%nat /\ (length (pm_interactions msg) <= 200)%nat.

Lemma take_push_pushed now my_id pk msg :
  always (pushed now pk (pm_posts msg) (pm_interactions msg) (pm_profile msg)) (take_push now my_id pk msg).
Proof.
  pose proof (push_posts_pushed now my_id pk _ (pm_interactions msg) (pm_profile msg) (pm_posts msg) ltac:(reflexivity)) as Hp.
  pose proof (push_interactions_spec now my_id pk (pm_posts msg) _ (pm_profile msg) (pm_interactions msg) ltac:(reflexivity)) as Hi.
  pose proof (push_profile_spec now pk (pm_posts msg) (pm_interactions msg) (pm_profile msg)) as Hpr.
  unfold take_push, lift. by solve_always.
Qed.

(** A push is refused before anything is written, or taken. *)
Lemma handle_push_cases now my_pubkey remote_str msg d :
  let o := handle_push now my_pubkey remote_str msg d in
  (end_db o = d /\ forall ack d' ev, o <> Done (Ok ack, d', ev)) \/
  (push_accepted d my_pubkey remote_str msg /\
   o = take_push now my_pubkey (resolve_peer d remote_str) msg d).
Proof.
  intros o. unfold o, handle_push. rewrite run_get. set (pk := resolve_peer d remote_str) in *.
  destruct (decide (pm_author msg <> pk)) as [|Ha%dec_stable].
  { left. rewrite !run_log. destruct (short_id (pm_author msg)); [|done]. by destruct (short_id pk). }
  destruct (push_allowed d my_pubkey pk) eqn:Eal; cbn [negb].
  2: { left. rewrite run_log. by destruct (short_id pk). }
  destruct (Nat.ltb_spec MAX_PUSH_POSTS (length (pm_posts msg))); [by left|].
  destruct (Nat.ltb_spec MAX_PUSH_INTERACTIONS (length (pm_interactions msg))); [by left|].
  by right.
Qed.

Lemma push_contained now my_pubkey remote_str msg d :
  let d' := end_db (handle_push now my_pubkey remote_str msg d) in
  d' = d \/ (push_accepted d my_pubkey remote_str msg /\
             pushed now (resolve_peer d remote_str) (pm_posts msg) (pm_interactions msg) (pm_profile msg) d d').
Proof.
  destruct (handle_push_cases now my_pubkey remote_str msg d) as [[E _]|[Ha ->]]; [by left|].
  right. split; [done|]. apply take_push_pushed.
Qed.

Lemma take_push_answers now my_id pk msg d e d' ev :
  take_push now my_id pk msg d <> Done (Err e, d', ev).
Proof.
  unfold take_push. intros (ids & d1 & ev1 & ev2 & E1 & E & _)%bind_done.
  apply bind_done in E as (ids2 & d2 & ev3 & ev4 & E2 & E & _).
  apply bind_done in E as (u & d3 & ev5 & ev6 & E3 & E & _).
  apply bind_done in E as (u2 & d4 & ev7 & ev8 & E4 & E & _).
  rewrite run_log, run_lift in E. by destruct (short_id pk).
Qed.

(** What an acknowledged push leaves. *)
Lemma take_push_acked now my_id pk msg d ack d' ev :
  take_push now my_id pk msg d = Done (Ok ack, d', ev) ->
  forall i, i ∈ pa_received_post_ids ack -> is_Some (posts d' !! (pk, i)).
Proof.
  unfold take_push. intros (ids & d1 & ev1 & ev2 & E1 & E & _)%bind_done.
  apply bind_done in E as (ids2 & d2 & ev3 & ev4 & E2 & E & _).
  apply bind_done in E as (u & d3 & ev5 & ev6 & E3 & E & _).
  apply bind_done in E as (u2 & d4 & ev7 & ev8 & E4 & E & _).
  rewrite run_log, run_lift in E. destruct (short_id pk); [|done]. injection E as <- <- <-.
  assert (d4 = d3) as -> by (destruct (decide _); by injection E4). cbn. intros i Hin.
  destruct (push_posts_acked _ _ _ _ _ _ _ _ E1 i Hin) as [row Hrow]. exists row.
  eapply lookup_weaken; [exact Hrow|].
  etransitivity;
    [eapply pu_posts_kept, (always_done _ _ _ _ _ _ (push_interactions_spec now my_id pk [] _ None _ ltac:(reflexivity)) E2)|].
  eapply pu_posts_kept, (always_done _ _ _ _ _ _ (push_profile_spec now pk [] [] (pm_profile msg)) E3).
Qed.

(** C24: A push that is acknowledged comes from the identity cached for its
    transport id, to which the visibility of the receiver grants it, and is
    within the size limits; it changes only rows of that identity and adds
    notifications of it; the posts and interactions it adds are of the message,
    validated and signed by the key cached for the identity (its master key, if
    none is cached that parses); the profile is kept or replaced by that of the
    message, validated and signed by the cached key -- unsigned, if no cached key
    parses; and no post is acknowledged that is not stored.  A refused push
    changes nothing, and one at which the task panics changes nothing more than
    an acknowledged one. *)
Theorem push_sound (now : Z) (my_pubkey remote_str : string) (msg : PushMessage) (d : Db) :
  let taken d' := push_accepted d my_pubkey remote_str msg /\
    pushed now (resolve_peer d remote_str) (pm_posts msg) (pm_interactions msg) (pm_profile msg) d d' in
  match handle_push now my_pubkey remote_str msg d with
  | Done (Err _, d', _) => d' = d
  | Done (Ok ack, d', _) =>
      taken d' /\ forall i, i ∈ pa_received_post_ids ack -> is_Some (posts d' !! (resolve_peer d remote_str, i))
  | Panicked d' _ => d' = d \/ taken d'
  end.
Proof.
  intros taken. destruct (handle_push_cases now my_pubkey remote_str msg d) as [[E Hno]|[Ha E]]; cbv zeta in *.
  - destruct (handle_push now my_pubkey remote_str msg d) as [[[[ack|e] d'] ev]|d' ev];
      [by edestruct Hno|done|by left].
  - pose proof (take_push_pushed now my_pubkey (resolve_peer d remote_str) msg d) as Hp.
    rewrite E. destruct (take_push _ _ _ msg d) as [[[[ack|e] d'] ev]|d' ev] eqn:Et; cbn in Hp.
    + split; [done|]. by eapply take_push_acked.
    + by apply take_push_answers in Et.
    + by right.
Qed.
End push_theorem.

(** ** Follow requests *)

Lemma approved_status d pk :
  is_approved_follower d pk = bool_decide (request_status d pk = Some "approved"%string).
Proof.
  unfold is_approved_follower, request_status. apply eq_bool_prop_intro.
  rewrite bool_decide_spec, Is_true_true, Z.ltb_lt, sql_count_pos. split.
  - intros (k & r & Hr & [E Hs]%bool_decide_eq_true). cbn in E, Hs. subst k. by rewrite Hr; cbn; rewrite Hs.
  - intros (r & Hr & Hs)%fmap_Some. exists pk, r. split; [done|]. by apply bool_decide_eq_true.
Qed.

Section follow.
Context `{Ed25519, HexCodec, JsonCodec, Sha, SqlOrder, !SqlOrderLaws, !Serde SigningKeyDelegation,
  !Serde (list string), !SerdeLaws (list string), !Serde (list MediaAttachment)}.

(** A follow request its requester signed with a key its master key certified. *)
Definition genuine_request (req : FollowRequest) : Prop :=
  verify_delegation (fr_delegation req) = Ok tt /\
  dl_master_pubkey (fr_delegation req) = fr_requester req /\
  exists signer, pk_parse (dl_signing_pubkey (fr_delegation req)) = Ok signer /\
    verify_follow_request req signer = Ok tt.

Lemma check_follow_request_spec remote req d :
  match check_follow_request remote req d with
  | Done (r, d', ev) => d' = d /\ ev = [] /\ (r = Ok tt -> genuine_request req)
  | Panicked d' _ => d' = d
  end.
Proof.
  unfold check_follow_request. destruct (is_ok (verify_delegation _)) eqn:Ed.
  2: { rewrite run_log, run_lift. by destruct (short_id _). }
  destruct (decide (dl_master_pubkey (fr_delegation req) <> fr_requester req)) as [|Em%dec_stable].
  { rewrite !run_log, run_lift.
    destruct (short_id (dl_master_pubkey _)); [|done]. by destruct (short_id (fr_requester req)). }
  destruct (pk_parse _) as [signer|] eqn:Ep.
  2: { rewrite run_log, run_lift. by destruct (short_id _). }
  destruct (is_ok (verify_follow_request req signer)) eqn:Ev.
  - rewrite run_lift. split_and!; [done..|]. intros _.
    split; [by apply unit_ok|]. split; [done|]. exists signer. split; [done|by apply unit_ok].
  - rewrite run_log, run_lift. by destruct (short_id _).
Qed.

Lemma check_genuine remote req d :
  genuine_request req -> check_follow_request remote req d = Done (Ok tt, d, []).
Proof.
  intros (Ed & Em & signer & Ep & Ev). unfold check_follow_request. rewrite Ed. cbn [is_ok].
  rewrite decide_False by (by intros []). rewrite Ep, Ev. done.
Qed.

(** The database after the requester's identity is cached. *)
Definition requester_cached (now : Z) (remote : string) (req : FollowRequest) (d : Db) : Db :=
  cache_peer_identity now {| ir_master_pubkey := fr_requester req; ir_delegation := fr_delegation req;
    ir_transport_node_ids := [remote]; ir_profile := None |} d.

(** The answer to a genuine request. *)
Lemma follow_request_run now me remote req d :
  genuine_request req ->
  handle_follow_request now me remote req d =
    let c := requester_cached now remote req d in
    let logged d (o : outcome (result AppError FollowResponse)) :=
      match short_id (fr_requester req) with None => Panicked d [] | Some _ => o end in
    match get_visibility d (pi_master_pubkey me) with
    | Public => logged c (Done (Ok (Approved (identity_response me d)), c, []))
    | Private => logged c (Done (Ok Denied, c, []))
    | Listed =>
        if decide (request_status d (fr_requester req) = Some "approved"%string)
        then logged c (Done (Ok (Approved (identity_response me d)), c, []))
        else let d' := (insert_follow_request (fr_requester req) (fr_timestamp req) now
                          (now + FOLLOW_REQUEST_TTL_MS) c).1 in
             logged d' (Done (Ok Pending,
               insert_notification "follow_request" (fr_requester req) None None now d',
               ["follow-request-received"; "notification-received"]%string))
    end.
Proof.
  intros Hg. unfold handle_follow_request. rewrite run_try, check_genuine, after_nil by done.
  rewrite run_modify, run_get. fold (requester_cached now remote req d).
  set (c := requester_cached now remote req d). cbv zeta.
  change (get_visibility c (pi_master_pubkey me)) with (get_visibility d (pi_master_pubkey me)).
  change (identity_response me c) with (identity_response me d).
  destruct (get_visibility d (pi_master_pubkey me)).
  - rewrite run_log, run_lift. by destruct (short_id _).
  - rewrite approved_status. change (request_status c (fr_requester req)) with (request_status d (fr_requester req)).
    case_bool_decide as Es.
    + rewrite decide_True by done. rewrite run_log, run_lift. by destruct (short_id _).
    + rewrite decide_False by done. unfold insert_follow_request.
      change (request_status c (fr_requester req)) with (request_status d (fr_requester req)).
      destruct (decide (request_status d (fr_requester req) = _)); [done|]. cbn [fst].
      rewrite run_modify, run_log. destruct (short_id _); [|done].
      by rewrite run_modify, !run_emit, run_lift.
  - rewrite run_log, run_lift. by destruct (short_id _).
Qed.

(** A request that fails the checks stops there. *)
Lemma follow_request_checked now me remote req d :
  genuine_request req \/
  (end_db (handle_follow_request now me remote req d) = d /\
   forall resp d' ev, handle_follow_request now me remote req d <> Done (Ok resp, d', ev)).
Proof.
  pose proof (check_follow_request_spec remote req d) as Hc. unfold handle_follow_request. rewrite run_try.
  destruct (check_follow_request remote req d) as [[[[[]|e] d1] ev1]|d1 ev1]; [left; by apply Hc|right..].
  - by destruct Hc as [-> _].
  - by rewrite Hc.
Qed.

(** What a request leaves as it is, but for the request itself. *)
Record request_kept (pk : string) (d d' : Db) : Prop := {
  rk_approved k : request_status d' k = Some "approved"%string <-> request_status d k = Some "approved"%string;
  rk_others k : k <> pk -> request_status d' k = request_status d k;
  rk_graph : social_graph d' = social_graph d;
  rk_posts : posts d' = posts d;
  rk_interactions : interactions d' = interactions d;
  rk_profiles : profiles d' = profiles d;
  rk_messages : dm_messages d' = dm_messages d /\ dm_conversations d' = dm_conversations d /\
    dm_outbox d' = dm_outbox d /\ dm_ratchet_sessions d' = dm_ratchet_sessions d;
}.

Lemma request_stored_kept now remote req d t :
  let pk := fr_requester req in
  request_status d pk <> Some "approved"%string ->
  let d' := set_notifications t (insert_follow_request pk (fr_timestamp req) now (now + FOLLOW_REQUEST_TTL_MS)
              (requester_cached now remote req d)).1 in
  request_kept pk d d' /\ request_status d' pk = Some "pending"%string.
Proof.
  intros pk Ea d'. assert (forall k, request_status d' k =
    if decide (k = pk) then Some "pending"%string else request_status d k) as Hst.
  { intros k. etransitivity; [apply request_status_insert|].
    change (request_status (requester_cached now remote req d)) with (request_status d).
    destruct (decide (k = pk)) as [->|Hk]; [by rewrite decide_True|].
    rewrite decide_False; [done|]. by intros [? _]. }
  split; [|rewrite Hst; by rewrite decide_True].
  split; [intros k; rewrite Hst|intros k Hk; by rewrite Hst, decide_False|..];
    try (unfold d', insert_follow_request; by case_decide).
  destruct (decide (k = pk)) as [E|]; [|done]. rewrite E. by split.
Qed.

Lemma follow_request_contained now me remote req d :
  let d' := end_db (handle_follow_request now me remote req d) in
  d' = d \/ (genuine_request req /\ request_kept (fr_requester req) d d').
Proof.
  intros d'. destruct (follow_request_checked now me remote req d) as [Hg|[Hd _]]; [|by left].
  right. split; [done|]. unfold d'. rewrite follow_request_run by done. cbv zeta.
  assert (request_kept (fr_requester req) d (requester_cached now remote req d)) as Hc by done.
  destruct (get_visibility d (pi_master_pubkey me)); [by destruct (short_id _)| |by destruct (short_id _)].
  case_decide as Ea; [by destruct (short_id _)|].
  destruct (request_stored_kept now remote req d (notifications (insert_follow_request (fr_requester req)
    (fr_timestamp req) now (now + FOLLOW_REQUEST_TTL_MS) (requester_cached now remote req d)).1) Ea) as [Hk _].
  by destruct (short_id _), Hk.
Qed.

(** C25: A follow request that is answered was signed by a key that the
    requester's master key certified; it is approved exactly when the profile
    is public or the user had approved the requester before, denied when the
    profile is private, and otherwise stored as pending.  No request, even one
    that makes the task panic, changes who is approved, the request of another
    user, the social graph or the posts; a refused request changes nothing. *)
Theorem follow_request_decided (now : Z) (me : PeerIdentity) (remote : string) (req : FollowRequest) (d : Db) :
  let pk := fr_requester req in
  match handle_follow_request now me remote req d with
  | Done (Ok resp, d', _) =>
      genuine_request req /\
      resp = match get_visibility d (pi_master_pubkey me) with
             | Public => Approved (identity_response me d)
             | Listed => if decide (request_status d pk = Some "approved"%string)
                         then Approved (identity_response me d) else Pending
             | Private => Denied
             end /\
      (resp = Pending -> request_status d' pk = Some "pending"%string) /\ request_kept pk d d'
  | Done (Err _, d', _) => d' = d
  | Panicked d' _ => d' = d \/ (genuine_request req /\ request_kept pk d d')
  end.
Proof.
  intros pk. destruct (follow_request_checked now me remote req d) as [Hg|[Hd Hno]].
  2: { destruct (handle_follow_request _ _ _ _ _) as [[[[resp|e] d'] ev]|d' ev]; [by edestruct Hno|done|by left]. }
  assert (request_kept pk d (requester_cached now remote req d)) as Hc by done.
  rewrite follow_request_run by done. cbv zeta. fold pk.
  destruct (get_visibility d (pi_master_pubkey me)); [destruct (short_id pk); [done|by right]| |
    destruct (short_id pk); [done|by right]].
  destruct (decide _) as [Ea|Ea]; [destruct (short_id pk); [done|by right]|].
  destruct (short_id pk).
  - destruct (request_stored_kept now remote req d
      (notifications (insert_notification "follow_request" pk None None now (insert_follow_request pk
        (fr_timestamp req) now (now + FOLLOW_REQUEST_TTL_MS) (requester_cached now remote req d)).1)) Ea)
      as [Hk Hp]. by split_and!.
  - right. destruct (request_stored_kept now remote req d (notifications (insert_follow_request pk
      (fr_timestamp req) now (now + FOLLOW_REQUEST_TTL_MS) (requester_cached now remote req d)).1) Ea) as [Hk _].
    split; [done|]. by destruct Hk.
Qed.

(** ** Captured addresses *)

(** No cached identity lists the transport id. *)
Definition transport_unknown (d : Db) (node : string) : Prop :=
  forall k r, peer_delegations d !! k = Some r ->
    exists ids, from_json (pd_transport_node_ids_json r) = Ok ids /\ node ∉ (ids : list string).

Lemma scan_transport_only node rows k :
  k ∈ rows.*1 ->
  (forall k' r, (k', r) ∈ rows -> exists ids,
     from_json (pd_transport_node_ids_json r) = Ok ids /\ (node ∈ (ids : list string) <-> k' = k)) ->
  scan_transport node rows = Some k.
Proof.
  induction rows as [|[k' r] rows IH]; intros Hin Hrows; [by apply elem_of_nil in Hin|]. cbn.
  destruct (Hrows k' r) as (ids & -> & Hk); [by left|]. destruct (decide (node ∈ ids)) as [Hn|Hn].
  - f_equal. by apply Hk.
  - apply IH.
    + cbn in Hin. apply elem_of_cons in Hin as [->|?]; [|done]. exfalso. by apply Hn, Hk.
    + intros k2 r2 H2'. apply Hrows. by right.
Qed.

Lemma resolve_cached now node req d :
  transport_unknown d node -> resolve_peer (requester_cached now node req d) node = fr_requester req.
Proof.
  intros Hd. unfold resolve_peer, get_master_pubkey_for_transport.
  rewrite (scan_transport_only node _ (fr_requester req)); [done| |].
  - apply list_elem_of_fmap. eexists (fr_requester req, _). split; [done|].
    apply elem_of_sql_select. split; [apply lookup_insert_eq|done].
  - intros k r [Hr _]%elem_of_sql_select. cbn in Hr. apply lookup_insert_Some in Hr as [[<- <-]|[Hk Hr]].
    + eexists. split; [apply from_to_json|]. cbn. split; [done|intros _; by left].
    + destruct (Hd k r Hr) as (ids & -> & Hn). exists ids. split; [done|]. split; [done|]. by intros ->.
Qed.

(** A follow request names neither its recipient nor the node that sends
    it.  Whoever has received one, and sends it again from a node of its own,
    is taken for the requester from then on: the node gets the access of the
    requester's identity to the posts and the lists, and is cached as the
    requester's only address. *)
Theorem follow_request_hijack (now0 now : Z) (me0 me : PeerIdentity) (home node : string)
    (req : FollowRequest) (d0 d0' d : Db) (resp0 : FollowResponse) (ev0 : list string)
    (Hseen : handle_follow_request now0 me0 home req d0 = Done (Ok resp0, d0', ev0))
    (Hnode : transport_unknown d node) (Hlog : is_Some (short_id (fr_requester req))) :
  let victim := fr_requester req in
  exists resp d' ev, handle_follow_request now me node req d = Done (Ok resp, d', ev) /\
    resolve_peer d' node = victim /\
    get_peer_transport_node_ids d' victim = Ok [node] /\
    sync_access d' (pi_master_pubkey me) (resolve_peer d' node) =
      sync_access d (pi_master_pubkey me) victim /\
    list_allowed d' (pi_master_pubkey me) (resolve_peer d' node) =
      list_allowed d (pi_master_pubkey me) victim.
Proof.
  intros victim. destruct (follow_request_checked now0 me0 home req d0) as [Hg|[_ Hno]]; [|by edestruct Hno].
  rewrite follow_request_run by done. cbv zeta.
  destruct Hlog as [x ->]. set (c := requester_cached now node req d).
  assert (resolve_peer c node = victim) as Hr by (by apply resolve_cached).
  assert (get_peer_transport_node_ids c victim = Ok [node]) as Hids.
  { unfold get_peer_transport_node_ids. cbn. rewrite lookup_insert_eq. cbn. apply from_to_json. }
  assert (forall d2, peer_delegations d2 = peer_delegations c -> profiles d2 = profiles d ->
    social_graph d2 = social_graph d ->
    resolve_peer d2 node = victim /\ get_peer_transport_node_ids d2 victim = Ok [node] /\
    sync_access d2 (pi_master_pubkey me) (resolve_peer d2 node) = sync_access d (pi_master_pubkey me) victim /\
    list_allowed d2 (pi_master_pubkey me) (resolve_peer d2 node) = list_allowed d (pi_master_pubkey me) victim)
    as Hgo.
  { intros d2 E1 E2 E3. assert (resolve_peer d2 node = victim) as Hr2 by
      (unfold resolve_peer, get_master_pubkey_for_transport in *; by rewrite E1).
    rewrite Hr2. split; [done|]. split; [unfold get_peer_transport_node_ids in *; by rewrite E1|].
    unfold sync_access, list_allowed, get_visibility, is_mutual, is_follower, is_following, active_edge.
    by rewrite E2, E3. }
  destruct (get_visibility d (pi_master_pubkey me)).
  - eexists _, _, _. split; [reflexivity|]. by apply Hgo.
  - destruct (decide _); (eexists _, _, _; split; [reflexivity|]); [by apply Hgo|].
    apply Hgo; unfold insert_follow_request; by case_decide.
  - eexists _, _, _. split; [reflexivity|]. by apply Hgo.
Qed.
End follow.

(** ** Forged identities *)

Section forged.
Context `{Ed25519, !Ed25519Laws, HexCodec, !HexLaws, JsonCodec, !JsonLaws, Sha, SqlOrder, !SqlOrderLaws,
  !Serde SigningKeyDelegation, !Serde (list string), !Serde (list MediaAttachment)}.

Lemma neighbor_up_run now my_id transport identity d :
  is_Some (short_id transport) -> is_Some (short_id (ir_master_pubkey identity)) ->
  exists d' ev, neighbor_up now my_id transport (Ok (RespIdentity identity)) d = Done (tt, d', ev) /\
    peer_delegations d' = peer_delegations (cache_peer_identity now identity d) /\ posts d' = posts d.
Proof.
  intros [x1 E1] [x2 E2]. unfold neighbor_up. rewrite run_log, E1, run_bind.
  unfold neighbor_identity. cbn [query_identity mbind result_bind].
  rewrite !run_modify, !run_log, E1, E2. cbn [mret handler_ret]. cbv beta iota.
  unfold mret at 1, handler_ret at 1. cbv beta iota zeta. rewrite after_nil, run_get.
  set (d1 := match ir_profile identity with Some p => _ | None => _ end).
  assert (peer_delegations d1 = peer_delegations (cache_peer_identity now identity d) /\ posts d1 = posts d)
    as [Ep Eq] by (unfold d1; by destruct (ir_profile identity)).
  destruct (upsert_follower my_id (ir_master_pubkey identity) now d1) as [d2 is_new] eqn:Eu.
  assert (peer_delegations d2 = peer_delegations d1 /\ posts d2 = posts d1) as [Ep2 Eq2] by
    (unfold upsert_follower in Eu; by injection Eu as <- _).
  rewrite run_modify, run_emit, run_bind.
  destruct is_new; [rewrite run_modify, run_emit|]; unfold emit, mret, handler_ret; cbn [after app];
    rewrite run_get; (destruct (is_following _ my_id _); [unfold log_short; rewrite E2|]);
    (eexists _, _; split; [reflexivity|]; split;
      [exact (eq_trans Ep2 Ep)|exact (eq_trans Eq2 Eq)]).
Qed.

(** A node that joins the own feed answers the question for its identity
    as it likes: the identity is cached unchecked.  If it names somebody else's
    master key with a signing key of its own, posts that it signs are from
    then on accepted as the victim's, whatever delegation was cached before. *)
Theorem identity_poisoned (now : Z) (my_id transport : string) (forged : IdentityResponse)
    (attacker : SecretKey) (post : Post) (d : Db)
    (Hkey : dl_signing_pubkey (ir_delegation forged) = pk_to_string (sk_public attacker))
    (Hauthor : post_author post = ir_master_pubkey forged) (Hvalid : validate_post now post = Ok tt)
    (Hfresh : posts d !! (post_author post, post_id post) = None)
    (Hlog : is_Some (short_id transport) /\ is_Some (short_id (ir_master_pubkey forged))) :
  exists d1 ev1 d2 ev2,
    neighbor_up now my_id transport (Ok (RespIdentity forged)) d = Done (tt, d1, ev1) /\
    process_incoming_post now my_id (sign_post post attacker) d1 = Done (true, d2, ev2) /\
    posts d2 !! (ir_master_pubkey forged, post_id post) = Some (post_to_row (sign_post post attacker)).
Proof.
  destruct Hlog as [Hl1 Hl2].
  destruct (neighbor_up_run now my_id transport forged d Hl1 Hl2) as (d1 & ev1 & E1 & Ed & Ep).
  exists d1, ev1.
  assert (resolve_signer d1 (post_author post) = Some (sk_public attacker)) as Hs.
  { unfold resolve_signer, get_peer_signing_pubkey. rewrite Ed, Hauthor. cbn.
    rewrite lookup_insert_eq. cbn. by rewrite Hkey, pk_parse_to_string. }
  destruct (process_incoming_post now my_id (sign_post post attacker) d1) as [[[b d2] ev2]|] eqn:E2.
  - pose proof E2 as E. apply ingest_post_spec in E as [[-> ->]|(-> & _ & Hps & _)].
    + exfalso. revert E2. unfold process_incoming_post.
      change (validate_post now (sign_post post attacker)) with (validate_post now post). rewrite Hvalid.
      cbn [is_ok]. rewrite run_get. change (post_author (sign_post post attacker)) with (post_author post).
      rewrite Hs. unfold verify_post_signature at 1. cbn [post_signature sign_post set_post_signature].
      rewrite hex_to_signature_to_hex. unfold mbind at 1, result_bind at 1.
      change (post_signing_bytes (sign_post post attacker)) with (post_signing_bytes post).
      rewrite verify_or_sign. cbn [is_ok]. rewrite run_modify, run_bind.
      by destruct (notify_post _ _ _) as [[[??]?]|].
    + exists d2, ev2. split; [done|]. split; [done|]. rewrite Hps. cbn.
      rewrite lookup_insert_or_ignore, <-Hauthor, decide_True by done. by rewrite Ep, Hfresh.
  - exfalso. destruct (ingest_post_total now my_id (sign_post post attacker)) with (d := d1) as [? E];
      [cbn; by rewrite Hauthor|]. congruence.
Qed.
End forged.

(** ** Witnesses *)

(** The identity of a user with master key [m] and signing key [s]. *)
Definition identity_of (m s node : string) : PeerIdentity :=
  {| pi_master_pubkey := pk_to_string (sk_public m);
     pi_delegation := sign_delegation m (sk_public s) 0 "dm" 0 100;
     pi_transport_node_id := node |}.
Definition carol : PeerIdentity := identity_of "carol" "carol-s" "node-c".
Definition me : PeerIdentity := identity_of "me" "me-s" "node-m".
Definition eve : PeerIdentity := identity_of "eve" "eve-s" "node-e".
Definition secret (s : string) : SecretKey := s.

(** Carol has a cached identity and follows me. *)
Definition carol_follows : Db :=
  (upsert_follower "kme" "kcarol" 5
     (cache_peer_identity 1 (identity_response carol empty_db) empty_db)).1.
Definition carol_post : Post :=
  sign_post {| post_id := "p1"; post_author := "kcarol"; post_content := "hi"; post_timestamp := 10;
    post_media := []; post_reply_to := None; post_reply_to_author := None;
    post_quote_of := None; post_quote_of_author := None; post_signature := "" |} (secret "carol-s").
Definition carol_push : PushMessage :=
  {| pm_author := "kcarol"; pm_posts := [carol_post; bob_post]; pm_interactions := []; pm_profile := None |}.

Definition run_push := handle_push 1000 "kme" "node-c" carol_push carol_follows.

Lemma push_sound_witness :
  result_of run_push (Err Sqlx) = Ok {| pa_received_post_ids := ["p1"%string]; pa_received_interaction_ids := [] |} /\
  is_Some (posts (end_db run_push) !! ("kcarol", "p1")%string) /\
  posts (end_db run_push) !! ("kbob", "p1")%string = None.
Proof.
  assert (result_of run_push (Err Sqlx) = Ok {| pa_received_post_ids := ["p1"%string];
    pa_received_interaction_ids := [] |}) as Er by (vm_compute; reflexivity).
  split; [exact Er|].
  pose proof (push_sound 1000 "kme" "node-c" carol_push carol_follows) as H. cbv zeta in H.
  change (handle_push 1000 "kme" "node-c" carol_push carol_follows) with run_push in H.
  rewrite (run_parts run_push (Err Sqlx)), Er in H by (vm_compute; by eexists).
  destruct H as ((_ & Hp) & Hk). split.
  - apply Hk. by left.
  - pose proof (iso_posts _ _ _ _ (pu_isolated _ _ _ _ _ _ _ Hp) "kbob"%string "p1"%string) as Hiso.
    unshelve epose proof (Hiso _) as Hb; [vm_compute; discriminate|]. clear Hiso.
    destruct Hb as [Hb|[_ []]]. refine (eq_trans Hb _). vm_compute. reflexivity.
Defined.

(** My profile is listed; Carol asks. *)
Definition listed : Db :=
  save_profile "kme" {| pr_display_name := "Me"; pr_bio := ""; pr_avatar_hash := None;
    pr_avatar_ticket := None; pr_visibility := Listed; pr_signature := "" |} empty_db.
Definition carol_request : FollowRequest := follow_request 50 carol (secret "carol-s").
Definition run_follow := handle_follow_request 1000 me "node-c" carol_request listed.

Lemma follow_request_decided_witness :
  request_status (end_db run_follow) "kcarol" = Some "pending"%string /\
  result_of run_follow (Err Sqlx) = Ok Pending.
Proof.
  pose proof (follow_request_decided 1000 me "node-c" carol_request listed) as H. cbv zeta in H.
  change (handle_follow_request 1000 me "node-c" carol_request listed) with run_follow in H.
  assert (result_of run_follow (Err Sqlx) = Ok Pending) as Er by (vm_compute; reflexivity).
  rewrite (run_parts run_follow (Err Sqlx)), Er in H by (vm_compute; by eexists).
  destruct H as (_ & _ & Hp & _). split; [by apply Hp|exact Er].
Defined.

(** Carol once asked Eve; Eve repeats the request from her own node. *)
Definition seen_by_eve := handle_follow_request 60 eve "node-c" carol_request empty_db.

Lemma follow_request_hijack_witness :
  exists resp d' ev, handle_follow_request 1000 me "node-e" carol_request carol_follows = Done (Ok resp, d', ev) /\
    resolve_peer d' "node-e" = "kcarol"%string.
Proof.
  pose proof (follow_request_hijack 60 1000 eve me "node-c" "node-e" carol_request empty_db (end_db seen_by_eve)
    carol_follows (Approved (identity_response eve empty_db)) (events_of seen_by_eve)) as Hh.
  unshelve epose proof (Hh _ _ _) as H.
  - assert (result_of seen_by_eve (Err Sqlx) = Ok (Approved (identity_response eve empty_db))) as Er
      by (vm_compute; reflexivity).
    rewrite <-Er. apply run_parts. vm_compute. by eexists.
  - intros k r Hr.
    change (peer_delegations carol_follows) with
      (peer_delegations (cache_peer_identity 1 (identity_response carol empty_db) empty_db)) in Hr.
    unfold cache_peer_identity in Hr. cbn [peer_delegations set_peer_delegations] in Hr.
    apply lookup_insert_Some in Hr as [[<- <-]|[_ Hr]]; [|exact (False_ind _ (lookup_empty_Some _ _ Hr))].
    exists ["node-c"%string]. split; [exact (from_to_json ["node-c"%string])|].
    intros Hn%list_elem_of_singleton. discriminate Hn.
  - vm_compute. by eexists.
  - destruct H as (resp & d' & ev & E & Hr & _). exists resp, d', ev. split; [exact E|exact Hr].
Defined.

(** Eve joins my feed and says she is Carol. *)
Definition eve_as_carol : IdentityResponse :=
  {| ir_master_pubkey := "kcarol"; ir_delegation := pi_delegation eve;
     ir_transport_node_ids := ["node-e"%string]; ir_profile := None |}.
Definition forged_post : Post := set_post_signature "" carol_post.

Lemma identity_poisoned_witness :
  exists d1 ev1 d2 ev2,
    neighbor_up 900 "kme" "node-e" (Ok (RespIdentity eve_as_carol)) carol_follows = Done (tt, d1, ev1) /\
    process_incoming_post 900 "kme" (sign_post forged_post (secret "eve-s")) d1 = Done (true, d2, ev2) /\
    is_Some (posts d2 !! ("kcarol", "p1")%string).
Proof.
  unshelve edestruct (identity_poisoned 900 "kme" "node-e" eve_as_carol (secret "eve-s") forged_post carol_follows)
    as (d1 & ev1 & d2 & ev2 & E1 & E2 & E3); [reflexivity|reflexivity|vm_compute; reflexivity|
    vm_compute; reflexivity|split; vm_compute; by eexists|].
  exists d1, ev1, d2, ev2. split; [exact E1|]. split; [exact E2|]. eexists. exact E3.
Defined.
