(* ===== verification/Link.v ===== *)
(** * Linking a new device

    Model of [src-tauri/src/peer/linking.rs] and of the command
    [link_with_device] of [commands/devices.rs]: the existing device shows a
    code and serves its bundle once; the new device fetches and imports it.
    [now] is the clock, [psk] the random secret of the session.  The relay
    address in the code has no effect here and is left out. *)

From stdpp Require Import pretty.
From S2P Require Import Prelude Types Ratchet Signing Validation Store Peers Framing Handler Noise Peer.

Local Open Scope Z_scope.
Local Open Scope handler_scope.

(** ** The crates *)

(** SHA-512, the keys of iroh from and to bytes, and the map from Edwards to
    Montgomery form of curve25519-dalek. *)
Class KeyConv `{Ed25519} := {
  sha512 : bytes -> bytes;
  sk_from_bytes : bytes -> SecretKey;
  pk_to_montgomery : PublicKey -> option bytes;
}.

(** The engines [STANDARD] and [URL_SAFE_NO_PAD] of the base64 crate. *)
Class LinkBase64 := {
  b64_standard_encode : bytes -> string;
  b64_url_encode : bytes -> string;
  b64_url_decode : string -> option bytes;
}.
(** [STANDARD] pads, and [URL_SAFE_NO_PAD] rejects padding. *)
Class LinkBase64Laws `{LinkBase64} := {
  b64_url_roundtrip b : b64_url_decode (b64_url_encode b) = Some b;
  b64_padding_rejected b :
    (length b mod 3 <> 0)%nat -> b64_url_decode (b64_standard_encode b) = None;
}.

(** ** Keys *)

Section keys.
Context `{RatchetPrims, Ed25519, !KeyConv}.

Definition derive_key (info : bytes) (master_secret : bytes) (index : Z) : bytes :=
  hkdf_expand (Some (be_bytes 4 index)) master_secret info 32.
Definition derive_signing_key : bytes -> Z -> bytes := derive_key (str_bytes "proscenium/signing-key").
Definition derive_transport_key : bytes -> Z -> bytes := derive_key (str_bytes "proscenium/transport-key").
Definition derive_dm_key : bytes -> Z -> bytes := derive_key (str_bytes "proscenium/dm-key").

(** Clamping of RFC 7748. *)
Definition clamp_x25519 (k : bytes) : bytes :=
  alter (fun b => Z.lor (Z.land b 127) 64) 31%nat (alter (fun b => Z.land b 248) 0%nat k).
Definition ed25519_secret_to_x25519 (ed25519_secret : bytes) : bytes :=
  clamp_x25519 (take 32 (sha512 ed25519_secret)).
End keys.

(** The two maps of keys agree, and a handshake with a shared secret gives a
    channel from the responder to the initiator. *)
Class LinkLaws `{RatchetPrims, Ed25519, !KeyConv, SnowLib} := {
  montgomery_agrees secret :
    pk_to_montgomery (sk_public (sk_from_bytes secret)) = Some (x25519_base (ed25519_secret_to_x25519 secret));
  noise_psk_agrees (a b psk : bytes) : exists i0 i1 i2 r0 r1 r2 m1 m2 ti tr,
    build_initiator NOISE_PSK_PATTERN a (x25519_base b) (Some (2, psk)) = Some i0 /\
    hs_write i0 [] = Some (i1, m1) /\
    build_responder NOISE_PSK_PATTERN b (Some (2, psk)) = Some r0 /\
    hs_read r0 m1 = Some (r1, []) /\
    hs_write r1 [] = Some (r2, m2) /\
    hs_read i1 m2 = Some (i2, []) /\
    into_transport_mode i2 = Some ti /\ into_transport_mode r2 = Some tr /\
    forall p, Z.of_nat (length p) <= 65519 -> exists tr' c ti', ts_write tr p = Some (tr', c) /\
      ts_read ti c = Some (ti', p);
}.

(** ** linking.rs *)

Definition LINK_SESSION_TTL_MS : Z := 60000.

Record PendingLink : Type := {
  pl_psk : bytes;
  pl_x25519_private : bytes;
  pl_expires_at : Z;
  pl_transfer_master_key : bool;
}.

Record LinkQrPayload : Type := {
  qr_node_id : string;
  qr_secret : string;
}.

(** The fields of [Identity] that linking uses. *)
Record LinkIdentity : Type := {
  li_master_secret : bytes;
  li_master_pubkey : string;
  li_signing_secret : bytes;
  li_dm_secret : bytes;
  li_delegation : SigningKeyDelegation;
  li_transport_node_id : string;
}.

Section link.
Context `{RatchetPrims, Ed25519, !KeyConv, SnowLib, LinkBase64, HexCodec, JsonCodec, SqlOrder,
  !Serde SigningKeyDelegation, !Serde (list string), !Wire LinkBundleData}.

Definition start_link_session (now : Z) (psk : bytes) (me : LinkIdentity) (transfer_master_key : bool)
    : PendingLink * LinkQrPayload :=
  let x25519_private := ed25519_secret_to_x25519 (derive_transport_key (li_master_secret me) 0) in
  ({| pl_psk := psk; pl_x25519_private := x25519_private;
      pl_expires_at := now + LINK_SESSION_TTL_MS; pl_transfer_master_key := transfer_master_key |},
   {| qr_node_id := li_transport_node_id me; qr_secret := b64_url_encode psk |}).

(** Taking the session: it is gone whatever follows. *)
Definition take_link_session (now : Z) (pending : option PendingLink) : result AppError PendingLink :=
  match pending with
  | Some session =>
      if pl_expires_at session <? now then Err (Other "link session expired") else Ok session
  | None => Err (Other "no pending link session")
  end.

(** The announcement of all devices. *)
Definition link_announcement (now : Z) (me : LinkIdentity) (new_device_index : Z) (d : Db)
    : LinkedDevicesAnnouncement :=
  sign_linked_devices_announcement
    {| an_master_pubkey := li_master_pubkey me; an_delegation := li_delegation me;
       an_devices := get_linked_devices d; an_version := add_u32 new_device_index 1;
       an_timestamp := now; an_signature := "" |} (sk_from_bytes (li_signing_secret me)).

(** [handle_link_request] on a pending session: the response and the
    announcement broadcast.  [name] is the text of the number [Device n]. *)
Definition serve_link (now : Z) (name : Z -> string) (me : LinkIdentity) (pending : option PendingLink)
    (noise_init : bytes) : fallible (PeerResponse * LinkedDevicesAnnouncement) :=
  session ←? lift (take_link_session now pending);
  '(transport, noise_response) ←? lift (noise_psk_respond (pl_x25519_private session) (pl_psk session) noise_init);
  d ← get_db;
  let new_device_index := next_device_index d in
  let new_transport_key := derive_transport_key (li_master_secret me) new_device_index in
  let bundle := export_link_bundle b64_standard_encode d (li_master_pubkey me) (li_signing_secret me)
    (li_dm_secret me) (li_delegation me) new_transport_key new_device_index
    (if pl_transfer_master_key session then Some (li_master_secret me) else None) in
  '(_, encrypted_bundle) ←? lift (noise_transport_encrypt transport (to_vec bundle));
  _ ← emit "device-link-progress";
  let new_node_id := pk_to_string (sk_public (sk_from_bytes new_transport_key)) in
  _ ← modify (upsert_linked_device now new_node_id (name new_device_index) false false now);
  _ ← log_short new_node_id;
  d ← get_db;
  lift (Ok (RespLinkBundle noise_response encrypted_bundle, link_announcement now me new_device_index d)).

(** With the state of the session after the request. *)
Definition handle_link_request (now : Z) (name : Z -> string) (me : LinkIdentity)
    (pending : option PendingLink) (noise_init : bytes)
    : option PendingLink * fallible (PeerResponse * LinkedDevicesAnnouncement) :=
  (None, serve_link now name me pending noise_init).

Definition cancel_link_session (pending : option PendingLink) : option PendingLink := None.

(** ** commands/devices.rs *)

(** [link_with_device] up to its request. *)
Definition link_initiate (you : LinkIdentity) (qr : LinkQrPayload)
    : result AppError (HandshakeState * bytes) :=
  psk ← ok_or (b64_url_decode (qr_secret qr)) (Other "invalid base64");
  _ ← bail_if (negb (length psk =? 32)%nat) (Other "invalid PSK length");
  target ← (match pk_parse (qr_node_id qr) with Ok pk => Ok pk | Err e => Err (Other e) end : result AppError PublicKey);
  let my_private := ed25519_secret_to_x25519 (derive_transport_key (li_master_secret you) 0) in
  peer ← ok_or (pk_to_montgomery target) (Other "invalid peer public key");
  noise_psk_initiate my_private peer psk.

(** [to_string] of a number, as the bytes of the file. *)
Definition index_text (i : Z) : bytes := str_bytes (pretty i).

(** The files written, in order, and the result. *)
Definition link_files (bundle : LinkBundleData) : list (string * bytes) * result AppError unit :=
  match b64_url_decode (lb_signing_secret_key bundle) with
  | None => ([], Err (Other "invalid base64"))
  | Some signing_key =>
      let files := [("signing_key.key"%string, signing_key);
                    ("signing_key_index"%string, index_text (dl_key_index (lb_delegation bundle)));
                    ("dm_key_index"%string, index_text (dl_dm_key_index (lb_delegation bundle)))] in
      match b64_url_decode (lb_transport_secret_key bundle) with
      | None => (files, Err (Other "invalid base64"))
      | Some transport_key =>
          let files := files ++ [("transport_key.key"%string, transport_key);
                                 ("device_index"%string, index_text (lb_device_index bundle))] in
          match lb_master_secret_key bundle with
          | None => (files, Ok tt)
          | Some master =>
              match b64_url_decode master with
              | None => (files, Err (Other "invalid base64"))
              | Some master_key => (files ++ [("master_key.key"%string, master_key)], Ok tt)
              end
          end
      end
  end.

(** [link_with_device] from the response on: the database, the files and the
    result. *)
Definition link_complete (now : Z) (you : LinkIdentity) (initiator : HandshakeState)
    (response : PeerResponse) (d : Db) : Db * list (string * bytes) * result AppError unit :=
  let received :=
    '(noise_response, encrypted_bundle) ←
      match response with
      | RespLinkBundle r b => Ok (r, b)
      | _ => Err (Other "unexpected response type")
      end;
    transport ← noise_psk_complete_initiator initiator noise_response;
    '(_, bundle_json) ← noise_transport_decrypt transport encrypted_bundle;
    from_slice bundle_json in
  match received with
  | Err e => (d, [], Err e)
  | Ok bundle =>
      let '(files, r) := link_files bundle in
      (import_link_bundle now (li_master_pubkey you) bundle d, files, r)
  end.
End link.
