(* ===== verification/LinkTheorems.v ===== *)
(** * Theorems on linking

    A session is served at most once, to whoever sends a first message to its
    key: the secret is needed only to read the answer.  The new device gets the
    bundle, imports it, and then fails to decode its keys. *)

From stdpp Require Import countable.
From S2P Require Import Prelude Types Ratchet Signing Concrete Validation Store ConcreteStore Social Peers Framing ConcreteWire Handler Noise ConcreteDm Peer Link.

Local Open Scope Z_scope.

Section link.
Context `{RatchetPrims, Ed25519, !KeyConv, SnowLib, LinkBase64, HexCodec, JsonCodec, SqlOrder,
  !Serde SigningKeyDelegation, !Serde (list string), !Wire LinkBundleData}.

(** The bundle of a session for the database [d]. *)
Definition session_bundle (me : LinkIdentity) (session : PendingLink) (d : Db) : LinkBundleData :=
  export_link_bundle b64_standard_encode d (li_master_pubkey me) (li_signing_secret me)
    (li_dm_secret me) (li_delegation me) (derive_transport_key (li_master_secret me) (next_device_index d))
    (next_device_index d) (if pl_transfer_master_key session then Some (li_master_secret me) else None).

Lemma serve_link_spec now name me pending noise_init d r d' ev :
  serve_link now name me pending noise_init d = Done (r, d', ev) ->
  match r with
  | Err _ => d' = d
  | Ok (reply, _) => exists session transport transport' noise_response encrypted,
      pending = Some session /\ now <= pl_expires_at session /\
      noise_psk_respond (pl_x25519_private session) (pl_psk session) noise_init = Ok (transport, noise_response) /\
      noise_transport_encrypt transport (to_vec (session_bundle me session d)) = Ok (transport', encrypted) /\
      reply = RespLinkBundle noise_response encrypted
  end.
Proof.
  unfold serve_link. rewrite run_try_lift.
  destruct pending as [session|]; cbn [take_link_session]; [|by intros [= <- <- _]].
  destruct (Z.ltb_spec (pl_expires_at session) now); [by intros [= <- <- _]|]. rewrite run_try_lift.
  destruct (noise_psk_respond _ _ _) as [[transport noise_response]|] eqn:En; [|by intros [= <- <- _]].
  rewrite run_get, run_try_lift. fold (session_bundle me session d).
  destruct (noise_transport_encrypt _ _) as [[transport' encrypted]|] eqn:Ee; [|by intros [= <- <- _]].
  rewrite run_emit, run_modify, run_log. destruct (short_id _); [|done]. rewrite run_get, run_lift.
  intros [= <- <- _]. exists session, transport, transport', noise_response, encrypted. split_and!; done.
Qed.

(** The session a request was served from: it was pending, in time, and its key
    could read the message.  The secret enters with the second message only
    ([link_without_secret] below). *)
Definition link_admitted (now : Z) (pending : option PendingLink) (noise_init : bytes) : Prop :=
  exists session handshake, pending = Some session /\ now <= pl_expires_at session /\
    noise_psk_respond (pl_x25519_private session) (pl_psk session) noise_init = Ok handshake.

(** The row of the new device is stored. *)
Definition link_stored (now : Z) (name : Z -> string) (me : LinkIdentity) (d : Db) : Db :=
  let index := next_device_index d in
  upsert_linked_device now
    (pk_to_string (sk_public (sk_from_bytes (derive_transport_key (li_master_secret me) index))))
    (name index) false false now d.

(** It adds or renews the row of one device, nothing else. *)
Lemma serve_link_contained now name me pending noise_init d :
  let d' := end_db (serve_link now name me pending noise_init d) in
  d' = d \/ (link_admitted now pending noise_init /\ d' = link_stored now name me d).
Proof.
  unfold serve_link. rewrite run_try_lift.
  destruct pending as [session|]; cbn [take_link_session]; [|by left].
  destruct (Z.ltb_spec (pl_expires_at session) now); [by left|]. rewrite run_try_lift.
  destruct (noise_psk_respond _ _ _) as [[transport noise_response]|] eqn:En; [|by left].
  rewrite run_get, run_try_lift.
  destruct (noise_transport_encrypt _ _) as [[transport' encrypted]|]; [|by left].
  right. split; [by exists session, (transport, noise_response)|].
  rewrite run_emit, run_modify, run_log. by destruct (short_id _).
Qed.

(** Every request consumes the pending session; a bundle is sent only while
    a session was pending, within its 60 seconds, to a handshake message that
    the key of the session reads, and is encrypted for that handshake, into
    which the secret was mixed; a request that fails changes nothing. *)
Theorem link_session_guard (now : Z) (name : Z -> string) (me : LinkIdentity)
    (pending : option PendingLink) (noise_init : bytes) (d d' : Db) r (ev : list string) :
  let '(pending', serve) := handle_link_request now name me pending noise_init in
  pending' = None /\
  (serve d = Done (r, d', ev) ->
   match r with
   | Err _ => d' = d
   | Ok (reply, _) => exists session transport transport' noise_response encrypted,
       pending = Some session /\ now <= pl_expires_at session /\
       noise_psk_respond (pl_x25519_private session) (pl_psk session) noise_init = Ok (transport, noise_response) /\
       noise_transport_encrypt transport (to_vec (session_bundle me session d)) = Ok (transport', encrypted) /\
       reply = RespLinkBundle noise_response encrypted
   end).
Proof. cbn. split; [done|]. apply serve_link_spec. Qed.
End link.

(** The secret is mixed in at the end of the second message (the [2] of
    [IKpsk2]): a responder reads the first message of any initiator that has its
    public key, whatever the initiator's secret, and completes. *)
Class PskLaws `{RatchetPrims, SnowLib} := {
  noise_psk_late (a b psk psk' : bytes) : exists i0 i1 m1 r0 r1 r2 m2 tr,
    build_initiator NOISE_PSK_PATTERN a (x25519_base b) (Some (2, psk')) = Some i0 /\
    hs_write i0 [] = Some (i1, m1) /\
    build_responder NOISE_PSK_PATTERN b (Some (2, psk)) = Some r0 /\
    hs_read r0 m1 = Some (r1, []) /\
    hs_write r1 [] = Some (r2, m2) /\ into_transport_mode r2 = Some tr /\
    forall p, Z.of_nat (length p) <= 65519 -> exists tr' c, ts_write tr p = Some (tr', c);
}.

Section stranger.
Context `{RatchetPrims, Ed25519, !KeyConv, SnowLib, !PskLaws, LinkBase64, HexCodec, JsonCodec, SqlOrder,
  !Serde SigningKeyDelegation, !Serde (list string), !Wire LinkBundleData}.

(** While a session is pending, anybody who knows the public key of the node
    but not the secret has a device registered and announced and uses the
    session up, so that the right device finds none. *)
Theorem link_without_secret (now : Z) (name : Z -> string) (me : LinkIdentity) (session : PendingLink)
    (stranger guess : bytes) (d : Db)
    (Htime : now <= pl_expires_at session)
    (Hlog : is_Some (short_id (pk_to_string (sk_public (sk_from_bytes
              (derive_transport_key (li_master_secret me) (next_device_index d)))))))
    (Hsize : Z.of_nat (length (to_vec (session_bundle me session d))) <= 65519) :
  exists initiator noise_init reply announcement,
    noise_psk_initiate stranger (x25519_base (pl_x25519_private session)) guess = Ok (initiator, noise_init) /\
    handle_link_request now name me (Some session) noise_init =
      (None, serve_link now name me (Some session) noise_init) /\
    serve_link now name me (Some session) noise_init d =
      Done (Ok (reply, announcement), link_stored now name me d, ["device-link-progress"%string]).
Proof.
  destruct (noise_psk_late stranger (pl_x25519_private session) (pl_psk session) guess) as
    (i0 & i1 & m1 & r0 & r1 & r2 & m2 & tr & B1 & W1 & B2 & R1 & W2 & T2 & Hw).
  destruct (Hw (to_vec (session_bundle me session d)) Hsize) as (tr' & c & Hc).
  exists i1, m1. eexists _, _. split; [|split; [reflexivity|]].
  - unfold noise_psk_initiate. rewrite B1. cbn. by rewrite W1.
  - unfold serve_link. rewrite run_try_lift. cbn [take_link_session].
    rewrite (proj2 (Z.ltb_ge _ _)) by lia. rewrite run_try_lift.
    assert (noise_psk_respond (pl_x25519_private session) (pl_psk session) m1 = Ok (tr, m2)) as ->.
    { unfold noise_psk_respond. rewrite B2. cbn. rewrite R1. cbn. rewrite W2. cbn. by rewrite T2. }
    rewrite run_get, run_try_lift. fold (session_bundle me session d).
    assert (noise_transport_encrypt tr (to_vec (session_bundle me session d)) = Ok (tr', c)) as -> by
      (unfold noise_transport_encrypt; by rewrite Hc).
    rewrite run_emit, run_modify, run_log. destruct Hlog as [x ->].
    rewrite run_get, run_lift. reflexivity.
Qed.
End stranger.

Section fails.
Context `{RatchetPrims, Ed25519, !Ed25519Laws, !KeyConv, SnowLib, !LinkLaws, LinkBase64, !LinkBase64Laws,
  HexCodec, JsonCodec, SqlOrder, !Serde SigningKeyDelegation, !Serde (list string),
  !Wire LinkBundleData, !WireLaws LinkBundleData}.

(** On the first device, a session is started and its code scanned in time
    by a new device, over a network that delivers: the new device receives
    exactly the bundle and imports it, under the identity it had before, and
    the command fails all the same, with no key written, because the keys are
    encoded with padding and decoded without. *)
Theorem device_link_fails (t0 t1 t2 : Z) (psk : bytes) (name : Z -> string) (me you : LinkIdentity)
    (transfer : bool) (d d_new : Db)
    (Hpsk : length psk = 32%nat) (Htime : t1 <= t0 + 60000)
    (Hkey : length (li_signing_secret me) = 32%nat)
    (Hnode : li_transport_node_id me =
       pk_to_string (sk_public (sk_from_bytes (derive_transport_key (li_master_secret me) 0))))
    (Hlog : is_Some (short_id (pk_to_string (sk_public (sk_from_bytes
              (derive_transport_key (li_master_secret me) (next_device_index d)))))))
    (Hsize : Z.of_nat (length (to_vec (session_bundle me (start_link_session t0 psk me transfer).1 d))) <= 65519) :
  let '(session, qr) := start_link_session t0 psk me transfer in
  let bundle := session_bundle me session d in
  exists initiator noise_init reply announcement d' ev,
    link_initiate you qr = Ok (initiator, noise_init) /\
    handle_link_request t1 name me (Some session) noise_init =
      (None, serve_link t1 name me (Some session) noise_init) /\
    serve_link t1 name me (Some session) noise_init d = Done (Ok (reply, announcement), d', ev) /\
    link_complete t2 you initiator reply d_new =
      (import_link_bundle t2 (li_master_pubkey you) bundle d_new, [], Err (Other "invalid base64")).
Proof.
  unfold start_link_session in *. cbn [fst] in Hsize.
  set (session := {| pl_psk := psk; pl_x25519_private := _; pl_expires_at := _; pl_transfer_master_key := _ |}) in *.
  set (bundle := session_bundle me session d) in *.
  set (a := ed25519_secret_to_x25519 (derive_transport_key (li_master_secret you) 0)).
  set (b := ed25519_secret_to_x25519 (derive_transport_key (li_master_secret me) 0)).
  destruct (noise_psk_agrees a b psk) as
    (i0 & i1 & i2 & r0 & r1 & r2 & m1 & m2 & ti & tr & B1 & W1 & B2 & R1 & W2 & R2 & T1 & T2 & Hch).
  destruct (Hch (to_vec bundle) Hsize) as (tr' & c & ti' & Hw & Hr).
  exists i1, m1, (RespLinkBundle m2 c). eexists _, _, _. split; [|split; [reflexivity|split]].
  - unfold link_initiate. cbn [qr_secret qr_node_id]. rewrite b64_url_roundtrip. cbn. rewrite Hpsk. cbn.
    rewrite Hnode, pk_parse_to_string. cbn. rewrite montgomery_agrees. cbn.
    unfold noise_psk_initiate. fold a b. rewrite B1. cbn. by rewrite W1.
  - unfold serve_link. rewrite run_try_lift. cbn [take_link_session pl_expires_at session].
    rewrite (proj2 (Z.ltb_ge _ _)) by (unfold LINK_SESSION_TTL_MS; lia). rewrite run_try_lift.
    assert (noise_psk_respond (pl_x25519_private session) (pl_psk session) m1 = Ok (tr, m2)) as ->.
    { unfold noise_psk_respond. cbn [pl_x25519_private pl_psk session]. fold b.
      rewrite B2. cbn. rewrite R1. cbn. rewrite W2. cbn. by rewrite T2. }
    rewrite run_get, run_try_lift. fold (session_bundle me session d). fold bundle.
    assert (noise_transport_encrypt tr (to_vec bundle) = Ok (tr', c)) as -> by
      (unfold noise_transport_encrypt; by rewrite Hw).
    rewrite run_emit, run_modify, run_log. destruct Hlog as [x ->].
    rewrite run_get, run_lift. reflexivity.
  - unfold link_complete. cbn [mbind result_bind]. unfold noise_psk_complete_initiator. rewrite R2. cbn.
    rewrite T1. cbn. unfold noise_transport_decrypt. rewrite Hr. cbn. rewrite from_to_vec.
    unfold link_files, bundle, session_bundle, export_link_bundle at 1. cbn [lb_signing_secret_key].
    rewrite b64_padding_rejected by (rewrite Hkey; by vm_compute). done.
Qed.
End fails.

(** ** Witnesses *)

#[export] Instance SocialGraphEntry_eq_dec : EqDecision SocialGraphEntry.
Proof. solve_decision. Defined.
#[export] Instance SocialGraphEntry_countable : Countable SocialGraphEntry.
Proof.
  refine (inj_countable' (fun e => (sg_pubkey e, sg_followed_at e, sg_first_seen e, sg_last_seen e,
      sg_is_online e))
    (fun '(a, b, c, d, e) => {| sg_pubkey := a; sg_followed_at := b; sg_first_seen := c;
      sg_last_seen := d; sg_is_online := e |}) _). by intros [].
Defined.
#[export] Instance LinkBundleData_eq_dec : EqDecision LinkBundleData.
Proof. solve_decision. Defined.
#[export] Instance LinkBundleData_countable : Countable LinkBundleData.
Proof.
  refine (inj_countable' (fun b => (lb_signing_secret_key b, lb_dm_secret_key b, lb_delegation b,
      lb_transport_secret_key b, lb_device_index b, lb_master_secret_key b, lb_profile b, lb_follows b,
      lb_bookmarks b, lb_blocked_users b, lb_muted_users b, lb_ratchet_sessions b))
    (fun '(a, b, c, d, e, f, g, h, i, j, k, l) => {| lb_signing_secret_key := a; lb_dm_secret_key := b;
      lb_delegation := c; lb_transport_secret_key := d; lb_device_index := e;
      lb_master_secret_key := f; lb_profile := g; lb_follows := h; lb_bookmarks := i;
      lb_blocked_users := j; lb_muted_users := k; lb_ratchet_sessions := l |}) _). by intros [].
Defined.
#[export] Instance wire_bundle : Wire LinkBundleData := wire_countable _.
#[export] Instance wire_bundle_laws : WireLaws LinkBundleData.
Proof. apply wire_countable_laws. Qed.

(** Keys are the texts of their bytes. *)
#[export] Instance toy_keys : KeyConv := {
  sha512 b := b;
  sk_from_bytes b := pos_text (encode b);
  pk_to_montgomery pk := b ← decode (text_pos pk); Some (x25519_base (clamp_x25519 (take 32 b)));
}.
#[export] Instance toy_link_laws : LinkLaws.
Proof.
  split.
  - intros s. cbn. by rewrite text_pos_text, decode_encode.
  - intros a b psk. exists {| th_initiator := true; th_private := a; th_remote := Some (x25519_base b) |}.
    eexists _, _, {| th_initiator := false; th_private := b; th_remote := None |}, _, _, _, _, tt, tt.
    split_and!; try reflexivity. intros p _. by exists tt, p, tt.
Qed.

#[export] Instance toy_link_base64 : LinkBase64 := {
  b64_standard_encode b :=
    if (length b mod 3 =? 0)%nat then String (Ascii.ascii_of_N 117) (pos_text (encode b)) else String (Ascii.ascii_of_N 61) (pos_text (encode b));
  b64_url_encode b := String (Ascii.ascii_of_N 117) (pos_text (encode b));
  b64_url_decode s := match s with String a t => if (Ascii.N_of_ascii a =? 117)%N then decode (text_pos t) else None | _ => None end;
}.
#[export] Instance toy_link_base64_laws : LinkBase64Laws.
Proof.
  split; intros b.
  - cbn. by rewrite text_pos_text, decode_encode.
  - intros Hb. cbn [b64_standard_encode b64_url_decode toy_link_base64]. by rewrite (proj2 (Nat.eqb_neq _ _)).
Qed.

#[export] Instance toy_psk_laws : PskLaws.
Proof.
  split. intros a b psk psk'. exists {| th_initiator := true; th_private := a; th_remote := Some (x25519_base b) |}.
  eexists _, _, {| th_initiator := false; th_private := b; th_remote := None |}, _, _, _, tt.
  split_and!; try reflexivity. intros p _. by exists tt, p.
Qed.

Definition link_identity (master signing : Z) (node : string) : LinkIdentity :=
  {| li_master_secret := replicate 32 master; li_master_pubkey := "kmaster";
     li_signing_secret := replicate 32 signing; li_dm_secret := replicate 32 3;
     li_delegation := sign_delegation ("m"%string : @SecretKey toy_ed25519) ("s"%string : @PublicKey toy_ed25519) 0 "dm" 0 1;
     li_transport_node_id := node |}.
Definition first_device : LinkIdentity :=
  link_identity 1 2 (pk_to_string (sk_public (sk_from_bytes (derive_transport_key (replicate 32 1) 0)))).
Definition new_device : LinkIdentity := link_identity 7 8 "new".
Definition device_label (i : Z) : string := "Device".

Lemma device_link_fails_witness :
  exists initiator noise_init reply announcement d' ev files d2,
    link_initiate new_device (start_link_session 100 (replicate 32 9) first_device false).2 = Ok (initiator, noise_init) /\
    serve_link 200 device_label first_device (Some (start_link_session 100 (replicate 32 9) first_device false).1)
      noise_init empty_db = Done (Ok (reply, announcement), d', ev) /\
    link_complete 300 new_device initiator reply empty_db = (d2, files, Err (Other "invalid base64")).
Proof.
  pose proof (device_link_fails 100 200 300 (replicate 32 9) device_label first_device new_device false
    empty_db empty_db) as H.
  unshelve epose proof (H _ _ _ _ _ _) as H'; [reflexivity|lia|reflexivity|reflexivity|vm_compute; by eexists|
    cbn [to_vec wire_bundle wire_countable length]; lia|].
  destruct (start_link_session 100 (replicate 32 9) first_device false) as [session qr]. cbn [fst snd].
  destruct H' as (initiator & noise_init & reply & announcement & d' & ev & E1 & _ & E2 & E3).
  exists initiator, noise_init, reply, announcement, d', ev. eexists _, _.
  split; [exact E1|]. split; [exact E2|exact E3].
Defined.

(** The stranger guesses zeros. *)
Lemma link_without_secret_witness :
  exists initiator noise_init reply announcement d' ev,
    noise_psk_initiate [4] (x25519_base (pl_x25519_private (start_link_session 100 (replicate 32 9) first_device false).1))
      (replicate 32 0) = Ok (initiator, noise_init) /\
    serve_link 200 device_label first_device (Some (start_link_session 100 (replicate 32 9) first_device false).1)
      noise_init empty_db = Done (Ok (reply, announcement), d', ev) /\ size (linked_devices d') = 1%nat.
Proof.
  pose proof (link_without_secret 200 device_label first_device
    (start_link_session 100 (replicate 32 9) first_device false).1 [4] (replicate 32 0) empty_db) as H.
  unshelve epose proof (H _ _ _) as (initiator & noise_init & reply & announcement & E1 & _ & E2);
    [vm_compute; discriminate|vm_compute; by eexists|cbn [to_vec wire_bundle wire_countable length]; lia|].
  eexists _, _, _, _, _, _. split; [exact E1|]. split; [exact E2|vm_compute; reflexivity].
Defined.

(** A request without a session. *)
Lemma link_session_guard_witness :
  (serve_link 1 device_label first_device None [1] empty_db) = Done (Err (Other "no pending link session"), empty_db, []) /\
  (handle_link_request 1 device_label first_device None [1]).1 = None.
Proof.
  pose proof (link_session_guard 1 device_label first_device None [1] empty_db empty_db
    (Err (Other "no pending link session")) []) as H.
  destruct (handle_link_request 1 device_label first_device None [1]) as [pending' serve] eqn:E.
  destruct H as [H _]. split; [vm_compute; reflexivity|exact H].
Defined.
