(* ===== verification/Accept.v ===== *)
(** * The connections of the peer protocol

    Model of [PeerHandler::accept] of [src-tauri/src/peer/mod.rs]: the check of
    the blocked peers, the first request on a connection, and its dispatch to
    the handlers of [Sync.v], [Peer.v], [Link.v] and [DeviceSync.v].  A
    connection is what it carries: the request, and what the remote sends on the
    second stream.  The theorem is about whatever a remote peer sends: which rows
    can change, and what entitles it to change them. *)

From stdpp Require Import countable.
From S2P Require Import Prelude Types Ratchet Signing Concrete Validation Store ConcreteStore Social Moderation Posts Peers Framing ConcreteWire Handler Sync DeviceSync DeviceSyncTheorems Noise ConcreteDm FollowRequests GossipTheorems Peer PeerTheorems Link LinkTheorems.

Local Open Scope Z_scope.

(** ** protocol.rs *)

Inductive PeerRequest : Type :=
| ReqSync (req : SyncRequest)
| ReqPush (msg : PushMessage)
| ReqFollowRequest (req : FollowRequest)
| ReqIdentityRequest
| ReqFollowsListRequest
| ReqFollowersListRequest
| ReqLinkRequest (noise_init : bytes)
| ReqDeviceSyncRequest (req : DeviceSyncRequest).

(** What goes back, with what is broadcast after a link. *)
Inductive PeerAnswer : Type :=
| AnsSync (summary stream : bytes)
| AnsPush (ack : PushAck)
| AnsFollow (response : FollowResponse)
| AnsIdentity (identity : IdentityResponse)
| AnsFollows (l : FollowsListResponse)
| AnsFollowers (l : FollowersListResponse)
| AnsLink (bundle : PeerResponse) (announcement : LinkedDevicesAnnouncement)
| AnsDeviceSync (accepted : DeviceSyncAccepted) (data : bytes).

Record PeerConnection : Type := {
  cn_remote : string;
  cn_request : bytes;
  cn_second : bytes;
}.

(** The fields of the handler; the stage is what [get_active_announcement] of
    the stage actor answers. *)
Record PeerHandler : Type := {
  ph_identity : PeerIdentity;
  ph_link : LinkIdentity;
  ph_preferences : Preferences;
  ph_stage : option StageAnnouncement;
  ph_pending_link : option PendingLink;
}.

Section accept.
Context `{RatchetPrims, Ed25519, !KeyConv, SnowLib, LinkBase64, HexCodec, JsonCodec, Sha, SqlOrder,
  !Serde SigningKeyDelegation, !Serde (list string), !Serde (list MediaAttachment),
  !Wire LinkBundleData, !Wire PeerRequest, !Wire SyncSummary, !Wire SyncFrame, !Wire (list string),
  !Wire DeviceSyncFrame}.

(** [recv.read_to_end(10_000_000)] and the parser. *)
Definition read_request (req_bytes : bytes) : result AppError PeerRequest :=
  _ ← bail_if (10000000 <? Z.of_nat (length req_bytes)) (Other "too long");
  from_slice req_bytes.

(** The two handlers that are functions of the database, as handlers. *)
Definition serve_sync (h : PeerHandler) (remote_str : string) (req : SyncRequest) (ids : bytes)
    : fallible PeerAnswer := fun d =>
  match handle_sync d (pi_master_pubkey (ph_identity h)) remote_str req (ph_stage h) ids with
  | Some r => Done ('(summary, stream) ← r; Ok (AnsSync summary stream), d, [])
  | None => Panicked d []
  end.
Definition serve_device_sync (now : Z) (h : PeerHandler) (req : DeviceSyncRequest) (incoming : bytes)
    : fallible PeerAnswer := fun d =>
  let me := pi_master_pubkey (ph_identity h) in
  let signing_secret := sk_from_bytes (li_signing_secret (ph_link h)) in
  match answer_device_sync d me signing_secret req with
  | Err e => Done (Err e, d, [])
  | Ok (accepted, data) =>
      let '(d', r) := handle_device_sync now d me signing_secret req incoming in
      Done (_ ← r; Ok (AnsDeviceSync accepted data), d', [])
  end.

(** An answer of a handler. *)
Definition answers {A} (f : A -> PeerAnswer) (m : fallible A) : fallible PeerAnswer :=
  try_bind m (fun a => lift (Ok (f a))).

(** The [match req]: the pending link session afterwards, and the handler.
    [name] is the text of [Device n]. *)
Definition dispatch (now : Z) (name : Z -> string) (h : PeerHandler) (conn : PeerConnection)
    (req : PeerRequest) : option PendingLink * fallible PeerAnswer :=
  let me := pi_master_pubkey (ph_identity h) in
  let remote := cn_remote conn in
  let stays (m : fallible PeerAnswer) := (ph_pending_link h, m) in
  match req with
  | ReqSync req => stays (serve_sync h remote req (cn_second conn))
  | ReqPush msg => stays (answers AnsPush (handle_push now me remote msg))
  | ReqFollowRequest req => stays (answers AnsFollow (handle_follow_request now (ph_identity h) remote req))
  | ReqIdentityRequest =>
      stays (d ← get_db; lift (Ok (AnsIdentity (identity_response (ph_identity h) d))))
  | ReqFollowsListRequest =>
      stays (d ← get_db; lift (Ok (AnsFollows (handle_follows_list_request (ph_preferences h) d me remote))))
  | ReqFollowersListRequest =>
      stays (d ← get_db;
             lift (Ok (AnsFollowers (handle_followers_list_request (ph_preferences h) d me remote))))
  | ReqLinkRequest noise_init =>
      let '(pending, m) := handle_link_request now name (ph_link h) (ph_pending_link h) noise_init in
      (pending, answers (fun '(bundle, announcement) => AnsLink bundle announcement) m)
  | ReqDeviceSyncRequest req => stays (serve_device_sync now h req (cn_second conn))
  end.

(** [accept]: the pending link session and the end of the task. *)
Definition accept (now : Z) (name : Z -> string) (h : PeerHandler) (conn : PeerConnection) (d : Db)
    : option PendingLink * outcome (result AppError PeerAnswer) :=
  let remote_pubkey := resolve_peer d (cn_remote conn) in
  if is_blocked d remote_pubkey then
    (ph_pending_link h, (log_short remote_pubkey ≫= fun _ => lift (Err (Other "blocked"))) d)
  else match read_request (cn_request conn) with
  | Err e => (ph_pending_link h, Done (Err e, d, []))
  | Ok req =>
      match short_id (cn_remote conn) with
      | None => (ph_pending_link h, Panicked d [])
      | Some _ => let '(pending, m) := dispatch now name h conn req in (pending, m d)
      end
  end.
End accept.

(** ** What a connection can change *)

(** What no connection changes: stored posts and interactions, messages, the
    outbox, the cached lists of other users, and who is an approved follower. *)
Record preserved (d d' : Db) : Prop := {
  pr_posts : posts d ⊆ posts d';
  pr_interactions : interactions d ⊆ interactions d';
  pr_messages : dm_messages d' = dm_messages d;
  pr_conversations : dm_conversations d' = dm_conversations d;
  pr_outbox : dm_outbox d' = dm_outbox d;
  pr_approved pk :
    request_status d' pk = Some "approved"%string <-> request_status d pk = Some "approved"%string;
}.

#[export] Instance preserved_refl : Reflexive preserved.
Proof. by split. Qed.

(** Rows kept one by one are kept together. *)
Lemma rows_kept {K R} `{Countable K} (t t' : gmap K R) :
  (forall k, is_Some (t !! k) -> t' !! k = t !! k) -> t ⊆ t'.
Proof. intros Hk. apply map_subseteq_spec. intros k r Hr. rewrite Hk; [done|]. by eexists. Qed.

Section accept.
Context `{RatchetPrims, Ed25519, !KeyConv, SnowLib, LinkBase64, HexCodec, JsonCodec, Sha, SqlOrder,
  !SqlOrderLaws, !Serde SigningKeyDelegation, !Serde (list string), !SerdeLaws (list string),
  !Serde (list MediaAttachment), !Wire LinkBundleData, !Wire PeerRequest, !Wire SyncSummary,
  !Wire SyncFrame, !Wire (list string), !Wire DeviceSyncFrame, !Wire DeviceSyncAccepted}.

(** What a request that changed the database is entitled to, and how. *)
Definition entitled (now : Z) (name : Z -> string) (h : PeerHandler) (remote : string) (req : PeerRequest) (d d' : Db) : Prop :=
  let me := pi_master_pubkey (ph_identity h) in
  match req with
  | ReqPush msg =>
      push_accepted d me remote msg /\
      pushed now (resolve_peer d remote) (pm_posts msg) (pm_interactions msg) (pm_profile msg) d d'
  | ReqFollowRequest req => genuine_request req /\ request_kept (fr_requester req) d d'
  | ReqLinkRequest noise_init =>
      link_admitted now (ph_pending_link h) noise_init /\ d' = link_stored now name (ph_link h) d
  | ReqDeviceSyncRequest req =>
      is_ok (verify_device_sync_challenge (dr_challenge req) (dr_challenge_sig req)
               (sk_public (sk_from_bytes (li_signing_secret (ph_link h))))) = true /\
      only_own me d d'
  | ReqSync _ | ReqIdentityRequest | ReqFollowsListRequest | ReqFollowersListRequest => False
  end.

Lemma end_db_answers {A} (f : A -> PeerAnswer) m d : end_db (answers f m d) = end_db (m d).
Proof.
  unfold answers. rewrite run_try. destruct (m d) as [[[[a|e] d1] ev]|]; [|done..]. cbn. done.
Qed.

Lemma serve_device_sync_contained now name h req incoming d :
  let d' := end_db (serve_device_sync now h req incoming d) in
  d' = d \/ entitled now name h "" (ReqDeviceSyncRequest req) d d'.
Proof.
  cbn [entitled]. unfold serve_device_sync. set (me := pi_master_pubkey _). set (sk := sk_from_bytes _).
  destruct (answer_device_sync d me sk req) as [[accepted data]|e] eqn:Ea; [|by left].
  pose proof (own_read_deltas me now incoming d) as Ho.
  unfold handle_device_sync. rewrite Ea. destruct (read_deltas now me incoming d) as [d' r]. right.
  split; [|exact Ho]. unfold answer_device_sync in Ea. by destruct (is_ok _).
Qed.

Lemma dispatch_contained now name h conn req d :
  let '(pending, m) := dispatch now name h conn req in
  let d' := end_db (m d) in
  (d' = d \/ entitled now name h (cn_remote conn) req d d') /\
  (pending = ph_pending_link h \/ exists noise_init, req = ReqLinkRequest noise_init /\ pending = None).
Proof.
  destruct req as [req|msg|req| | | |init|req]; cbn [dispatch handle_link_request];
    (split; [|by eauto]); rewrite ?end_db_answers; try (by left).
  - left. unfold serve_sync. by destruct (handle_sync _ _ _ _ _ _).
  - apply push_contained.
  - apply follow_request_contained.
  - apply serve_link_contained.
  - exact (serve_device_sync_contained now name h req (cn_second conn) d).
Qed.

Lemma entitled_preserved now name h remote req d d' : entitled now name h remote req d d' -> preserved d d'.
Proof.
  destruct req as [req|msg|req| | | |init|req]; cbn [entitled]; try done.
  - intros [_ [[] _ Hp Hn _ _ _]]. split; try done. intros k. unfold request_status. by rewrite iso_requests.
  - intros [_ [Ha _ _ Hp Hn _ (Hm & Hc & Ho & _)]]. split; try done; by rewrite ?Hp, ?Hn.
  - intros [_ ->]. by split.
  - intros [_ [Hp Hn _ _ Hr]]. destruct_and! Hr. split; try done.
    + apply rows_kept. auto.
    + apply rows_kept. auto.
    + intros k. unfold request_status. by match goal with E : follow_requests d' = _ |- _ => rewrite E end.
Qed.

End accept.

(** ** A connection that pushes *)

(** A parser that knows one request. *)
#[local] Instance one_request : Wire PeerRequest := {
  to_vec _ := [1];
  from_slice b := if decide (b = [1]) then Ok (ReqPush carol_push) else Err (Other "json");
}.
Definition my_handler : PeerHandler :=
  {| ph_identity := me; ph_link := first_device; ph_preferences := ∅; ph_stage := None;
     ph_pending_link := Some (start_link_session 100 (replicate 32 9) first_device false).1 |}.
Definition carol_connects : PeerConnection :=
  {| cn_remote := "node-c"; cn_request := [1]; cn_second := [] |}.
Definition carol_accepted := accept 1000 device_label my_handler carol_connects carol_follows.

