(* ===== verification/OutboxTheorems.v ===== *)
(** * The outbox of direct messages

    What one flush does to every queued message, and that a flush at a time when
    every peer can be reached empties the outbox. *)

From S2P Require Import Prelude Types Ratchet Signing Concrete Validation Store ConcreteStore Messaging Peers Handler Framing Noise Dm ConcreteDm.

Local Open Scope Z_scope.

Section outbox.
Context `{SqlOrder, !SqlOrderLaws, !Serde (list string), !Serde EncryptedEnvelope}.

(** The queued row can be sent: it decodes, the peer has an address, the peer
    acknowledges. *)
Definition deliverable (net : Network) (d : Db) (r : OutboxRow) : bool :=
  match from_json (ob_envelope_json r), get_peer_transport_node_ids d (ob_peer_pubkey r) with
  | Ok envelope, Ok (node :: _) => is_ok (nw_send net node envelope)
  | _, _ => false
  end.

Definition log_safe (r : string * OutboxRow) : Prop :=
  is_Some (short_id r.1) /\ is_Some (short_id (ob_peer_pubkey r.2)).

Definition entry_of (kr : string * OutboxRow) : string * string * string * string :=
  (kr.1, ob_peer_pubkey kr.2, ob_envelope_json kr.2, ob_message_id kr.2).

(** What trying one row does to the database [d]; [d0] is the one the flush
    started from. *)
Definition try_row (net : Network) (d0 d : Db) (kr : string * OutboxRow) : Db :=
  if deliverable net d0 kr.2
  then mark_dm_delivered (ob_message_id kr.2) (remove_outbox_message kr.1 d) else d.

Definition delivers (net : Network) (d0 : Db) (id : string) (kr : string * OutboxRow) : bool :=
  deliverable net d0 kr.2 && bool_decide (ob_message_id kr.2 = id).

Lemma try_row_peers net d0 d kr : peer_delegations (try_row net d0 d kr) = peer_delegations d.
Proof. unfold try_row. by destruct (deliverable _ _ _). Qed.

Lemma try_send_deliverable net d r :
  is_Some (short_id (ob_peer_pubkey r)) ->
  match from_json (ob_envelope_json r) with
  | Ok envelope => exists res, try_send_envelope net (ob_peer_pubkey r) envelope d = Done (res, d, []) /\
                     is_ok res = deliverable net d r
  | Err _ => deliverable net d r = false
  end.
Proof.
  intros [x Hx]. unfold deliverable. destruct (from_json _) as [envelope|e]; [|done].
  unfold try_send_envelope. rewrite run_get, run_try_lift.
  destruct (get_peer_transport_node_ids d _) as [nodes|e']; [|by eexists].
  destruct nodes as [|node ?]; cbn [head some_or_log]; rewrite run_try.
  - rewrite run_log, Hx, run_lift. by eexists.
  - rewrite run_lift, run_lift. by eexists.
Qed.

Lemma deliverable_peers net d d0 r :
  peer_delegations d = peer_delegations d0 -> deliverable net d r = deliverable net d0 r.
Proof. intros E. unfold deliverable, get_peer_transport_node_ids. by rewrite E. Qed.

Lemma flush_entries_rows net d0 krs d :
  peer_delegations d = peer_delegations d0 -> Forall log_safe krs ->
  exists ev, flush_entries net (entry_of <$> krs) d = Done (tt, foldl (try_row net d0) d krs, ev).
Proof.
  intros Hd Hsafe. revert d Hd. induction Hsafe as [|[id r] krs [[x Hid] Hpk] _ IH]; intros d Hd.
  { by eexists. }
  destruct (IH (try_row net d0 d (id, r))) as [ev E]; [by rewrite try_row_peers|].
  pose proof (try_send_deliverable net d r Hpk) as Hsend. destruct Hpk as [y Hpk].
  rewrite (deliverable_peers _ _ _ _ Hd) in Hsend.
  change (foldl _ d (_ :: krs)) with (foldl (try_row net d0) (try_row net d0 d (id, r)) krs).
  assert (Ed1 : try_row net d0 d (id, r) =
    if deliverable net d0 r
    then mark_dm_delivered (ob_message_id r) (remove_outbox_message id d) else d) by done.
  revert E Ed1. generalize (try_row net d0 d (id, r)) as d1. intros d1 E Ed1. cbn [fst snd] in Hid, Hpk.
  cbn [fmap list_fmap entry_of flush_entries fst snd]. rewrite run_bind.
  destruct (from_json _) as [envelope|e].
  2: { unfold log_short. rewrite Hid. rewrite Hsend in Ed1. subst d1. rewrite E. by eexists. }
  destruct Hsend as (res & Hsend & Hres). rewrite run_bind, Hsend. rewrite <-Hres in Ed1.
  destruct res as [u|e]; cbn [is_ok] in Ed1; subst d1.
  - rewrite run_log, Hpk, run_modify. unfold mark_delivered. rewrite run_modify, after_nil.
    unfold emit. rewrite E. by eexists.
  - rewrite after_nil. unfold mret, handler_ret. rewrite E. by eexists.
Qed.

Lemma try_rows_outbox net d0 krs d id :
  dm_outbox (foldl (try_row net d0) d krs) !! id =
  (if existsb (fun kr => deliverable net d0 kr.2 && bool_decide (kr.1 = id)) krs
   then None else dm_outbox d !! id).
Proof.
  revert d. induction krs as [|kr krs IH]; intros d; [done|].
  cbn [foldl existsb]. rewrite IH. destruct (existsb _ krs); [by rewrite orb_true_r|].
  rewrite orb_false_r. unfold try_row. destruct (deliverable _ _ _); [|done]. cbn.
  case_bool_decide as E; [by rewrite E, lookup_delete_eq|by rewrite lookup_delete_ne].
Qed.

Lemma try_rows_messages net d0 krs d id :
  dm_messages (foldl (try_row net d0) d krs) !! id =
  (if existsb (delivers net d0 id) krs then fun r => set_mw_flags (mw_read r) true r else fun r => r)
    <$> dm_messages d !! id.
Proof.
  revert d. induction krs as [|kr krs IH]; intros d; [by rewrite option_fmap_id|].
  cbn [foldl existsb]. rewrite IH. unfold try_row at 1, delivers at 2.
  destruct (deliverable _ _ _); [|done]. cbn [andb dm_messages mark_dm_delivered remove_outbox_message set_dm_messages set_dm_outbox].
  rewrite lookup_sql_update. cbn [fst].
  case_bool_decide as E; case_bool_decide as E'; try congruence; cbn [orb].
  all: destruct (dm_messages d !! id) as [[]|], (existsb _ krs); done.
Qed.
(** A row the flush tried: its key determines it. *)
Lemma existsb_row net d id :
  existsb (fun kr => deliverable net d kr.2 && bool_decide (kr.1 = id))
    (sql_select (fun _ => true) (fun kr => ob_created_at kr.2) (dm_outbox d)) =
  (match dm_outbox d !! id with Some r => deliverable net d r | None => false end).
Proof.
  apply Bool.eq_iff_eq_true. rewrite existsb_exists. split.
  - intros ([k r] & Hin%list_elem_of_In & [Hr Hk%bool_decide_eq_true]%andb_prop). cbn in Hr, Hk. subst k.
    apply elem_of_sql_select in Hin as [-> _]. done.
  - destruct (dm_outbox d !! id) as [r|] eqn:E; [|done]. intros Hr. exists (id, r). split.
    + apply list_elem_of_In, elem_of_sql_select. done.
    + cbn [fst snd]. by rewrite Hr, bool_decide_true.
Qed.

(** C26: the periodic flush terminates without a panic and sorts the queue by
    what the network lets through: a row that decodes and whose peer has an
    address and acknowledges leaves the outbox and its message is marked
    delivered; every other row stays, every other message is as it was; and
    once every queued row can be delivered one flush empties the outbox. *)
Theorem outbox_drains net d :
  map_Forall (fun id r => log_safe (id, r)) (dm_outbox d) ->
  exists d' ev, flush_all_outbox net d = Done (tt, d', ev) /\
    (forall id, dm_outbox d' !! id =
       match dm_outbox d !! id with
       | Some r => if deliverable net d r then None else Some r
       | None => None
       end) /\
    (forall id m, dm_messages d !! id = Some m ->
       (forall k r, dm_outbox d !! k = Some r -> ob_message_id r = id -> deliverable net d r = true ->
          mw_delivered <$> dm_messages d' !! id = Some true) /\
       ((forall k r, dm_outbox d !! k = Some r -> ob_message_id r = id -> deliverable net d r = false) ->
          dm_messages d' !! id = Some m)) /\
    (map_Forall (fun _ r => deliverable net d r = true) (dm_outbox d) -> dm_outbox d' = ∅).
Proof.
  intros Hsafe. set (krs := sql_select (fun _ => true) (fun kr => ob_created_at kr.2) (dm_outbox d)).
  assert (forall k r, (k, r) ∈ krs <-> dm_outbox d !! k = Some r) as Hin.
  { intros k r. unfold krs. rewrite elem_of_sql_select. tauto. }
  destruct (flush_entries_rows net d krs d) as [ev E]; [done| |].
  { apply Forall_forall. intros [k r] Hk%Hin. by apply Hsafe. }
  exists (foldl (try_row net d) d krs), ev. split.
  { unfold flush_all_outbox. rewrite run_get. exact E. }
  assert (forall id, dm_outbox (foldl (try_row net d) d krs) !! id =
       match dm_outbox d !! id with
       | Some r => if deliverable net d r then None else Some r | None => None end) as Hout.
  { intros id. rewrite try_rows_outbox, existsb_row. destruct (dm_outbox d !! id); [|done].
    by destruct (deliverable _ _ _). }
  split; [done|]. split.
  - intros id m Hm. rewrite try_rows_messages, Hm. cbn. split.
    + intros k r Hk <- Hr. assert (existsb (delivers net d (ob_message_id r)) krs = true) as ->; [|done].
      apply existsb_exists. exists (k, r). split; [by apply list_elem_of_In, Hin|].
      unfold delivers. cbn [fst snd]. by rewrite Hr, bool_decide_true.
    + intros Hno. destruct (existsb _ krs) eqn:Ex; [|done]. exfalso.
      apply existsb_exists in Ex as ([k r] & Hk%list_elem_of_In%Hin & Hd).
      apply andb_prop in Hd as [Hd Hid%bool_decide_eq_true]. cbn in Hd, Hid.
      by rewrite (Hno k r Hk Hid) in Hd.
  - intros Hall. apply map_eq. intros id. rewrite Hout, lookup_empty.
    destruct (dm_outbox d !! id) as [r|] eqn:Er; [|done]. by rewrite (Hall id r Er).
Qed.
End outbox.

(** ** A flush with one reachable and one unreachable peer *)

Definition queued (message : string) (peer : string) : OutboxRow :=
  {| ob_peer_pubkey := peer;
     ob_envelope_json := to_json {| env_sender := "me";
       env_ratchet_header := {| rw_dh_public := "k"; rw_message_number := 0;
                                rw_previous_chain_length := 0 |};
       env_ciphertext := [] |};
     ob_created_at := 0; ob_message_id := message |}.

Definition unsent (peer : string) : MessageRow :=
  {| mw_conversation_id := peer; mw_from_pubkey := "me"; mw_to_pubkey := peer; mw_content := "hi";
     mw_timestamp := 0; mw_media_json := ""; mw_read := false; mw_delivered := false;
     mw_reply_to := None |}.

Definition address (node : string) : PeerDelegationRow :=
  {| pd_signing_pubkey := ""; pd_dm_pubkey := ""; pd_delegation_json := "";
     pd_transport_node_ids_json := to_json [node]; pd_cached_at := 0 |}.

Definition outbox_db : Db :=
  set_dm_outbox {["o1" := queued "m1" "bob"; "o2" := queued "m2" "carol"]}
    (set_dm_messages {["m1" := unsent "bob"; "m2" := unsent "carol"]}
       (set_peer_delegations {["bob" := address "n1"; "carol" := address "n2"]} empty_db)).

Definition one_up (node : string) : Network :=
  {| nw_handshake _ _ := Err (Other "offline");
     nw_send n _ := if bool_decide (n = node) then Ok tt else Err (Other "offline") |}.

Lemma outbox_log_safe : map_Forall (fun id r => log_safe (id, r)) (dm_outbox outbox_db).
Proof.
  apply map_Forall_insert_2; [split; by eexists|].
  apply map_Forall_insert_2; [split; by eexists|]. apply map_Forall_empty.
Qed.

Lemma outbox_drains_witness :
  exists d' ev, flush_all_outbox (one_up "n1") outbox_db = Done (tt, d', ev) /\
    dm_outbox d' !! "o1" = None /\ is_Some (dm_outbox d' !! "o2") /\
    mw_delivered <$> dm_messages d' !! "m1" = Some true.
Proof.
  destruct (outbox_drains (one_up "n1") outbox_db outbox_log_safe) as (d' & ev & E & Hout & Hmsg & _).
  exists d', ev. split; [exact E|]. split_and!.
  - rewrite Hout. vm_compute. reflexivity.
  - rewrite Hout. vm_compute. by eexists.
  - refine (proj1 (Hmsg "m1" (unsent "bob") _) "o1" (queued "m1" "bob") _ _ _); vm_compute; reflexivity.
Defined.
