(* ===== verification/Server.v ===== *)
(** * The tables of the community server

    Model of [server/src/storage.rs] and of the tables of
    [server/migrations/001_initial.sql].  A table is a finite map from its
    primary key to the record the queries decode; the foreign keys (posts,
    interactions and sync states refer to a registration) are enforced, also for
    [INSERT OR IGNORE].  [now] is the clock.  The full-text index (FTS5) and what
    [NULL] decodes to at a non-optional type are parameters. *)

From S2P Require Import Prelude Text Types Validation Store.

Local Open Scope Z_scope.

(** ** Rows *)

Record Registration : Type := {
  rg_pubkey : string;
  rg_registered_at : Z;
  rg_last_seen : Z;
  rg_display_name : option string;
  rg_bio : option string;
  rg_avatar_hash : option string;
  rg_visibility : string;
  rg_is_active : Z;
  rg_transport_node_id : option string;
  rg_delegation_json : option string;
}.

Record UserInfo : Type := {
  ui_pubkey : string;
  ui_display_name : option string;
  ui_bio : option string;
  ui_avatar_hash : option string;
  ui_visibility : string;
  ui_registered_at : Z;
  ui_post_count : Z;
  ui_latest_post_at : option Z;
  ui_transport_node_id : option string;
}.

Record StoredPost : Type := {
  sp_id : string;
  sp_author : string;
  sp_content : string;
  sp_timestamp : Z;
  sp_media_json : option string;
  sp_reply_to : option string;
  sp_reply_to_author : option string;
  sp_quote_of : option string;
  sp_quote_of_author : option string;
  sp_signature : string;
  sp_indexed_at : Z;
}.

Record StoredInteraction : Type := {
  si_id : string;
  si_author : string;
  si_kind : string;
  si_target_post_id : string;
  si_target_author : string;
  si_timestamp : Z;
  si_signature : string;
  si_indexed_at : Z;
}.

Record PostStats : Type := {
  ps_likes : Z;
  ps_reposts : Z;
  ps_replies : Z;
  ps_quotes : Z;
}.

(** The row of a peer's delegation. *)
Record ServerDelegation : Type := {
  sd_signing_pubkey : string;
  sd_delegation_json : string;
  sd_transport_node_id : option string;
  sd_transport_node_ids_json : string;
  sd_cached_at : Z;
}.

Record ServerAnnouncement : Type := {
  sa_announcement_json : string;
  sa_version : Z;
  sa_cached_at : Z;
}.

Record SyncStateRow : Type := {
  ss_last_synced_at : Z;
  ss_last_post_timestamp : option Z;
  ss_last_interaction_timestamp : option Z;
}.

(** ** The database *)

Record ServerDb : Type := {
  sv_registrations : gmap string Registration;
  sv_posts : gmap (string * string) StoredPost;
  sv_interactions : gmap (string * string) StoredInteraction;
  sv_sync_state : gmap string SyncStateRow;
  sv_delegations : gmap string ServerDelegation;
  sv_announcements : gmap string ServerAnnouncement;
}.

Definition empty_server : ServerDb :=
  {| sv_registrations := ∅; sv_posts := ∅; sv_interactions := ∅; sv_sync_state := ∅;
     sv_delegations := ∅; sv_announcements := ∅ |}.

Definition set_registrations (t : gmap string Registration) (d : ServerDb) : ServerDb :=
  {| sv_registrations := t; sv_posts := sv_posts d; sv_interactions := sv_interactions d;
     sv_sync_state := sv_sync_state d; sv_delegations := sv_delegations d;
     sv_announcements := sv_announcements d |}.
Definition set_server_posts (t : gmap (string * string) StoredPost) (d : ServerDb) : ServerDb :=
  {| sv_registrations := sv_registrations d; sv_posts := t; sv_interactions := sv_interactions d;
     sv_sync_state := sv_sync_state d; sv_delegations := sv_delegations d;
     sv_announcements := sv_announcements d |}.
Definition set_server_interactions (t : gmap (string * string) StoredInteraction) (d : ServerDb)
    : ServerDb :=
  {| sv_registrations := sv_registrations d; sv_posts := sv_posts d; sv_interactions := t;
     sv_sync_state := sv_sync_state d; sv_delegations := sv_delegations d;
     sv_announcements := sv_announcements d |}.
Definition set_sync_state (t : gmap string SyncStateRow) (d : ServerDb) : ServerDb :=
  {| sv_registrations := sv_registrations d; sv_posts := sv_posts d;
     sv_interactions := sv_interactions d; sv_sync_state := t; sv_delegations := sv_delegations d;
     sv_announcements := sv_announcements d |}.
Definition set_server_delegations (t : gmap string ServerDelegation) (d : ServerDb) : ServerDb :=
  {| sv_registrations := sv_registrations d; sv_posts := sv_posts d;
     sv_interactions := sv_interactions d; sv_sync_state := sv_sync_state d; sv_delegations := t;
     sv_announcements := sv_announcements d |}.
Definition set_server_announcements (t : gmap string ServerAnnouncement) (d : ServerDb) : ServerDb :=
  {| sv_registrations := sv_registrations d; sv_posts := sv_posts d;
     sv_interactions := sv_interactions d; sv_sync_state := sv_sync_state d;
     sv_delegations := sv_delegations d; sv_announcements := t |}.

(** [COALESCE(new, old)]. *)
Definition coalesce {A} (new old : option A) : option A :=
  match new with Some a => Some a | None => old end.

(** The foreign key of [key] to a registration. *)
Definition has_registration (d : ServerDb) (key : string) : bool :=
  bool_decide (is_Some (sv_registrations d !! key)).

(** ** Peer delegations *)

Definition cache_peer_delegation (now : Z) (master_pubkey signing_pubkey delegation_json : string)
    (transport_node_id : option string) (d : ServerDb) : ServerDb :=
  set_server_delegations
    (upsert master_pubkey
       {| sd_signing_pubkey := signing_pubkey; sd_delegation_json := delegation_json;
          sd_transport_node_id := transport_node_id; sd_transport_node_ids_json := "[]";
          sd_cached_at := as_i64 now |}
       (fun r => {| sd_signing_pubkey := signing_pubkey; sd_delegation_json := delegation_json;
          sd_transport_node_id := coalesce transport_node_id (sd_transport_node_id r);
          sd_transport_node_ids_json := sd_transport_node_ids_json r;
          sd_cached_at := as_i64 now |})
       (sv_delegations d)) d.

Definition get_peer_signing_pubkey (d : ServerDb) (master_pubkey : string) : option string :=
  sd_signing_pubkey <$> sv_delegations d !! master_pubkey.

Definition get_peer_announcement_version (d : ServerDb) (master_pubkey : string) : option Z :=
  sa_version <$> sv_announcements d !! master_pubkey.

(** The delegation cache first, then an active registration. *)
Definition get_transport_node_id (d : ServerDb) (master_pubkey : string) : option string :=
  match sv_delegations d !! master_pubkey with
  | Some {| sd_transport_node_id := Some node_id |} => Some node_id
  | _ => match sv_registrations d !! master_pubkey with
         | Some r => if rg_is_active r =? 1 then rg_transport_node_id r else None
         | None => None
         end
  end.

(** ** Registrations *)

Section registrations.
Context `{!Serde SigningKeyDelegation, !Serde (list string)}.

Definition cache_peer_device_announcement (now : Z) (master_pubkey announcement_json : string)
    (version : Z) (transport_node_ids : list string) (d : ServerDb) : ServerDb :=
  let d := set_server_announcements
    (<[master_pubkey := {| sa_announcement_json := announcement_json; sa_version := version;
                           sa_cached_at := as_i64 now |}]> (sv_announcements d)) d in
  set_server_delegations
    (sql_update (fun kr => bool_decide (kr.1 = master_pubkey))
       (fun r => {| sd_signing_pubkey := sd_signing_pubkey r;
          sd_delegation_json := sd_delegation_json r;
          sd_transport_node_id := sd_transport_node_id r;
          sd_transport_node_ids_json := to_json transport_node_ids;
          sd_cached_at := sd_cached_at r |}) (sv_delegations d)) d.

Definition register_user (now : Z) (pubkey visibility : string) (profile : option Profile)
    (transport_node_id delegation_json : option string) (d : ServerDb) : ServerDb :=
  let display_name := pr_display_name <$> profile in
  let bio := pr_bio <$> profile in
  let avatar_hash := profile ≫= pr_avatar_hash in
  let d := set_registrations
    (upsert pubkey
       {| rg_pubkey := pubkey; rg_registered_at := as_i64 now; rg_last_seen := as_i64 now;
          rg_display_name := display_name; rg_bio := bio; rg_avatar_hash := avatar_hash;
          rg_visibility := visibility; rg_is_active := 1;
          rg_transport_node_id := transport_node_id; rg_delegation_json := delegation_json |}
       (fun r => {| rg_pubkey := rg_pubkey r; rg_registered_at := rg_registered_at r;
          rg_last_seen := as_i64 now;
          rg_display_name := coalesce display_name (rg_display_name r);
          rg_bio := coalesce bio (rg_bio r);
          rg_avatar_hash := coalesce avatar_hash (rg_avatar_hash r);
          rg_visibility := visibility; rg_is_active := 1;
          rg_transport_node_id := coalesce transport_node_id (rg_transport_node_id r);
          rg_delegation_json := coalesce delegation_json (rg_delegation_json r) |})
       (sv_registrations d)) d in
  match delegation_json, transport_node_id with
  | Some delegation_json, Some transport_node_id =>
      match from_json delegation_json with
      | Ok delegation =>
          cache_peer_delegation now pubkey (dl_signing_pubkey delegation) delegation_json
            (Some transport_node_id) d
      | Err _ => d
      end
  | _, _ => d
  end.
End registrations.

(** [UPDATE registrations SET ... WHERE pubkey = ?1 AND is_active = 1]. *)
Definition active_row (pubkey : string) (kr : string * Registration) : bool :=
  bool_decide (kr.1 = pubkey) && (rg_is_active kr.2 =? 1).

Definition set_rg_visibility (visibility : string) (r : Registration) : Registration :=
  {| rg_pubkey := rg_pubkey r; rg_registered_at := rg_registered_at r;
     rg_last_seen := rg_last_seen r; rg_display_name := rg_display_name r; rg_bio := rg_bio r;
     rg_avatar_hash := rg_avatar_hash r; rg_visibility := visibility;
     rg_is_active := rg_is_active r; rg_transport_node_id := rg_transport_node_id r;
     rg_delegation_json := rg_delegation_json r |}.

(** The three [DELETE]s by author. *)
Definition delete_content (pubkey : string) (d : ServerDb) : ServerDb :=
  set_sync_state (delete pubkey (sv_sync_state d))
    (set_server_posts (sql_delete (fun kr => bool_decide (kr.1.1 = pubkey)) (sv_posts d))
       (set_server_interactions
          (sql_delete (fun kr => bool_decide (kr.1.1 = pubkey)) (sv_interactions d)) d)).

Definition unregister_user (pubkey : string) (d : ServerDb) : ServerDb :=
  let d := delete_content pubkey d in
  set_registrations
    (sql_update (fun kr => bool_decide (kr.1 = pubkey))
       (fun r => {| rg_pubkey := rg_pubkey r; rg_registered_at := rg_registered_at r;
          rg_last_seen := rg_last_seen r; rg_display_name := rg_display_name r;
          rg_bio := rg_bio r; rg_avatar_hash := rg_avatar_hash r;
          rg_visibility := rg_visibility r; rg_is_active := 0;
          rg_transport_node_id := rg_transport_node_id r;
          rg_delegation_json := rg_delegation_json r |}) (sv_registrations d)) d.

Definition get_registration (d : ServerDb) (pubkey : string) : option Registration :=
  r ← sv_registrations d !! pubkey; if rg_is_active r =? 1 then Some r else None.

Definition update_profile (now : Z) (pubkey : string) (profile : Profile) (d : ServerDb)
    : ServerDb * bool :=
  (set_registrations
     (sql_update (active_row pubkey)
        (fun r => {| rg_pubkey := rg_pubkey r; rg_registered_at := rg_registered_at r;
           rg_last_seen := as_i64 now; rg_display_name := Some (pr_display_name profile);
           rg_bio := Some (pr_bio profile); rg_avatar_hash := pr_avatar_hash profile;
           rg_visibility := visibility_to_string (pr_visibility profile);
           rg_is_active := rg_is_active r; rg_transport_node_id := rg_transport_node_id r;
           rg_delegation_json := rg_delegation_json r |}) (sv_registrations d)) d,
   0 <? sql_count (active_row pubkey) (sv_registrations d)).

Definition handle_visibility_change (pubkey : string) (new_visibility : Visibility) (d : ServerDb)
    : ServerDb :=
  match new_visibility with
  | Private => unregister_user pubkey d
  | Listed =>
      let d := delete_content pubkey d in
      set_registrations (sql_update (active_row pubkey) (set_rg_visibility "listed")
                           (sv_registrations d)) d
  | Public =>
      set_registrations (sql_update (active_row pubkey) (set_rg_visibility "public")
                           (sv_registrations d)) d
  end.

Definition registration_count (d : ServerDb) : Z :=
  sql_count (fun kr => rg_is_active kr.2 =? 1) (sv_registrations d).

(** ** Posts and interactions *)

Section content.
Context `{!Serde (list MediaAttachment)}.

Definition stored_post (now : Z) (post : Post) : StoredPost :=
  {| sp_id := post_id post; sp_author := post_author post; sp_content := post_content post;
     sp_timestamp := as_i64 (post_timestamp post);
     sp_media_json := match post_media post with [] => None | m => Some (to_json m) end;
     sp_reply_to := post_reply_to post; sp_reply_to_author := post_reply_to_author post;
     sp_quote_of := post_quote_of post; sp_quote_of_author := post_quote_of_author post;
     sp_signature := post_signature post; sp_indexed_at := as_i64 now |}.

(** [INSERT OR IGNORE] ignores a taken key, but not a missing registration. *)
Definition insert_post (now : Z) (post : Post) (d : ServerDb) : result AppError (ServerDb * bool) :=
  let key := (post_author post, post_id post) in
  if decide (is_Some (sv_posts d !! key)) then Ok (d, false)
  else
    _ ← bail_if (negb (has_registration d (post_author post))) Sqlx;
    Ok (set_server_posts (<[key := stored_post now post]> (sv_posts d)) d, true).
End content.

Definition prune_old_posts (before_ms : Z) (d : ServerDb) : ServerDb * Z :=
  let old (kr : (string * string) * StoredPost) := sp_timestamp kr.2 <? before_ms in
  (set_server_posts (sql_delete old (sv_posts d)) d, sql_count old (sv_posts d)).

Definition delete_post (id author : string) (d : ServerDb) : ServerDb * bool :=
  (set_server_posts (delete (author, id) (sv_posts d)) d,
   bool_decide (is_Some (sv_posts d !! (author, id)))).

Definition get_post (d : ServerDb) (author id : string) : option StoredPost :=
  sv_posts d !! (author, id).

Definition stored_interaction (now : Z) (i : Interaction) : StoredInteraction :=
  {| si_id := in_id i; si_author := in_author i;
     si_kind := match in_kind i with Like => "Like" end;
     si_target_post_id := in_target_post_id i; si_target_author := in_target_author i;
     si_timestamp := as_i64 (in_timestamp i); si_signature := in_signature i;
     si_indexed_at := as_i64 now |}.

Definition insert_interaction (now : Z) (i : Interaction) (d : ServerDb)
    : result AppError (ServerDb * bool) :=
  let key := (in_author i, in_id i) in
  if decide (is_Some (sv_interactions d !! key)) then Ok (d, false)
  else
    _ ← bail_if (negb (has_registration d (in_author i))) Sqlx;
    Ok (set_server_interactions (<[key := stored_interaction now i]> (sv_interactions d)) d, true).

Definition delete_interaction (id author : string) (d : ServerDb) : ServerDb * bool :=
  (set_server_interactions (delete (author, id) (sv_interactions d)) d,
   bool_decide (is_Some (sv_interactions d !! (author, id)))).

Definition total_post_count (d : ServerDb) : Z := sql_count (fun _ => true) (sv_posts d).

Definition get_post_like_count (d : ServerDb) (target_author target_post_id : string) : Z :=
  sql_count (fun kr => bool_decide (si_target_author kr.2 = target_author) &&
                       bool_decide (si_target_post_id kr.2 = target_post_id) &&
                       bool_decide (si_kind kr.2 = "Like"%string)) (sv_interactions d).

(** Keyed by the post id alone. *)
Definition post_stats (d : ServerDb) (author post_id : string) : PostStats :=
  let kind k := sql_count (fun kr => bool_decide (si_target_author kr.2 = author) &&
                                     bool_decide (si_target_post_id kr.2 = post_id) &&
                                     bool_decide (si_kind kr.2 = k)) (sv_interactions d) in
  {| ps_likes := kind "Like"%string; ps_reposts := kind "Repost"%string;
     ps_replies := sql_count (fun kr => bool_decide (sp_reply_to kr.2 = Some post_id) &&
                                        bool_decide (sp_reply_to_author kr.2 = Some author)) (sv_posts d);
     ps_quotes := sql_count (fun kr => bool_decide (sp_quote_of kr.2 = Some post_id) &&
                                       bool_decide (sp_quote_of_author kr.2 = Some author)) (sv_posts d) |}.
Definition get_post_stats_batch (d : ServerDb) (post_ids : list (string * string))
    : gmap string PostStats :=
  fold_left (fun stats '(author, post_id) =>
      let ps := post_stats d author post_id in
      if (0 <? ps_likes ps) || (0 <? ps_reposts ps) || (0 <? ps_replies ps) || (0 <? ps_quotes ps)
      then <[post_id := ps]> stats else stats) post_ids ∅.

(** ** Queries *)

(** What [NULL] decodes to at [i64]. *)
Class SqlNull := { null_i64 : result AppError Z }.
(** A full-text query: an error, or the contents it matches. *)
Class Fts := { fts_query : string -> result AppError (string -> bool) }.

(** [JOIN registrations ... WHERE visibility = 'public' AND is_active = 1]. *)
Definition public_author (d : ServerDb) (author : string) : bool :=
  match sv_registrations d !! author with
  | Some r => bool_decide (rg_visibility r = "public"%string) && (rg_is_active r =? 1)
  | None => false
  end.

Definition before_ok (before : option Z) (ts : Z) : bool :=
  match before with Some b => ts <? b | None => true end.

(** [LIKE]: [%] matches any characters, [_] one, letters up to ASCII case. *)
Fixpoint like_chars (p : list string) : list string -> bool :=
  match p with
  | [] => fun s => match s with [] => true | _ => false end
  | c :: p =>
      if decide (c = "%"%string) then
        fix any s := like_chars p s || match s with [] => false | _ :: s => any s end
      else fun s =>
        match s with
        | [] => false
        | x :: s => (bool_decide (c = "_"%string) || bool_decide (str_to_lower c = str_to_lower x)) &&
                    like_chars p s
        end
  end.
Definition like (pattern s : string) : bool := like_chars (chars_of pattern) (chars_of s).

Section queries.
Context `{SqlOrder, SqlNull, Fts}.

Definition get_active_public_pubkeys (d : ServerDb) : list string :=
  fst <$> sql_select (fun kr => public_author d kr.1) no_order (sv_registrations d).

Definition get_user_posts (d : ServerDb) (pubkey : string) (limit : Z) (before : option Z)
    : list StoredPost :=
  snd <$> sql_limit limit
    (sql_select (fun kr => bool_decide (kr.1.1 = pubkey) && before_ok before (sp_timestamp kr.2))
       (fun kr => - sp_timestamp kr.2) (sv_posts d)).

Definition get_feed (d : ServerDb) (limit : Z) (before : option Z) (authors : option (list string))
    : list StoredPost :=
  let among author := match authors with Some l => bool_decide (author ∈ l) | None => true end in
  match authors with
  | Some [] => []
  | _ =>
      snd <$> sql_limit limit
        (sql_select (fun kr => public_author d kr.1.1 && among kr.1.1 &&
                               before_ok before (sp_timestamp kr.2))
           (fun kr => - sp_timestamp kr.2) (sv_posts d))
  end.

Definition search_posts (d : ServerDb) (query : string) (limit offset : Z)
    : result AppError (list StoredPost * Z) :=
  matches ← fts_query query;
  let P (kr : (string * string) * StoredPost) := matches (sp_content kr.2) && public_author d kr.1.1 in
  Ok (snd <$> sql_limit limit (sql_offset offset
                (sql_select P (fun kr => - sp_timestamp kr.2) (sv_posts d))),
      sql_count P (sv_posts d)).

Definition get_post_interactions (d : ServerDb) (target_author target_post_id : string)
    : list StoredInteraction :=
  snd <$> sql_select (fun kr => bool_decide (si_target_author kr.2 = target_author) &&
                                bool_decide (si_target_post_id kr.2 = target_post_id))
            (fun kr => - si_timestamp kr.2) (sv_interactions d).

(** The entry of a registration; the newest post of nobody is [NULL]. *)
Definition user_info (d : ServerDb) (r : Registration) : result AppError UserInfo :=
  let info count latest :=
    {| ui_pubkey := rg_pubkey r; ui_display_name := rg_display_name r; ui_bio := rg_bio r;
       ui_avatar_hash := rg_avatar_hash r; ui_visibility := rg_visibility r;
       ui_registered_at := rg_registered_at r; ui_post_count := count;
       ui_latest_post_at := latest; ui_transport_node_id := rg_transport_node_id r |} in
  let own (kr : (string * string) * StoredPost) := bool_decide (kr.1.1 = rg_pubkey r) in
  if decide (rg_visibility r = "public"%string) then
    latest ← (match sql_max ((fun kr => sp_timestamp kr.2) <$> filter own (map_to_list (sv_posts d))) with
              | Some ts => Ok ts
              | None => null_i64
              end : result AppError Z);
    Ok (info (sql_count own (sv_posts d)) (Some latest))
  else Ok (info 0 None).

Definition list_users (d : ServerDb) (limit offset : Z) : result AppError (list UserInfo * Z) :=
  users ← decode_all (fun kr => user_info d kr.2)
    (sql_limit limit (sql_offset offset
       (sql_select (fun kr => rg_is_active kr.2 =? 1) (fun kr => - rg_last_seen kr.2)
          (sv_registrations d))));
  Ok (users, registration_count d).

Definition search_users (d : ServerDb) (query : string) (limit : Z) : list UserInfo :=
  let pattern := "%" +:+ query +:+ "%" in
  (fun kr => {| ui_pubkey := rg_pubkey kr.2; ui_display_name := rg_display_name kr.2;
       ui_bio := rg_bio kr.2; ui_avatar_hash := rg_avatar_hash kr.2;
       ui_visibility := rg_visibility kr.2; ui_registered_at := rg_registered_at kr.2;
       ui_post_count := 0; ui_latest_post_at := None;
       ui_transport_node_id := rg_transport_node_id kr.2 |}) <$>
    sql_limit limit
      (sql_select (fun kr => (rg_is_active kr.2 =? 1) &&
                             match rg_display_name kr.2 with
                             | Some name => like pattern name
                             | None => false
                             end)
         (fun kr => - rg_last_seen kr.2) (sv_registrations d)).

Definition get_user_info (d : ServerDb) (pubkey : string) : result AppError (option UserInfo) :=
  match get_registration d pubkey with
  | None => Ok None
  | Some r => info ← user_info d r; Ok (Some info)
  end.
End queries.

(** ** Sync state *)

Definition update_sync_state (now : Z) (pubkey : string) (last_post_ts last_interaction_ts : option Z)
    (d : ServerDb) : result AppError ServerDb :=
  _ ← bail_if (negb (has_registration d pubkey)) Sqlx;
  Ok (set_sync_state
    (upsert pubkey
       {| ss_last_synced_at := as_i64 now; ss_last_post_timestamp := last_post_ts;
          ss_last_interaction_timestamp := last_interaction_ts |}
       (fun r => {| ss_last_synced_at := as_i64 now;
          ss_last_post_timestamp := coalesce last_post_ts (ss_last_post_timestamp r);
          ss_last_interaction_timestamp :=
            coalesce last_interaction_ts (ss_last_interaction_timestamp r) |})
       (sv_sync_state d)) d).

Definition get_last_post_timestamp (d : ServerDb) (pubkey : string) : option Z :=
  r ← sv_sync_state d !! pubkey; as_u64 <$> ss_last_post_timestamp r.
Definition get_last_interaction_timestamp (d : ServerDb) (pubkey : string) : option Z :=
  r ← sv_sync_state d !! pubkey; as_u64 <$> ss_last_interaction_timestamp r.
