(* ===== verification/ServerIngest.v ===== *)
(** * The ingestion of the community server

    Model of [server/src/ingestion.rs]: the messages of the gossip topics of the
    registered users, and the pull from a user's own node.  A task is a function
    of the state that may panic (the log lines shorten keys with [short_id]);
    what it wrote before stays.  [now] is the clock.  The network appears as the
    messages, the bytes of a response and the outcome of a subscription. *)

From S2P Require Import Prelude Types Signing Validation Store Framing Server.

Local Open Scope Z_scope.

(** ** Tasks *)

(** The database and the topics with a listener. *)
Record ServerState : Type := {
  st_db : ServerDb;
  st_subscriptions : gset string;
}.

Definition task (A : Type) : Type := ServerState -> ServerState * option A.

#[export] Instance task_ret : MRet task := fun A a s => (s, Some a).
#[export] Instance task_bind : MBind task := fun A B f m s =>
  match m s with
  | (s', Some a) => f a s'
  | (s', None) => (s', None)
  end.

Definition get_server : task ServerDb := fun s => (s, Some (st_db s)).
Definition modify_server (f : ServerDb -> ServerDb) : task unit := fun s =>
  ({| st_db := f (st_db s); st_subscriptions := st_subscriptions s |}, Some tt).
(** [short_id(x)] in the arguments of a log line. *)
Definition log_id (x : string) : task unit := fun s =>
  (s, match short_id x with Some _ => Some tt | None => None end).

(** [storage.f().await?]: a failed statement writes nothing. *)
Definition statement {A} (f : ServerDb -> result AppError (ServerDb * A)) : task (result AppError A) :=
  fun s => match f (st_db s) with
           | Ok (d, a) => ({| st_db := d; st_subscriptions := st_subscriptions s |}, Some (Ok a))
           | Err e => (s, Some (Err e))
           end.

Section ingestion.
Context `{Ed25519, HexCodec, JsonCodec, !Serde (list MediaAttachment), !Serde SigningKeyDelegation,
  !Serde (list string), !Serde LinkedDevicesAnnouncement}.

(** ** Content *)

(** [None]: no delegation is cached, or its key does not parse. *)
Definition resolve_signer (d : ServerDb) (master_pubkey : string) : task (option PublicKey) :=
  match get_peer_signing_pubkey d master_pubkey with
  | Some signing_pubkey =>
      match pk_parse signing_pubkey with
      | Ok pk => mret (Some pk)
      | Err _ => _ ← log_id master_pubkey; mret None
      end
  | None => mret None
  end.

(** The signer of content: without a delegation the author itself. *)
Definition content_signer (d : ServerDb) (author : string) : task (option PublicKey) :=
  match get_peer_signing_pubkey d author with
  | Some signing_pubkey =>
      match pk_parse signing_pubkey with
      | Ok pk => mret (Some pk)
      | Err _ => _ ← log_id author; mret None
      end
  | None => mret (res_ok (pk_parse author))
  end.

Definition ingest_post (now : Z) (post : Post) : task unit :=
  if is_ok (validate_post now post) then
    d ← get_server;
    signer ← content_signer d (post_author post);
    match signer with
    | None => mret tt
    | Some signer =>
        if is_ok (verify_post_signature post signer) then
          stored ← statement (insert_post now post);
          match stored with
          | Ok true => log_id (post_author post)
          | Ok false | Err _ => mret tt
          end
        else mret tt
    end
  else mret tt.

Definition ingest_interaction (now : Z) (interaction : Interaction) : task unit :=
  if is_ok (validate_interaction now interaction) then
    d ← get_server;
    signer ← content_signer d (in_author interaction);
    match signer with
    | None => mret tt
    | Some signer =>
        if is_ok (verify_interaction_signature interaction signer) then
          stored ← statement (insert_interaction now interaction);
          match stored with
          | Ok true => log_id (in_author interaction)
          | Ok false | Err _ => mret tt
          end
        else mret tt
    end
  else mret tt.

(** ** Gossip *)

(** [if let Some(signer) = ... && let Err(_) = verify(signer) { ...; return; }]. *)
Definition unless_bad_signature (pk : string) (verify : PublicKey -> result string unit)
    (k : task unit) : task unit :=
  d ← get_server;
  signer ← resolve_signer d pk;
  match signer with
  | Some signer => if is_ok (verify signer) then k else log_id pk
  | None => k
  end.

Definition gossip_delete_post (topic_owner id author signature : string) : task unit :=
  if decide (author <> topic_owner) then mret tt
  else
    unless_bad_signature author (verify_delete_post_signature id author signature)
      (d ← get_server;
       match get_post d author id with
       | Some existing =>
           if decide (sp_author existing = author) then
             _ ← modify_server (fun d => (delete_post id author d).1);
             log_id author
           else mret tt
       | None => mret tt
       end).

Definition gossip_profile_update (now : Z) (topic_owner : string) (profile : Profile) : task unit :=
  if is_ok (validate_profile profile) then
    unless_bad_signature topic_owner (verify_profile_signature profile)
      (_ ← modify_server (fun d => (update_profile now topic_owner profile d).1);
       _ ← log_id topic_owner;
       modify_server (handle_visibility_change topic_owner (pr_visibility profile)))
  else log_id topic_owner.

Definition gossip_delete_interaction (topic_owner id author signature : string) : task unit :=
  if decide (author <> topic_owner) then mret tt
  else
    unless_bad_signature author (verify_delete_interaction_signature id author signature)
      (_ ← modify_server (fun d => (delete_interaction id author d).1);
       log_id author).

(** An announcement in the cache, as the gossip handler and the pull store it. *)
Definition cache_announcement (now : Z) (pk : string) (a : LinkedDevicesAnnouncement) (d : ServerDb)
    : ServerDb :=
  cache_peer_device_announcement now pk (to_json a) (as_i64 (an_version a))
    (de_node_id <$> an_devices a) d.

Definition gossip_linked_devices (now : Z) (topic_owner : string) (a : LinkedDevicesAnnouncement)
    : task unit :=
  if decide (an_master_pubkey a <> topic_owner) then mret tt
  else if is_ok (verify_linked_devices_announcement a) then
    d ← get_server;
    if match get_peer_announcement_version d topic_owner with
       | Some v => as_i64 (an_version a) <=? v
       | None => false
       end
    then mret tt
    else
      _ ← modify_server (cache_announcement now topic_owner a);
      log_id topic_owner
  else log_id topic_owner.

(** The key index of the cached delegation, if it decodes. *)
Definition cached_key_index (d : ServerDb) (pk : string) : option Z :=
  r ← sv_delegations d !! pk;
  dl_key_index <$> res_ok (from_json (sd_delegation_json r) : result AppError SigningKeyDelegation).

Definition gossip_rotation (now : Z) (topic_owner : string) (r : SigningKeyRotation) : task unit :=
  if decide (rt_master_pubkey r <> topic_owner) then mret tt
  else if is_ok (verify_rotation r) then
    d ← get_server;
    if match cached_key_index d topic_owner with
       | Some i => rt_new_key_index r <=? i
       | None => false
       end
    then log_id topic_owner
    else
      let delegation_json := to_json (rt_new_delegation r) in
      _ ← modify_server (cache_peer_delegation now topic_owner (rt_new_signing_pubkey r)
                           delegation_json None);
      _ ← log_id topic_owner;
      modify_server (fun d => set_registrations
        (sql_update (fun kr => bool_decide (kr.1 = topic_owner))
           (fun r => {| rg_pubkey := rg_pubkey r; rg_registered_at := rg_registered_at r;
              rg_last_seen := rg_last_seen r; rg_display_name := rg_display_name r;
              rg_bio := rg_bio r; rg_avatar_hash := rg_avatar_hash r;
              rg_visibility := rg_visibility r; rg_is_active := rg_is_active r;
              rg_transport_node_id := rg_transport_node_id r;
              rg_delegation_json := Some delegation_json |}) (sv_registrations d)) d)
  else log_id topic_owner.

(** [None] is a message that does not parse. *)
Definition process_gossip_message (now : Z) (topic_owner : string) (msg : option GossipMessage)
    : task unit :=
  match msg with
  | Some (NewPost post) =>
      if decide (post_author post <> topic_owner) then mret tt else ingest_post now post
  | Some (DeletePost id author signature) => gossip_delete_post topic_owner id author signature
  | Some (ProfileUpdate profile) => gossip_profile_update now topic_owner profile
  | Some (NewInteraction interaction) =>
      if decide (in_author interaction <> topic_owner) then mret tt
      else ingest_interaction now interaction
  | Some (DeleteInteraction id author signature) =>
      gossip_delete_interaction topic_owner id author signature
  | Some (LinkedDevices announcement) => gossip_linked_devices now topic_owner announcement
  | Some (RotateSigningKey rotation) => gossip_rotation now topic_owner rotation
  | Some Heartbeat | Some (StageAnnounced _ _ _ _ _) | Some (StageEnded _) | None => mret tt
  end.

(** ** Subscriptions *)

(** [outcome] is that of [gossip.subscribe]. *)
Definition subscribe (outcome : result AppError unit) (pubkey : string) : task (result AppError unit) :=
  fun s =>
    if decide (pubkey ∈ st_subscriptions s) then (s, Some (Ok tt))
    else match get_transport_node_id (st_db s) pubkey ≫= fun id => res_ok (pk_parse id) with
         | None => (_ ← log_id pubkey;
                    mret (Err (Other "no transport NodeId known"))) s
         | Some _ =>
             match outcome with
             | Err e => (s, Some (Err e))
             | Ok _ =>
                 (_ ← log_id pubkey; mret (Ok tt))
                   {| st_db := st_db s; st_subscriptions := {[pubkey]} ∪ st_subscriptions s |}
             end
         end.

Definition unsubscribe (pubkey : string) : task unit := fun s =>
  if decide (pubkey ∈ st_subscriptions s) then
    log_id pubkey {| st_db := st_db s; st_subscriptions := st_subscriptions s ∖ {[pubkey]} |}
  else (s, Some tt).

(** ** Pulling from a user's node *)

Section pull.
Context `{!Wire SyncSummary, !Wire SyncFrame}.

(** The server never says what it has, only how far it got. *)
Definition sync_request (d : ServerDb) (pubkey : string) : SyncRequest :=
  {| sq_author := pubkey; sq_post_count := 0; sq_interaction_count := 0;
     sq_newest_timestamp := default 0 (get_last_post_timestamp d pubkey);
     sq_newest_interaction_timestamp := default 0 (get_last_interaction_timestamp d pubkey) |}.

(** The counters of the loop and the newest timestamps seen. *)
Record progress : Type := {
  pg_post_count : Z;
  pg_interaction_count : Z;
  pg_last_post : option Z;
  pg_last_int : option Z;
}.

Definition newest (prev : option Z) (ts : Z) : option Z :=
  match prev with
  | Some prev => Some (if prev <? ts then ts else prev)
  | None => Some ts
  end.

Fixpoint take_posts (now : Z) (l : list Post) (p : progress) : task progress :=
  match l with
  | [] => mret p
  | post :: l =>
      _ ← ingest_post now post;
      take_posts now l
        {| pg_post_count := pg_post_count p + 1; pg_interaction_count := pg_interaction_count p;
           pg_last_post := newest (pg_last_post p) (as_i64 (post_timestamp post));
           pg_last_int := pg_last_int p |}
  end.

Fixpoint take_interactions (now : Z) (l : list Interaction) (p : progress) : task progress :=
  match l with
  | [] => mret p
  | i :: l =>
      _ ← ingest_interaction now i;
      take_interactions now l
        {| pg_post_count := pg_post_count p; pg_interaction_count := pg_interaction_count p + 1;
           pg_last_post := pg_last_post p;
           pg_last_int := newest (pg_last_int p) (as_i64 (in_timestamp i)) |}
  end.

Fixpoint take_announcements (now : Z) (pubkey : string) (l : list LinkedDevicesAnnouncement)
    : task unit :=
  match l with
  | [] => mret tt
  | a :: l =>
      _ ← (if decide (an_master_pubkey a <> pubkey) then mret tt
           else if is_ok (verify_linked_devices_announcement a)
           then modify_server (cache_announcement now pubkey a)
           else mret tt : task unit);
      take_announcements now pubkey l
  end.

Definition take_frame (now : Z) (pubkey : string) (frame : SyncFrame) (p : progress) : task progress :=
  match frame with
  | SfPosts posts => take_posts now posts p
  | SfInteractions interactions => take_interactions now interactions p
  | SfDeviceAnnouncements l => _ ← take_announcements now pubkey l; mret p
  end.

(** A frame of the data stream: the end of the stream, a zero length and a
    short read end the loop.  There is no bound on the length. *)
Definition next_frame (stream : bytes) : option (bytes * bytes) :=
  match read_exact 4 stream with
  | Ok (len_buf, rest) =>
      let len := from_be len_buf in
      if decide (len = 0) then None else res_ok (read_exact (Z.to_nat len) rest)
  | Err _ => None
  end.

(** A frame is at least a byte, so that the length of the stream bounds the rounds. *)
Fixpoint take_frames (fuel : nat) (now : Z) (pubkey : string) (stream : bytes) (p : progress)
    : task progress :=
  match fuel with
  | O => mret p
  | S fuel =>
      match next_frame stream with
      | None => mret p
      | Some (buf, rest) =>
          match from_slice buf with
          | Ok frame => p ← take_frame now pubkey frame p; take_frames fuel now pubkey rest p
          | Err _ => mret p
          end
      end
  end.

(** [sync_from_peer_inner] from the response on.  A pull that runs into its
    timeout of 30 seconds stops between two of these steps. *)
Definition sync_from_response (now : Z) (pubkey : string) (summary_bytes stream : bytes)
    : task (result AppError (Z * Z)) :=
  if 65536 <? Z.of_nat (length summary_bytes) then mret (Err (Other "too long"))
  else match from_slice summary_bytes with
  | Err e => mret (Err e)
  | Ok summary =>
      _ ← modify_server (fun d =>
            match sm_profile summary with
            | Some profile =>
                if is_ok (validate_profile profile) then (update_profile now pubkey profile d).1 else d
            | None => d
            end);
      if decide (sm_mode summary = UpToDate) then
        updated ← statement (fun d => d' ← update_sync_state now pubkey None None d; Ok (d', tt));
        mret (_ ← (updated : result AppError unit); Ok (0, 0))
      else
        p ← take_frames (S (length stream)) now pubkey stream
              {| pg_post_count := 0; pg_interaction_count := 0; pg_last_post := None;
                 pg_last_int := None |};
        updated ← statement (fun d =>
          d' ← update_sync_state now pubkey (pg_last_post p) (pg_last_int p) d; Ok (d', tt));
        mret (_ ← (updated : result AppError unit);
              Ok (pg_post_count p, pg_interaction_count p))
  end.

(** [peer] is the node the id leads to: what it answers to the request and, on
    the data stream, to the ids the server sends, which are none. *)
Definition sync_from_peer_inner (now : Z) (peer : PublicKey -> SyncRequest -> bytes ->
      result AppError (bytes * bytes)) (pubkey : string) : task (result AppError (Z * Z)) :=
  d ← get_server;
  match get_transport_node_id d pubkey with
  | None => _ ← log_id pubkey; mret (Err (Other "no transport NodeId"))
  | Some node_id =>
      match pk_parse node_id with
      | Err e => mret (Err (Other e))
      | Ok target =>
          match peer target (sync_request d pubkey) [] with
          | Err e => mret (Err e)
          | Ok (summary_bytes, stream) => sync_from_response now pubkey summary_bytes stream
          end
      end
  end.
End pull.
End ingestion.
