(* ===== verification/ServerStart.v ===== *)
(** * The tasks of the community server

    Model of the start-up of [server/src/ingestion.rs] ([start],
    [start_periodic_sync], [sync_from_peer]) and of the pruning task of
    [main.rs]: which users are subscribed to and pulled from, under a deadline,
    and what a panic ends.  [subscribed] is the outcome of the gossip
    subscription of a user, [late] says of a pull that it misses its deadline,
    and the pulls of the initial synchronisation, which overlap, are run one
    after the other in the order given. *)

From S2P Require Import Prelude Types Signing Validation Store Framing Server ServerIngest.

Local Open Scope Z_scope.

(** What a node answers to a request: its summary, and its stream to the ids the
    server sends. *)
Definition peer_answers `{Ed25519} : Type :=
  PublicKey -> SyncRequest -> bytes -> result AppError (bytes * bytes).

Section tasks.
Context `{Ed25519, HexCodec, JsonCodec, SqlOrder, !Serde (list MediaAttachment),
  !Serde SigningKeyDelegation, !Serde (list string), !Serde LinkedDevicesAnnouncement,
  !Wire SyncSummary, !Wire SyncFrame}.

(** ** Pulls *)

Definition SYNC_TIMEOUT_SECS : Z := 30.
Definition timed_out : AppError := Other "sync timed out after 30s".

(** What a pull has done when its deadline passes while it waits for the rest
    of the stream: all but the last statement of [sync_from_response]. *)
Definition interrupted_response (now : Z) (pubkey : string) (summary_bytes stream : bytes) : task unit :=
  if 65536 <? Z.of_nat (length summary_bytes) then mret tt
  else match from_slice summary_bytes with
  | Err _ => mret tt
  | Ok summary =>
      _ ← modify_server (fun d =>
            match sm_profile summary with
            | Some profile =>
                if is_ok (validate_profile profile) then (update_profile now pubkey profile d).1 else d
            | None => d
            end);
      _ ← take_frames (S (length stream)) now pubkey stream
            {| pg_post_count := 0; pg_interaction_count := 0; pg_last_post := None; pg_last_int := None |};
      mret tt
  end.

(** [sync_from_peer]: [peer] is what has arrived when the pull ends. *)
Definition sync_from_peer (now : Z) (late : bool) (peer : peer_answers) (pubkey : string)
    : task (result AppError (Z * Z)) :=
  d ← get_server;
  match get_transport_node_id d pubkey ≫= fun id => res_ok (pk_parse id) with
  | Some target =>
      if late then
        _ ← (match peer target (sync_request d pubkey) [] with
             | Ok (summary_bytes, stream) => interrupted_response now pubkey summary_bytes stream
             | Err _ => mret tt
             end : task unit);
        mret (Err timed_out)
      else sync_from_peer_inner now peer pubkey
  | None => sync_from_peer_inner now peer pubkey
  end.

(** A pull of one of the two tasks, with the log line of its result. *)
Definition sync_one (now : Z) (late : bool) (peer : peer_answers) (pubkey : string) : task unit :=
  r ← sync_from_peer now late peer pubkey;
  match (r : result AppError (Z * Z)) with
  | Ok (posts, interactions) =>
      if (0 <? posts) || (0 <? interactions) then log_id pubkey else mret tt
  | Err _ => log_id pubkey
  end.

(** ** Start-up *)

Fixpoint subscribe_all (subscribed : string -> result AppError unit) (pubkeys : list string) : task unit :=
  match pubkeys with
  | [] => mret tt
  | pk :: pubkeys =>
      r ← subscribe (subscribed pk) pk;
      _ ← (match (r : result AppError unit) with Ok _ => mret tt | Err _ => log_id pk end : task unit);
      subscribe_all subscribed pubkeys
  end.

(** [start]: the users the spawned task pulls from.  [main] awaits it: a panic
    here ends the process. *)
Definition start (subscribed : string -> result AppError unit) (startup_sync : bool)
    : task (list string) :=
  d ← get_server;
  let pubkeys := get_active_public_pubkeys d in
  _ ← subscribe_all subscribed pubkeys;
  mret (if startup_sync then pubkeys else []).

(** The process starts: no topic has a listener. *)
Definition restart (subscribed : string -> result AppError unit) (startup_sync : bool) (d : ServerDb)
    : ServerState * option (list string) :=
  start subscribed startup_sync {| st_db := d; st_subscriptions := ∅ |}.

(** The spawned task: each pull is a task of its own, so that a panic ends it alone. *)
Definition initial_sync (now : Z) (late : string -> bool) (peer : peer_answers) (pubkeys : list string)
    (s : ServerState) : ServerState :=
  fold_left (fun s pk => (sync_one now (late pk) peer pk s).1) pubkeys s.

(** ** Periodic tasks *)

(** A round of [start_periodic_sync]: a panic ends the task. *)
Fixpoint sync_each (now : Z) (late : string -> bool) (peer : peer_answers) (pubkeys : list string)
    : task unit :=
  match pubkeys with
  | [] => mret tt
  | pk :: pubkeys => _ ← sync_one now (late pk) peer pk; sync_each now late peer pubkeys
  end.
Definition periodic_round (now : Z) (late : string -> bool) (peer : peer_answers) : task unit :=
  d ← get_server;
  sync_each now late peer (get_active_public_pubkeys d).

(** The rounds, each with its clock, deadlines and network. *)
Fixpoint periodic_sync (rounds : list (Z * (string -> bool) * peer_answers)) : task unit :=
  match rounds with
  | [] => mret tt
  | (now, late, peer) :: rounds => _ ← periodic_round now late peer; periodic_sync rounds
  end.

(** A round of the pruning task of [main]: the arithmetic of [u64] wraps. *)
Definition retention_cutoff (now retention_days : Z) : Z :=
  as_i64 (as_u64 (now - as_u64 (retention_days * 24 * 60 * 60 * 1000))).
Definition prune_round (now retention_days : Z) : task unit :=
  modify_server (fun d => (prune_old_posts (retention_cutoff now retention_days) d).1).
End tasks.
