(* ===== verification/ServerApi.v ===== *)
(** * The HTTP interface of the community server

    Model of [server/src/api/]: the handlers that register users and change
    profiles, and the read-only ones.  A response is its status with a body or a
    message.  [outcome] is what subscribing to a gossip topic yields. *)

From S2P Require Import Prelude Text Types Signing Validation Store Framing Server ServerIngest.

Local Open Scope Z_scope.

Definition TIMESTAMP_TOLERANCE_MS : Z := 5 * 60 * 1000.

(** The fields of [ServerConfig] the handlers read. *)
Record ServerConfig : Type := {
  cf_public_url : string;
  cf_registration_open : bool;
}.

Record RegisterResponse : Type := {
  rs_status : Z;
  rs_pubkey : string;
  rs_registered_at : Z;
  rs_message : string;
}.

Record ProfileUpdateRequest : Type := {
  pu_master_pubkey : string;
  pu_transport_node_id : string;
  pu_server_url : string;
  pu_timestamp : Z;
  pu_visibility : string;
  pu_display_name : option string;
  pu_bio : option string;
  pu_avatar_hash : option string;
  pu_signature : string;
  pu_delegation : SigningKeyDelegation;
}.

Definition BAD_REQUEST : Z := 400.
Definition FORBIDDEN : Z := 403.
Definition NOT_FOUND : Z := 404.
Definition INTERNAL_SERVER_ERROR : Z := 500.

(** A status with a message. *)
Definition refusal : Type := Z * string.

(** [map_err] of a signature check. *)
Definition checked (r : result string unit) : result refusal unit :=
  match r with Ok _ => Ok tt | Err e => Err (BAD_REQUEST, "invalid signature: " +:+ e) end.

Section api.
Context `{Ed25519, HexCodec, JsonCodec, !Serde (list MediaAttachment), !Serde SigningKeyDelegation,
  !Serde (list string), !Serde LinkedDevicesAnnouncement}.

(** ** auth.rs *)

Definition validate_registration (now : Z) (config : ServerConfig) (req : RegistrationRequest)
    : result refusal unit :=
  _ ← checked (verify_registration_signature req);
  _ ← bail_if (TIMESTAMP_TOLERANCE_MS <? Z.abs (rr_timestamp req - now))
        (BAD_REQUEST, "timestamp too far from server time"%string);
  _ ← bail_if (bool_decide (rr_server_url req <> cf_public_url config))
        (BAD_REQUEST, "server_url mismatch"%string);
  _ ← bail_if (bool_decide (rr_visibility req = Private))
        (FORBIDDEN, "private users cannot register with servers"%string);
  bail_if (negb (cf_registration_open config)) (FORBIDDEN, "registration is closed"%string).

(** The registration both branches of [register] store. *)
Definition store_registration (now : Z) (req : RegistrationRequest) : task unit :=
  modify_server (register_user now (rr_master_pubkey req) (visibility_to_string (rr_visibility req))
    None (Some (rr_transport_node_id req)) (Some (to_json (rr_delegation req)))).

Definition register (now : Z) (config : ServerConfig) (outcome : result AppError unit)
    (req : RegistrationRequest) : task (result refusal RegisterResponse) :=
  if decide (rr_action req = Some "unregister"%string) then
    mret (Err (BAD_REQUEST, "use DELETE endpoint for unregistration"%string))
  else match validate_registration now config req with
  | Err e => mret (Err e)
  | Ok _ =>
      d ← get_server;
      match get_registration d (rr_master_pubkey req) with
      | Some existing =>
          _ ← store_registration now req;
          mret (Ok {| rs_status := 200; rs_pubkey := rr_master_pubkey req;
                      rs_registered_at := as_u64 (rg_registered_at existing);
                      rs_message := "registration updated" |})
      | None =>
          _ ← store_registration now req;
          _ ← (if decide (rr_visibility req = Public) then
                 subscribed ← subscribe outcome (rr_master_pubkey req);
                 match (subscribed : result AppError unit) with
                 | Ok _ => mret tt
                 | Err _ => log_id (rr_master_pubkey req)
                 end
               else mret tt : task unit);
          mret (Ok {| rs_status := 201; rs_pubkey := rr_master_pubkey req; rs_registered_at := now;
                      rs_message := "registered successfully" |})
      end
  end.

Definition unregister (req : RegistrationRequest) : task (result refusal string) :=
  if decide (rr_action req <> Some "unregister"%string) then
    mret (Err (BAD_REQUEST, "action must be 'unregister'"%string))
  else match checked (verify_registration_signature req) with
  | Err e => mret (Err e)
  | Ok _ =>
      _ ← unsubscribe (rr_master_pubkey req);
      _ ← modify_server (unregister_user (rr_master_pubkey req));
      mret (Ok "unregistered successfully"%string)
  end.

(** The request whose signature the profile update carries. *)
Definition profile_registration (req : ProfileUpdateRequest) (visibility : Visibility)
    : RegistrationRequest :=
  {| rr_master_pubkey := pu_master_pubkey req; rr_transport_node_id := pu_transport_node_id req;
     rr_server_url := pu_server_url req; rr_timestamp := pu_timestamp req;
     rr_visibility := visibility; rr_action := None; rr_signature := pu_signature req;
     rr_delegation := pu_delegation req |}.

Definition update_profile_request (now : Z) (req : ProfileUpdateRequest)
    : task (result refusal string) :=
  match visibility_from_str (pu_visibility req) with
  | Err _ => mret (Err (BAD_REQUEST, "invalid visibility"%string))
  | Ok visibility =>
      match checked (verify_registration_signature (profile_registration req visibility)) with
      | Err e => mret (Err e)
      | Ok _ =>
          let profile := {| pr_display_name := default EmptyString (pu_display_name req);
            pr_bio := default EmptyString (pu_bio req); pr_avatar_hash := pu_avatar_hash req;
            pr_avatar_ticket := None; pr_visibility := visibility; pr_signature := "" |} in
          d ← get_server;
          let '(d', updated) := update_profile now (pu_master_pubkey req) profile d in
          _ ← modify_server (fun _ => d');
          mret (if updated then Ok "profile updated"%string
                else Err (NOT_FOUND, "user not registered"%string))
      end
  end.
End api.

(** ** The read-only handlers *)

Section reads.
Context `{SqlOrder, SqlNull, Fts}.

Definition capped (limit : option Z) (dflt cap : Z) : Z := Z.min (default dflt limit) cap.

Definition get_user_posts_request (d : ServerDb) (pubkey : string) (limit before : option Z)
    : list StoredPost :=
  match get_registration d pubkey with
  | Some reg =>
      if decide (rg_visibility reg = "listed"%string) then []
      else get_user_posts d pubkey (capped limit 50 200) before
  | None => get_user_posts d pubkey (capped limit 50 200) before
  end.

Definition search_posts_request (d : ServerDb) (q : string) (limit offset : option Z)
    : result Z (list StoredPost * Z) :=
  match search_posts d q (capped limit 20 100) (default 0 offset) with
  | Ok r => Ok r
  | Err _ => Err INTERNAL_SERVER_ERROR
  end.

Definition get_post_interactions_request (d : ServerDb) (author post_id : string)
    : list StoredInteraction * Z :=
  (get_post_interactions d author post_id, get_post_like_count d author post_id).

(** [a.split(',')]. *)
Fixpoint split_comma (s : string) : list string :=
  match s with
  | EmptyString => [EmptyString]
  | String a r =>
      match split_comma r with
      | part :: parts =>
          if decide (a = Ascii.ascii_of_N 44) then EmptyString :: part :: parts
          else String a part :: parts
      | [] => [String a EmptyString]
      end
  end.

Definition get_feed_request (d : ServerDb) (limit before : option Z) (authors : option string)
    : list StoredPost :=
  get_feed d (capped limit 50 200) before ((fun a => trim <$> split_comma a) <$> authors).

Definition list_users_request (d : ServerDb) (limit offset : option Z)
    : result Z (list UserInfo * Z * Z * Z) :=
  let limit := capped limit 20 100 in
  let offset := default 0 offset in
  match list_users d limit offset with
  | Ok (users, total) => Ok (users, total, limit, offset)
  | Err _ => Err INTERNAL_SERVER_ERROR
  end.

Definition search_users_request (d : ServerDb) (q : string) (limit : option Z) : list UserInfo * nat :=
  let users := search_users d q (capped limit 20 100) in (users, length users).

Definition get_user_request (d : ServerDb) (pubkey : string) : result Z UserInfo :=
  match get_user_info d pubkey with
  | Ok (Some user) => Ok user
  | Ok None => Err NOT_FOUND
  | Err _ => Err INTERNAL_SERVER_ERROR
  end.

Definition get_devices_request (d : ServerDb) (pubkey : string) : list string :=
  match get_transport_node_id d pubkey with Some id => [id] | None => [] end.
End reads.

Example split_authors : (trim <$> split_comma "a, b ,c") = ["a"; "b"; "c"]%string.
Proof. vm_compute. reflexivity. Qed.
