(* ===== verification/ServerSafety.v ===== *)
(** * Who can write what on the community server

    Rules to reason about tasks that may panic, the events a server goes
    through, and the theorems on the origin of its content: what a stored post
    proves, and how little a registration proves. *)

From S2P Require Import Prelude Types Ratchet Signing Concrete SigningTheorems Validation Store ConcreteStore Framing ConcreteWire Server ServerIngest ServerStart ServerApi.

Local Open Scope Z_scope.

(** ** Triples *)

(** Started in a database with [J], [m] keeps [J], also when it panics, and its
    result satisfies [Q]. *)
Definition triple (J : ServerDb -> Prop) {A} (m : task A) (Q : A -> Prop) : Prop :=
  forall s, J (st_db s) -> J (st_db (m s).1) /\ forall a, (m s).2 = Some a -> Q a.
Definition anything {A} (_ : A) : Prop := True.

Section triple.
Context (J : ServerDb -> Prop).

Lemma triple_ret {A} (a : A) (Q : A -> Prop) : Q a -> triple J (mret a) Q.
Proof. intros Ha s Hs. split; [done|]. by intros ? [= <-]. Qed.
Lemma triple_bind {A B} (m : task A) (f : A -> task B) Q R :
  triple J m Q -> (forall a, Q a -> triple J (f a) R) -> triple J (m ≫= f) R.
Proof.
  intros Hm Hf s Hs. destruct (Hm s Hs) as [H1 H2]. unfold mbind, task_bind.
  destruct (m s) as [s1 [a|]]; cbn in *; [|done]. apply Hf; [by apply H2|done].
Qed.
Lemma triple_get {B} (f : ServerDb -> task B) R :
  (forall d, J d -> triple J (f d) R) -> triple J (get_server ≫= f) R.
Proof. intros Hf s Hs. by apply (Hf (st_db s)). Qed.
Lemma triple_modify f : (forall d, J d -> J (f d)) -> triple J (modify_server f) anything.
Proof. intros Hf s Hs. split; [by apply Hf|done]. Qed.
Lemma triple_log x : triple J (log_id x) anything.
Proof. intros s Hs. by split. Qed.
Lemma triple_statement {A} (f : ServerDb -> result AppError (ServerDb * A)) :
  (forall d d' a, J d -> f d = Ok (d', a) -> J d') -> triple J (statement f) anything.
Proof.
  intros Hf s Hs. unfold statement. destruct (f (st_db s)) as [[d a]|] eqn:E; [|done].
  split; [|done]. by eapply Hf.
Qed.
Lemma triple_weaken {A} (m : task A) (Q R : A -> Prop) :
  (forall a, Q a -> R a) -> triple J m Q -> triple J m R.
Proof. intros Hqr Hm s Hs. destruct (Hm s Hs) as [H1 H2]. split; [done|]. eauto. Qed.
Lemma triple_any {A} (m : task A) (Q : A -> Prop) : triple J m Q -> triple J m anything.
Proof. by apply triple_weaken. Qed.

(** A task as a function of the database alone. *)
Lemma triple_db {A} (m : task A) Q s : triple J m Q -> J (st_db s) -> J (st_db (m s).1).
Proof. intros Hm Hs. by apply Hm. Qed.
End triple.

Create HintDb triple.
#[export] Hint Resolve triple_ret triple_log : triple.

(** Runs the rules through the branches of a task, leaving the writes. *)
Ltac run_triple :=
  repeat lazymatch goal with
  | |- forall _, _ => intros ?
  | |- triple _ (get_server ≫= _) _ => apply triple_get
  | |- triple _ (mret _) _ => apply triple_ret
  | |- triple _ (log_id _) anything => apply triple_log
  | |- triple _ (log_id _ ≫= _) _ => eapply triple_bind; [apply triple_log|]
  | |- triple _ (modify_server _ ≫= _) _ => eapply triple_bind; [apply triple_modify|]
  | |- triple _ (modify_server _) anything => apply triple_modify
  | |- triple _ (statement _ ≫= _) _ => eapply triple_bind; [apply triple_statement|]
  | |- triple _ (match _ with _ => _ end) _ => first [case_decide | case_match]
  | |- anything _ => done
  end.

Section server.
Context `{Ed25519, HexCodec, JsonCodec, SqlOrder, !Serde (list MediaAttachment), !Serde SigningKeyDelegation,
  !Serde (list string), !Serde LinkedDevicesAnnouncement, !Wire SyncSummary, !Wire SyncFrame}.

(** ** The events of a server *)

Inductive event : Type :=
| EvRegister (now : Z) (outcome : result AppError unit) (req : RegistrationRequest)
| EvUnregister (req : RegistrationRequest)
| EvProfile (now : Z) (req : ProfileUpdateRequest)
| EvGossip (now : Z) (topic_owner : string) (msg : option GossipMessage)
| EvPull (now : Z) (late : bool) (peer : peer_answers) (pubkey : string)
| EvPeriodic (now : Z) (late : string -> bool) (peer : peer_answers)
| EvPrune (now retention_days : Z)
| EvRestart (subscribed : string -> result AppError unit).

Definition run_event (config : ServerConfig) (e : event) (s : ServerState) : ServerState :=
  match e with
  | EvRegister now outcome req => (register now config outcome req s).1
  | EvUnregister req => (unregister req s).1
  | EvProfile now req => (update_profile_request now req s).1
  | EvGossip now pk msg => (process_gossip_message now pk msg s).1
  | EvPull now late peer pk => (sync_one now late peer pk s).1
  | EvPeriodic now late peer => (periodic_round now late peer s).1
  | EvPrune now days => (prune_round now days s).1
  | EvRestart subscribed => (restart subscribed false (st_db s)).1
  end.

(** The newest event first; a topic has a listener only while it is subscribed. *)
Inductive reach (config : ServerConfig) : list event -> ServerState -> Prop :=
| reach_start : reach config [] {| st_db := empty_server; st_subscriptions := ∅ |}
| reach_event evs s e :
    reach config evs s ->
    match e with EvGossip _ pk _ => pk ∈ st_subscriptions s | _ => True end ->
    reach config (e :: evs) (run_event config e s).

(** ** The origin of content *)

(** The keys some event bound to [pk]: the key of a registration that names it,
    which signed that registration itself; a key its master key rotated to; and
    the key [pk] is. *)
Inductive bound (evs : list event) (pk : string) (key : PublicKey) : Prop :=
| bound_registered now outcome req :
    EvRegister now outcome req ∈ evs -> rr_master_pubkey req = pk ->
    verify_registration_signature req = Ok tt ->
    pk_parse (dl_signing_pubkey (rr_delegation req)) = Ok key -> bound evs pk key
| bound_rotated now topic r :
    EvGossip now topic (Some (RotateSigningKey r)) ∈ evs -> rt_master_pubkey r = pk ->
    verify_rotation r = Ok tt ->
    pk_parse (rt_new_signing_pubkey r) = Ok key -> bound evs pk key
| bound_self : pk_parse pk = Ok key -> bound evs pk key.

Lemma bound_mono evs evs' pk key : evs ⊆ evs' -> bound evs pk key -> bound evs' pk key.
Proof. intros Hs []; [eapply bound_registered|eapply bound_rotated|eapply bound_self]; eauto. Qed.

(** A row is a valid post signed by a bound key of its author, and so on. *)
Record authentic (evs : list event) (d : ServerDb) : Prop := {
  au_posts k row : sv_posts d !! k = Some row ->
    exists now post key, row = stored_post now post /\ k = (post_author post, post_id post) /\
      validate_post now post = Ok tt /\ verify_post_signature post key = Ok tt /\
      bound evs (post_author post) key;
  au_interactions k row : sv_interactions d !! k = Some row ->
    exists now i key, row = stored_interaction now i /\ k = (in_author i, in_id i) /\
      validate_interaction now i = Ok tt /\ verify_interaction_signature i key = Ok tt /\
      bound evs (in_author i) key;
  au_delegations pk r key : sv_delegations d !! pk = Some r ->
    pk_parse (sd_signing_pubkey r) = Ok key -> bound evs pk key;
  au_registered k row : sv_posts d !! k = Some row -> is_Some (sv_registrations d !! k.1);
  au_registered' k row : sv_interactions d !! k = Some row -> is_Some (sv_registrations d !! k.1);
}.

Lemma authentic_mono evs evs' d : evs ⊆ evs' -> authentic evs d -> authentic evs' d.
Proof.
  intros Hs [P1 P2 P3 P4 P5]. split; [| | |done|done].
  - intros k row Hr. destruct (P1 k row Hr) as (now & post & key & ? & ? & ? & ? & ?).
    exists now, post, key. split_and!; try done. by eapply bound_mono.
  - intros k row Hr. destruct (P2 k row Hr) as (now & i & key & ? & ? & ? & ? & ?).
    exists now, i, key. split_and!; try done. by eapply bound_mono.
  - intros pk r key Hr Hk. eapply bound_mono; eauto.
Qed.

(** Writes that add no content and no key. *)
Lemma authentic_shrink evs d d' :
  authentic evs d ->
  sv_posts d' ⊆ sv_posts d -> sv_interactions d' ⊆ sv_interactions d ->
  (forall pk r', sv_delegations d' !! pk = Some r' -> exists r, sv_delegations d !! pk = Some r /\
     sd_signing_pubkey r' = sd_signing_pubkey r) ->
  (forall pk, is_Some (sv_registrations d !! pk) -> is_Some (sv_registrations d' !! pk)) ->
  authentic evs d'.
Proof.
  intros [P1 P2 P3 P4 P5] Hp Hi Hd Hr. split.
  - intros k row Hk. apply P1. by eapply lookup_weaken.
  - intros k row Hk. apply P2. by eapply lookup_weaken.
  - intros pk r' key Hk Hkey. destruct (Hd pk r' Hk) as (r & Hr0 & E). rewrite E in Hkey. by eapply P3.
  - intros k row Hk. eapply Hr, P4. by eapply lookup_weaken.
  - intros k row Hk. eapply Hr, P5. by eapply lookup_weaken.
Qed.

Lemma sql_update_is_Some {K R} `{Countable K} (P : K * R -> bool) upd (t : gmap K R) k :
  is_Some (sql_update P upd t !! k) <-> is_Some (t !! k).
Proof. rewrite lookup_sql_update. apply fmap_is_Some. Qed.

Lemma sql_delete_subseteq {K R} `{Countable K} (P : K * R -> bool) (t : gmap K R) : sql_delete P t ⊆ t.
Proof. apply map_filter_subseteq. Qed.

Lemma authentic_registrations evs d t :
  authentic evs d -> (forall pk, is_Some (sv_registrations d !! pk) -> is_Some (t !! pk)) ->
  authentic evs (set_registrations t d).
Proof. intros Ha Ht. apply (authentic_shrink _ d); cbn; try done. eauto. Qed.

Lemma authentic_delete_content evs pk d : authentic evs d -> authentic evs (delete_content pk d).
Proof. intros Ha. apply (authentic_shrink _ d); cbn; try done; try apply sql_delete_subseteq. eauto. Qed.

Lemma authentic_unregister evs pk d : authentic evs d -> authentic evs (unregister_user pk d).
Proof.
  intros Ha. apply authentic_registrations; [by apply authentic_delete_content|].
  intros pk'. by rewrite sql_update_is_Some.
Qed.

Lemma authentic_update_profile evs now pk p d :
  authentic evs d -> authentic evs (update_profile now pk p d).1.
Proof. intros Ha. apply authentic_registrations; [done|]. intros pk'. by rewrite sql_update_is_Some. Qed.

Lemma authentic_visibility evs pk v d :
  authentic evs d -> authentic evs (handle_visibility_change pk v d).
Proof.
  intros Ha. destruct v; cbn [handle_visibility_change].
  - apply authentic_registrations; [done|]. intros pk'. by rewrite sql_update_is_Some.
  - apply authentic_registrations; [by apply authentic_delete_content|].
    intros pk'. by rewrite sql_update_is_Some.
  - by apply authentic_unregister.
Qed.

(** A new key for [pk]. *)
Lemma authentic_delegation evs now pk signing json node d :
  authentic evs d -> (forall key, pk_parse signing = Ok key -> bound evs pk key) ->
  authentic evs (cache_peer_delegation now pk signing json node d).
Proof.
  intros [P1 P2 P3 P4 P5] Hb. split; try done. intros pk' r key. cbn. rewrite lookup_upsert.
  case_decide as E; [|apply P3]. subst pk'. intros [= <-] Hk. apply Hb.
  by destruct (sv_delegations d !! pk).
Qed.

Lemma authentic_announcement evs now pk a d :
  authentic evs d -> authentic evs (cache_announcement now pk a d).
Proof.
  intros Ha. apply (authentic_shrink _ d); cbn; try done.
  intros pk' r'. rewrite lookup_sql_update. destruct (sv_delegations d !! pk') as [r|]; [|done].
  cbn. intros [= <-]. exists r. split; [done|]. by case_match.
Qed.

(** A registration by the event [EvRegister now outcome req]. *)
Lemma authentic_register `{!SerdeLaws SigningKeyDelegation} evs now outcome req d :
  authentic evs d -> EvRegister now outcome req ∈ evs -> verify_registration_signature req = Ok tt ->
  authentic evs (register_user now (rr_master_pubkey req) (visibility_to_string (rr_visibility req))
    None (Some (rr_transport_node_id req)) (Some (to_json (rr_delegation req))) d).
Proof.
  intros Ha Hev Hsig. unfold register_user. rewrite from_to_json. apply authentic_delegation.
  - apply authentic_registrations; [done|]. intros pk' Hs. rewrite lookup_upsert. by case_decide.
  - intros key Hk. by eapply bound_registered.
Qed.

(** ** Content *)

Lemma content_signer_bound evs d author :
  authentic evs d ->
  forall J, triple J (content_signer d author)
    (fun o => forall key, o = Some key -> bound evs author key).
Proof.
  intros Ha J. unfold content_signer, get_peer_signing_pubkey.
  destruct (sv_delegations d !! author) as [r|] eqn:Er; cbn.
  - destruct (pk_parse (sd_signing_pubkey r)) as [key|e] eqn:Ek.
    + apply triple_ret. intros ? [= <-]. by eapply au_delegations.
    + run_triple. done.
  - apply triple_ret. intros key Hk. apply bound_self. by destruct (pk_parse author); simplify_eq/=.
Qed.

Lemma ingest_post_authentic evs now post : triple (authentic evs) (ingest_post now post) anything.
Proof.
  unfold ingest_post. destruct (validate_post now post) as [[]|] eqn:Ev; cbn [is_ok]; [|by run_triple].
  apply triple_get. intros d Hd. eapply triple_bind; [by apply content_signer_bound|].
  intros [signer|] Hs; [|by run_triple].
  destruct (verify_post_signature post signer) as [[]|] eqn:Es; cbn [is_ok]; [|by run_triple].
  eapply triple_bind; [apply triple_statement|by run_triple].
  intros d1 d2 stored [P1 P2 P3 P4 P5]. unfold insert_post. case_decide; [by intros [= <- _]|].
  unfold has_registration. case_bool_decide as Hreg; cbn; [|done]. intros [= <- _]. split; try done; cbn.
  - intros k row. rewrite lookup_insert. case_decide as Hk; [|apply P1]. intros [= <-].
    exists now, post, signer. split_and!; try done. by apply Hs.
  - intros k row. rewrite lookup_insert. case_decide as Hk; [|apply P4]. intros _. by subst k.
Qed.

Lemma ingest_interaction_authentic evs now i :
  triple (authentic evs) (ingest_interaction now i) anything.
Proof.
  unfold ingest_interaction.
  destruct (validate_interaction now i) as [[]|] eqn:Ev; cbn [is_ok]; [|by run_triple].
  apply triple_get. intros d Hd. eapply triple_bind; [by apply content_signer_bound|].
  intros [signer|] Hs; [|by run_triple].
  destruct (verify_interaction_signature i signer) as [[]|] eqn:Es; cbn [is_ok]; [|by run_triple].
  eapply triple_bind; [apply triple_statement|by run_triple].
  intros d1 d2 stored [P1 P2 P3 P4 P5]. unfold insert_interaction.
  case_decide; [by intros [= <- _]|].
  unfold has_registration. case_bool_decide as Hreg; cbn; [|done]. intros [= <- _]. split; try done; cbn.
  - intros k row. rewrite lookup_insert. case_decide as Hk; [|apply P2]. intros [= <-].
    exists now, i, signer. split_and!; try done. by apply Hs.
  - intros k row. rewrite lookup_insert. case_decide as Hk; [|apply P5]. intros _. by subst k.
Qed.

(** ** Every event keeps the origin of content *)

Lemma unless_bad_signature_triple J pk verify k :
  triple J k anything -> triple J (unless_bad_signature pk verify k) anything.
Proof.
  intros Hk. unfold unless_bad_signature. apply triple_get. intros d _.
  eapply (triple_bind _ _ _ anything).
  - unfold resolve_signer. run_triple; done.
  - intros [signer|] _; [|done]. run_triple; done.
Qed.

Lemma authentic_prune evs t d : authentic evs d -> authentic evs (prune_old_posts t d).1.
Proof. intros Ha. apply (authentic_shrink _ d); cbn; try done; [apply sql_delete_subseteq|eauto]. Qed.

Lemma gossip_authentic_step evs now pk msg :
  EvGossip now pk msg ∈ evs -> triple (authentic evs) (process_gossip_message now pk msg) anything.
Proof.
  intros Hev. destruct msg as [[post|id a sg|p|i|id a sg|a|r| | |]|]; cbn [process_gossip_message];
    try (by run_triple).
  - case_decide; [by run_triple|]. apply ingest_post_authentic.
  - unfold gossip_delete_post. case_decide; [by run_triple|]. apply unless_bad_signature_triple.
    run_triple; try done. apply (authentic_shrink _ d0); cbn; try done; [apply delete_subseteq|eauto].
  - unfold gossip_profile_update. destruct (is_ok _); [|by run_triple].
    apply unless_bad_signature_triple. run_triple; try done;
      [by apply authentic_update_profile|by apply authentic_visibility].
  - case_decide; [by run_triple|]. apply ingest_interaction_authentic.
  - unfold gossip_delete_interaction. case_decide; [by run_triple|]. apply unless_bad_signature_triple.
    run_triple; try done. apply (authentic_shrink _ d); cbn; try done; [apply delete_subseteq|eauto].
  - unfold gossip_linked_devices. run_triple; try done. by apply authentic_announcement.
  - unfold gossip_rotation. case_decide as Hpk; [by run_triple|].
    destruct (verify_rotation r) as [[]|] eqn:Er; cbn [is_ok]; [|by run_triple].
    run_triple; try done.
    + apply authentic_delegation; [done|]. intros key Hk. by eapply bound_rotated.
    + apply authentic_registrations; [done|]. intros pk'. by rewrite sql_update_is_Some.
Qed.

Lemma take_posts_authentic evs now l p : triple (authentic evs) (take_posts now l p) anything.
Proof.
  revert p. induction l as [|post l IH]; intros p; cbn [take_posts]; [by run_triple|].
  eapply triple_bind; [apply ingest_post_authentic|]. intros _ _. apply IH.
Qed.
Lemma take_interactions_authentic evs now l p :
  triple (authentic evs) (take_interactions now l p) anything.
Proof.
  revert p. induction l as [|i l IH]; intros p; cbn [take_interactions]; [by run_triple|].
  eapply triple_bind; [apply ingest_interaction_authentic|]. intros _ _. apply IH.
Qed.
Lemma take_announcements_authentic evs now pk l :
  triple (authentic evs) (take_announcements now pk l) anything.
Proof.
  induction l as [|a l IH]; cbn [take_announcements]; [by run_triple|].
  eapply (triple_bind _ _ _ anything); [|intros _ _; apply IH].
  run_triple; try done. by apply authentic_announcement.
Qed.

Lemma take_frames_authentic evs fuel now pk stream p :
  triple (authentic evs) (take_frames fuel now pk stream p) anything.
Proof.
  revert stream p. induction fuel as [|fuel IH]; intros stream p; cbn [take_frames]; [by run_triple|].
  destruct (next_frame stream) as [[buf rest]|]; [|by run_triple].
  destruct (from_slice buf) as [frame|]; [|by run_triple].
  eapply (triple_bind _ _ _ anything); [|intros p' _; apply IH].
  destruct frame; cbn [take_frame].
  - apply take_posts_authentic.
  - apply take_interactions_authentic.
  - eapply triple_bind; [apply take_announcements_authentic|by run_triple].
Qed.

Lemma update_sync_state_authentic evs now pk a b d d' :
  authentic evs d -> update_sync_state now pk a b d = Ok d' -> authentic evs d'.
Proof.
  intros Ha. unfold update_sync_state. destruct (negb _); cbn; [done|]. intros [= <-].
  apply (authentic_shrink _ d); cbn; try done. eauto.
Qed.

(** The profile of a summary. *)
Lemma summary_profile_authentic evs now pk (profile : option Profile) d :
  authentic evs d ->
  authentic evs (match profile with
                 | Some profile =>
                     if is_ok (validate_profile profile) then (update_profile now pk profile d).1 else d
                 | None => d
                 end).
Proof. intros Hd. destruct profile; [|done]. destruct (is_ok _); [by apply authentic_update_profile|done]. Qed.

Lemma pull_authentic evs now peer pk :
  triple (authentic evs) (sync_from_peer_inner now peer pk) anything.
Proof.
  unfold sync_from_peer_inner. apply triple_get. intros d _.
  destruct (get_transport_node_id d pk) as [node|]; [|run_triple; done].
  destruct (pk_parse node) as [target|]; [|by run_triple].
  destruct (peer target _ _) as [[summary_bytes stream]|]; [|by run_triple].
  unfold sync_from_response. case_match; [by run_triple|].
  destruct (from_slice summary_bytes) as [summary|]; [|by run_triple].
  assert (forall now pk a b, triple (authentic evs) (statement (fun d =>
    d' ← update_sync_state now pk a b d; Ok (d', tt))) anything) as Hsync.
  { intros. apply triple_statement. intros d1 d2 [] Hd1. rewrite bind_Ok.
    intros (d3 & E & [= <-]). by eapply update_sync_state_authentic. }
  eapply triple_bind; [apply triple_modify; intros d1; apply summary_profile_authentic|intros _ _].
  case_decide.
  - eapply triple_bind; [apply Hsync|by run_triple].
  - eapply triple_bind; [apply take_frames_authentic|]. intros p' _.
    eapply triple_bind; [apply Hsync|by run_triple].
Qed.

Lemma interrupted_authentic evs now pk summary_bytes stream :
  triple (authentic evs) (interrupted_response now pk summary_bytes stream) anything.
Proof.
  unfold interrupted_response. case_match; [by run_triple|].
  destruct (from_slice summary_bytes) as [summary|]; [|by run_triple].
  eapply triple_bind; [apply triple_modify; intros d1; apply summary_profile_authentic|intros _ _].
  eapply triple_bind; [apply take_frames_authentic|by run_triple].
Qed.

Lemma sync_one_authentic evs now late peer pk :
  triple (authentic evs) (sync_one now late peer pk) anything.
Proof.
  unfold sync_one. eapply (triple_bind _ _ _ anything).
  - unfold sync_from_peer. apply triple_get. intros d _. destruct (_ ≫= _) as [target|]; [|apply pull_authentic].
    destruct late; [|apply pull_authentic]. eapply (triple_bind _ _ _ anything); [|by run_triple].
    destruct (peer _ _ _) as [[??]|]; [apply interrupted_authentic|by run_triple].
  - intros [[posts interactions]|] _; [|by run_triple]. destruct (_ || _); by run_triple.
Qed.

Lemma periodic_authentic evs now late peer :
  triple (authentic evs) (periodic_round now late peer) anything.
Proof.
  unfold periodic_round. apply triple_get. intros d _. induction (get_active_public_pubkeys d) as [|pk l IH];
    cbn [sync_each]; [by run_triple|]. eapply triple_bind; [apply sync_one_authentic|]. intros _ _. exact IH.
Qed.

Lemma subscribe_db outcome pk s : st_db (subscribe outcome pk s).1 = st_db s.
Proof.
  unfold subscribe. case_decide; [done|]. destruct (_ ≫= _); [|by unfold log_id; cbn; destruct (short_id pk)].
  destruct outcome; [|done]. unfold mbind, task_bind, log_id. by destruct (short_id pk).
Qed.

Lemma subscribe_all_db subscribed l s : st_db (subscribe_all subscribed l s).1 = st_db s.
Proof.
  revert s. induction l as [|pk l IH]; intros s; [done|]. cbn [subscribe_all]. unfold mbind, task_bind.
  pose proof (subscribe_db (subscribed pk) pk s) as E.
  destruct (subscribe (subscribed pk) pk s) as [s1 [r|]]; [|done]. cbn in E.
  destruct r; unfold log_id; [|destruct (short_id pk)]; cbn; rewrite ?IH; done.
Qed.
Lemma restart_db subscribed startup d : st_db (restart subscribed startup d).1 = d.
Proof.
  unfold restart, start, mbind, task_bind, get_server. cbn [st_db].
  pose proof (subscribe_all_db subscribed (get_active_public_pubkeys d) {| st_db := d; st_subscriptions := ∅ |}) as E.
  by destruct (subscribe_all _ _ _) as [s1 [r|]].
Qed.

Lemma register_authentic `{!SerdeLaws SigningKeyDelegation} evs now config outcome req :
  EvRegister now outcome req ∈ evs -> triple (authentic evs) (register now config outcome req) anything.
Proof.
  intros Hev. unfold register. case_decide; [by run_triple|].
  destruct (validate_registration now config req) as [[]|] eqn:Ev; [|by run_triple].
  assert (verify_registration_signature req = Ok tt) as Hsig.
  { unfold validate_registration, checked in Ev. by destruct (verify_registration_signature req) as [[]|]. }
  assert (triple (authentic evs) (store_registration now req) anything) as Hst.
  { apply triple_modify. intros d Hd. by apply (authentic_register _ _ outcome). }
  apply triple_get. intros d _. destruct (get_registration d _).
  - eapply triple_bind; [apply Hst|by run_triple].
  - eapply triple_bind; [apply Hst|]. intros _ _. eapply (triple_bind _ _ _ anything); [|by run_triple].
    case_decide; [|by run_triple]. eapply (triple_bind _ _ _ anything); [|run_triple; done].
    intros s Hs. rewrite subscribe_db. by split.
Qed.

Lemma unregister_authentic evs req : triple (authentic evs) (unregister req) anything.
Proof.
  unfold unregister. case_decide; [by run_triple|]. destruct (checked _); [|by run_triple].
  eapply (triple_bind _ _ _ anything).
  - intros s Hs. unfold unsubscribe. case_decide; by split.
  - intros _ _. run_triple; try done. by apply authentic_unregister.
Qed.

Lemma profile_authentic evs now req : triple (authentic evs) (update_profile_request now req) anything.
Proof.
  unfold update_profile_request. destruct (visibility_from_str _) as [v|]; [|by run_triple].
  destruct (checked _); [|by run_triple]. intros s Hs.
  cbn -[update_profile]. split; [by apply authentic_update_profile|done].
Qed.

Lemma reach_authentic `{!SerdeLaws SigningKeyDelegation} config evs s :
  reach config evs s -> authentic evs (st_db s).
Proof.
  induction 1 as [|evs s e Hr IH Hsub].
  { split; cbn; intros *; rewrite lookup_empty; done. }
  assert (e ∈ e :: evs) as He by left.
  assert (authentic (e :: evs) (st_db s)) as Ha by (eapply authentic_mono; [|done]; set_solver).
  destruct e; cbn [run_event]; [..|by rewrite restart_db]; eapply triple_db; try done.
  - by apply register_authentic.
  - apply unregister_authentic.
  - apply profile_authentic.
  - by apply gossip_authentic_step.
  - apply sync_one_authentic.
  - apply periodic_authentic.
  - apply triple_modify. intros d. apply authentic_prune.
Qed.

(** C27: whatever its users and their nodes send, every post and like the server
    has was valid when it came in, carries a signature of its author's name and
    its content by a key that some event had bound to that name, and belongs to
    a registered user.  (What binding a key takes is the next theorem.) *)
Theorem server_authentic `{!SerdeLaws SigningKeyDelegation} (config : ServerConfig)
    (evs : list event) (s : ServerState) (Hreach : reach config evs s) :
  (forall k row, sv_posts (st_db s) !! k = Some row ->
     is_Some (sv_registrations (st_db s) !! k.1) /\
     exists now post key, row = stored_post now post /\ k = (post_author post, post_id post) /\
       validate_post now post = Ok tt /\ verify_post_signature post key = Ok tt /\
       bound evs (post_author post) key) /\
  (forall k row, sv_interactions (st_db s) !! k = Some row ->
     is_Some (sv_registrations (st_db s) !! k.1) /\
     exists now i key, row = stored_interaction now i /\ k = (in_author i, in_id i) /\
       validate_interaction now i = Ok tt /\ verify_interaction_signature i key = Ok tt /\
       bound evs (in_author i) key).
Proof.
  apply reach_authentic in Hreach as [P1 P2 P3 P4 P5].
  split; intros k row Hr; (split; [by eauto|]); [by apply P1|by apply P2].
Qed.
End server.

(** ** What a registration proves *)

Section takeover.
Context `{Ed25519, !Ed25519Laws, HexCodec, !HexLaws, JsonCodec, !Serde (list MediaAttachment),
  !Serde SigningKeyDelegation, !SerdeLaws SigningKeyDelegation, !Serde (list string),
  !Serde LinkedDevicesAnnouncement}.

(** A registration for [victim] by the holder of [k]; nobody signed its delegation. *)
Definition forged_registration (k : SecretKey) (victim node server_url : string) (timestamp : Z)
    (visibility : Visibility) : RegistrationRequest :=
  {| rr_master_pubkey := victim; rr_transport_node_id := node; rr_server_url := server_url;
     rr_timestamp := timestamp; rr_visibility := visibility; rr_action := None;
     rr_signature := sign_registration
       {| rp_master_pubkey := victim; rp_transport_node_id := node; rp_server_url := server_url;
          rp_timestamp := timestamp; rp_visibility := visibility; rp_action := None |} k;
     rr_delegation := {| dl_master_pubkey := victim;
       dl_signing_pubkey := pk_to_string (sk_public k); dl_key_index := 0; dl_dm_pubkey := "";
       dl_dm_key_index := 0; dl_issued_at := 0; dl_signature := "" |} |}.

Lemma forged_registration_verifies k victim node url t v :
  verify_registration_signature (forged_registration k victim node url t v) = Ok tt.
Proof.
  unfold verify_registration_signature, forged_registration, sign_registration. cbn.
  rewrite hex_to_signature_to_hex. cbn. rewrite parse_pubkey_to_string. cbn. by rewrite verify_or_sign.
Qed.

(** What [register] stores when it accepts. *)
Definition registered (now : Z) (req : RegistrationRequest) (d : ServerDb) : ServerDb :=
  register_user now (rr_master_pubkey req) (visibility_to_string (rr_visibility req)) None
    (Some (rr_transport_node_id req)) (Some (to_json (rr_delegation req))) d.

Lemma subscribe_total outcome pk s :
  is_Some (short_id pk) -> exists s' r, subscribe outcome pk s = (s', Some r) /\ st_db s' = st_db s.
Proof.
  intros [x Hx]. unfold subscribe. case_decide; [by eexists _, _|].
  destruct (_ ≫= _); unfold mbind, task_bind, log_id; [destruct outcome|]; rewrite ?Hx; by eexists _, _.
Qed.

Lemma register_accepts now config outcome req s :
  rr_action req <> Some "unregister"%string -> validate_registration now config req = Ok tt ->
  is_Some (short_id (rr_master_pubkey req)) ->
  exists s' r, register now config outcome req s = (s', Some (Ok r)) /\
    st_db s' = registered now req (st_db s).
Proof.
  intros Ha Hv Hid. unfold register. rewrite decide_False by done. rewrite Hv.
  unfold mbind at 1, task_bind at 1, get_server.
  set (s1 := {| st_db := registered now req (st_db s); st_subscriptions := st_subscriptions s |}).
  assert (store_registration now req s = (s1, Some tt)) as Hst by done.
  destruct (get_registration (st_db s) (rr_master_pubkey req)).
  - unfold mbind, task_bind. rewrite Hst. by eexists _, _.
  - unfold mbind at 1, task_bind at 1. rewrite Hst. case_decide.
    + destruct (subscribe_total outcome (rr_master_pubkey req) s1 Hid) as (s2 & r & E & Edb).
      destruct Hid as [x Hx]. unfold mbind, task_bind. rewrite E.
      destruct r; unfold log_id; rewrite ?Hx; by eexists _, _.
    + by eexists _, _.
Qed.

(** It is stored whatever becomes of the request afterwards. *)
Lemma register_stores now config outcome req s :
  rr_action req <> Some "unregister"%string -> validate_registration now config req = Ok tt ->
  st_db (register now config outcome req s).1 = registered now req (st_db s).
Proof.
  intros Ha Hv. unfold register. rewrite decide_False by done. rewrite Hv.
  unfold mbind at 1, task_bind at 1, get_server.
  set (s1 := {| st_db := registered now req (st_db s); st_subscriptions := st_subscriptions s |}).
  assert (store_registration now req s = (s1, Some tt)) as Hst by done.
  destruct (get_registration (st_db s) (rr_master_pubkey req)); unfold mbind at 1, task_bind at 1;
    rewrite Hst; [done|].
  case_decide; [|done]. unfold mbind, task_bind.
  pose proof (subscribe_db outcome (rr_master_pubkey req) s1) as E.
  destruct (subscribe outcome (rr_master_pubkey req) s1) as [s2 [[r|e]|]]; cbn in E |- *; [done| |done].
  unfold log_id. by destruct (short_id (rr_master_pubkey req)).
Qed.

Lemma registered_key now req d :
  get_peer_signing_pubkey (registered now req d) (rr_master_pubkey req) =
    Some (dl_signing_pubkey (rr_delegation req)).
Proof.
  unfold registered, register_user. rewrite from_to_json. unfold get_peer_signing_pubkey. cbn.
  rewrite lookup_upsert, decide_True by done. by destruct (sv_delegations d !! _).
Qed.
Lemma registered_row now req d :
  is_Some (sv_registrations (registered now req d) !! rr_master_pubkey req).
Proof.
  unfold registered, register_user. rewrite from_to_json. cbn. by rewrite lookup_upsert, decide_True.
Qed.

Lemma registered_public now req d :
  rr_visibility req = Public -> public_author (registered now req d) (rr_master_pubkey req) = true.
Proof.
  intros Hv. unfold registered, register_user. rewrite from_to_json. unfold public_author. cbn.
  rewrite lookup_upsert, decide_True by done. rewrite Hv. by destruct (sv_registrations d !! _).
Qed.

(** A forged registration in time is valid. *)
Lemma forged_registration_valid config k victim node now v :
  cf_registration_open config = true -> v <> Private ->
  validate_registration now config (forged_registration k victim node (cf_public_url config) now v) = Ok tt.
Proof.
  intros Hopen Hv. unfold validate_registration. rewrite forged_registration_verifies. cbn.
  rewrite Z.sub_diag. change (TIMESTAMP_TOLERANCE_MS <? Z.abs 0) with false. cbn.
  rewrite !bool_decide_false by tauto. cbn. by rewrite Hopen.
Qed.

(** A post on its author's topic, by the cached key. *)
Lemma ingest_post_cached now post s key :
  get_peer_signing_pubkey (st_db s) (post_author post) = Some (pk_to_string key) ->
  is_Some (sv_registrations (st_db s) !! post_author post) ->
  process_gossip_message now (post_author post) (Some (NewPost post)) s =
    if is_ok (validate_post now post) && is_ok (verify_post_signature post key) &&
       bool_decide (sv_posts (st_db s) !! (post_author post, post_id post) = None)
    then log_id (post_author post)
           {| st_db := set_server_posts (<[(post_author post, post_id post) := stored_post now post]>
                         (sv_posts (st_db s))) (st_db s);
              st_subscriptions := st_subscriptions s |}
    else (s, Some tt).
Proof.
  intros Hkey Hreg. cbn [process_gossip_message]. rewrite decide_False by tauto.
  unfold ingest_post. destruct (is_ok (validate_post now post)); [|done].
  unfold mbind at 1, task_bind at 1, get_server. unfold content_signer. rewrite Hkey, pk_parse_to_string.
  unfold mbind at 1, task_bind at 1, mret, task_ret. destruct (is_ok (verify_post_signature post key)); [|done].
  unfold mbind, task_bind, statement, insert_post, has_registration.
  destruct (sv_posts (st_db s) !! (post_author post, post_id post)) as [r|] eqn:Er.
  - rewrite decide_True by done. cbn. by destruct s.
  - rewrite decide_False by (by intros []). cbn [andb]. rewrite !bool_decide_true by done.
    cbn [negb bail_if result_bind mbind]. done.
Qed.

(** registering proves only possession of some key: the server verifies the
    signature of a registration with the key in its own delegation, and never
    the signature of the master key on that delegation.  Whoever sends a
    registration that names another user becomes that user's signing key: what
    it signs is stored as the user's, and what the user signs is dropped. *)
Theorem server_takeover (now : Z) (config : ServerConfig) (outcome : result AppError unit)
    (k : SecretKey) (victim node : string) (v : Visibility) (s : ServerState)
    (Hopen : cf_registration_open config = true) (Hv : v <> Private)
    (Hlog : is_Some (short_id victim)) :
  let req := forged_registration k victim node (cf_public_url config) now v in
  verify_delegation (rr_delegation req) <> Ok tt /\
  exists s' response, register now config outcome req s = (s', Some (Ok response)) /\
    get_peer_signing_pubkey (st_db s') victim = Some (pk_to_string (sk_public k)) /\
    (forall now' post, post_author post = victim -> validate_post now' post = Ok tt ->
       verify_post_signature post (sk_public k) = Ok tt ->
       sv_posts (st_db s') !! (victim, post_id post) = None ->
       exists s'', process_gossip_message now' victim (Some (NewPost post)) s' = (s'', Some tt) /\
         sv_posts (st_db s'') !! (victim, post_id post) = Some (stored_post now' post)) /\
    (forall now' post, post_author post = victim -> verify_post_signature post (sk_public k) <> Ok tt ->
       process_gossip_message now' victim (Some (NewPost post)) s' = (s', Some tt)).
Proof.
  intros req. split; [by vm_compute|].
  destruct (register_accepts now config outcome req s) as (s' & r & E & Edb);
    [done|by apply forged_registration_valid|done|].
  exists s', r. split; [done|].
  assert (get_peer_signing_pubkey (st_db s') victim = Some (pk_to_string (sk_public k))) as Hkey.
  { rewrite Edb. apply (registered_key now req). }
  assert (is_Some (sv_registrations (st_db s') !! victim)) as Hreg.
  { rewrite Edb. apply (registered_row now req). }
  split; [done|]. destruct Hlog as [x Hx]. split.
  - intros now' post <- Hval Hsig Hnone. rewrite (ingest_post_cached _ _ _ _ Hkey Hreg).
    rewrite Hval, Hsig, bool_decide_true by done. cbn [is_ok andb]. unfold log_id. rewrite Hx.
    eexists. split; [done|]. cbn. by rewrite lookup_insert_eq.
  - intros now' post <- Hsig. rewrite (ingest_post_cached _ _ _ _ Hkey Hreg).
    destruct (verify_post_signature post (sk_public k)) as [[]|]; [done|]. by rewrite andb_false_r.
Qed.
End takeover.

(** ** What a topic can touch *)

(** [d'] differs from [d] only in rows of [pk]. *)
Record only_rows_of (pk : string) (d d' : ServerDb) : Prop := {
  or_registrations k : k <> pk -> sv_registrations d' !! k = sv_registrations d !! k;
  or_posts a id : a <> pk -> sv_posts d' !! (a, id) = sv_posts d !! (a, id);
  or_interactions a id : a <> pk -> sv_interactions d' !! (a, id) = sv_interactions d !! (a, id);
  or_sync_state k : k <> pk -> sv_sync_state d' !! k = sv_sync_state d !! k;
  or_delegations k : k <> pk -> sv_delegations d' !! k = sv_delegations d !! k;
  or_announcements k : k <> pk -> sv_announcements d' !! k = sv_announcements d !! k;
}.

Lemma only_rows_refl pk d : only_rows_of pk d d.
Proof. by split. Qed.

Lemma sql_update_key {K R} `{Countable K} k0 (P : K * R -> bool) upd (t : gmap K R) k :
  (forall r, P (k, r) = true -> k = k0) -> k <> k0 -> sql_update P upd t !! k = t !! k.
Proof.
  intros Hp Hk. rewrite lookup_sql_update. destruct (t !! k) as [r|]; [|done]. cbn.
  destruct (P (k, r)) eqn:E; [|done]. by apply Hp in E.
Qed.

Lemma active_row_key pk k r : active_row pk (k, r) = true -> k = pk.
Proof. unfold active_row. by intros [?%bool_decide_eq_true _]%andb_prop. Qed.

Section isolation.
Context `{Ed25519, HexCodec, JsonCodec, !Serde (list MediaAttachment), !Serde SigningKeyDelegation,
  !Serde (list string), !Serde LinkedDevicesAnnouncement}.
Context (pk : string) (d0 : ServerDb).

Lemma only_rows_delete_content d : only_rows_of pk d0 d -> only_rows_of pk d0 (delete_content pk d).
Proof.
  intros [O1 O2 O3 O4 O5 O6]. split; cbn; intros; eauto.
  - rewrite lookup_sql_delete, O2 by done. case_match; [|done]. by rewrite bool_decide_false.
  - rewrite lookup_sql_delete, O3 by done. case_match; [|done]. by rewrite bool_decide_false.
  - rewrite lookup_delete_ne by done. eauto.
Qed.

Lemma only_rows_update (P : string * Registration -> bool) upd d :
  (forall k r, P (k, r) = true -> k = pk) -> only_rows_of pk d0 d ->
  only_rows_of pk d0 (set_registrations (sql_update P upd (sv_registrations d)) d).
Proof.
  intros Hp [O1 O2 O3 O4 O5 O6]. split; cbn; intros; eauto. rewrite (sql_update_key pk) by eauto. eauto.
Qed.

Lemma key_is k {R} (r : R) : bool_decide ((k, r).1 = pk) = true -> k = pk.
Proof. apply bool_decide_eq_true_1. Qed.

Lemma only_rows_visibility v d :
  only_rows_of pk d0 d -> only_rows_of pk d0 (handle_visibility_change pk v d).
Proof.
  intros Ho. destruct v; cbn [handle_visibility_change]; apply only_rows_update; try done;
    try (intros k r; apply active_row_key); try (intros k r; apply key_is);
    by apply only_rows_delete_content.
Qed.

Lemma only_rows_posts t d :
  only_rows_of pk d0 d -> (forall a id, a <> pk -> t !! (a, id) = sv_posts d !! (a, id)) ->
  only_rows_of pk d0 (set_server_posts t d).
Proof. intros [O1 O2 O3 O4 O5 O6] Ht. split; cbn; intros; eauto. rewrite Ht; eauto. Qed.
Lemma only_rows_interactions t d :
  only_rows_of pk d0 d -> (forall a id, a <> pk -> t !! (a, id) = sv_interactions d !! (a, id)) ->
  only_rows_of pk d0 (set_server_interactions t d).
Proof. intros [O1 O2 O3 O4 O5 O6] Ht. split; cbn; intros; eauto. rewrite Ht; eauto. Qed.

Lemma only_rows_announcement now a d :
  only_rows_of pk d0 d -> only_rows_of pk d0 (cache_announcement now pk a d).
Proof.
  intros [O1 O2 O3 O4 O5 O6]. split; cbn; intros; eauto.
  - rewrite (sql_update_key pk); eauto. intros r. apply key_is.
  - rewrite lookup_insert_ne by done. eauto.
Qed.

Lemma only_rows_delegation now a b c d :
  only_rows_of pk d0 d -> only_rows_of pk d0 (cache_peer_delegation now pk a b c d).
Proof.
  intros [O1 O2 O3 O4 O5 O6]. split; cbn; intros; eauto. rewrite lookup_upsert, decide_False by done. eauto.
Qed.

Lemma content_signer_triple d author : triple (only_rows_of pk d0) (content_signer d author) anything.
Proof. unfold content_signer. run_triple; done. Qed.

Lemma task_post_isolated now post :
  post_author post = pk -> triple (only_rows_of pk d0) (ingest_post now post) anything.
Proof.
  intros Hpk. unfold ingest_post. destruct (is_ok _); [|by run_triple]. apply triple_get. intros d _.
  eapply triple_bind; [apply content_signer_triple|]. intros [signer|] _; [|by run_triple].
  destruct (is_ok _); [|by run_triple]. eapply triple_bind; [apply triple_statement|by run_triple].
  intros d1 d2 a Ho. unfold insert_post. case_decide; [by intros [= <- _]|].
  destruct (negb _); cbn; [done|]. intros [= <- _]. apply only_rows_posts; [done|].
  intros b id Hb. apply lookup_insert_ne. congruence.
Qed.
Lemma task_interaction_isolated now i :
  in_author i = pk -> triple (only_rows_of pk d0) (ingest_interaction now i) anything.
Proof.
  intros Hpk. unfold ingest_interaction. destruct (is_ok _); [|by run_triple]. apply triple_get. intros d _.
  eapply triple_bind; [apply content_signer_triple|]. intros [signer|] _; [|by run_triple].
  destruct (is_ok _); [|by run_triple]. eapply triple_bind; [apply triple_statement|by run_triple].
  intros d1 d2 a Ho. unfold insert_interaction. case_decide; [by intros [= <- _]|].
  destruct (negb _); cbn; [done|]. intros [= <- _]. apply only_rows_interactions; [done|].
  intros b id Hb. apply lookup_insert_ne. congruence.
Qed.

Lemma gossip_isolated_step now msg :
  triple (only_rows_of pk d0) (process_gossip_message now pk msg) anything.
Proof.
  destruct msg as [[post|id a sg|p|i|id a sg|a|r| | |]|]; cbn [process_gossip_message];
    try (by run_triple).
  - case_decide as E; [by run_triple|]. by apply task_post_isolated.
  - unfold gossip_delete_post. case_decide; [by run_triple|]. apply unless_bad_signature_triple.
    run_triple; try done. apply only_rows_posts; [done|]. intros b i Hb.
    apply lookup_delete_ne. congruence.
  - unfold gossip_profile_update. destruct (is_ok _); [|by run_triple].
    apply unless_bad_signature_triple. run_triple; try done; [|by apply only_rows_visibility].
    apply only_rows_update; [|done]. intros k r. apply active_row_key.
  - case_decide as E; [by run_triple|]. by apply task_interaction_isolated.
  - unfold gossip_delete_interaction. case_decide; [by run_triple|]. apply unless_bad_signature_triple.
    run_triple; try done. apply only_rows_interactions; [done|]. intros b i Hb.
    apply lookup_delete_ne. congruence.
  - unfold gossip_linked_devices. run_triple; try done. by apply only_rows_announcement.
  - unfold gossip_rotation. run_triple; try done; [by apply only_rows_delegation|].
    apply only_rows_update; [|done]. intros k r'. apply key_is.
Qed.
End isolation.

(** a message on the topic of a user changes only rows of that user, in every
    table, also when its handler panics. *)
Theorem server_gossip_isolated `{Ed25519, HexCodec, JsonCodec, !Serde (list MediaAttachment),
    !Serde SigningKeyDelegation, !Serde (list string), !Serde LinkedDevicesAnnouncement}
    (now : Z) (topic_owner : string) (msg : option GossipMessage) (s : ServerState) :
  only_rows_of topic_owner (st_db s) (st_db (process_gossip_message now topic_owner msg s).1).
Proof. eapply triple_db; [apply gossip_isolated_step|apply only_rows_refl]. Qed.

(** ** Replayed requests *)

Section replay.
Context `{Ed25519, HexCodec, JsonCodec, !Serde (list MediaAttachment), !Serde SigningKeyDelegation,
  !Serde (list string), !Serde LinkedDevicesAnnouncement, SqlOrder}.

(** The profile update that reuses the signature of [req]. *)
Definition replayed_profile (req : RegistrationRequest) (name bio avatar : option string)
    : ProfileUpdateRequest :=
  {| pu_master_pubkey := rr_master_pubkey req; pu_transport_node_id := rr_transport_node_id req;
     pu_server_url := rr_server_url req; pu_timestamp := rr_timestamp req;
     pu_visibility := visibility_to_string (rr_visibility req); pu_display_name := name;
     pu_bio := bio; pu_avatar_hash := avatar; pu_signature := rr_signature req;
     pu_delegation := rr_delegation req |}.

Lemma sql_count_row {K R} `{Countable K} (P : K * R -> bool) (t : gmap K R) k r :
  t !! k = Some r -> P (k, r) = true -> 0 < sql_count P t.
Proof.
  intros Hr Hp. unfold sql_count. apply elem_of_map_to_list in Hr.
  assert ((k, r) ∈ filter P (map_to_list t)) as Hin.
  { apply list_elem_of_filter. split; [by apply Is_true_true|done]. }
  destruct (filter P (map_to_list t)); [by apply elem_of_nil in Hin|cbn; lia].
Qed.

(** a request is not tied to its endpoint, nor, but for registering, to this
    server or its time.  Whoever has a registration that a user once signed for
    any server can set the user's name, biography, avatar and visibility here to
    anything, at any time; and whoever has a cancellation the user once signed
    for any server can have the user's content deleted here. *)
Theorem server_requests_replayed (now : Z) (req : RegistrationRequest) (s : ServerState)
    (row : Registration)
    (Hsigned : verify_registration_signature req = Ok tt)
    (Hrow : sv_registrations (st_db s) !! rr_master_pubkey req = Some row)
    (Hactive : rg_is_active row = 1) :
  (rr_action req = None -> forall name bio avatar, exists s',
     update_profile_request now (replayed_profile req name bio avatar) s =
       (s', Some (Ok "profile updated"%string)) /\
     exists row', sv_registrations (st_db s') !! rr_master_pubkey req = Some row' /\
       rg_display_name row' = Some (default EmptyString name) /\
       rg_bio row' = Some (default EmptyString bio) /\ rg_avatar_hash row' = avatar /\
       rg_visibility row' = visibility_to_string (rr_visibility req)) /\
  (rr_action req = Some "unregister"%string -> is_Some (short_id (rr_master_pubkey req)) ->
   exists s', unregister req s = (s', Some (Ok "unregistered successfully"%string)) /\
     get_registration (st_db s') (rr_master_pubkey req) = None /\
     (forall id, sv_posts (st_db s') !! (rr_master_pubkey req, id) = None) /\
     (forall id, sv_interactions (st_db s') !! (rr_master_pubkey req, id) = None)).
Proof.
  split.
  - intros Ha name bio avatar. unfold update_profile_request. cbn [replayed_profile pu_visibility].
    rewrite visibility_from_to_string.
    assert (profile_registration (replayed_profile req name bio avatar) (rr_visibility req) = req) as ->.
    { unfold profile_registration. cbn. rewrite <-Ha. by destruct req. }
    rewrite Hsigned. cbn [checked]. unfold mbind, task_bind, get_server. eexists.
    unfold update_profile. cbn [modify_server]. rewrite (proj2 (Z.ltb_lt _ _)).
    2: { eapply sql_count_row; [exact Hrow|]. unfold active_row. cbn. rewrite Hactive.
         by rewrite bool_decide_true. }
    split; [reflexivity|]. eexists. cbn. rewrite lookup_sql_update, Hrow. cbn.
    unfold active_row. cbn. rewrite Hactive, bool_decide_true by done. by split_and!.
  - intros Ha [x Hx]. unfold unregister. rewrite decide_False by tauto. rewrite Hsigned. cbn [checked].
    assert (exists s1, unsubscribe (rr_master_pubkey req) s = (s1, Some tt) /\ st_db s1 = st_db s)
      as (s1 & E & Edb).
    { unfold unsubscribe, log_id. case_decide; rewrite ?Hx; by eexists. }
    unfold mbind at 1, task_bind at 1. rewrite E. eexists. split; [reflexivity|]. cbn. rewrite Edb.
    split_and!.
    + unfold get_registration. cbn. rewrite lookup_sql_update, Hrow. cbn.
      by rewrite bool_decide_true.
    + intros id. rewrite lookup_sql_delete. case_match; [|done]. by rewrite bool_decide_true.
    + intros id. rewrite lookup_sql_delete. case_match; [|done]. by rewrite bool_decide_true.
Qed.
End replay.

(** ** Witnesses *)

Definition toy_config : ServerConfig := {| cf_public_url := "here"; cf_registration_open := true |}.
Definition server_start : ServerState := {| st_db := empty_server; st_subscriptions := ∅ |}.
(** Alice's own registration, and Mallory's in her name. *)
Definition alice_request : RegistrationRequest :=
  forged_registration "alice" "kalice" "knode" "here" 1000 Public.
Definition alice_registered : ServerState := (register 1000 toy_config (Ok tt) alice_request server_start).1.
Definition alice_posts : GossipMessage := NewPost (sign_post sample_post "alice").
Definition alice_posted : ServerState :=
  (process_gossip_message 1000 "kalice" (Some alice_posts) alice_registered).1.

Lemma server_authentic_witness :
  exists row, sv_posts (st_db alice_posted) !! ("kalice", "p1")%string = Some row /\
    exists now post key, row = stored_post now post /\
      bound [EvGossip 1000 "kalice" (Some alice_posts); EvRegister 1000 (Ok tt) alice_request]
        (post_author post) key.
Proof.
  assert (reach toy_config [EvGossip 1000 "kalice" (Some alice_posts);
    EvRegister 1000 (Ok tt) alice_request] alice_posted) as Hr.
  { apply (reach_event toy_config _ alice_registered (EvGossip 1000 "kalice" (Some alice_posts))).
    - apply (reach_event toy_config [] server_start (EvRegister 1000 (Ok tt) alice_request)).
      + apply reach_start.
      + exact I.
    - apply (bool_decide_unpack _). vm_compute. exact I. }
  destruct (server_authentic toy_config _ alice_posted Hr) as [Hp _].
  destruct (sv_posts (st_db alice_posted) !! ("kalice", "p1")%string) as [row|] eqn:E.
  - exists row. split; [reflexivity|]. destruct (Hp _ row E) as (_ & now & post & key & E1 & _ & _ & _ & Hb).
    exists now, post, key. split; [exact E1|exact Hb].
  - exfalso. vm_compute in E. discriminate E.
Defined.

Definition mallory_request : RegistrationRequest :=
  forged_registration "mallory" "kalice" "kevil" "here" 1000 Public.
Definition mallory_post : Post := sign_post sample_post "mallory".

(** Alice is registered; Mallory takes her name over and posts as her. *)
Lemma server_takeover_witness :
  exists s' response s'', register 1000 toy_config (Ok tt) mallory_request alice_registered =
      (s', Some (Ok response)) /\
    process_gossip_message 1000 "kalice" (Some (NewPost mallory_post)) s' = (s'', Some tt) /\
    sv_posts (st_db s'') !! ("kalice", "p1")%string = Some (stored_post 1000 mallory_post).
Proof.
  pose proof (server_takeover 1000 toy_config (Ok tt) "mallory" "kalice" "kevil" Public alice_registered)
    as Ht.
  destruct Ht as (_ & s' & response & E & _ & Hpost & _); [reflexivity|discriminate|by eexists|].
  assert (s' = (register 1000 toy_config (Ok tt) mallory_request alice_registered).1) as Es
    by (pose proof (f_equal fst E) as E'; exact (eq_sym E')).
  destruct (Hpost 1000 mallory_post) as (s'' & E2 & E3).
  - reflexivity.
  - vm_compute. reflexivity.
  - vm_compute. reflexivity.
  - rewrite Es. vm_compute. reflexivity.
  - exists s', response, s''. split; [exact E|]. split; [exact E2|exact E3].
Defined.

(** A registration Alice signed for another server long ago. *)
Definition elsewhere : RegistrationRequest :=
  forged_registration "alice" "kalice" "knode" "elsewhere" 5 Listed.

Lemma server_requests_replayed_witness :
  exists s', update_profile_request 1000
      (replayed_profile elsewhere (Some "Mallory was here"%string) None None) alice_registered =
    (s', Some (Ok "profile updated"%string)).
Proof.
  destruct (sv_registrations (st_db alice_registered) !! "kalice"%string) as [row|] eqn:E;
    [|vm_compute in E; discriminate E].
  assert (rg_is_active row = 1) as Ha.
  { assert (rg_is_active <$> sv_registrations (st_db alice_registered) !! "kalice"%string = Some 1) as E1
      by (vm_compute; reflexivity).
    rewrite E in E1. by injection E1. }
  assert (verify_registration_signature elsewhere = Ok tt) as Hs by (vm_compute; reflexivity).
  destruct (server_requests_replayed 1000 elsewhere alice_registered row Hs E Ha) as [Hr _].
  destruct (Hr eq_refl (Some "Mallory was here"%string) None None) as (s' & E' & _).
  exists s'. exact E'.
Defined.
