(* ===== verification/ServerTheorems.v ===== *)
(** * Pulling, publishing and withdrawing on the community server

    The pull of a user's content from the user's own node, whose side is the
    modelled sync server of the client; what the public pages show; what is left
    when a user withdraws; and how one registration stops the server. *)

From S2P Require Import Prelude Text Types Ratchet Signing Concrete SigningTheorems Validation Store ConcreteStore Social Posts Interactions Notifications Peers Framing ConcreteWire Sync ContentTheorems GossipTheorems SyncTheorems Server ServerIngest ServerStart ServerApi ServerSafety.

Local Open Scope Z_scope.

(** ** Rows that are put where there is none *)

Section put.
Context {X K R : Type} `{Countable K} (key : X -> K) (row : X -> R) (ok : X -> bool).

Definition put_row (t : gmap K R) (x : X) : gmap K R :=
  if ok x && bool_decide (t !! key x = None) then <[key x := row x]> t else t.

Lemma put_row_cases t x k :
  put_row t x !! k = t !! k \/ (key x = k /\ ok x = true /\ t !! k = None /\ put_row t x !! k = Some (row x)).
Proof.
  unfold put_row. destruct (ok x) eqn:Eo; [|by left]. case_bool_decide as Hn; [|by left].
  cbn [andb]. destruct (decide (key x = k)) as [<-|Hk]; [right|left; by rewrite lookup_insert_ne].
  by rewrite lookup_insert_eq.
Qed.
Lemma put_rows_kept l t : t ⊆ fold_left put_row l t.
Proof.
  revert t. induction l as [|x l IH]; intros t; [done|]. cbn [fold_left]. etransitivity; [|apply IH].
  apply map_subseteq_spec. intros k r Hr. destruct (put_row_cases t x k) as [->|(_ & _ & Hn & _)]; congruence.
Qed.
Lemma put_rows_added l t k r :
  fold_left put_row l t !! k = Some r ->
  t !! k = Some r \/ exists x, x ∈ l /\ key x = k /\ ok x = true /\ r = row x.
Proof.
  revert t. induction l as [|x l IH]; intros t; cbn [fold_left]; [by left|].
  intros [Hr|(y & Hy & ? & ? & ?)]%IH; [|right; exists y; rewrite elem_of_cons; auto].
  destruct (put_row_cases t x k) as [E|(? & ? & _ & E)]; rewrite E in Hr; [by left|right].
  exists x. rewrite elem_of_cons. split_and!; [by left|done..|congruence].
Qed.
(** If all of [l] under a key have the same row, it is there. *)
Lemma put_rows_has l t x :
  x ∈ l -> ok x = true -> (forall y, y ∈ l -> key y = key x -> row y = row x) ->
  fold_left put_row l t !! key x = Some (default (row x) (t !! key x)).
Proof.
  intros Hin Ho. revert t. induction l as [|y l IH]; intros t Hsame; [by apply elem_of_nil in Hin|].
  cbn [fold_left]. destruct (put_row_cases t y (key x)) as [E|(Ek & _ & Hn & E)].
  - rewrite <-E. apply elem_of_cons in Hin as [<-|Hin]; [|apply IH; [done|]; intros z Hz; apply Hsame; by right].
    destruct (put_row t x !! key x) as [r|] eqn:Er; cbn.
    + by eapply lookup_weaken; [|apply put_rows_kept].
    + exfalso. revert E Er. unfold put_row. rewrite Ho. cbn [andb]. case_bool_decide as Hn; [|congruence].
      by rewrite lookup_insert_eq.
  - rewrite Hn. cbn. eapply lookup_weaken; [|apply put_rows_kept]. rewrite E. f_equal.
    apply Hsame; [by left|done].
Qed.
End put.

(** ** The pull *)

Section pull.
Context `{Ed25519, HexCodec, JsonCodec, SqlOrder, !SqlOrderLaws, !Serde (list MediaAttachment),
  !SerdeLaws (list MediaAttachment), !Serde SigningKeyDelegation, !Serde (list string),
  !Serde LinkedDevicesAnnouncement, !Wire SyncFrame, !WireLaws SyncFrame, !Wire (list string),
  !WireLaws (list string), !Wire SyncSummary, !WireLaws SyncSummary}.

(** The node of the user [pk] with database [d], as the server [remote] sees it. *)
Definition node_peer (d : Db) (pk remote : string) (stage : option StageAnnouncement)
    (_ : PublicKey) (req : SyncRequest) (ids : bytes) : result AppError (bytes * bytes) :=
  match handle_sync d pk remote req stage ids with
  | Some r => r
  | None => Err (Other "connection lost")
  end.

(** What ingesting does to the database, for content of [pk] under the cached [key]. *)
Definition put_post (now : Z) (key : PublicKey) (d : ServerDb) (post : Post) : ServerDb :=
  if is_ok (validate_post now post) && is_ok (verify_post_signature post key) &&
     bool_decide (sv_posts d !! (post_author post, post_id post) = None)
  then set_server_posts (<[(post_author post, post_id post) := Server.stored_post now post]> (sv_posts d)) d
  else d.
Definition put_interaction (now : Z) (key : PublicKey) (d : ServerDb) (i : Interaction) : ServerDb :=
  if is_ok (validate_interaction now i) && is_ok (verify_interaction_signature i key) &&
     bool_decide (sv_interactions d !! (in_author i, in_id i) = None)
  then set_server_interactions (<[(in_author i, in_id i) := Server.stored_interaction now i]>
         (sv_interactions d)) d
  else d.

Definition with_db (d : ServerDb) (s : ServerState) : ServerState :=
  {| st_db := d; st_subscriptions := st_subscriptions s |}.

(** The key of [pk] is cached, and [pk] is registered. *)
Record known_user (pk : string) (key : PublicKey) (d : ServerDb) : Prop := {
  ku_key : exists text, get_peer_signing_pubkey d pk = Some text /\ pk_parse text = Ok key;
  ku_row : is_Some (sv_registrations d !! pk);
}.

Lemma put_post_known pk key now k d post : known_user pk key d -> known_user pk key (put_post now k d post).
Proof. intros [K1 K2]. unfold put_post. by destruct (_ && _). Qed.
Lemma put_interaction_known pk key now k d i :
  known_user pk key d -> known_user pk key (put_interaction now k d i).
Proof. intros [K1 K2]. unfold put_interaction. by destruct (_ && _). Qed.

Lemma ingest_post_put now pk key post s :
  post_author post = pk -> known_user pk key (st_db s) -> is_Some (short_id pk) ->
  ingest_post now post s = (with_db (put_post now key (st_db s) post) s, Some tt).
Proof.
  intros <- [(text & Hkey & Hparse) Hreg] [x Hx]. unfold ingest_post, put_post.
  destruct (is_ok (validate_post now post)); [|by destruct s].
  unfold mbind at 1, task_bind at 1, get_server. unfold content_signer. rewrite Hkey, Hparse.
  unfold mbind at 1, task_bind at 1, mret, task_ret.
  destruct (is_ok (verify_post_signature post key)); [|by destruct s].
  unfold mbind, task_bind, statement, insert_post, has_registration. cbn [andb].
  destruct (sv_posts (st_db s) !! (post_author post, post_id post)) as [r|] eqn:Er.
  - rewrite decide_True by done. cbn. by destruct s.
  - rewrite decide_False by (by intros []). rewrite !bool_decide_true by done.
    cbn [negb bail_if result_bind mbind]. unfold log_id. by rewrite Hx.
Qed.
Lemma ingest_interaction_put now pk key i s :
  in_author i = pk -> known_user pk key (st_db s) -> is_Some (short_id pk) ->
  ingest_interaction now i s = (with_db (put_interaction now key (st_db s) i) s, Some tt).
Proof.
  intros <- [(text & Hkey & Hparse) Hreg] [x Hx]. unfold ingest_interaction, put_interaction.
  destruct (is_ok (validate_interaction now i)); [|by destruct s].
  unfold mbind at 1, task_bind at 1, get_server. unfold content_signer. rewrite Hkey, Hparse.
  unfold mbind at 1, task_bind at 1, mret, task_ret.
  destruct (is_ok (verify_interaction_signature i key)); [|by destruct s].
  unfold mbind, task_bind, statement, insert_interaction, has_registration. cbn [andb].
  destruct (sv_interactions (st_db s) !! (in_author i, in_id i)) as [r|] eqn:Er.
  - rewrite decide_True by done. cbn. by destruct s.
  - rewrite decide_False by (by intros []). rewrite !bool_decide_true by done.
    cbn [negb bail_if result_bind mbind]. unfold log_id. by rewrite Hx.
Qed.

(** The frames of a stream, one after the other. *)
Fixpoint take_all (now : Z) (pk : string) (fs : list SyncFrame) (p : progress) : task progress :=
  match fs with
  | [] => mret p
  | f :: fs => p ← ServerIngest.take_frame now pk f p; take_all now pk fs p
  end.

Lemma next_frame_write f rest :
  fits f -> next_frame (write_frame (to_vec f) ++ rest) = Some (to_vec f, rest).
Proof.
  unfold fits, MAX_FRAME_SIZE. intros Hf. unfold next_frame, write_frame. rewrite <-app_assoc.
  pose proof (read_exact_app (be_bytes 4 (as_u32 (Z.of_nat (length (to_vec f))))) (to_vec f ++ rest)) as E.
  rewrite length_be_bytes in E. rewrite E.
  rewrite from_be_be_bytes. unfold as_u32. change (256 ^ Z.of_nat 4) with (2 ^ 32).
  rewrite Z.mod_mod, Z.mod_small by lia.
  pose proof (to_vec_nonempty f) as Hne. destruct (to_vec f) as [|b l] eqn:El; [done|].
  rewrite decide_False by (cbn [length]; lia). rewrite Nat2Z.id. by rewrite read_exact_app.
Qed.
Lemma next_frame_end rest : next_frame (write_frame [] ++ rest) = None.
Proof. done. Qed.

Lemma take_frames_stream now pk fs fuel p s :
  Forall fits fs -> (length fs < fuel)%nat ->
  take_frames fuel now pk (concat ((fun f => write_frame (to_vec f)) <$> fs) ++ write_frame []) p s =
    take_all now pk fs p s.
Proof.
  intros Hfs. revert fuel p s. induction Hfs as [|f fs Hf _ IH]; intros [|fuel] p s Hfuel;
    try (cbn in Hfuel; lia).
  - cbn [take_frames fmap list_fmap concat app]. rewrite <-(app_nil_r (write_frame [])).
    by rewrite next_frame_end.
  - cbn [take_frames fmap list_fmap concat take_all]. rewrite <-app_assoc, next_frame_write by done.
    rewrite from_to_vec. unfold mbind, task_bind.
    destruct (ServerIngest.take_frame now pk f p s) as [s' [p'|]]; [|done].
    apply IH. cbn in Hfuel. lia.
Qed.

Section user.
Context (now : Z) (pk : string) (key : PublicKey) (Hlog : is_Some (short_id pk)).

Lemma take_posts_run l p s :
  Forall (fun post => post_author post = pk) l -> known_user pk key (st_db s) ->
  exists p', ServerIngest.take_posts now l p s =
    (with_db (fold_left (put_post now key) l (st_db s)) s, Some p').
Proof.
  intros Hl. revert p s. induction Hl as [|post l Hp _ IH]; intros p s Hk.
  - eexists. cbn. by destruct s.
  - cbn [ServerIngest.take_posts fold_left]. unfold mbind at 1, task_bind at 1.
    rewrite (ingest_post_put now pk key) by done.
    destruct (IH {| pg_post_count := pg_post_count p + 1; pg_interaction_count := pg_interaction_count p;
           pg_last_post := newest (pg_last_post p) (as_i64 (post_timestamp post));
           pg_last_int := pg_last_int p |} (with_db (put_post now key (st_db s) post) s)) as [p' E].
    { by apply put_post_known. }
    exists p'. rewrite E. done.
Qed.
Lemma take_interactions_run l p s :
  Forall (fun i => in_author i = pk) l -> known_user pk key (st_db s) ->
  exists p', ServerIngest.take_interactions now l p s =
    (with_db (fold_left (put_interaction now key) l (st_db s)) s, Some p').
Proof.
  intros Hl. revert p s. induction Hl as [|i l Hp _ IH]; intros p s Hk.
  - eexists. cbn. by destruct s.
  - cbn [ServerIngest.take_interactions fold_left]. unfold mbind at 1, task_bind at 1.
    rewrite (ingest_interaction_put now pk key) by done.
    destruct (IH {| pg_post_count := pg_post_count p; pg_interaction_count := pg_interaction_count p + 1;
           pg_last_post := pg_last_post p;
           pg_last_int := newest (pg_last_int p) (as_i64 (in_timestamp i)) |}
      (with_db (put_interaction now key (st_db s) i) s)) as [p' E].
    { by apply put_interaction_known. }
    exists p'. rewrite E. done.
Qed.

Lemma fold_put_post_known l d : known_user pk key d -> known_user pk key (fold_left (put_post now key) l d).
Proof. revert d. induction l as [|p l IH]; intros d Hk; [done|]. by apply IH, put_post_known. Qed.
Lemma fold_put_interaction_known l d :
  known_user pk key d -> known_user pk key (fold_left (put_interaction now key) l d).
Proof. revert d. induction l as [|p l IH]; intros d Hk; [done|]. by apply IH, put_interaction_known. Qed.

Lemma take_all_run pbs ibs p s :
  Forall (Forall (fun post => post_author post = pk)) pbs ->
  Forall (Forall (fun i => in_author i = pk)) ibs -> known_user pk key (st_db s) ->
  exists p', take_all now pk ((SfPosts <$> pbs) ++ (SfInteractions <$> ibs)) p s =
    (with_db (fold_left (put_interaction now key) (concat ibs)
                (fold_left (put_post now key) (concat pbs) (st_db s))) s, Some p').
Proof.
  intros Hps His. revert p s. induction Hps as [|b pbs Hb _ IH].
  - cbn [fmap list_fmap app concat fold_left]. induction His as [|b ibs Hb _ IH]; intros p s Hk.
    { eexists. cbn. by destruct s. }
    cbn [fmap list_fmap take_all ServerIngest.take_frame concat]. unfold mbind at 1, task_bind at 1.
    destruct (take_interactions_run b p s Hb Hk) as [p1 ->].
    destruct (IH p1 (with_db (fold_left (put_interaction now key) b (st_db s)) s)) as [p2 E].
    { by apply fold_put_interaction_known. }
    exists p2. rewrite E, fold_left_app. done.
  - intros p s Hk. cbn [fmap list_fmap app take_all ServerIngest.take_frame concat].
    unfold mbind at 1, task_bind at 1. destruct (take_posts_run b p s Hb Hk) as [p1 ->].
    destruct (IH p1 (with_db (fold_left (put_post now key) b (st_db s)) s)) as [p2 E].
    { by apply fold_put_post_known. }
    exists p2. rewrite E, fold_left_app. done.
Qed.

(** What is put are rows of the two tables. *)
Definition post_passes (post : Post) : bool :=
  is_ok (validate_post now post) && is_ok (verify_post_signature post key).
Definition interaction_passes (i : Interaction) : bool :=
  is_ok (validate_interaction now i) && is_ok (verify_interaction_signature i key).
Definition put_posts (l : list Post) : gmap (string * string) StoredPost -> gmap (string * string) StoredPost :=
  fold_left (put_row (fun post => (post_author post, post_id post)) (Server.stored_post now) post_passes) l.
Definition put_interactions (l : list Interaction)
    : gmap (string * string) StoredInteraction -> gmap (string * string) StoredInteraction :=
  fold_left (put_row (fun i => (in_author i, in_id i)) (Server.stored_interaction now) interaction_passes) l.

Lemma fold_put_post_rows l d :
  sv_posts (fold_left (put_post now key) l d) = put_posts l (sv_posts d) /\
  sv_interactions (fold_left (put_post now key) l d) = sv_interactions d.
Proof.
  revert d. induction l as [|post l IH]; intros d; [done|]. cbn [fold_left put_posts].
  destruct (IH (put_post now key d post)) as [-> ->]. unfold put_posts. cbn [fold_left].
  unfold put_post. fold (post_passes post).
  destruct (post_passes post && bool_decide _) eqn:E; (split; [f_equal; unfold put_row; by rewrite E|done]).
Qed.
Lemma fold_put_interaction_rows l d :
  sv_interactions (fold_left (put_interaction now key) l d) = put_interactions l (sv_interactions d) /\
  sv_posts (fold_left (put_interaction now key) l d) = sv_posts d.
Proof.
  revert d. induction l as [|i l IH]; intros d; [done|]. cbn [fold_left put_interactions].
  destruct (IH (put_interaction now key d i)) as [-> ->]. unfold put_interactions. cbn [fold_left].
  unfold put_interaction. fold (interaction_passes i).
  destruct (interaction_passes i && bool_decide _) eqn:E; (split; [f_equal; unfold put_row; by rewrite E|done]).
Qed.
End user.

(** The same row of a node gives the same row of the server. *)
Lemma stored_post_same now d p q :
  ContentTheorems.stored_post d p -> ContentTheorems.stored_post d q -> (post_author q, post_id q) = (post_author p, post_id p) ->
  Server.stored_post now q = Server.stored_post now p.
Proof.
  intros Hp Hq E. unfold ContentTheorems.stored_post in Hq. rewrite E in Hq. unfold ContentTheorems.stored_post in Hp. rewrite Hp in Hq.
  injection Hq as Ec Et Em E1 E2 E3 E4 E5. injection E as Ea Ei.
  assert (post_media p = post_media q) as Emedia.
  { pose proof (from_to_json (post_media p)) as F. rewrite Em, from_to_json in F. by injection F. }
  unfold Server.stored_post. by rewrite Ec, Et, E1, E2, E3, E4, E5, Ea, Ei, Emedia.
Qed.
Lemma stored_interaction_same now d i j :
  ContentTheorems.stored_interaction d i -> ContentTheorems.stored_interaction d j -> (in_author j, in_id j) = (in_author i, in_id i) ->
  Server.stored_interaction now j = Server.stored_interaction now i.
Proof.
  intros Hp Hq E. unfold ContentTheorems.stored_interaction in Hq. rewrite E in Hq. unfold ContentTheorems.stored_interaction in Hp.
  rewrite Hp in Hq. injection Hq as Ek E1 E2 Et E3. injection E as Ea Ei.
  assert (in_kind i = in_kind j) as Ekind by (by destruct (in_kind i), (in_kind j)).
  unfold Server.stored_interaction. by rewrite Ekind, E1, E2, Et, E3, Ea, Ei.
Qed.

(** A server that has never pulled asks like a client that has nothing. *)
Lemma sync_request_first d pk :
  get_last_post_timestamp d pk = None -> get_last_interaction_timestamp d pk = None ->
  sync_request d pk = client_request empty_db pk.
Proof. intros E1 E2. unfold sync_request. by rewrite E1, E2. Qed.

Lemma empty_request_mode d pk : sync_mode d (client_request empty_db pk) <> NeedIdDiff.
Proof.
  unfold sync_mode. destruct (_ && _); [done|]. cbn [sq_post_count client_request].
  assert (posts_after_count d (client_request empty_db pk) = count_posts_by_author d pk) as -> by done.
  assert (count_posts_by_author empty_db pk = 0) as -> by done.
  rewrite Z.sub_0_r, Z.eqb_refl, (proj2 (Z.leb_le _ _)); [done|].
  unfold count_posts_by_author, sql_count. cbn [sq_author client_request]. lia.
Qed.

Lemma known_user_same pk key d d' :
  sv_delegations d' = sv_delegations d -> is_Some (sv_registrations d' !! pk) ->
  known_user pk key d -> known_user pk key d'.
Proof.
  intros Ed Hr [(text & K1 & K2) _]. split; [|done]. exists text. split; [|done].
  unfold get_peer_signing_pubkey in *. by rewrite Ed.
Qed.

(** The profile of the summary is taken over first. *)
Definition take_profile (now : Z) (pk : string) (summary : SyncSummary) (d : ServerDb) : ServerDb :=
  match sm_profile summary with
  | Some profile =>
      if is_ok (validate_profile profile) then (Server.update_profile now pk profile d).1 else d
  | None => d
  end.
Lemma take_profile_same now pk summary d :
  sv_posts (take_profile now pk summary d) = sv_posts d /\
  sv_interactions (take_profile now pk summary d) = sv_interactions d /\
  forall key, known_user pk key d -> known_user pk key (take_profile now pk summary d).
Proof.
  unfold take_profile. destruct (sm_profile summary) as [profile|]; [|done].
  destruct (is_ok _); [|done]. split_and!; [done|done|]. intros key Hk. pose proof (ku_row _ _ _ Hk).
  apply (known_user_same pk key d); [done| |done]. cbn. by rewrite sql_update_is_Some.
Qed.

Lemma update_sync_state_known now pk key a b d :
  known_user pk key d -> exists d', update_sync_state now pk a b d = Ok d' /\
    sv_posts d' = sv_posts d /\ sv_interactions d' = sv_interactions d.
Proof.
  intros Hk. unfold update_sync_state, has_registration. rewrite bool_decide_true by apply Hk.
  cbn. by eexists.
Qed.

(** The pull from the response on, once its summary is decoded. *)
Lemma sync_from_response_data now pk key summary fs s :
  Z.of_nat (length (to_vec summary)) <= 65536 -> sm_mode summary <> UpToDate -> Forall fits fs ->
  known_user pk key (st_db s) ->
  forall d1, (forall p, exists p', take_all now pk fs p (with_db (take_profile now pk summary (st_db s)) s) =
     (with_db d1 s, Some p')) -> known_user pk key d1 ->
  exists d2 n, sync_from_response now pk (to_vec summary)
      (concat ((fun f => write_frame (to_vec f)) <$> fs) ++ write_frame []) s =
    (with_db d2 s, Some (Ok n)) /\ sv_posts d2 = sv_posts d1 /\ sv_interactions d2 = sv_interactions d1.
Proof.
  intros Hlen Hmode Hfs Hk d1 Hrun Hk1. unfold sync_from_response.
  destruct (Z.ltb_spec 65536 (Z.of_nat (length (to_vec summary)))); [lia|]. rewrite from_to_vec.
  unfold mbind at 1, task_bind at 1, modify_server. fold (take_profile now pk summary (st_db s)).
  fold (with_db (take_profile now pk summary (st_db s)) s). rewrite decide_False by done.
  unfold mbind at 1, task_bind at 1. rewrite take_frames_stream; [|done|].
  2: { rewrite length_app. pose proof (frames_length fs). lia. }
  match goal with |- context [take_all now pk fs ?p _] => destruct (Hrun p) as [p' ->] end.
  unfold mbind at 1, task_bind at 1, statement. cbn [st_db with_db].
  match goal with |- context [update_sync_state now pk ?a ?b d1] =>
    destruct (update_sync_state_known now pk key a b d1 Hk1) as (d2 & -> & E1 & E2) end.
  eexists d2, _. cbn. split; [reflexivity|]. done.
Qed.

(** A summary that is up to date ends the pull. *)
Lemma sync_from_response_up_to_date now pk key summary stream s :
  Z.of_nat (length (to_vec summary)) <= 65536 -> sm_mode summary = UpToDate ->
  known_user pk key (st_db s) ->
  exists d2, sync_from_response now pk (to_vec summary) stream s = (with_db d2 s, Some (Ok (0, 0))) /\
    sv_posts d2 = sv_posts (st_db s) /\ sv_interactions d2 = sv_interactions (st_db s).
Proof.
  intros Hlen Hmode Hk. destruct (take_profile_same now pk summary (st_db s)) as (Ep & Ei & Hkp).
  unfold sync_from_response.
  destruct (Z.ltb_spec 65536 (Z.of_nat (length (to_vec summary)))); [lia|]. rewrite from_to_vec.
  unfold mbind at 1, task_bind at 1, modify_server. fold (take_profile now pk summary (st_db s)).
  rewrite decide_True by done. unfold mbind at 1, task_bind at 1, statement. cbn [st_db].
  destruct (update_sync_state_known now pk key None None _ (Hkp key Hk)) as (d2 & -> & E1 & E2).
  exists d2. split; [reflexivity|]. by rewrite E1, E2.
Qed.

Lemma Forall_batches {A} (P : A -> Prop) (bs : list (list A)) :
  (forall x, x ∈ concat bs -> P x) -> Forall (Forall P) bs.
Proof.
  intros HP. apply Forall_forall. intros b Hb. apply Forall_forall. intros x Hx.
  apply HP, list_elem_of_In, in_concat. exists b. by rewrite <-!list_elem_of_In.
Qed.

(** What the node streams to a server that has nothing of [pk]. *)
Lemma first_stream d pk stage :
  sync_ready d empty_db pk -> sizes_fit d empty_db pk pk stage ->
  sync_mode d (client_request empty_db pk) <> UpToDate ->
  exists pbs ibs, let fs := (SfPosts <$> pbs) ++ (SfInteractions <$> ibs) in
    sync_stream d (client_request empty_db pk) [] =
      Ok (concat ((fun f => write_frame (to_vec f)) <$> fs) ++ write_frame []) /\
    (forall post, post ∈ concat pbs <-> missing_post d empty_db pk post) /\
    (forall i, missing_interaction d empty_db pk i -> i ∈ concat ibs) /\
    (forall i, i ∈ concat ibs -> in_author i = pk /\ ContentTheorems.stored_interaction d i) /\
    Forall (Forall (fun post => post_author post = pk)) pbs /\
    Forall (Forall (fun i => in_author i = pk)) ibs /\ Forall fits fs.
Proof.
  intros Hready Hfit Hmode.
  destruct (sync_stream_spec d empty_db pk Hready Hmode (sf_ids _ _ _ _ _ Hfit))
    as (pbs & ibs & Es & Eps & Eis).
  assert (known_ids_bytes empty_db pk (sync_mode d (client_request empty_db pk)) = []) as Hids.
  { unfold known_ids_bytes. rewrite decide_False; [done|]. apply empty_request_mode. }
  rewrite Hids in Es. exists pbs, ibs.
  destruct (stream_posts_spec d empty_db pk Hready Hmode) as (pbs' & Ep' & _ & Hpin & Hpb).
  rewrite Eps in Ep'. injection Ep' as <-.
  destruct (stream_interactions_spec d empty_db pk Hready) as (ibs' & Ei' & _ & Hsound & Hcomp & Hib).
  rewrite Eis in Ei'. injection Ei' as <-.
  split_and!; [done|done|done|done|by apply Forall_batches; intros p Hp; apply Hpin in Hp as []
    |by apply Forall_batches; intros i Hi; apply Hsound|].
  apply Forall_app. split; apply Forall_fmap, Forall_forall; intros b Hb; cbn.
  - rewrite Forall_forall in Hpb. apply (sf_posts _ _ _ _ _ Hfit); [by apply Hpb|].
    eapply (proj1 (Forall_forall _ pbs)); [|exact Hb]. apply Forall_batches. intros p Hp. by apply Hpin.
  - rewrite Forall_forall in Hib. apply (sf_ints _ _ _ _ _ Hfit); [by apply Hib|].
    eapply (proj1 (Forall_forall _ ibs)); [|exact Hb]. apply Forall_batches. intros i Hi. by apply Hsound.
Qed.

(** What a first pull from the database [d] leaves of posts and likes: the
    rows there were, as they were; every post and like of the node that is valid
    under the key, in its stored form unless its id was taken; and nothing else. *)
Record first_pulled (now : Z) (pk : string) (key : PublicKey) (d : Db) (sv sv' : ServerDb) : Prop := {
  fp_posts_kept : sv_posts sv ⊆ sv_posts sv';
  fp_interactions_kept : sv_interactions sv ⊆ sv_interactions sv';
  fp_posts post : missing_post d empty_db pk post -> post_passes now key post = true ->
    sv_posts sv' !! (pk, post_id post) =
      Some (default (Server.stored_post now post) (sv_posts sv !! (pk, post_id post)));
  fp_interactions i : missing_interaction d empty_db pk i -> interaction_passes now key i = true ->
    sv_interactions sv' !! (pk, in_id i) =
      Some (default (Server.stored_interaction now i) (sv_interactions sv !! (pk, in_id i)));
  fp_posts_added k row : sv_posts sv' !! k = Some row -> sv_posts sv !! k = Some row \/
    exists post, missing_post d empty_db pk post /\ k = (pk, post_id post) /\
      post_passes now key post = true /\ row = Server.stored_post now post;
  fp_interactions_added k row : sv_interactions sv' !! k = Some row -> sv_interactions sv !! k = Some row \/
    exists i, in_author i = pk /\ ContentTheorems.stored_interaction d i /\ k = (pk, in_id i) /\
      interaction_passes now key i = true /\ row = Server.stored_interaction now i;
}.

Lemma pulled_rows now pk key d sv sv' ps is_ :
  (forall post, post ∈ ps <-> missing_post d empty_db pk post) ->
  (forall i, missing_interaction d empty_db pk i -> i ∈ is_) ->
  (forall i, i ∈ is_ -> in_author i = pk /\ ContentTheorems.stored_interaction d i) ->
  sv_posts sv' = put_posts now key ps (sv_posts sv) ->
  sv_interactions sv' = put_interactions now key is_ (sv_interactions sv) ->
  first_pulled now pk key d sv sv'.
Proof.
  intros Hps Hin Hsound Ep Ei. split; rewrite ?Ep, ?Ei.
  - apply put_rows_kept.
  - apply put_rows_kept.
  - intros post Hm Hok. assert (post_author post = pk) as <- by apply Hm.
    apply (put_rows_has (fun post => (post_author post, post_id post))); [by apply Hps|done|].
    intros q Hq Ek. apply (stored_post_same now d); [apply Hm|by apply Hps in Hq as (_ & ? & _)|exact Ek].
  - intros i Hm Hok. assert (in_author i = pk) as <- by apply Hm.
    apply (put_rows_has (fun i => (in_author i, in_id i))); [by apply Hin|done|].
    intros j Hj Ek. apply (stored_interaction_same now d); [apply Hm|by apply Hsound|exact Ek].
  - intros k row [?|(post & Hp & Ek & Hok & ->)]%put_rows_added; [by left|right]. apply Hps in Hp as Hm.
    exists post. split_and!; [done|by rewrite <-Ek, (proj1 Hm)|done..].
  - intros k row [?|(i & Hi & Ek & Hok & ->)]%put_rows_added; [by left|right].
    destruct (Hsound i Hi) as [Ha Hst]. exists i. split_and!; [done|done|by rewrite <-Ek, Ha|done..].
Qed.

(** C28: the first pull of a user's content from the user's own node, over a
    connection that delivers, ends well; every post and like of the user that the
    node has, and that is valid under the user's cached key, is then on the
    server, in the form it is stored in (if no row had its id before); no row of
    either table is removed or altered, and no other is added. *)
Theorem server_first_pull (now : Z) (d : Db) (s : ServerState) (pk node remote : string)
    (target key : PublicKey) (stage : option StageAnnouncement)
    (Hnode : get_transport_node_id (st_db s) pk = Some node) (Htarget : pk_parse node = Ok target)
    (Hknown : known_user pk key (st_db s)) (Hlog : is_Some (short_id pk))
    (Hnever : get_last_post_timestamp (st_db s) pk = None)
    (Hnever' : get_last_interaction_timestamp (st_db s) pk = None)
    (Hready : sync_ready d empty_db pk)
    (Haccess : sync_access d pk (default remote (get_master_pubkey_for_transport d remote)) = Ok tt)
    (Hfit : sizes_fit d empty_db pk pk stage) :
  exists d' n, sync_from_peer_inner now (node_peer d pk remote stage) pk s =
      (with_db d' s, Some (Ok n)) /\
    first_pulled now pk key d (st_db s) d'.
Proof.
  unfold sync_from_peer_inner. unfold mbind at 1, task_bind at 1, get_server. rewrite Hnode, Htarget.
  rewrite sync_request_first by done. set (summary := sync_summary d pk (client_request empty_db pk) stage).
  unfold node_peer, handle_sync. rewrite Haccess. cbn [sq_author client_request].
  destruct Hlog as [x Hx]. pose proof (sf_summary _ _ _ _ _ Hfit) as Hsum. fold summary in Hsum.
  destruct (take_profile_same now pk summary (st_db s)) as (Ep & Ei & Hkp).
  rewrite Hx. cbn [mbind option_bind]. fold summary. case_decide as Hmode.
  - destruct (up_to_date_nothing_missing d empty_db pk Hready Hmode) as [Hp Hi].
    destruct (sync_from_response_up_to_date now pk key summary [] s) as (d2 & -> & E1 & E2); [done..|].
    exists d2, (0, 0). split; [reflexivity|]. apply (pulled_rows _ _ _ _ _ _ [] []); try done.
    + intros post. split; [by intros ?%elem_of_nil|by intros ?%Hp].
    + intros i Hm. by destruct (Hi i).
    + by intros i ?%elem_of_nil.
  - destruct (first_stream d pk stage Hready Hfit Hmode) as (pbs & ibs & -> & Hpin & Hcomp & Hsound & Hpk & Hpk' & Hfs).
    cbn [res_ok from_option id]. set (d0 := take_profile now pk summary (st_db s)).
    set (d1 := fold_left (put_interaction now key) (concat ibs)
                 (fold_left (put_post now key) (concat pbs) d0)).
    assert (known_user pk key d1) as Hk1
      by (by apply fold_put_interaction_known, fold_put_post_known, Hkp).
    destruct (sync_from_response_data now pk key summary ((SfPosts <$> pbs) ++ (SfInteractions <$> ibs)) s)
      with (d1 := d1) as (d2 & n & -> & E1 & E2); [done..| |done|].
    { intros p. destruct (take_all_run now pk key (mk_is_Some _ _ Hx) pbs ibs p (with_db d0 s)) as [p' E];
        [done|done|by apply Hkp|]. exists p'. exact E. }
    exists d2, n. split; [reflexivity|].
    destruct (fold_put_post_rows now key (concat pbs) d0) as [P1 P2].
    destruct (fold_put_interaction_rows now key (concat ibs) (fold_left (put_post now key) (concat pbs) d0))
      as [I1 I2].
    apply (pulled_rows _ _ _ _ _ _ (concat pbs) (concat ibs)); [done..| |].
    + rewrite E1. unfold d1. rewrite I2, P1. unfold d0. by rewrite Ep.
    + rewrite E2. unfold d1. rewrite I1, P2. unfold d0. by rewrite Ei.
Qed.

(** once the server has pulled a post of a user, no later pull gets anything,
    whatever the user has published since: the server claims to have no posts
    but names the newest one it saw, so that the node asks for the ids of its
    posts, and the server sends none, not even an empty list, which the node
    cannot parse ([from_slice] of no bytes fails).  The pull reports success. *)
Theorem server_repull_gets_nothing (now : Z) (d : Db) (s : ServerState) (pk node remote : string)
    (target : PublicKey) (stage : option StageAnnouncement) (t : Z) (e : AppError)
    (Hnode : get_transport_node_id (st_db s) pk = Some node) (Htarget : pk_parse node = Ok target)
    (Hrow : is_Some (sv_registrations (st_db s) !! pk)) (Hlog : is_Some (short_id pk))
    (Hseen : get_last_post_timestamp (st_db s) pk = Some t) (Ht : 0 < t)
    (Holder : count_posts_after d pk t < count_posts_by_author d pk)
    (Hempty : from_slice (A := list string) [] = Err e)
    (Haccess : sync_access d pk (default remote (get_master_pubkey_for_transport d remote)) = Ok tt)
    (Hfit : Z.of_nat (length (to_vec (sync_summary d pk (sync_request (st_db s) pk) stage))) <= 65536) :
  exists d', sync_from_peer_inner now (node_peer d pk remote stage) pk s =
      (with_db d' s, Some (Ok (0, 0))) /\
    sv_posts d' = sv_posts (st_db s) /\ sv_interactions d' = sv_interactions (st_db s).
Proof.
  unfold sync_from_peer_inner. unfold mbind at 1, task_bind at 1, get_server. rewrite Hnode, Htarget.
  set (req := sync_request (st_db s) pk) in *.
  assert (sync_mode d req = NeedIdDiff) as Hmode.
  { assert (0 <= count_posts_after d pk t) by (unfold count_posts_after, sql_count; lia).
    assert (sq_newest_timestamp req = t) as Et by (unfold req, sync_request; cbn; by rewrite Hseen).
    unfold sync_mode, posts_match, posts_after_count. rewrite Et.
    change (sq_post_count req) with 0. change (sq_author req) with pk.
    rewrite (proj2 (Z.eqb_neq 0 _)) by lia. cbn [andb].
    rewrite (proj2 (Z.ltb_lt 0 t)) by lia. rewrite (proj2 (Z.eqb_neq _ (count_posts_after d pk t))) by lia.
    by rewrite andb_false_r. }
  assert (sync_stream d req [] = Err e) as Hstream.
  { unfold sync_stream, read_known_ids. rewrite decide_True by done. cbn [length Z.of_nat].
    change (5000000 <? 0) with false. cbn [bail_if mbind result_bind]. by rewrite Hempty. }
  unfold node_peer, handle_sync. rewrite Haccess. change (sq_author req) with pk.
  destruct Hlog as [x Hx]. rewrite Hx. cbn [mbind option_bind]. rewrite decide_False by (by rewrite Hmode).
  rewrite Hstream. cbn [res_ok from_option id]. set (summary := sync_summary d pk req stage) in *.
  unfold sync_from_response.
  destruct (Z.ltb_spec 65536 (Z.of_nat (length (to_vec summary)))); [lia|]. rewrite from_to_vec.
  unfold mbind at 1, task_bind at 1, modify_server. fold (take_profile now pk summary (st_db s)).
  rewrite decide_False by (unfold summary; cbn [sm_mode sync_summary]; by rewrite Hmode).
  unfold mbind at 1, task_bind at 1. cbn [length take_frames].
  assert (next_frame [] = None) as -> by done. cbn [mret task_ret].
  unfold mbind at 1, task_bind at 1, statement. cbn [st_db pg_last_post pg_last_int].
  destruct (take_profile_same now pk summary (st_db s)) as (Ep & Ei & _).
  unfold update_sync_state, has_registration. rewrite bool_decide_true.
  2: { unfold take_profile. destruct (sm_profile summary); [|done]. destruct (is_ok _); [|done].
       cbn. by rewrite sql_update_is_Some. }
  cbn. eexists. split; [reflexivity|]. done.
Qed.
End pull.

(** ** The public pages *)

Section pages.
Context `{SqlOrder, !SqlOrderLaws, SqlNull, Fts}.

Lemma as_i64_signed x : - 2 ^ 63 <= x < 2 ^ 63 -> as_i64 x = x.
Proof. intros Hx. rewrite <-(as_i64_as_u64 x) at 2 by done. unfold as_i64, as_u64. by rewrite Z.mod_mod. Qed.

(** A post of the table that the feed may show. *)
Definition shown (d : ServerDb) (before : option Z) (authors : option (list string)) (p : StoredPost)
    : Prop :=
  exists k, sv_posts d !! k = Some p /\ public_author d k.1 = true /\
    match authors with Some l => k.1 ∈ l | None => True end /\
    match before with Some b => sp_timestamp p < b | None => True end.

(** [l] shows the newest of them, at most [n]; a negative [n] is no bound. *)
Record feed_shows (d : ServerDb) (n : Z) (before : option Z) (authors : option (list string))
    (l : list StoredPost) : Prop := {
  fs_sound p : p ∈ l -> shown d before authors p;
  fs_sorted : StronglySorted (fun p p' => sp_timestamp p' <= sp_timestamp p) l;
  fs_length : 0 <= n -> Z.of_nat (length l) <= n;
  fs_complete p : shown d before authors p -> p ∈ l \/
    (0 <= n /\ Z.of_nat (length l) = n /\ forall p', p' ∈ l -> sp_timestamp p <= sp_timestamp p');
}.

Lemma sorted_snd {K} (f : StoredPost -> Z) (l : list (K * StoredPost)) :
  StronglySorted (fun x y => f x.2 <= f y.2) l -> StronglySorted (fun p p' => f p <= f p') (snd <$> l).
Proof.
  induction 1 as [|x l Hs IH Hx]; cbn; constructor; [done|]. apply Forall_fmap. exact Hx.
Qed.

Lemma get_feed_shows d n before authors :
  - 2 ^ 63 <= n < 2 ^ 63 -> feed_shows d n before authors (Server.get_feed d n before authors).
Proof.
  intros Hn. unfold Server.get_feed.
  set (P := fun kr : (string * string) * StoredPost => _ && _ && _).
  set (sel := sql_select P (fun kr => - sp_timestamp kr.2) (sv_posts d)).
  assert (forall p, p ∈ snd <$> sel <-> exists k, sv_posts d !! k = Some p /\ P (k, p) = true) as Hsel.
  { intros p. rewrite list_elem_of_fmap. split.
    - intros ([k p'] & -> & Hin%elem_of_sql_select). by exists k.
    - intros (k & Hk & Hp). exists (k, p). split; [done|]. by apply elem_of_sql_select. }
  assert (StronglySorted (fun p p' => - sp_timestamp p <= - sp_timestamp p') (snd <$> sel)) as Hsort.
  { apply (sorted_snd (fun p => - sp_timestamp p)). apply order_by_sorted. }
  assert (forall p, p ∈ snd <$> sel <-> shown d before authors p) as Hp.
  { intros p. rewrite Hsel. unfold shown, P. cbn. apply exist_proper. intros k.
    rewrite !andb_true_iff. unfold Server.before_ok.
    destruct authors as [l|], before as [b|];
      rewrite ?bool_decide_eq_true, ?Z.ltb_lt; tauto. }
  assert (feed_shows d n before authors (snd <$> sql_limit n sel)) as Hf.
  { unfold sql_limit. rewrite (as_i64_signed n) by done. destruct (Z.ltb_spec n 0) as [Hneg|Hpos].
    - split; [by intros p ?%Hp| |lia|by intros p ?%Hp; left].
      clear -Hsort. induction Hsort as [|p l Hs IH Hx]; constructor; [done|].
      eapply Forall_impl; [exact Hx|]. cbn. lia.
    - rewrite fmap_take. split.
      + intros p (i & Hi & _)%elem_of_take. apply Hp. by eapply list_elem_of_lookup_2.
      + apply StronglySorted_take. clear -Hsort. induction Hsort as [|p l Hs IH Hx]; constructor; [done|].
        eapply Forall_impl; [exact Hx|]. cbn. lia.
      + intros _. rewrite length_take. lia.
      + intros p Hin%Hp. destruct (take_sorted _ (Z.to_nat n) _ p Hsort Hin) as [?|[Hl Hy]]; [by left|right].
        split_and!; [done|lia|]. intros p' Hp'. specialize (Hy p' Hp'). lia. }
  destruct authors as [[|a l]|]; [|exact Hf|exact Hf].
  split; [by intros p ?%elem_of_nil|constructor|cbn; lia|].
  intros p (k & _ & _ & Hk & _). by apply elem_of_nil in Hk.
Qed.
End pages.

(** the feed shows exactly the newest posts of the active public users (of
    the authors asked for, older than the bound), newest first; at most 200 and
    50 by default, but a negative limit shows them all. *)
Theorem server_feed_correct `{SqlOrder, !SqlOrderLaws, SqlNull, Fts} (d : ServerDb)
    (limit before : option Z) (authors : option string)
    (Hlimit : - 2 ^ 63 <= default 50 limit < 2 ^ 63) :
  let n := capped limit 50 200 in
  let wanted := (fun a => trim <$> split_comma a) <$> authors in
  let page := get_feed_request d limit before authors in
  n <= 200 /\ feed_shows d n before wanted page /\
  (n < 0 -> forall p, shown d before wanted p -> p ∈ page).
Proof.
  intros n wanted page. assert (feed_shows d n before wanted page) as Hf.
  { apply get_feed_shows. unfold n, capped. lia. }
  split; [unfold n, capped; lia|]. split; [done|]. intros Hn p Hp.
  destruct (fs_complete _ _ _ _ _ Hf p Hp) as [?|(? & _)]; [done|lia].
Qed.

(** ** Withdrawing *)

Section withdrawal.
Context `{Ed25519, HexCodec, JsonCodec, SqlOrder, !SqlOrderLaws, SqlNull, Fts,
  !Serde (list MediaAttachment), !Serde SigningKeyDelegation, !Serde (list string),
  !Serde LinkedDevicesAnnouncement}.

(** No content of [pk] is stored. *)
Definition no_content (pk : string) (d : ServerDb) : Prop :=
  (forall id, sv_posts d !! (pk, id) = None) /\ (forall id, sv_interactions d !! (pk, id) = None) /\
  sv_sync_state d !! pk = None.

Lemma delete_content_no_content pk d : no_content pk (delete_content pk d).
Proof.
  split_and!.
  - intros id. cbn. rewrite lookup_sql_delete. case_match; [|done]. by rewrite bool_decide_true.
  - intros id. cbn. rewrite lookup_sql_delete. case_match; [|done]. by rewrite bool_decide_true.
  - apply lookup_delete_eq.
Qed.

Lemma no_content_user_posts pk d limit before :
  no_content pk d -> get_user_posts d pk limit before = [].
Proof.
  intros [Hn _]. unfold get_user_posts.
  assert (sql_select (fun kr => bool_decide (kr.1.1 = pk) && Server.before_ok before (sp_timestamp kr.2))
    (fun kr => - sp_timestamp kr.2) (sv_posts d) = []) as ->.
  { apply elem_of_nil_inv. intros [[a id] p] Hin.
    apply elem_of_sql_select in Hin as [Hp [Ha%bool_decide_eq_true _]%andb_prop]. cbn in Ha. subst a.
    by rewrite Hn in Hp. }
  unfold sql_limit. case_match; [done|]. by rewrite take_nil.
Qed.

Lemma hidden_after_visibility pk v d :
  v <> Public -> let d' := handle_visibility_change pk v d in no_content pk d' /\ public_author d' pk = false.
Proof.
  intros Hv d'. destruct v; [done| |].
  - split; [apply (delete_content_no_content pk d)|]. unfold public_author, d'. cbn.
    rewrite lookup_sql_update. destruct (sv_registrations d !! pk) as [r|]; [|done]. cbn.
    unfold active_row. cbn. rewrite (bool_decide_true (pk = pk)) by done. cbn.
    destruct (rg_is_active r =? 1) eqn:E; cbn; [by rewrite bool_decide_false|]. rewrite E. by rewrite andb_false_r.
  - split; [apply (delete_content_no_content pk d)|]. unfold public_author, d'. cbn.
    rewrite lookup_sql_update. destruct (sv_registrations d !! pk) as [r|]; [|done]. cbn.
    rewrite (bool_decide_true (pk = pk)) by done. cbn. by rewrite andb_false_r.
Qed.

(** who unregisters, or publishes a verified profile that is not public, is
    gone from every page: no post, like or sync state of the user is stored, no
    page shows a post of the user, and an unregistered user is unknown. *)
Theorem server_withdrawal (now : Z) (pk : string) (profile : Profile) (key : PublicKey) (s : ServerState)
    (Hlog : is_Some (short_id pk)) :
  (let d' := unregister_user pk (st_db s) in
   no_content pk d' /\ public_author d' pk = false /\
   get_user_request d' pk = Err NOT_FOUND /\
   forall limit before, get_user_posts_request d' pk limit before = []) /\
  (known_user pk key (st_db s) -> validate_profile profile = Ok tt ->
   verify_profile_signature profile key = Ok tt -> pr_visibility profile <> Public ->
   exists d', process_gossip_message now pk (Some (ProfileUpdate profile)) s = (with_db d' s, Some tt) /\
     no_content pk d' /\ public_author d' pk = false /\
     forall limit before, get_user_posts_request d' pk limit before = []).
Proof.
  split.
  - intros d'. assert (no_content pk d' /\ public_author d' pk = false) as [Hn Hp]
      by (by apply (hidden_after_visibility pk Private)).
    assert (get_registration d' pk = None) as Hr.
    { unfold get_registration, d'. cbn. rewrite lookup_sql_update.
      destruct (sv_registrations (st_db s) !! pk); [|done]. cbn. by rewrite bool_decide_true. }
    split_and!; [done|done| |].
    + unfold get_user_request, get_user_info. by rewrite Hr.
    + intros limit before. unfold get_user_posts_request. rewrite Hr. by apply no_content_user_posts.
  - intros [(text & Hkey & Hparse) _] Hval Hsig Hvis. cbn [process_gossip_message].
    unfold gossip_profile_update. rewrite Hval. cbn [is_ok]. unfold unless_bad_signature.
    unfold mbind at 1, task_bind at 1, get_server. unfold resolve_signer. rewrite Hkey, Hparse.
    unfold mbind at 1, task_bind at 1, mret, task_ret. rewrite Hsig. cbn [is_ok].
    unfold mbind at 1, task_bind at 1, modify_server. destruct Hlog as [x Hx].
    unfold mbind at 1, task_bind at 1, log_id. rewrite Hx.
    set (d1 := (Server.update_profile now pk profile (st_db s)).1). cbn [st_db st_subscriptions].
    exists (handle_visibility_change pk (pr_visibility profile) d1). split; [done|].
    destruct (hidden_after_visibility pk (pr_visibility profile) d1 Hvis) as [Hn Hp].
    split_and!; [done|done|]. intros limit before. unfold get_user_posts_request.
    rewrite !no_content_user_posts by done. case_match; [|done]. by case_decide.
Qed.

(** who makes a profile private through the HTTP interface keeps being
    published: all stored posts stay on the user's page (the feed alone leaves
    them out), and the user stays in the list of users. *)
Theorem server_private_still_served (now : Z) (req : ProfileUpdateRequest) (s : ServerState)
    (row : Registration)
    (Hprivate : pu_visibility req = "private"%string)
    (Hsigned : verify_registration_signature (profile_registration req Private) = Ok tt)
    (Hrow : sv_registrations (st_db s) !! pu_master_pubkey req = Some row)
    (Hactive : rg_is_active row = 1) :
  exists d', update_profile_request now req s = (with_db d' s, Some (Ok "profile updated"%string)) /\
    (forall limit before, get_user_posts_request d' (pu_master_pubkey req) limit before =
       get_user_posts (st_db s) (pu_master_pubkey req) (capped limit 50 200) before) /\
    is_Some (get_registration d' (pu_master_pubkey req)).
Proof.
  unfold update_profile_request. rewrite Hprivate. cbn [visibility_from_str].
  change (visibility_from_str "private") with (Ok Private : result string Visibility). cbv iota beta.
  rewrite Hsigned. cbn [checked]. unfold mbind, task_bind, get_server.
  set (profile := {| pr_display_name := _ |}).
  destruct (Server.update_profile now (pu_master_pubkey req) profile (st_db s)) as [d' updated] eqn:E.
  injection E as <- <-. rewrite (proj2 (Z.ltb_lt _ _)).
  2: { eapply sql_count_row; [exact Hrow|]. unfold active_row. cbn. rewrite Hactive.
       by rewrite bool_decide_true. }
  eexists. split; [reflexivity|]. cbn [modify_server fst st_db].
  assert (forall r, (sql_update (active_row (pu_master_pubkey req)) r (sv_registrations (st_db s)))
     !! pu_master_pubkey req = Some (r row)) as Hup.
  { intros r. rewrite lookup_sql_update, Hrow. cbn. unfold active_row. cbn.
    by rewrite Hactive, bool_decide_true. }
  unfold get_user_posts_request, get_registration. cbn [sv_registrations set_registrations].
  rewrite Hup. cbn. rewrite Hactive. cbn. split; [done|by eexists].
Qed.
End withdrawal.

(** ** Witnesses *)

#[export] Instance toy_null : SqlNull := { null_i64 := Err Sqlx }.
#[export] Instance toy_fts : Fts := { fts_query q := Ok (str_contains q) }.

(** Alice's node has two posts, of which the server has none. *)
Definition alice_old : Post := sign_post (post_by "kalice" "p0" 10) "alice".
Definition alice_new : Post := sign_post (post_by "kalice" "p1" 20) "alice".
Definition alice_node : Db := Posts.insert_post alice_new (Posts.insert_post alice_old empty_db).

Lemma alice_rows k r : posts alice_node !! k = Some r ->
  (k = (post_author alice_new, post_id alice_new) /\ r = post_to_row alice_new) \/
  (k = (post_author alice_old, post_id alice_old) /\ r = post_to_row alice_old).
Proof.
  intros [?|[?|Hr]%insert_post_inv]%insert_post_inv; [by left|by right|].
  cbn in Hr. by rewrite lookup_empty in Hr.
Qed.

Lemma alice_ready : sync_ready alice_node empty_db "kalice".
Proof.
  split.
  - unfold alice_node. do 2 (apply insert_post_ok; [vm_compute; split; [discriminate|reflexivity]|]).
    intros k r. cbn. by rewrite lookup_empty.
  - intros k r. cbn. by rewrite lookup_empty.
  - intros k r _. cbn. by rewrite lookup_empty.
  - intros k r _. cbn. by rewrite lookup_empty.
  - intros k r _ [[_ ->]|[_ ->]]%alice_rows; vm_compute; by split.
  - intros k r _. cbn. by rewrite lookup_empty.
  - vm_compute. reflexivity.
  - vm_compute. reflexivity.
Qed.

Lemma alice_fits : sizes_fit alice_node empty_db "kalice" "kalice" None.
Proof.
  split; [intros ps _ _|intros ps _ _| |].
  - unfold fits. cbn [to_vec wire_frame wire_countable length]. unfold MAX_FRAME_SIZE. lia.
  - unfold fits. cbn [to_vec wire_frame wire_countable length]. unfold MAX_FRAME_SIZE. lia.
  - cbn [to_vec wire_summary wire_countable length]. lia.
  - cbn [to_vec wire_strings wire_countable length]. lia.
Qed.

Definition toy_alice : @PublicKey toy_ed25519 := "alice"%string.
Definition toy_node : @PublicKey toy_ed25519 := "node"%string.

Lemma alice_known : known_user "kalice" toy_alice (st_db alice_registered).
Proof.
  split; [exists "kalice"%string; split; vm_compute; reflexivity|].
  vm_compute. by eexists.
Qed.

Lemma server_first_pull_witness :
  exists d' n, sync_from_peer_inner 1000 (node_peer alice_node "kalice" "kserver" None) "kalice"
      alice_registered = (with_db d' alice_registered, Some (Ok n)) /\
    sv_posts d' !! ("kalice", "p1")%string = Some (Server.stored_post 1000 alice_new).
Proof.
  destruct (server_first_pull 1000 alice_node alice_registered "kalice" "knode" "kserver" toy_node toy_alice None)
    as (d' & n & E & Hp).
  - vm_compute. reflexivity.
  - reflexivity.
  - exact alice_known.
  - vm_compute. by eexists.
  - vm_compute. reflexivity.
  - vm_compute. reflexivity.
  - exact alice_ready.
  - vm_compute. reflexivity.
  - exact alice_fits.
  - exists d', n. split; [exact E|]. refine (eq_trans (fp_posts _ _ _ _ _ _ Hp alice_new _ _) _).
    + split_and!; [reflexivity|vm_compute; reflexivity|vm_compute; split; [discriminate|reflexivity]|
        vm_compute; reflexivity].
    + vm_compute. reflexivity.
    + vm_compute. reflexivity.
Defined.

(** The state after that pull; then Alice posts again. *)
Definition alice_pulled : ServerState :=
  (sync_from_peer_inner 1000 (node_peer alice_node "kalice" "kserver" None) "kalice" alice_registered).1.
Definition alice_node_later : Db :=
  Posts.insert_post (sign_post (post_by "kalice" "p2" 30) "alice") alice_node.

Lemma server_repull_witness :
  exists d', sync_from_peer_inner 2000 (node_peer alice_node_later "kalice" "kserver" None) "kalice"
      alice_pulled = (with_db d' alice_pulled, Some (Ok (0, 0))) /\
    sv_posts d' = sv_posts (st_db alice_pulled).
Proof.
  destruct (server_repull_gets_nothing 2000 alice_node_later alice_pulled "kalice" "knode" "kserver" toy_node
    None 20 SerdeJson) as (d' & E & Ep & _).
  - vm_compute. reflexivity.
  - reflexivity.
  - vm_compute. by eexists.
  - vm_compute. by eexists.
  - vm_compute. reflexivity.
  - lia.
  - vm_compute. reflexivity.
  - reflexivity.
  - vm_compute. reflexivity.
  - cbn [to_vec wire_summary wire_countable length]. lia.
  - exists d'. split; [exact E|exact Ep].
Defined.

Lemma server_feed_witness :
  let page := get_feed_request (st_db alice_posted) (Some (-1)) None (Some "kbob, kalice"%string) in
  feed_shows (st_db alice_posted) (-1) None (Some ["kbob"; "kalice"]%string) page /\
  length page = 1%nat.
Proof.
  destruct (server_feed_correct (st_db alice_posted) (Some (-1)) None (Some "kbob, kalice"%string))
    as (_ & Hf & _); [cbn; lia|]. split; [exact Hf|vm_compute; reflexivity].
Defined.

Definition alice_leaves : Profile :=
  sign_profile {| pr_display_name := "Alice"; pr_bio := ""; pr_avatar_hash := None;
    pr_avatar_ticket := None; pr_visibility := Private; pr_signature := "" |} "alice".

Lemma server_withdrawal_witness :
  exists d', process_gossip_message 2000 "kalice" (Some (ProfileUpdate alice_leaves)) alice_posted =
      (with_db d' alice_posted, Some tt) /\
    sv_posts (st_db alice_posted) !! ("kalice", "p1")%string <> None /\
    sv_posts d' !! ("kalice", "p1")%string = None.
Proof.
  destruct (server_withdrawal 2000 "kalice" alice_leaves toy_alice alice_posted) as [_ Hg].
  { vm_compute. by eexists. }
  destruct Hg as (d' & E & (Hn & _) & _).
  - split; [exists "kalice"%string; split; vm_compute; reflexivity|vm_compute; by eexists].
  - vm_compute. reflexivity.
  - vm_compute. reflexivity.
  - discriminate.
  - exists d'. split; [exact E|]. split; [vm_compute; discriminate|apply Hn].
Defined.

(** Alice signs a registration as private and sends it as a profile update. *)
Definition alice_private : ProfileUpdateRequest :=
  replayed_profile (forged_registration "alice" "kalice" "knode" "here" 1500 Private) None None None.

Lemma server_private_witness :
  exists d', update_profile_request 2000 alice_private alice_posted =
      (with_db d' alice_posted, Some (Ok "profile updated"%string)) /\
    length (get_user_posts_request d' "kalice" None None) = 1%nat.
Proof.
  destruct (sv_registrations (st_db alice_posted) !! "kalice"%string) as [row|] eqn:E;
    [|vm_compute in E; discriminate E].
  assert (rg_is_active row = 1) as Ha.
  { assert (rg_is_active <$> sv_registrations (st_db alice_posted) !! "kalice"%string = Some 1) as E1
      by (vm_compute; reflexivity).
    rewrite E in E1. by injection E1. }
  destruct (server_private_still_served 2000 alice_private alice_posted row) as (d' & E' & Hp & _);
    [reflexivity|vm_compute; reflexivity|exact E|exact Ha|].
  exists d'. split; [exact E'|]. refine (eq_trans (f_equal length (Hp None None)) _). vm_compute. reflexivity.
Defined.

(** ** One registration stops the server

    The name a registration binds is never parsed, and the log lines of the
    start-up shorten it: a registration under a name that cannot be shortened
    is stored, and from then on the server panics whenever it starts. *)

Section bricked.
Context `{Ed25519, !Ed25519Laws, HexCodec, !HexLaws, JsonCodec, SqlOrder, !SqlOrderLaws,
  !Serde (list MediaAttachment), !Serde SigningKeyDelegation, !SerdeLaws SigningKeyDelegation,
  !Serde (list string), !Serde LinkedDevicesAnnouncement, !Wire SyncSummary, !Wire SyncFrame}.

(** A name no log line can shorten. *)
Context (bad : string) (Hbad : short_id bad = None).

Lemma log_bad s : log_id bad s = (s, None).
Proof. unfold log_id. by rewrite Hbad. Qed.

(** Subscribing to it adds it at most, and never reports success. *)
Lemma subscribe_bad outcome s :
  bad ∉ st_subscriptions s ->
  (subscribe outcome bad s).2 = None \/ exists e, subscribe outcome bad s = (s, Some (Err e)).
Proof.
  intros Hn. unfold subscribe. rewrite decide_False by done.
  destruct (_ ≫= _); unfold mbind, task_bind; [|left; by rewrite log_bad].
  destruct outcome as [[]|e]; [left; by rewrite log_bad|right; by exists e].
Qed.

Lemma subscribe_grows outcome pk s :
  st_subscriptions (subscribe outcome pk s).1 ⊆ {[pk]} ∪ st_subscriptions s.
Proof.
  unfold subscribe. case_decide; [cbn; set_solver|].
  destruct (_ ≫= _); unfold mbind, task_bind, log_id; [destruct outcome|];
    try destruct (short_id pk); cbn; set_solver.
Qed.

Lemma subscribe_all_bad subscribed l s :
  bad ∈ l -> bad ∉ st_subscriptions s -> (subscribe_all subscribed l s).2 = None.
Proof.
  revert s. induction l as [|pk l IH]; intros s Hin Hn; [by apply elem_of_nil in Hin|].
  cbn [subscribe_all]. unfold mbind, task_bind. destruct (decide (pk = bad)) as [->|Hne].
  - destruct (subscribe_bad (subscribed bad) s Hn) as [E|[e E]]; [|by rewrite E, log_bad].
    destruct (subscribe (subscribed bad) bad s) as [s1 [r|]]; [done|done].
  - apply elem_of_cons in Hin as [->|Hin]; [done|].
    pose proof (subscribe_grows (subscribed pk) pk s) as Hg.
    destruct (subscribe (subscribed pk) pk s) as [s1 [r|]]; [|done]. cbn in Hg.
    assert (bad ∉ st_subscriptions s1) as Hn1 by set_solver.
    destruct r; [by apply IH|]. unfold log_id. destruct (short_id pk); [by apply IH|done].
Qed.

Lemma active_public d pk : public_author d pk = true -> pk ∈ get_active_public_pubkeys d.
Proof.
  intros Hp. apply list_elem_of_fmap. unfold public_author in Hp.
  destruct (sv_registrations d !! pk) as [r|] eqn:Er; [|done]. exists (pk, r). split; [done|].
  apply elem_of_sql_select. split; [done|]. cbn. unfold public_author. by rewrite Er.
Qed.

(** A start with an active public user of that name. *)
Lemma restart_bad subscribed startup_sync d :
  public_author d bad = true -> (restart subscribed startup_sync d).2 = None.
Proof.
  intros Hp. unfold restart, start, mbind, task_bind, get_server. cbn [st_db].
  pose proof (active_public d bad Hp) as Hin.
  pose proof (subscribe_all_bad subscribed _ {| st_db := d; st_subscriptions := ∅ |} Hin) as E.
  destruct (subscribe_all _ _ _) as [s1 [r|]]; [|done]. cbn in E. discriminate E. set_solver.
Qed.

(** A pull that is logged does not get past the name either. *)
Lemma sync_one_bad now late peer s :
  (sync_one now late peer bad s).2 <> None ->
  exists s' posts interactions, sync_from_peer now late peer bad s = (s', Some (Ok (posts, interactions))) /\
    posts <= 0 /\ interactions <= 0.
Proof.
  unfold sync_one, mbind, task_bind. destruct (sync_from_peer now late peer bad s) as [s1 [[[posts ints]|e]|]];
    [|by rewrite log_bad|done].
  destruct (Z.ltb_spec 0 posts), (Z.ltb_spec 0 ints); cbn [orb]; rewrite ?log_bad; try done.
  intros _. by exists s1, posts, ints.
Qed.

Lemma sync_each_bad now late peer l s :
  bad ∈ l -> (sync_each now late peer l s).2 <> None ->
  exists s' s'' posts interactions,
    sync_from_peer now (late bad) peer bad s' = (s'', Some (Ok (posts, interactions))) /\
    posts <= 0 /\ interactions <= 0.
Proof.
  revert s. induction l as [|pk l IH]; intros s Hin Hrun; [by apply elem_of_nil in Hin|].
  cbn [sync_each] in Hrun. unfold mbind at 1, task_bind at 1 in Hrun.
  destruct (decide (pk = bad)) as [->|Hne].
  - assert ((sync_one now (late bad) peer bad s).2 <> None) as Hone.
    { by destruct (sync_one now (late bad) peer bad s) as [? [[]|]]. }
    exists s. by apply sync_one_bad.
  - apply elem_of_cons in Hin as [->|Hin]; [done|].
    destruct (sync_one now (late pk) peer pk s) as [s1 [[]|]]; [|done]. by eapply IH.
Qed.
End bricked.

(** C29: one request, which anybody can make and sign with a key of its own,
    stops the server for good.  It registers a public user under a name with a
    character across the eighth byte.  The registration is stored, and as long
    as its row is there every start of the server panics while it subscribes to
    its users, whatever the network does; and no round of the periodic
    synchronisation gets past the name unless its node answers with nothing. *)
Theorem server_bricked `{Ed25519, !Ed25519Laws, HexCodec, !HexLaws, JsonCodec, SqlOrder, !SqlOrderLaws,
    !Serde (list MediaAttachment), !Serde SigningKeyDelegation, !SerdeLaws SigningKeyDelegation,
    !Serde (list string), !Serde LinkedDevicesAnnouncement, !Wire SyncSummary, !Wire SyncFrame}
    (config : ServerConfig) (now : Z) (outcome : result AppError unit) (k : SecretKey)
    (bad node : string) (s : ServerState)
    (Hopen : cf_registration_open config = true) (Hbad : short_id bad = None) :
  let req := forged_registration k bad node (cf_public_url config) now Public in
  let s' := (register now config outcome req s).1 in
  is_Some (sv_registrations (st_db s') !! bad) /\
  (forall d, sv_registrations d !! bad = sv_registrations (st_db s') !! bad ->
   (forall subscribed startup_sync, (restart subscribed startup_sync d).2 = None) /\
   (forall now' late peer subs,
      (periodic_round now' late peer {| st_db := d; st_subscriptions := subs |}).2 = None \/
      exists t t' posts interactions,
        sync_from_peer now' (late bad) peer bad t = (t', Some (Ok (posts, interactions))) /\
        posts <= 0 /\ interactions <= 0)).
Proof.
  intros req s'. assert (st_db s' = registered now req (st_db s)) as Edb.
  { apply register_stores; [done|]. by apply forged_registration_valid. }
  rewrite Edb. split; [apply (registered_row now req)|]. intros d Hd.
  assert (public_author d bad = true) as Hp.
  { pose proof (registered_public now req (st_db s) eq_refl) as Hr. unfold public_author in Hr |- *.
    change (rr_master_pubkey req) with bad in Hr. by rewrite Hd. }
  split; [intros; by apply (restart_bad bad Hbad)|]. intros now' late peer subs.
  unfold periodic_round, mbind, task_bind, get_server. cbn [st_db].
  destruct (decide ((sync_each now' late peer (get_active_public_pubkeys d)
    {| st_db := d; st_subscriptions := subs |}).2 = None)) as [E|E]; [by left|right].
  eapply (sync_each_bad bad Hbad); [|exact E]. by apply active_public.
Qed.

(** Alice is registered when Mallory registers as "aaaaaaa" followed by a
    two-byte character. *)
Definition bad_name : string :=
  "aaaaaaa" +:+ String (Ascii.ascii_of_nat 195) (String (Ascii.ascii_of_nat 169) "x").

Lemma server_bricked_witness :
  (restart (fun _ => Ok tt) true (st_db alice_registered)).2 = Some ["kalice"%string] /\
  (restart (fun _ => Ok tt) true (st_db (register 1000 toy_config (Ok tt)
     (forged_registration ("mallory"%string : @SecretKey toy_ed25519) bad_name "kevil" "here" 1000 Public)
     alice_registered).1)).2 = None.
Proof.
  split; [vm_compute; reflexivity|].
  destruct (server_bricked toy_config 1000 (Ok tt) ("mallory"%string : @SecretKey toy_ed25519) bad_name "kevil"
    alice_registered eq_refl) as [_ H]; [vm_compute; reflexivity|].
  exact (proj1 (H _ eq_refl) _ _).
Defined.
