(* ===== verification/Trending.v ===== *)
(** * Trending hashtags of the community server

    Model of [server/src/trending.rs], the table [trending_hashtags] of
    [storage.rs] and [api/trending.rs].  A score is an IEEE double, [f64]; which
    characters are letters or digits in Unicode, and the lower case of a text,
    are parameters. *)

From Stdlib Require Import SpecFloat.
From stdpp Require Import sorting.
From S2P Require Import Prelude Text Types Store Server ServerApi.

Local Open Scope Z_scope.

(** ** f64 *)

Definition f64 : Type := spec_float.
(** [x as f64]. *)
Definition f64_of (x : Z) : f64 := binary_normalize 53 1024 x 0 false.
Definition f64_add : f64 -> f64 -> f64 := SFadd 53 1024.
Definition f64_mul : f64 -> f64 -> f64 := SFmul 53 1024.
Definition f64_div : f64 -> f64 -> f64 := SFdiv 53 1024.
Definition f64_sqrt : f64 -> f64 := SFsqrt 53 1024.

(** An integer in the order of the doubles that are numbers: every finite one is
    a multiple of [2^-1074]. *)
Definition f64_key (x : f64) : Z :=
  match x with
  | S754_zero _ | S754_nan => 0
  | S754_infinity s => if s then - 2 ^ 2100 else 2 ^ 2100
  | S754_finite s m e => (if s then -1 else 1) * Zpos m * 2 ^ (e + 1074)
  end.

(** ** Hashtags *)

(** [char::is_alphanumeric] and [str::to_lowercase]. *)
Class UnicodeLib := {
  is_alphanumeric : string -> bool;
  to_lowercase : string -> string;
}.

Section hashtags.
Context `{UnicodeLib}.

Definition tag_char (c : string) : bool := is_alphanumeric c || bool_decide (c = "_"%string).

(** The inner loop: the characters of a tag and what follows it. *)
Fixpoint read_tag (cs : list string) : list string * list string :=
  match cs with
  | c :: r => if tag_char c then let '(tag, rest) := read_tag r in (c :: tag, rest) else ([], cs)
  | [] => ([], [])
  end.

(** The loop over the characters; each round takes at least one. *)
Fixpoint hashtags_loop (fuel : nat) (cs : list string) : list string :=
  match fuel, cs with
  | S fuel, ch :: cs =>
      if decide (ch = "#"%string) then
        let '(tag, rest) := read_tag cs in
        match tag with
        | [] => hashtags_loop fuel rest
        | _ :: _ => to_lowercase (String.concat "" tag) :: hashtags_loop fuel rest
        end
      else hashtags_loop fuel cs
  | _, _ => []
  end.
Definition extract_hashtags (content : string) : list string :=
  hashtags_loop (length (chars_of content)) (chars_of content).
End hashtags.

(** ** compute_trending *)

Record TagStats : Type := {
  tg_posts : list Z;
  tg_authors : gset string;
}.

Record TrendingHashtag : Type := {
  th_tag : string;
  th_post_count : Z;
  th_unique_authors : Z;
  th_latest_post_at : Z;
  th_score : f64;
  th_computed_at : Z;
}.

Definition add_tag (post : StoredPost) (stats : gmap string TagStats) (tag : string) : gmap string TagStats :=
  let entry := default {| tg_posts := []; tg_authors := ∅ |} (stats !! tag) in
  <[tag := {| tg_posts := tg_posts entry ++ [sp_timestamp post];
              tg_authors := {[sp_author post]} ∪ tg_authors entry |}]> stats.

Definition tag_stats `{UnicodeLib} (posts : list StoredPost) : gmap string TagStats :=
  fold_left (fun stats post => fold_left (add_tag post) (extract_hashtags (sp_content post)) stats) posts ∅.

Definition list_max (dflt : Z) (l : list Z) : Z :=
  match l with [] => dflt | x :: l => fold_left Z.max l x end.
Definition list_min (dflt : Z) (l : list Z) : Z :=
  match l with [] => dflt | x :: l => fold_left Z.min l x end.

Definition hours (now ts : Z) : f64 := f64_div (f64_of (now - ts)) (f64_of 3600000).

(** [posts * sqrt(authors) * (sum of 1 / (1 + age)) / (1 + age of the oldest / 24)]. *)
Definition tag_score (now : Z) (stats : TagStats) : f64 :=
  let author_weight := f64_sqrt (f64_of (Z.of_nat (size (tg_authors stats)))) in
  let recency_factor := fold_left (fun sum ts =>
    f64_add sum (f64_div (f64_of 1) (f64_add (f64_of 1) (hours now ts)))) (tg_posts stats) (S754_zero false) in
  let age_decay := f64_add (f64_of 1) (f64_div (hours now (list_min now (tg_posts stats))) (f64_of 24)) in
  f64_div (f64_mul (f64_mul (f64_of (Z.of_nat (length (tg_posts stats)))) author_weight) recency_factor) age_decay.

Definition trending_hashtag (now : Z) (tag : string) (stats : TagStats) : TrendingHashtag :=
  {| th_tag := tag; th_post_count := Z.of_nat (length (tg_posts stats));
     th_unique_authors := Z.of_nat (size (tg_authors stats));
     th_latest_post_at := list_max now (tg_posts stats);
     th_score := tag_score now stats; th_computed_at := now |}.

(** [b.score.partial_cmp(&a.score)]: [a] need not come after [b].  (The sort of
    the standard library is stable; its result is unspecified with a NaN.) *)
Definition not_less (a b : TrendingHashtag) : Prop := SFltb (th_score a) (th_score b) = false.
#[export] Instance not_less_dec a b : Decision (not_less a b).
Proof. unfold not_less. apply _. Defined.

Section trending.
Context `{UnicodeLib, HashOrder, SqlOrder}.

(** The posts looked at: of the newest 10000 of the public users, those of the window. *)
Definition window_posts (now window_hours : Z) (d : ServerDb) : list StoredPost :=
  let window_ms := as_i64 (window_hours * 60 * 60 * 1000) in
  let cutoff := as_i64 (now - window_ms) in
  filter (fun p => cutoff <= sp_timestamp p) (get_feed d 10000 None None).

Definition compute_trending (now window_hours : Z) (d : ServerDb) : list TrendingHashtag :=
  let trending := (fun kt => trending_hashtag now kt.1 kt.2) <$> hash_iter (tag_stats (window_posts now window_hours d)) in
  take 50 (merge_sort not_less trending).

(** ** The table *)

(** The statements are no transaction: a second entry of a tag is an error, and
    the rows before it stay. *)
Fixpoint insert_trending (tags : list TrendingHashtag) (table : gmap string TrendingHashtag)
    : gmap string TrendingHashtag * result AppError unit :=
  match tags with
  | [] => (table, Ok tt)
  | t :: tags =>
      match table !! th_tag t with
      | Some _ => (table, Err Sqlx)
      | None => insert_trending tags (<[th_tag t := t]> table)
      end
  end.
Definition update_trending (tags : list TrendingHashtag) (table : gmap string TrendingHashtag)
    : gmap string TrendingHashtag * result AppError unit :=
  insert_trending tags ∅.

Definition get_trending_hashtags (limit : Z) (table : gmap string TrendingHashtag) : list TrendingHashtag :=
  snd <$> sql_limit limit (sql_select (fun _ => true) (fun kr => - f64_key (th_score kr.2)) table).

(** A round of the task: what is computed replaces the table. *)
Definition trending_round (now window_hours : Z) (d : ServerDb) (table : gmap string TrendingHashtag)
    : gmap string TrendingHashtag * result AppError unit :=
  update_trending (compute_trending now window_hours d) table.

(** The response: the hashtags and when they were computed. *)
Definition get_trending (limit : option Z) (table : gmap string TrendingHashtag)
    : list TrendingHashtag * option Z :=
  let hashtags := get_trending_hashtags (capped limit 10 50) table in
  (hashtags, th_computed_at <$> head hashtags).
End trending.
