(* ===== verification/TrendingTheorems.v ===== *)
(** * Theorems on the trending hashtags

    What a hashtag is, and that the table holds, for the hashtags with the best
    scores, exactly how often and by how many authors they are used. *)

From Stdlib Require Import SpecFloat.
From stdpp Require Import sorting.
From S2P Require Import Prelude Text Types Store ConcreteStore Server ServerApi Trending.

Local Open Scope Z_scope.

(** ** Hashtags *)

Section hashtags.
Context `{UnicodeLib}.

Definition no_hash (cs : list string) : Prop := Forall (fun c => c <> "#"%string) cs.

Lemma read_tag_spec tag rest :
  Forall (fun c => tag_char c = true) tag -> (forall c, head rest = Some c -> tag_char c = false) ->
  read_tag (tag ++ rest) = (tag, rest).
Proof.
  intros Ht Hr. induction Ht as [|c tag Hc _ IH]; cbn [app read_tag].
  - destruct rest as [|c rest]; [done|]. cbn [read_tag]. by rewrite (Hr c eq_refl).
  - by rewrite Hc, IH.
Qed.
Lemma read_tag_length cs : (length (read_tag cs).2 <= length cs)%nat.
Proof.
  induction cs as [|c cs IH]; cbn [read_tag]; [done|]. destruct (tag_char c); [|done].
  destruct (read_tag cs) as [tag rest]. cbn in *. lia.
Qed.

(** More fuel than characters changes nothing. *)
Lemma hashtags_fuel fuel : forall fuel' cs, (length cs <= fuel)%nat -> (length cs <= fuel')%nat ->
  hashtags_loop fuel cs = hashtags_loop fuel' cs.
Proof.
  induction fuel as [|fuel IH]; intros [|fuel'] [|ch cs] L1 L2; cbn [hashtags_loop] in *; try done; try (cbn in *; lia).
  pose proof (read_tag_length cs) as Hl. case_decide.
  - destruct (read_tag cs) as [tag rest]. cbn in *. destruct tag; [|f_equal]; apply IH; lia.
  - apply IH; cbn in *; lia.
Qed.

Definition hashtags (cs : list string) : list string := hashtags_loop (length cs) cs.

(** Text without the sign has no hashtag; a sign before letters, digits or
    underscores starts one that ends before the next other character. *)
Lemma hashtags_skip pre cs : no_hash pre -> hashtags (pre ++ cs) = hashtags cs.
Proof.
  intros Hp. induction Hp as [|c pre Hc _ IH]; [done|]. unfold hashtags. cbn [app length hashtags_loop].
  rewrite decide_False by done. exact IH.
Qed.
Lemma hashtags_tag tag rest :
  tag <> [] -> Forall (fun c => tag_char c = true) tag -> (forall c, head rest = Some c -> tag_char c = false) ->
  hashtags ("#"%string :: tag ++ rest) = to_lowercase (String.concat "" tag) :: hashtags rest.
Proof.
  intros Hn Ht Hr. unfold hashtags. cbn [length hashtags_loop]. rewrite decide_True by done.
  rewrite (read_tag_spec _ _ Ht Hr). destruct tag as [|c tag]; [done|]. f_equal.
  apply hashtags_fuel; rewrite ?length_app; cbn; lia.
Qed.
Lemma hashtags_lone cs :
  (forall c, head cs = Some c -> tag_char c = false) -> hashtags ("#"%string :: cs) = hashtags cs.
Proof.
  intros Hr. unfold hashtags. cbn [length hashtags_loop]. rewrite decide_True by done.
  pose proof (read_tag_spec [] cs (Forall_nil_2 _) Hr) as E. cbn [app] in E. by rewrite E.
Qed.
End hashtags.

(** ** The statistics *)

Section stats.
Context `{UnicodeLib}.

(** Every use of a hashtag, with its post: a post that repeats a tag is listed
    as often. *)
Definition tag_uses (posts : list StoredPost) : list (string * StoredPost) :=
  posts ≫= fun p => (fun tag => (tag, p)) <$> extract_hashtags (sp_content p).
Definition uses_of (tag : string) (uses : list (string * StoredPost)) : list StoredPost :=
  snd <$> filter (fun u => u.1 = tag) uses.

Definition stats_of (posts : list StoredPost) : TagStats :=
  {| tg_posts := sp_timestamp <$> posts; tg_authors := list_to_set (sp_author <$> posts) |}.

Lemma uses_of_app tag us1 us2 : uses_of tag (us1 ++ us2) = uses_of tag us1 ++ uses_of tag us2.
Proof. unfold uses_of. by rewrite filter_app, fmap_app. Qed.

Lemma uses_of_one tag tag' p : uses_of tag [(tag', p)] = if decide (tag' = tag) then [p] else [].
Proof. unfold uses_of. rewrite filter_cons. cbn [fst]. by case_decide. Qed.

Lemma add_uses uses : forall tag,
  fold_left (fun stats u => add_tag u.2 stats u.1) uses ∅ !! tag =
    match uses_of tag uses with [] => None | l => Some (stats_of l) end.
Proof.
  induction uses as [|[tag' p] uses IH] using rev_ind; intros tag; [cbn [fold_left]; by rewrite lookup_empty|].
  rewrite fold_left_app, uses_of_app, uses_of_one. cbn [fold_left fst snd]. unfold add_tag.
  destruct (decide (tag' = tag)) as [->|Hne].
  - rewrite lookup_insert_eq, IH. destruct (uses_of tag uses) as [|q l]; cbn [default app].
    + done.
    + f_equal. unfold stats_of. rewrite app_comm_cons, !fmap_app, list_to_set_app_L. cbn -[union].
      f_equal. clear. set_solver.
  - by rewrite lookup_insert_ne, IH, app_nil_r by done.
Qed.

Lemma tag_stats_lookup posts tag :
  tag_stats posts !! tag = match uses_of tag (tag_uses posts) with [] => None | l => Some (stats_of l) end.
Proof.
  rewrite <-add_uses. unfold tag_stats. generalize (∅ : gmap string TagStats). induction posts as [|p posts IH]; intros m; [done|].
  cbn [fold_left]. rewrite IH. unfold tag_uses at 2. cbn [mbind list_bind]. rewrite fold_left_app. f_equal. f_equal.
  generalize (extract_hashtags (sp_content p)). intros tags. revert m. induction tags as [|t tags IHt]; intros m; [done|].
  apply IHt.
Qed.

(** An entry says what the uses of its tag are. *)
Definition entry_of (now : Z) (posts : list StoredPost) (t : TrendingHashtag) : Prop :=
  let l := uses_of (th_tag t) (tag_uses posts) in
  l <> [] /\ th_post_count t = Z.of_nat (length l) /\
  th_unique_authors t = Z.of_nat (size (list_to_set (sp_author <$> l) : gset string)) /\
  (exists p, p ∈ l /\ th_latest_post_at t = sp_timestamp p) /\
  (forall p, p ∈ l -> sp_timestamp p <= th_latest_post_at t) /\
  th_score t = tag_score now (stats_of l) /\ th_computed_at t = now.

Lemma list_max_spec dflt l : l <> [] -> list_max dflt l ∈ l /\ forall x, x ∈ l -> x <= list_max dflt l.
Proof.
  destruct l as [|y l]; [done|]. intros _. cbn [list_max].
  assert (forall y, (fold_left Z.max l y = y \/ fold_left Z.max l y ∈ l) /\ y <= fold_left Z.max l y /\
    forall x, x ∈ l -> x <= fold_left Z.max l y) as Hm.
  { induction l as [|z l IH]; intros w; cbn [fold_left].
    - split_and!; [by left|lia|by intros x ?%elem_of_nil].
    - destruct (IH (Z.max w z)) as (I1 & I2 & I3). split_and!; [|lia|].
      + destruct I1 as [->|?]; [|right; by right]. destruct (Z.max_spec w z) as [[_ ->]|[_ ->]]; [right; by left|by left].
      + intros x [->|Hx]%elem_of_cons; [lia|by apply I3]. }
  clear -Hm; destruct (Hm y) as ([->|?] & H2 & H3); (split; [set_solver|]); intros x [->|Hx]%elem_of_cons; auto.
Qed.

Lemma trending_entry now posts tag stats :
  tag_stats posts !! tag = Some stats -> entry_of now posts (trending_hashtag now tag stats).
Proof.
  rewrite tag_stats_lookup. unfold entry_of. cbn [th_tag trending_hashtag].
  destruct (uses_of tag (tag_uses posts)) as [|p l]; [done|]. intros [= <-].
  destruct (list_max_spec now (sp_timestamp <$> p :: l)) as [M1 M2]; [done|].
  cbn [th_post_count th_unique_authors th_latest_post_at th_score th_computed_at trending_hashtag stats_of tg_posts tg_authors].
  rewrite length_fmap. split_and!; try done.
  - apply list_elem_of_fmap in M1 as (q & -> & Hq). by exists q.
  - intros q Hq. apply M2, list_elem_of_fmap. by exists q.
Qed.
End stats.

(** ** The order of the scores *)

#[export] Instance not_less_total : Total not_less.
Proof.
  intros a b. unfold not_less, SFltb, SFcompare. destruct (th_score a) as [s1|s1| |s1 m1 e1], (th_score b) as [s2|s2| |s2 m2 e2];
    try (by left); try (by right); try (destruct s1; by auto); try (destruct s2; by auto); try (destruct s1, s2; by auto).
  rewrite (Z.compare_antisym e1 e2).
  assert (Pos.compare_cont Eq m2 m1 = CompOpp (Pos.compare_cont Eq m1 m2)) as ->
    by (symmetry; apply (Pos.compare_cont_antisym m1 m2 Eq)).
  destruct s1, s2; auto; destruct (Z.compare e1 e2), (Pos.compare_cont Eq m1 m2); cbn; auto.
Qed.

(** ** The table *)

Section trending.
Context `{UnicodeLib, HashOrder, !HashOrderLaws, SqlOrder, !SqlOrderLaws}.

Lemma hash_iter_elem {K A} `{Countable K} (m : gmap K A) k a : (k, a) ∈ hash_iter m <-> m !! k = Some a.
Proof. rewrite (hash_iter_perm m). apply elem_of_map_to_list. Qed.
Lemma hash_iter_keys {K A} `{Countable K} (m : gmap K A) : NoDup (fst <$> hash_iter m).
Proof. rewrite (hash_iter_perm m). apply NoDup_fst_map_to_list. Qed.

Lemma insert_trending_ok tags table :
  NoDup (th_tag <$> tags) -> (forall t, t ∈ tags -> table !! th_tag t = None) ->
  exists table', insert_trending tags table = (table', Ok tt) /\
    forall tag t, table' !! tag = Some t <-> (t ∈ tags /\ th_tag t = tag) \/ table !! tag = Some t.
Proof.
  revert table. induction tags as [|t tags IH]; intros table Hnd Hfree; cbn [insert_trending].
  { exists table. split; [done|]. intros tag t. split; [by right|]. intros [[?%elem_of_nil _]|?]; done. }
  rewrite Hfree by (by left). cbn [fmap list_fmap] in Hnd. apply NoDup_cons in Hnd as [Hni Hnd].
  destruct (IH (<[th_tag t := t]> table) Hnd) as (table' & E & Hl).
  { intros t' Ht'. rewrite lookup_insert_ne; [apply Hfree; by right|]. intros Heq. apply Hni.
    rewrite Heq. by apply list_elem_of_fmap_2. }
  exists table'. split; [done|]. intros tag t'. rewrite Hl, elem_of_cons.
  destruct (decide (th_tag t = tag)) as [<-|Hne].
  - rewrite lookup_insert_eq, (Hfree t) by (by left). split.
    + intros [[? ?]|[= <-]]; auto.
    + intros [[[->|?] ?]|?]; [by right|by left|done].
  - rewrite lookup_insert_ne by done. clear -Hne; split; [|intros [[[->|?] ?]|?]]; naive_solver.
Qed.

(** C30: One round of the trending task replaces the table by the first 50 of the
    hashtags that the newest public posts of the window use, in the order of
    their scores: each of them with the number of its uses, of its authors, its
    newest use and the score of these; no hashtag is used but not arranged. *)
Theorem trending_exact (now window_hours : Z) (d : ServerDb) (table : gmap string TrendingHashtag) :
  let posts := window_posts now window_hours d in
  exists table' listed rest,
    trending_round now window_hours d table = (table', Ok tt) /\
    (forall tag t, table' !! tag = Some t <-> t ∈ listed /\ th_tag t = tag) /\
    (length listed <= 50)%nat /\ (length listed = 50%nat \/ rest = []) /\
    Sorted not_less (listed ++ rest) /\ NoDup (th_tag <$> listed ++ rest) /\
    (forall t, t ∈ listed ++ rest -> entry_of now posts t) /\
    (forall tag, uses_of tag (tag_uses posts) <> [] -> tag ∈ th_tag <$> listed ++ rest).
Proof.
  intros posts. unfold trending_round, update_trending, compute_trending. fold posts.
  set (all := (fun kt => trending_hashtag now kt.1 kt.2) <$> hash_iter (tag_stats posts)).
  assert (forall t, t ∈ all <-> exists stats, tag_stats posts !! th_tag t = Some stats /\
    t = trending_hashtag now (th_tag t) stats) as Hall.
  { intros t. unfold all. rewrite list_elem_of_fmap. split.
    - intros ([tag stats] & -> & Hin%hash_iter_elem). by exists stats.
    - intros (stats & Hs & ->). exists (th_tag t, stats). split; [done|]. by apply hash_iter_elem. }
  assert (th_tag <$> all = fst <$> hash_iter (tag_stats posts)) as Htags.
  { unfold all. rewrite <-list_fmap_compose. by apply list_fmap_ext. }
  pose proof (merge_sort_Permutation not_less all) as Hperm.
  assert (Sorted not_less (merge_sort not_less all)) as Hsort.
  { apply (Sorted_merge_sort not_less). }
  set (sorted := merge_sort not_less all) in *. rewrite <-(take_drop 50 sorted) in Hsort.
  assert (NoDup (th_tag <$> take 50 sorted ++ drop 50 sorted)) as Hnd
    by (rewrite take_drop, Hperm, Htags; apply hash_iter_keys).
  destruct (insert_trending_ok (take 50 sorted) ∅) as (table' & E & Hl).
  { rewrite fmap_app in Hnd. by apply NoDup_app in Hnd as (? & _ & _). }
  { intros t _. apply lookup_empty. }
  exists table', (take 50 sorted), (drop 50 sorted). split_and!; try done.
  - intros tag t. rewrite Hl, lookup_empty. split; [by intros [?|?]|by left].
  - rewrite length_take. lia.
  - destruct (Nat.le_gt_cases (length sorted) 50); [right; by apply drop_ge|left; rewrite length_take; lia].
  - intros t. rewrite take_drop, Hperm, Hall. intros (stats & Hs & ->). by apply trending_entry.
  - intros tag Hu. rewrite take_drop, Hperm, Htags. destruct (tag_stats posts !! tag) as [stats|] eqn:Hs.
    + apply list_elem_of_fmap. exists (tag, stats). split; [done|]. by apply hash_iter_elem.
    + rewrite tag_stats_lookup in Hs. by destruct (uses_of tag (tag_uses posts)).
Qed.
End trending.

(** ** A post that repeats a hashtag *)

(** The letters and digits of ASCII. *)
Definition ascii_unicode : UnicodeLib :=
  {| is_alphanumeric c := match c with
       | String a EmptyString => let n := Ascii.N_of_ascii a in
           ((48 <=? n) && (n <=? 57) || (65 <=? n) && (n <=? 90) || (97 <=? n) && (n <=? 122))%N
       | _ => false
       end;
     to_lowercase := str_to_lower |}.

(** Mallory's only post repeats a tag. *)
Definition tagged_post : StoredPost :=
  {| sp_id := "p"; sp_author := "mallory"; sp_content := "#Win #win #win!"; sp_timestamp := 1000;
     sp_media_json := None; sp_reply_to := None; sp_reply_to_author := None; sp_quote_of := None;
     sp_quote_of_author := None; sp_signature := ""; sp_indexed_at := 1000 |}.
Definition tagged_db : ServerDb :=
  set_server_posts {[("mallory", "p")%string := tagged_post]}
    (set_registrations {["mallory"%string := {| rg_pubkey := "mallory"; rg_registered_at := 0; rg_last_seen := 0;
       rg_display_name := None; rg_bio := None; rg_avatar_hash := None; rg_visibility := "public"; rg_is_active := 1;
       rg_transport_node_id := None; rg_delegation_json := None |}]} empty_server).

Lemma trending_exact_witness :
  exists table' t, @trending_round ascii_unicode listed_order concrete_order 2000 24 tagged_db ∅ = (table', Ok tt) /\
    table' !! "win"%string = Some t /\ th_post_count t = 3 /\ th_unique_authors t = 1.
Proof.
  destruct (@trending_exact ascii_unicode listed_order listed_order_laws concrete_order 2000 24 tagged_db ∅)
    as (table' & listed & rest & E & Hl & _ & _ & _ & _ & Hentry & _).
  assert (is_Some (table' !! "win"%string)) as [t Ht].
  { replace table' with (@trending_round ascii_unicode listed_order concrete_order 2000 24 tagged_db ∅).1
      by (by rewrite E). vm_compute. by eexists. }
  exists table', t. split; [exact E|]. split; [exact Ht|]. apply Hl in Ht as [Ht Htag].
  destruct (Hentry t) as (_ & Hc & Ha & _); [apply elem_of_app; by left|]. rewrite Htag in Hc, Ha.
  split; [rewrite Hc|rewrite Ha]; vm_compute; reflexivity.
Defined.
