(* ===== verification/Effects.v ===== *)
(** * Operations with effects

    An operation reads and changes a state, has effects on the rest of the world
    in order, and may panic: [None], after which the state and the effects so far
    remain.  [S] is the state and [E] the effects of a component. *)

From S2P Require Import Prelude Types Validation Store.

Local Open Scope Z_scope.

Definition eff (S E A : Type) : Type := S -> S * list E * option A.

#[export] Instance eff_ret S E : MRet (eff S E) := fun A a s => (s, [], Some a).
#[export] Instance eff_bind S E : MBind (eff S E) := fun A B f m s =>
  match m s with
  | (s', ef, Some a) => let '(s'', ef', b) := f a s' in (s'', ef ++ ef', b)
  | (s', ef, None) => (s', ef, None)
  end.

Section operations.
Context {S E : Type}.

Definition get_state : eff S E S := fun s => (s, [], Some s).
Definition modify_state (f : S -> S) : eff S E unit := fun s => (f s, [], Some tt).
Definition effect (e : E) : eff S E unit := fun s => (s, [e], Some tt).
Definition panic {A} : eff S E A := fun s => (s, [], None).
(** [short_id(x)] in the arguments of a log line. *)
Definition log_arg (x : string) : eff S E unit := fun s =>
  (s, [], match short_id x with Some _ => Some tt | None => None end).

(** The [?] operator: what was done before an error stays. *)
Definition eff_try {A B} (m : eff S E (result AppError A)) (f : A -> eff S E (result AppError B))
    : eff S E (result AppError B) :=
  mbind (M := eff S E)
    (fun r => match r with Ok a => f a | Err e => mret (M := eff S E) (Err e) end) m.
(** [r?] for a result that is not an operation. *)
Definition eff_lift {A} (r : result AppError A) : eff S E (result AppError A) := mret (M := eff S E) r.

(** ** Running *)

Lemma run_eff {A B} (m : eff S E A) (f : A -> eff S E B) s :
  (m ≫= f) s = match m s with
               | (s', ef, Some a) => let '(s'', ef', b) := f a s' in (s'', ef ++ ef', b)
               | (s', ef, None) => (s', ef, None)
               end.
Proof. done. Qed.
Lemma run_eff_ret {A B} (a : A) (f : A -> eff S E B) s : (mret a ≫= f) s = f a s.
Proof. rewrite run_eff. cbn. by destruct (f a s) as [[??]?]. Qed.
Lemma run_eff_get {B} (f : S -> eff S E B) s : (get_state ≫= f) s = f s s.
Proof. rewrite run_eff. cbn. by destruct (f s s) as [[??]?]. Qed.
Lemma run_eff_modify {B} g (f : unit -> eff S E B) s : (modify_state g ≫= f) s = f tt (g s).
Proof. rewrite run_eff. cbn. by destruct (f tt (g s)) as [[??]?]. Qed.
Lemma run_eff_effect {B} e (f : unit -> eff S E B) s :
  (effect e ≫= f) s = let '(s', ef, b) := f tt s in (s', e :: ef, b).
Proof. done. Qed.
Lemma run_eff_log {B} x (f : unit -> eff S E B) s :
  is_Some (short_id x) -> (log_arg x ≫= f) s = f tt s.
Proof. intros [y Hy]. rewrite run_eff. unfold log_arg. rewrite Hy. by destruct (f tt s) as [[??]?]. Qed.
Lemma run_eff_try {A B} (m : eff S E (result AppError A)) (f : A -> eff S E (result AppError B)) s :
  eff_try m f s = match m s with
                  | (s', ef, Some (Ok a)) => let '(s'', ef', b) := f a s' in (s'', ef ++ ef', b)
                  | (s', ef, Some (Err e)) => (s', ef, Some (Err e))
                  | (s', ef, None) => (s', ef, None)
                  end.
Proof.
  unfold eff_try. rewrite run_eff. destruct (m s) as [[s' ef] [[a|e]|]]; [done| |done].
  cbn. by rewrite app_nil_r.
Qed.
Lemma run_eff_try_lift {A B} (r : result AppError A) (f : A -> eff S E (result AppError B)) s :
  eff_try (eff_lift r) f s = match r with Ok a => f a s | Err e => (s, [], Some (Err e)) end.
Proof. rewrite run_eff_try. cbn. destruct r; [|done]. by destruct (f a s) as [[??]?]. Qed.

(** A run that returned. *)
Lemma run_returned {A} (run : S * list E * option A) a : run.2 = Some a -> run = (run.1.1, run.1.2, Some a).
Proof. intros <-. by destruct run as [[??]?]. Qed.

(** The steps of an operation that returned. *)
Lemma eff_bind_inv {A B} (m : eff S E A) (f : A -> eff S E B) s s' ef b :
  (m ≫= f) s = (s', ef, Some b) ->
  exists s1 ef1 a ef2, m s = (s1, ef1, Some a) /\ f a s1 = (s', ef2, Some b) /\ ef = ef1 ++ ef2.
Proof.
  rewrite run_eff. destruct (m s) as [[s1 ef1] [a|]] eqn:Em; [|done].
  destruct (f a s1) as [[s2 ef2] b'] eqn:Ef. intros [= <- <- ->]. by exists s1, ef1, a, ef2.
Qed.
Lemma eff_try_inv {A B} (m : eff S E (result AppError A)) (f : A -> eff S E (result AppError B)) s s' ef b :
  eff_try m f s = (s', ef, Some (Ok b)) ->
  exists s1 ef1 a ef2, m s = (s1, ef1, Some (Ok a)) /\ f a s1 = (s', ef2, Some (Ok b)) /\ ef = ef1 ++ ef2.
Proof.
  intros (s1 & ef1 & [a|e] & ef2 & Em & Ef & ->)%eff_bind_inv; [|done]. by exists s1, ef1, a, ef2.
Qed.

(** ** Invariants of an operation

    [I] holds after [m] from every state with [I], also when [m] panics. *)
Definition preserves (I : S -> Prop) {A} (m : eff S E A) : Prop := forall s, I s -> I (m s).1.1.

Section preserves.
Context (I : S -> Prop).

Lemma preserves_ret {A} (a : A) : preserves I (mret a).
Proof. by intros s. Qed.
Lemma preserves_bind {A B} (m : eff S E A) (f : A -> eff S E B) :
  preserves I m -> (forall a, preserves I (f a)) -> preserves I (m ≫= f).
Proof.
  intros Hm Hf s Hs. rewrite run_eff. specialize (Hm s Hs). destruct (m s) as [[s' ef] [a|]]; [|done].
  specialize (Hf a s' Hm). by destruct (f a s') as [[??]?].
Qed.
Lemma preserves_try {A B} (m : eff S E (result AppError A)) (f : A -> eff S E (result AppError B)) :
  preserves I m -> (forall a, preserves I (f a)) -> preserves I (eff_try m f).
Proof. intros Hm Hf. apply preserves_bind; [done|]. intros [a|e]; [apply Hf|apply preserves_ret]. Qed.
Lemma preserves_lift {A} (r : result AppError A) : preserves I (eff_lift r).
Proof. by intros s. Qed.
Lemma preserves_get : preserves I get_state.
Proof. by intros s. Qed.
Lemma preserves_modify f : (forall s, I s -> I (f s)) -> preserves I (modify_state f).
Proof. intros Hf s Hs. by apply Hf. Qed.
Lemma preserves_effect e : preserves I (effect e).
Proof. by intros s. Qed.
Lemma preserves_log x : preserves I (log_arg x).
Proof. by intros s. Qed.
Lemma preserves_panic {A} : preserves I (panic : eff S E A).
Proof. by intros s. Qed.
End preserves.

(** ** What an operation does to the state and the world

    [R s ef s'] holds of the state before, the effects and the state after; for
    [traces] also when the operation panics, for [leads] when it returns. *)
Definition traces (R : S -> list E -> S -> Prop) {A} (m : eff S E A) : Prop :=
  forall s, R s (m s).1.2 (m s).1.1.
Definition leads (R : S -> list E -> S -> Prop) {A} (m : eff S E A) : Prop :=
  forall s s' ef a, m s = (s', ef, Some a) -> R s ef s'.

Section traces.
Context (R : S -> list E -> S -> Prop).
Context (Rnil : forall s, R s [] s) (Rapp : forall s1 ef1 s2 ef2 s3, R s1 ef1 s2 -> R s2 ef2 s3 -> R s1 (ef1 ++ ef2) s3).

Lemma traces_ret {A} (a : A) : traces R (mret a).
Proof using Rnil. intros s. apply Rnil. Qed.
Lemma traces_bind {A B} (m : eff S E A) (f : A -> eff S E B) :
  traces R m -> (forall a, traces R (f a)) -> traces R (m ≫= f).
Proof using Rapp.
  intros Hm Hf s. rewrite run_eff. specialize (Hm s). destruct (m s) as [[s' ef] [a|]]; [|done].
  specialize (Hf a s'). destruct (f a s') as [[??]?]. by eapply Rapp.
Qed.
Lemma traces_get : traces R get_state.
Proof using Rnil. intros s. apply Rnil. Qed.
Lemma traces_log x : traces R (log_arg x).
Proof using Rnil. intros s. apply Rnil. Qed.
Lemma traces_modify f : (forall s, R s [] (f s)) -> traces R (modify_state f).
Proof using. intros Hf s. apply Hf. Qed.
Lemma traces_effect e : (forall s, R s [e] s) -> traces R (effect e).
Proof using. intros He s. apply He. Qed.

Lemma traces_leads {A} (m : eff S E A) : traces R m -> leads R m.
Proof using. intros Hm s s' ef a E'. specialize (Hm s). by rewrite E' in Hm. Qed.
Lemma leads_ret {A} (a : A) : leads R (mret a).
Proof using Rnil. apply traces_leads, traces_ret. Qed.
Lemma leads_bind {A B} (m : eff S E A) (f : A -> eff S E B) :
  leads R m -> (forall a, leads R (f a)) -> leads R (m ≫= f).
Proof using Rapp.
  intros Hm Hf s s' ef b (s1 & ef1 & a & ef2 & E1 & E2 & ->)%eff_bind_inv.
  eapply Rapp; [by eapply Hm|by eapply Hf].
Qed.
End traces.
End operations.

Declare Scope eff_scope.
Delimit Scope eff_scope with eff.
Notation "x ←? m ; k" := (eff_try m (fun x => k))
  (at level 20, m at level 100, k at level 200, right associativity) : eff_scope.
Notation "' x ←? m ; k" := (eff_try m (fun x => k))
  (at level 20, x pattern, m at level 100, k at level 200, right associativity) : eff_scope.

(** Runs the rules of [preserves] through the branches of an operation; what is
    left are operations of the component. *)
Ltac solve_preserves :=
  repeat lazymatch goal with
  | |- forall _, _ => intros ?
  | |- preserves _ (_ ≫= _) => apply preserves_bind
  | |- preserves _ (eff_try _ _) => apply preserves_try
  | |- preserves _ (mret _) => apply preserves_ret
  | |- preserves _ (eff_lift _) => apply preserves_lift
  | |- preserves _ get_state => apply preserves_get
  | |- preserves _ (effect _) => apply preserves_effect
  | |- preserves _ (log_arg _) => apply preserves_log
  | |- preserves _ panic => apply preserves_panic
  | |- preserves _ (let _ := _ in _) => cbv zeta
  | |- preserves _ (match _ with _ => _ end) => first [case_decide | case_match]
  | |- preserves _ _ => eauto with preserves
  end.
Create HintDb preserves.
