(* ===== verification/Call.v ===== *)
(** * Voice calls

    Model of [src-tauri/src/call/] and of the loop of [setup.rs] that hands the
    signals of direct messages to it.  An operation is cut where it awaits
    something while it does not hold the lock of the active call and goes on to
    use the call: the rest is a [CallTask], which other operations may overtake.  Sending a signal is an
    effect with an outcome that is an argument ([Dm.send_signal] is the
    modelled sender), as are the outcomes of connecting and of opening sound
    devices.  [None] is a panic of the task; what it did before stays. *)

From S2P Require Import Prelude Types Signing Validation Store Effects Framing Audio Peers FollowRequests.

Local Open Scope Z_scope.

(** ** The state *)

Inductive CallState : Type := Ringing | Incoming | Active | Ended | Failed.
#[export] Instance CallState_eq_dec : EqDecision CallState.
Proof. solve_decision. Defined.

Record CallEvent : Type := {
  ce_call_id : string;
  ce_peer_pubkey : string;
  ce_state : CallState;
}.

(** The token, the mute flag and the pair of stream handles are shared
    references: indices into the tables of the handler. *)
Record ActiveCall : Type := {
  ac_call_id : string;
  ac_peer_pubkey : string;
  ac_cancel : nat;
  ac_muted : nat;
  ac_streams : nat;
}.

(** The open streams, each with its device; [None] inside is the default one. *)
Record SharedStreams : Type := {
  ss_capture : option (option string);
  ss_playback : option (option string);
}.

Record CallHandler : Type := {
  ch_preferences : Preferences;
  ch_active_call : option ActiveCall;
  ch_cancelled : gset nat;
  ch_muted : gmap nat bool;
  ch_streams : gmap nat SharedStreams;
  ch_fresh : nat;
}.

(** A suspended operation or a spawned task.  [SessionRunning] is an audio
    session: it captures the microphone and streams it to [remote]. *)
Inductive CallTask : Type :=
| RingTimeout (token : nat) (call_id peer_pubkey : string)
| OfferTimeout (token : nat) (call_id peer_pubkey : string)
| OfferChecked (call_id peer_pubkey : string)
| AnswerResolving (call_id peer_pubkey : string)
| AnswerConnecting (call_id peer_pubkey target : string)
| SessionStarting (call_id peer_pubkey target : string)
| SessionOpening (call_id peer_pubkey target : string) (token muted streams : nat)
| AcceptOpening (call_id remote : string) (streams : nat)
| SessionRunning (initiated : bool) (call_id remote : string) (token muted streams : nat).

Inductive CallEffect : Type :=
| Emit (e : CallEvent)
| SendSignal (peer_pubkey : string) (payload : DmPayload)
| Spawn (t : CallTask)
| EnterCommunicationMode
| RestoreDefaultRouting.

(** ** Operations that may panic *)

Abbreviation call := (eff CallHandler CallEffect).

Definition set_active (a : option ActiveCall) : call unit := modify_state (fun h =>
  {| ch_preferences := ch_preferences h; ch_active_call := a; ch_cancelled := ch_cancelled h;
      ch_muted := ch_muted h; ch_streams := ch_streams h; ch_fresh := ch_fresh h |}).
Definition cancel_token (t : nat) : call unit := modify_state (fun h =>
  {| ch_preferences := ch_preferences h; ch_active_call := ch_active_call h;
      ch_cancelled := {[t]} ∪ ch_cancelled h; ch_muted := ch_muted h; ch_streams := ch_streams h;
      ch_fresh := ch_fresh h |}).
Definition set_muted (r : nat) (b : bool) : call unit := modify_state (fun h =>
  {| ch_preferences := ch_preferences h; ch_active_call := ch_active_call h;
      ch_cancelled := ch_cancelled h; ch_muted := <[r := b]> (ch_muted h);
      ch_streams := ch_streams h; ch_fresh := ch_fresh h |}).
Definition set_streams (r : nat) (f : SharedStreams -> SharedStreams) : call unit := modify_state (fun h =>
  {| ch_preferences := ch_preferences h; ch_active_call := ch_active_call h;
      ch_cancelled := ch_cancelled h; ch_muted := ch_muted h;
      ch_streams := alter f r (ch_streams h); ch_fresh := ch_fresh h |}).
Definition save_preference (key value : string) : call unit := modify_state (fun h =>
  {| ch_preferences := set_preference key value (ch_preferences h);
      ch_active_call := ch_active_call h; ch_cancelled := ch_cancelled h; ch_muted := ch_muted h;
      ch_streams := ch_streams h; ch_fresh := ch_fresh h |}).
(** [CancellationToken::new()] and [Arc::new]. *)
Definition new_ref : call nat := fun h =>
  ({| ch_preferences := ch_preferences h; ch_active_call := ch_active_call h;
      ch_cancelled := ch_cancelled h; ch_muted := ch_muted h; ch_streams := ch_streams h;
      ch_fresh := S (ch_fresh h) |}, [], Some (ch_fresh h)).

Definition no_streams : SharedStreams := {| ss_capture := None; ss_playback := None |}.
Definition clear_streams (r : nat) : call unit := modify_state (fun h =>
  {| ch_preferences := ch_preferences h; ch_active_call := ch_active_call h;
      ch_cancelled := ch_cancelled h; ch_muted := ch_muted h;
      ch_streams := <[r := no_streams]> (ch_streams h); ch_fresh := ch_fresh h |}).
Definition set_capture (c : option (option string)) (s : SharedStreams) : SharedStreams :=
  {| ss_capture := c; ss_playback := ss_playback s |}.
Definition set_playback (p : option (option string)) (s : SharedStreams) : SharedStreams :=
  {| ss_capture := ss_capture s; ss_playback := p |}.

Definition emit_call_event (call_id peer_pubkey : string) (state : CallState) : call unit :=
  effect (Emit {| ce_call_id := call_id; ce_peer_pubkey := peer_pubkey; ce_state := state |}).

(** [ActiveCall { .. }] with fresh references. *)
Definition new_call (call_id peer_pubkey : string) (cancel : nat) : call ActiveCall :=
  muted ← new_ref;
  streams ← new_ref;
  _ ← set_muted muted false;
  _ ← clear_streams streams;
  mret {| ac_call_id := call_id; ac_peer_pubkey := peer_pubkey; ac_cancel := cancel;
          ac_muted := muted; ac_streams := streams |}.

(** The call is replaced by one with a fresh token. *)
Definition with_token (c : ActiveCall) (t : nat) : ActiveCall :=
  {| ac_call_id := ac_call_id c; ac_peer_pubkey := ac_peer_pubkey c; ac_cancel := t;
     ac_muted := ac_muted c; ac_streams := ac_streams c |}.

(** The active call if it is [call_id]. *)
Definition active_as (call_id : string) (h : CallHandler) : option ActiveCall :=
  match ch_active_call h with
  | Some c => if decide (ac_call_id c = call_id) then Some c else None
  | None => None
  end.

(** ** initiator.rs: starting *)

(** The lock is held while the offer is sent. *)
Definition start_call (call_id peer_pubkey : string) (sent : result AppError unit)
    : call (result AppError string) :=
  cancel ← new_ref;
  h ← get_state;
  match ch_active_call h with
  | Some _ => mret (Err (Other "already in a call"))
  | None =>
      _ ← log_arg call_id;
      _ ← log_arg peer_pubkey;
      _ ← effect (SendSignal peer_pubkey (CallOffer call_id false));
      match sent with
      | Err e => mret (Err e)
      | Ok _ =>
          c ← new_call call_id peer_pubkey cancel;
          _ ← set_active (Some c);
          _ ← emit_call_event call_id peer_pubkey Ringing;
          _ ← effect (Spawn (RingTimeout cancel call_id peer_pubkey));
          mret (Ok call_id)
      end
  end.

(** The timer of [start_call] runs out. *)
Definition ring_timeout (call_id peer_pubkey : string) : call unit :=
  _ ← log_arg call_id;
  _ ← emit_call_event call_id peer_pubkey Failed;
  h ← get_state;
  match active_as call_id h with
  | Some _ => set_active None
  | None => mret tt
  end.

(** ** responder.rs *)

(** Between the two locks another operation may start a call. *)
Definition on_call_offer (call_id peer_pubkey : string) : call unit :=
  h ← get_state;
  match ch_active_call h with
  | Some _ =>
      _ ← log_arg call_id;
      effect (SendSignal peer_pubkey (CallReject call_id))
  | None => effect (Spawn (OfferChecked call_id peer_pubkey))
  end.
Definition offer_checked (call_id peer_pubkey : string) : call unit :=
  cancel ← new_ref;
  c ← new_call call_id peer_pubkey cancel;
  _ ← set_active (Some c);
  _ ← emit_call_event call_id peer_pubkey Incoming;
  effect (Spawn (OfferTimeout cancel call_id peer_pubkey)).

Definition offer_timeout (call_id peer_pubkey : string) : call unit :=
  _ ← log_arg call_id;
  _ ← emit_call_event call_id peer_pubkey Ended;
  h ← get_state;
  match active_as call_id h with
  | Some _ =>
      _ ← effect (SendSignal peer_pubkey (CallReject call_id));
      set_active None
  | None => mret tt
  end.

(** The timer is cancelled and the call gets a token of its own. *)
Definition renew_token (c : ActiveCall) : call unit :=
  _ ← cancel_token (ac_cancel c);
  t ← new_ref;
  set_active (Some (with_token c t)).

Definition accept_call (call_id : string) (sent : result AppError unit) : call (result AppError unit) :=
  h ← get_state;
  match active_as call_id h with
  | None => mret (Err (Other "no incoming call with that ID"))
  | Some c =>
      _ ← renew_token c;
      let peer_pubkey := ac_peer_pubkey c in
      _ ← log_arg call_id;
      _ ← log_arg peer_pubkey;
      _ ← effect (SendSignal peer_pubkey (CallAnswer call_id));
      match sent with
      | Err e => mret (Err e)
      | Ok _ => _ ← emit_call_event call_id peer_pubkey Active; mret (Ok tt)
      end
  end.

(** ** initiator.rs: after the answer *)

Definition on_call_answered (call_id peer_pubkey : string) : call unit :=
  h ← get_state;
  match active_as call_id h with
  | None => log_arg call_id
  | Some c =>
      _ ← renew_token c;
      _ ← emit_call_event call_id peer_pubkey Active;
      effect (Spawn (AnswerResolving call_id peer_pubkey))
  end.

(** The failures after the answer: whatever call is active is forgotten. *)
Definition abandon_call (call_id peer_pubkey : string) : call unit :=
  _ ← emit_call_event call_id peer_pubkey Failed;
  set_active None.

(** [android.rs] and the sound library, as far as they can fail. *)
Record AudioOutcome : Type := {
  ao_capture : bool;
  ao_playback : bool;
}.

Definition audio_device_prefs (h : CallHandler) : option string * option string :=
  let non_empty key := match get_preference (ch_preferences h) key with
                       | Some s => if decide (s = ""%string) then None else Some s
                       | None => None
                       end in
  (non_empty "audio_input_device"%string, non_empty "audio_output_device"%string).

(** The microphone is opened and the tasks of the session are spawned; [false]
    when the microphone does not open. *)
Definition open_audio (audio : AudioOutcome) (streams : nat) (session : CallTask) : call bool :=
  h ← get_state;
  let '(input_dev, output_dev) := audio_device_prefs h in
  _ ← effect EnterCommunicationMode;
  if ao_capture audio then
    _ ← set_streams streams (set_capture (Some input_dev));
    _ ← (if ao_playback audio then set_streams streams (set_playback (Some output_dev)) else mret tt);
    _ ← effect (Spawn session);
    mret true
  else mret false.

(** The end of a session, in both roles: the receiving loop clears its handle,
    and the call is cleared if it is still the one of the session. *)
Definition end_session (call_id : string) (streams : nat) : call unit :=
  _ ← set_streams streams (set_playback None);
  h ← get_state;
  match active_as call_id h with
  | Some c =>
      _ ← set_active None;
      emit_call_event call_id (ac_peer_pubkey c) Ended
  | None => mret tt
  end.

Section network.
Context `{Ed25519, SqlOrder, !Serde (list string)}.

Definition answer_resolving (d : Db) (call_id peer_pubkey : string) : call unit :=
  let node_ids := default [] (res_ok (get_peer_transport_node_ids d peer_pubkey)) in
  match list_find (fun id => is_ok (pk_parse id)) node_ids with
  | Some (_, target) => effect (Spawn (AnswerConnecting call_id peer_pubkey target))
  | None =>
      _ ← log_arg peer_pubkey;
      abandon_call call_id peer_pubkey
  end.

Definition answer_connecting (connected : bool) (call_id peer_pubkey target : string) : call unit :=
  if connected then
    _ ← log_arg call_id;
    effect (Spawn (SessionStarting call_id peer_pubkey target))
  else abandon_call call_id peer_pubkey.

(** [run_audio_session], in three parts. *)
Definition session_starting (call_id peer_pubkey target : string) : call unit :=
  h ← get_state;
  match active_as call_id h with
  | Some c =>
      effect (Spawn (SessionOpening call_id peer_pubkey target (ac_cancel c) (ac_muted c) (ac_streams c)))
  | None => mret tt
  end.
Definition session_opening (opened : bool) (audio : AudioOutcome) (call_id peer_pubkey target : string)
    (token muted streams : nat) : call unit :=
  if opened then
    started ← open_audio audio streams (SessionRunning true call_id target token muted streams);
    if (started : bool) then mret tt else abandon_call call_id peer_pubkey
  else abandon_call call_id peer_pubkey.
Definition session_ends (call_id : string) (streams : nat) : call unit :=
  _ ← log_arg call_id;
  end_session call_id streams.

(** ** mod.rs: an incoming audio connection *)

Definition accept (d : Db) (remote_str : string) : call (result AppError unit) :=
  _ ← log_arg remote_str;
  let peer_pubkey := default remote_str (get_master_pubkey_for_transport d remote_str) in
  h ← get_state;
  match ch_active_call h with
  | Some c =>
      if decide (ac_peer_pubkey c = peer_pubkey) then
        _ ← log_arg (ac_call_id c);
        _ ← effect (Spawn (AcceptOpening (ac_call_id c) remote_str (ac_streams c)));
        mret (Ok tt)
      else _ ← log_arg peer_pubkey; mret (Err (Other "no active call with this peer"))
  | None => _ ← log_arg peer_pubkey; mret (Err (Other "no active call with this peer"))
  end.

(** The token and the mute flag are those of the call that is active now, and
    [unwrap] panics when there is none. *)
Definition accept_opening (opened : bool) (audio : AudioOutcome) (call_id remote : string)
    (streams : nat) : call (result AppError unit) :=
  if opened then
    h ← get_state;
    match ch_active_call h with
    | None => panic
    | Some c =>
        started ← open_audio audio streams
                    (SessionRunning false call_id remote (ac_cancel c) (ac_muted c) streams);
        mret (if (started : bool) then Ok tt else Err (Other "failed to start audio capture"))
    end
  else mret (Err (Other "accept_bi")).
End network.

(** ** termination.rs *)

Definition reject_call (call_id : string) : call (result AppError unit) :=
  h ← get_state;
  match ch_active_call h with
  | Some c =>
      if decide (ac_call_id c = call_id) then
        _ ← set_active None;
        _ ← cancel_token (ac_cancel c);
        _ ← effect (SendSignal (ac_peer_pubkey c) (CallReject call_id));
        _ ← emit_call_event call_id (ac_peer_pubkey c) Ended;
        mret (Ok tt)
      else _ ← log_arg (ac_peer_pubkey c); mret (Err (Other "another call is active"))
  | None => mret (Err (Other "no active call"))
  end.

Definition hangup : call (result AppError unit) :=
  h ← get_state;
  match ch_active_call h with
  | None => mret (Err (Other "no active call"))
  | Some c =>
      _ ← set_active None;
      _ ← cancel_token (ac_cancel c);
      _ ← effect (SendSignal (ac_peer_pubkey c) (CallHangup (ac_call_id c)));
      _ ← emit_call_event (ac_call_id c) (ac_peer_pubkey c) Ended;
      _ ← effect RestoreDefaultRouting;
      _ ← log_arg (ac_call_id c);
      mret (Ok tt)
  end.

Definition on_call_ended (call_id : string) : call unit :=
  h ← get_state;
  match active_as call_id h with
  | Some c =>
      _ ← cancel_token (ac_cancel c);
      _ ← set_active None;
      _ ← emit_call_event call_id (ac_peer_pubkey c) Ended;
      effect RestoreDefaultRouting
  | None => mret tt
  end.

(** ** state.rs *)

Definition toggle_mute : call (result AppError bool) :=
  h ← get_state;
  match ch_active_call h with
  | None => mret (Err (Other "no active call"))
  | Some c =>
      let was_muted := default false (ch_muted h !! ac_muted c) in
      _ ← set_muted (ac_muted c) (negb was_muted);
      _ ← log_arg (ac_call_id c);
      mret (Ok (negb was_muted))
  end.

Definition device_name (name : string) : option string :=
  if decide (name = ""%string) then None else Some name.

(** [built]: the new stream can be built; the old one stays if not. *)
Definition switch_input_device (built : bool) (name : string) : call (result AppError unit) :=
  _ ← save_preference "audio_input_device" name;
  h ← get_state;
  match ch_active_call h with
  | None => mret (Ok tt)
  | Some c =>
      match ch_streams h !! ac_streams c ≫= ss_capture with
      | None => mret (Ok tt)
      | Some _ =>
          if built then
            _ ← set_streams (ac_streams c) (set_capture (Some (device_name name)));
            mret (Ok tt)
          else mret (Err (Other "failed to switch input device"))
      end
  end.
Definition switch_output_device (built : bool) (name : string) : call (result AppError unit) :=
  _ ← save_preference "audio_output_device" name;
  h ← get_state;
  match ch_active_call h with
  | None => mret (Ok tt)
  | Some c =>
      match ch_streams h !! ac_streams c ≫= ss_playback with
      | None => mret (Ok tt)
      | Some _ =>
          if built then
            _ ← set_streams (ac_streams c) (set_playback (Some (device_name name)));
            mret (Ok tt)
          else mret (Err (Other "failed to switch output device"))
      end
  end.

Definition rebuild_streams (capture_built playback_built : bool) : call unit :=
  h ← get_state;
  match ch_active_call h with
  | None => mret tt
  | Some c =>
      set_streams (ac_streams c) (fun s =>
        {| ss_capture := match ss_capture s with
                         | Some dev => Some (if capture_built then None else dev)
                         | None => None
                         end;
           ss_playback := match ss_playback s with
                          | Some dev => Some (if playback_built then None else dev)
                          | None => None
                          end |})
  end.

(** ** setup.rs: the signals of the direct messages *)

Definition on_signal (peer_pubkey : string) (payload : DmPayload) : call unit :=
  match payload with
  | CallOffer call_id _ => on_call_offer call_id peer_pubkey
  | CallAnswer call_id => on_call_answered call_id peer_pubkey
  | CallReject call_id | CallHangup call_id => on_call_ended call_id
  | Message _ | Typing | Read _ | Delivered _ => mret tt
  end.

(** ** The handler with its tasks *)

(** [sy_listening]: the loop of [setup.rs] has not panicked. *)
Record CallSystem : Type := {
  sy_handler : CallHandler;
  sy_tasks : list CallTask;
  sy_listening : bool;
}.

(** What can happen next.  [Resume i] resumes the [i]th task with the outcome of
    what it awaited; a running session is resumed when it ends. *)
Inductive CallInput : Type :=
| StartCall (call_id peer_pubkey : string) (sent : result AppError unit)
| AcceptCall (call_id : string) (sent : result AppError unit)
| RejectCall (call_id : string)
| Hangup
| ToggleMute
| SwitchInput (built : bool) (name : string)
| SwitchOutput (built : bool) (name : string)
| RebuildStreams (capture_built playback_built : bool)
| Signalled (peer_pubkey : string) (payload : DmPayload)
| AudioConnection (remote : string)
| Resume (i : nat) (ok : bool) (audio : AudioOutcome).

Definition spawned (ef : list CallEffect) : list CallTask :=
  omap (fun e => match e with Spawn t => Some t | _ => None end) ef.

(** [m] runs; the tasks it spawns are added. *)
Definition perform {A} (m : call A) (tasks : list CallTask) (sys : CallSystem)
    : CallSystem * list CallEffect * option A :=
  let '(h, ef, r) := m (sy_handler sys) in
  ({| sy_handler := h; sy_tasks := tasks ++ spawned ef; sy_listening := sy_listening sys |}, ef, r).

Section system.
Context `{Ed25519, SqlOrder, !Serde (list string)}.

(** A timer whose token is cancelled ends silently. *)
Definition unless_cancelled (token : nat) (m : call unit) : call unit :=
  h ← get_state; if decide (token ∈ ch_cancelled h) then mret tt else m.

Definition resume (d : Db) (t : CallTask) (ok : bool) (audio : AudioOutcome) : call unit :=
  match t with
  | RingTimeout token call_id pk => unless_cancelled token (ring_timeout call_id pk)
  | OfferTimeout token call_id pk => unless_cancelled token (offer_timeout call_id pk)
  | OfferChecked call_id pk => offer_checked call_id pk
  | AnswerResolving call_id pk => answer_resolving d call_id pk
  | AnswerConnecting call_id pk target => answer_connecting ok call_id pk target
  | SessionStarting call_id pk target => session_starting call_id pk target
  | SessionOpening call_id pk target token muted streams =>
      session_opening ok audio call_id pk target token muted streams
  | AcceptOpening call_id remote streams =>
      _ ← accept_opening ok audio call_id remote streams; mret tt
  | SessionRunning initiated call_id remote token muted streams =>
      if initiated then session_ends call_id streams else end_session call_id streams
  end.

(** The operation of an input other than [Resume]. *)
Definition operation (d : Db) (x : CallInput) : call unit :=
  match x with
  | StartCall call_id pk sent => _ ← start_call call_id pk sent; mret tt
  | AcceptCall call_id sent => _ ← accept_call call_id sent; mret tt
  | RejectCall call_id => _ ← reject_call call_id; mret tt
  | Hangup => _ ← hangup; mret tt
  | ToggleMute => _ ← toggle_mute; mret tt
  | SwitchInput built name => _ ← switch_input_device built name; mret tt
  | SwitchOutput built name => _ ← switch_output_device built name; mret tt
  | RebuildStreams c p => rebuild_streams c p
  | Signalled pk payload => on_signal pk payload
  | AudioConnection remote => _ ← accept d remote; mret tt
  | Resume _ _ _ => mret tt
  end.

Definition call_step (d : Db) (x : CallInput) (sys : CallSystem) : CallSystem * list CallEffect :=
  match x with
  | Resume i ok audio =>
      match sy_tasks sys !! i with
      | None => (sys, [])
      | Some t =>
          let '(sys, ef, _) := perform (resume d t ok audio) (delete i (sy_tasks sys)) sys in (sys, ef)
      end
  | Signalled _ _ =>
      if sy_listening sys then
        let '(sys, ef, r) := perform (operation d x) (sy_tasks sys) sys in
        ({| sy_handler := sy_handler sys; sy_tasks := sy_tasks sys;
            sy_listening := bool_decide (is_Some r) |}, ef)
      else (sys, [])
  | _ => let '(sys, ef, _) := perform (operation d x) (sy_tasks sys) sys in (sys, ef)
  end.

Fixpoint run_calls (d : Db) (xs : list CallInput) (sys : CallSystem) : CallSystem * list CallEffect :=
  match xs with
  | [] => (sys, [])
  | x :: xs =>
      let '(sys, ef) := call_step d x sys in
      let '(sys, ef') := run_calls d xs sys in (sys, ef ++ ef')
  end.

(** No call, no task. *)
Definition idle_calls (prefs : Preferences) : CallSystem :=
  {| sy_handler := {| ch_preferences := prefs; ch_active_call := None; ch_cancelled := ∅;
       ch_muted := ∅; ch_streams := ∅; ch_fresh := 0 |};
     sy_tasks := []; sy_listening := true |}.
End system.

(** ** The sound of a session *)

Section sound.
Context {Sample : Type} (silence : Sample) `{OpusLib Sample, Aec3 Sample}.

(** One round of the echo-cancelling thread: the far-end samples queued so far,
    a chunk of the microphone, whether the session is cancelled and muted. *)
Record AecRound : Type := {
  ar_far : list (list Sample);
  ar_raw : list Sample;
  ar_cancelled : bool;
  ar_muted : bool;
}.

Definition aec_round (aec : EchoCanceller Sample) (r : AecRound) : EchoCanceller Sample * option (list Sample) :=
  let aec := fold_left render (ar_far r) aec in
  let '(aec, cleaned) := process_capture aec (ar_raw r) in
  (aec, match cleaned with
        | [] => None
        | _ :: _ => Some (if ar_muted r then replicate (length cleaned) silence else cleaned)
        end).

(** The chunks handed to the sending loop. *)
Fixpoint aec_thread (aec : EchoCanceller Sample) (rounds : list AecRound) : list (list Sample) :=
  match rounds with
  | [] => []
  | r :: rounds =>
      if ar_cancelled r then []
      else let '(aec, out) := aec_round aec r in
           match out with
           | Some samples => samples :: aec_thread aec rounds
           | None => aec_thread aec rounds
           end
  end.

Definition wrapping_add_u32 (x y : Z) : Z := (x + y) mod 2 ^ 32.

Fixpoint send_packets (seq timestamp : Z) (packets : list bytes) : list AudioFrame * Z * Z :=
  match packets with
  | [] => ([], seq, timestamp)
  | p :: packets =>
      let '(fs, seq', ts') :=
        send_packets (wrapping_add_u32 seq 1) (wrapping_add_u32 timestamp SAMPLES_PER_FRAME) packets in
      ({| af_seq := seq; af_timestamp := timestamp; af_tag := TAG_NORMAL; af_payload := p |} :: fs,
       seq', ts')
  end.

(** The frames the sending loop writes; a failure to write ends it early. *)
Fixpoint send_audio_loop (enc : OpusEncoder Sample) (seq timestamp : Z) (chunks : list (list Sample))
    : list AudioFrame :=
  match chunks with
  | [] => []
  | c :: chunks =>
      let '(enc, packets) := push_samples enc c in
      let '(fs, seq, timestamp) := send_packets seq timestamp packets in
      fs ++ send_audio_loop enc seq timestamp chunks
  end.

(** The receiving loop with the decoder of the opus crate: the samples it plays
    (and feeds to the echo canceller), and the number of frames. *)
Fixpoint recv_audio_loop {Decoder : Type} (decode : Decoder -> bytes -> Decoder * option (list Sample))
    (dec : Decoder) (frames : list AudioFrame) : list (list Sample) * Z :=
  match frames with
  | [] => ([], 0)
  | f :: frames =>
      let '(dec, out) := decode dec (af_payload f) in
      let '(played, n) := recv_audio_loop decode dec frames in
      (match out with Some samples => samples :: played | None => played end, n + 1)
  end.
End sound.
