(* ===== verification/CallSafety.v ===== *)
(** * Voice calls: invariants

    Rules for operations of the call handler that may panic, the invariant of
    its tokens and shared references, and where the audio sessions of a
    reachable handler come from. *)

From S2P Require Import Prelude Types Signing Validation Store Effects Framing Audio Peers FollowRequests Call.

Local Open Scope Z_scope.

(** ** Running an operation *)

(** Computes the operations of the handler on a known state. *)
Ltac run_call :=
  cbv [mbind eff_bind mret eff_ret get_state modify_state effect log_arg panic set_active cancel_token set_muted
       set_streams save_preference new_ref clear_streams new_call emit_call_event renew_token active_as
       unless_cancelled abandon_call end_session]; cbn.

(** ** Rules for operations *)

Lemma spawned_app ef ef' : spawned (ef ++ ef') = spawned ef ++ spawned ef'.
Proof. apply omap_app. Qed.

Definition any {A} (_ : A) (_ : CallHandler) : Prop := True.

(** What operations are shown to keep: [W] of the handler and [T] of its tasks,
    which the changes [R] of the handler do not break. *)
Class Keepable (W : CallHandler -> Prop) (R : CallHandler -> CallHandler -> Prop)
    (T : CallHandler -> CallTask -> Prop) : Prop := {
  kp_preorder :: PreOrder R;
  kp_mono h h' t : R h h' -> T h t -> T h' t;
}.

Section triples.
Context {W : CallHandler -> Prop} {R : CallHandler -> CallHandler -> Prop}
  {T : CallHandler -> CallTask -> Prop} `{!Keepable W R T}.

(** From any state with [W] that is [R]-later than [h0], [m] leaves one with
    [W], [R]-later, also when it panics; the tasks it spawns satisfy [T] and its
    result [Q]. *)
Definition keeps {A} (h0 : CallHandler) (m : call A) (Q : A -> CallHandler -> Prop) : Prop :=
  forall h, R h0 h -> W h ->
  W (m h).1.1 /\ R h (m h).1.1 /\ Forall (T (m h).1.1) (spawned (m h).1.2) /\
  forall a, (m h).2 = Some a -> Q a (m h).1.1.

Lemma keeps_bind {A B} h0 (m : call A) (f : A -> call B) Q Q' :
  keeps h0 m Q -> (forall a h1, R h0 h1 -> Q a h1 -> keeps h1 (f a) Q') -> keeps h0 (m ≫= f) Q'.
Proof.
  intros Hm Hf h Hg Hw. destruct (Hm h Hg Hw) as (W1 & G1 & T1 & Q1). cbv [mbind eff_bind].
  destruct (m h) as [[h1 ef1] [a|]]; cbn in *; [|by split_and!].
  destruct (Hf a h1 (transitivity Hg G1) (Q1 a eq_refl) h1 (reflexivity _) W1) as (W2 & G2 & T2 & Q2).
  destruct (f a h1) as [[h2 ef2] b]; cbn in *. split_and!; [done|by etransitivity| |done].
  rewrite spawned_app. apply Forall_app. split; [|done].
  eapply Forall_impl; [exact T1|]. intros t. by apply kp_mono.
Qed.
Lemma keeps_ret {A} h0 (a : A) Q : (forall h, R h0 h -> Q a h) -> keeps h0 (mret a) Q.
Proof. intros HQ h Hg Hw. split_and!; [done|done|constructor|]. intros ? [= <-]. by apply HQ. Qed.
Lemma keeps_get h0 : keeps h0 get_state (fun a h => a = h /\ W h).
Proof. intros h Hg Hw. split_and!; [done|done|constructor|]. by intros ? [= <-]. Qed.
Lemma keeps_log h0 s : keeps h0 (log_arg s) any.
Proof. intros h Hg Hw. by split_and!; [| |constructor|]. Qed.
Lemma keeps_panic {A} h0 Q : keeps h0 (panic : call A) Q.
Proof. intros h Hg Hw. by split_and!; [| |constructor|]. Qed.
Lemma keeps_effect h0 e : Forall (T h0) (spawned [e]) -> keeps h0 (effect e) any.
Proof.
  intros He h Hg Hw. split_and!; [done|done| |done].
  eapply Forall_impl; [exact He|]. intros t. by apply kp_mono.
Qed.
Lemma keeps_weaken {A} h0 (m : call A) Q : keeps h0 m Q -> keeps h0 m any.
Proof. intros Hm h Hg Hw. by destruct (Hm h Hg Hw) as (? & ? & ? & _). Qed.
Lemma keeps_unless h0 token m : keeps h0 m any -> keeps h0 (unless_cancelled token m) any.
Proof.
  intros Hm. unfold unless_cancelled. eapply keeps_bind; [apply keeps_get|]. intros a h G _.
  destruct (decide _); [by apply keeps_ret|]. intros h' G'. apply Hm. by etransitivity.
Qed.

Lemma keeps_perform {A} (m : call A) tasks sys :
  keeps (sy_handler sys) m any -> W (sy_handler sys) -> Forall (T (sy_handler sys)) tasks ->
  W (sy_handler (perform m tasks sys).1.1) /\
  Forall (T (sy_handler (perform m tasks sys).1.1)) (sy_tasks (perform m tasks sys).1.1).
Proof.
  intros Hm Hw Ht. destruct (Hm _ (reflexivity _) Hw) as (W1 & G & T1 & _). unfold perform.
  destruct (m (sy_handler sys)) as [[h ef] r]; cbn in *. split; [done|]. apply Forall_app.
  split; [|done]. eapply Forall_impl; [exact Ht|]. intros t. by apply kp_mono.
Qed.
End triples.
Arguments keeps W R T {A} h0 m Q.

Section calls.
Context `{Ed25519, SqlOrder, !Serde (list string)}.

(** The reachable handlers, under any database at each step. *)
Inductive call_reach (prefs : Preferences) : list (Db * CallInput) -> CallSystem -> Prop :=
| reach_idle : call_reach prefs [] (idle_calls prefs)
| reach_step xs sys d x :
    call_reach prefs xs sys -> call_reach prefs ((d, x) :: xs) (call_step d x sys).1.

(** ** The references of a handler *)

(** The microphone behind the handle [s] is open. *)
Definition capturing (h : CallHandler) (s : nat) : Prop :=
  exists ss, ch_streams h !! s = Some ss /\ is_Some (ss_capture ss).

(** The references of a call are allocated. *)
Record allocated (h : CallHandler) (token muted streams : nat) : Prop := {
  al_token : (token < ch_fresh h)%nat;
  al_muted : is_Some (ch_muted h !! muted);
  al_streams : is_Some (ch_streams h !! streams);
}.
Definition call_allocated (h : CallHandler) (c : ActiveCall) : Prop :=
  allocated h (ac_cancel c) (ac_muted c) (ac_streams c).

Definition task_wf (h : CallHandler) (t : CallTask) : Prop :=
  match t with
  | RingTimeout token _ _ | OfferTimeout token _ _ => (token < ch_fresh h)%nat
  | SessionOpening _ _ _ token muted streams => allocated h token muted streams
  | AcceptOpening _ _ streams => is_Some (ch_streams h !! streams)
  | SessionRunning _ _ _ token muted streams => allocated h token muted streams /\ capturing h streams
  | OfferChecked _ _ | AnswerResolving _ _ | AnswerConnecting _ _ _ | SessionStarting _ _ _ => True
  end.

Record handler_wf (h : CallHandler) : Prop := {
  hw_cancelled : forall t, t ∈ ch_cancelled h -> (t < ch_fresh h)%nat;
  hw_active : forall c, ch_active_call h = Some c -> call_allocated h c;
  hw_streams : forall r, is_Some (ch_streams h !! r) -> (r < ch_fresh h)%nat;
}.

(** References stay allocated and microphones stay open. *)
Record grows (h h' : CallHandler) : Prop := {
  gr_fresh : (ch_fresh h <= ch_fresh h')%nat;
  gr_muted : forall r, is_Some (ch_muted h !! r) -> is_Some (ch_muted h' !! r);
  gr_streams : forall r, is_Some (ch_streams h !! r) -> is_Some (ch_streams h' !! r);
  gr_capturing : forall r, capturing h r -> capturing h' r;
}.

#[export] Instance grows_preorder : PreOrder grows.
Proof.
  split; [by intros h; split|].
  intros h1 h2 h3 [A1 A2 A3 A4] [B1 B2 B3 B4]. split; [lia|auto..].
Qed.

Lemma allocated_grows h h' t m s : grows h h' -> allocated h t m s -> allocated h' t m s.
Proof. intros [G1 G2 G3 _] [A1 A2 A3]. split; [lia|auto..]. Qed.
Lemma task_wf_grows h h' t : grows h h' -> task_wf h t -> task_wf h' t.
Proof.
  intros Hg. pose proof (gr_fresh _ _ Hg). destruct t; cbn; try done; try lia.
  - by apply allocated_grows.
  - by apply (gr_streams _ _ Hg).
  - intros [? ?]. split; [by eapply allocated_grows|by apply (gr_capturing _ _ Hg)].
Qed.

#[local] Instance wf_keepable : Keepable handler_wf grows task_wf.
Proof. split; [apply _|apply task_wf_grows]. Qed.

(** The rules for [handler_wf]. *)
Abbreviation keeps_wf := (keeps handler_wf grows task_wf).

Lemma alter_is_Some (f : SharedStreams -> SharedStreams) s r (m : gmap nat SharedStreams) :
  is_Some (alter f s m !! r) <-> is_Some (m !! r).
Proof.
  destruct (decide (s = r)) as [->|Hne].
  - rewrite lookup_alter_eq. apply fmap_is_Some.
  - by rewrite lookup_alter_ne.
Qed.

Lemma keeps_set_active h0 a :
  match a with Some c => call_allocated h0 c | None => True end -> keeps_wf h0 (set_active a) any.
Proof.
  intros Ha h Hg [W1 W2 W3]. split_and!; [|by split|constructor|done].
  split; cbn; [done| |done]. intros c ->. eapply allocated_grows in Ha; [|exact Hg]. by destruct Ha.
Qed.
Lemma keeps_cancel h0 t : (t < ch_fresh h0)%nat -> keeps_wf h0 (cancel_token t) any.
Proof.
  intros Ht h Hg [W1 W2 W3]. split_and!; [|by split|constructor|done].
  split; cbn; [|by intros c [? ? ?]%W2|done]. intros t'. rewrite elem_of_union, elem_of_singleton.
  intros [->|?]; [pose proof (gr_fresh _ _ Hg); lia|auto].
Qed.
Lemma keeps_set_muted h0 r b : keeps_wf h0 (set_muted r b) (fun _ h => is_Some (ch_muted h !! r)).
Proof.
  assert (forall (m : gmap nat bool) r', is_Some (m !! r') -> is_Some (<[r := b]> m !! r')) as Hi.
  { intros m r' Hm. apply lookup_insert_is_Some. destruct (decide (r = r')); [by left|by right]. }
  intros h Hg [W1 W2 W3]. split_and!; [|split; cbn; auto|constructor|].
  - split; cbn; [done| |done]. intros c [A1 A2 A3]%W2. split; cbn; auto.
  - intros ? _. cbn. apply lookup_insert_is_Some. by left.
Qed.
Lemma keeps_set_streams h0 r g :
  (forall s, is_Some (ss_capture s) -> is_Some (ss_capture (g s))) ->
  keeps_wf h0 (set_streams r g) (fun _ h => is_Some (ch_streams h0 !! r) ->
    (forall s, is_Some (ss_capture (g s))) -> capturing h r).
Proof.
  intros Hgc h Hg [W1 W2 W3]. split_and!.
  - split; cbn; [done| |intros r' Hr; apply W3; by rewrite alter_is_Some in Hr].
    intros c [A1 A2 A3]%W2. split; cbn; [done|done|by apply alter_is_Some].
  - split; cbn; [done|done|intros r' ?; by apply alter_is_Some|].
    intros r' (ss & Hr & Hc). destruct (decide (r = r')) as [<-|Hne].
    + exists (g ss). cbn. rewrite lookup_alter_eq, Hr. split; [done|auto].
    + exists ss. cbn. by rewrite lookup_alter_ne.
  - constructor.
  - intros ? _ Hr Hc. apply (gr_streams _ _ Hg) in Hr as [ss Hr]. exists (g ss). cbn.
    by rewrite lookup_alter_eq, Hr.
Qed.
Lemma keeps_new_ref h0 : keeps_wf h0 new_ref (fun a h => (a < ch_fresh h)%nat).
Proof.
  intros h Hg [W1 W2 W3]. split_and!; [|split; cbn; auto|constructor|].
  - split; cbn; [intros t ?%W1; lia| |intros r ?%W3; lia]. intros c [A1 A2 A3]%W2. split; cbn; auto.
  - intros ? [= <-]. cbn. lia.
Qed.
Lemma keeps_save h0 k v : keeps_wf h0 (save_preference k v) any.
Proof.
  intros h Hg [W1 W2 W3]. split_and!; [|by split|constructor|done].
  split; cbn; [done| |done]. by intros c [? ? ?]%W2.
Qed.

Lemma keeps_new_call h0 cid peer cancel :
  (cancel < ch_fresh h0)%nat ->
  keeps_wf h0 (new_call cid peer cancel) (fun c h => call_allocated h c /\
    ac_call_id c = cid /\ ac_peer_pubkey c = peer /\ ac_cancel c = cancel).
Proof.
  intros Hc h Hg [W1 W2 W3]. pose proof (gr_fresh _ _ Hg) as Hf. unfold new_call. run_call.
  assert (forall r, is_Some (ch_streams h !! r) -> r <> S (ch_fresh h)) as Hr by (intros r ?%W3; lia).
  split_and!; [| |constructor|].
  - split; cbn; [intros t ?%W1; lia| |].
    + intros c [A1 A2 A3]%W2. by split; cbn; [lia|apply lookup_insert_is_Some'; right..].
    + intros r [<-|?%W3]%lookup_insert_is_Some'; lia.
  - split; cbn; [lia|intros r ?; apply lookup_insert_is_Some'; by right..|].
    intros r (ss & Es & Hss). exists ss. cbn. rewrite lookup_insert_ne; [done|].
    intros <-. by apply (Hr (S (ch_fresh h))); [eexists|].
  - intros c [= <-]. cbn. split_and!; [|done..]. split; cbn; [lia|apply lookup_insert_is_Some'; by left..].
Qed.

Lemma keeps_renew h0 c :
  call_allocated h0 c -> keeps_wf h0 (renew_token c) any.
Proof.
  intros Ha. unfold renew_token. eapply keeps_bind; [apply keeps_cancel, Ha|]. intros _ h1 G1 _.
  eapply keeps_bind; [apply keeps_new_ref|]. intros t h2 G2 Ht. apply keeps_set_active.
  destruct Ha as [A1 A2 A3]. split; cbn; [done|..].
  - by apply (gr_muted _ _ (transitivity G1 G2)).
  - by apply (gr_streams _ _ (transitivity G1 G2)).
Qed.

(** The active call of a well-formed state. *)
Lemma active_as_allocated h cid c :
  handler_wf h -> active_as cid h = Some c -> call_allocated h c /\ ac_call_id c = cid.
Proof.
  intros Hw. unfold active_as. destruct (ch_active_call h) as [c'|] eqn:E; [|done].
  destruct (decide _); [|done]. intros [= <-]. split; [by apply Hw|done].
Qed.

(** Runs the rules of [keeps_wf] through an operation. *)
Ltac solve_keeps :=
  repeat lazymatch goal with
  | |- keeps_wf _ (mret _) _ => apply keeps_ret; done
  | |- keeps_wf _ (get_state ≫= _) _ =>
      eapply keeps_bind; [apply keeps_get|intros ? ?h ?Hg [-> ?Hw]]
  | |- keeps_wf _ (new_ref ≫= _) _ => eapply keeps_bind; [apply keeps_new_ref|intros ? ?h ?Hg ?Ht]
  | |- keeps_wf _ (new_call _ _ _ ≫= _) _ =>
      eapply keeps_bind; [apply keeps_new_call|intros ? ?h ?Hg (?Ha & _)]
  | |- keeps_wf _ (renew_token _ ≫= _) _ => eapply keeps_bind; [apply keeps_renew|intros _ ?h ?Hg _]
  | |- keeps_wf _ (log_arg _ ≫= _) _ => eapply keeps_bind; [apply keeps_log|intros _ ?h ?Hg _]
  | |- keeps_wf _ (emit_call_event _ _ _ ≫= _) _ =>
      eapply keeps_bind; [by apply keeps_effect; constructor|intros _ ?h ?Hg _]
  | |- keeps_wf _ (effect (Spawn _) ≫= _) _ => eapply keeps_bind; [apply keeps_effect|intros _ ?h ?Hg _]
  | |- keeps_wf _ (effect _ ≫= _) _ =>
      eapply keeps_bind; [by apply keeps_effect; constructor|intros _ ?h ?Hg _]
  | |- keeps_wf _ (set_active None ≫= _) _ => eapply keeps_bind; [by apply keeps_set_active|intros _ ?h ?Hg _]
  | |- keeps_wf _ (set_active _ ≫= _) _ => eapply keeps_bind; [apply keeps_set_active|intros _ ?h ?Hg _]
  | |- keeps_wf _ (set_muted _ _ ≫= _) _ => eapply keeps_bind; [apply keeps_set_muted|intros _ ?h ?Hg _]
  | |- keeps_wf _ (cancel_token _ ≫= _) _ => eapply keeps_bind; [apply keeps_cancel|intros _ ?h ?Hg _]
  | |- keeps_wf _ (save_preference _ _ ≫= _) _ => eapply keeps_bind; [apply keeps_save|intros _ ?h ?Hg _]
  | |- keeps_wf _ (log_arg _) _ => apply keeps_log
  | |- keeps_wf _ panic _ => apply keeps_panic
  | |- keeps_wf _ (emit_call_event _ _ _) _ => by apply keeps_effect; constructor
  | |- keeps_wf _ (effect (Spawn _)) _ => apply keeps_effect
  | |- keeps_wf _ (effect _) _ => by apply keeps_effect; constructor
  | |- keeps_wf _ (set_active None) _ => by apply keeps_set_active
  | |- keeps_wf _ (match _ with _ => _ end) _ => first [case_decide | case_match]
  end.


Lemma token_grows h h' t : grows h h' -> (t < ch_fresh h)%nat -> (t < ch_fresh h')%nat.
Proof. intros [? _ _ _]. lia. Qed.

(** Transports a fact back along the states an operation went through. *)
Ltac grown :=
  cbn; repeat lazymatch goal with
  | |- Forall _ [_] => apply Forall_singleton; cbn
  | |- _ /\ _ => split
  | |- True => done
  end;
  repeat match goal with
  | H : ?P |- ?P => exact H
  | Hw : handler_wf ?h, E : ch_active_call ?h = Some ?c |- allocated ?h _ _ _ => exact (hw_active _ Hw _ E)
  | Hw : handler_wf ?h, E : ch_active_call ?h = Some ?c |- call_allocated ?h ?c => exact (hw_active _ Hw _ E)
  | Hw : handler_wf ?h, E : ch_active_call ?h = Some ?c |- (ac_cancel ?c < ch_fresh ?h)%nat =>
      exact (al_token _ _ _ _ (hw_active _ Hw _ E))
  | Hw : handler_wf ?h, E : ch_active_call ?h = Some ?c |- is_Some (ch_streams ?h !! ac_streams ?c) =>
      exact (al_streams _ _ _ _ (hw_active _ Hw _ E))
  | Hw : handler_wf ?h, E : active_as _ ?h = Some ?c |- allocated ?h _ _ _ =>
      exact (proj1 (active_as_allocated _ _ _ Hw E))
  | Hw : handler_wf ?h, E : active_as _ ?h = Some ?c |- call_allocated ?h ?c =>
      exact (proj1 (active_as_allocated _ _ _ Hw E))
  | Hw : handler_wf ?h, E : active_as _ ?h = Some ?c |- (ac_cancel ?c < ch_fresh ?h)%nat =>
      exact (al_token _ _ _ _ (proj1 (active_as_allocated _ _ _ Hw E)))
  | Hg : grows ?h ?h' |- (_ < ch_fresh ?h')%nat => apply (token_grows _ _ _ Hg)
  | Hg : grows ?h ?h' |- call_allocated ?h' _ => apply (allocated_grows _ _ _ _ _ Hg)
  | Hg : grows ?h ?h' |- allocated ?h' _ _ _ => apply (allocated_grows _ _ _ _ _ Hg)
  | Hg : grows ?h ?h' |- is_Some (ch_streams ?h' !! _) => apply (gr_streams _ _ Hg)
  | Hg : grows ?h ?h' |- capturing ?h' _ => apply (gr_capturing _ _ Hg)
  end.

(** *** Every operation *)

Lemma keeps_start h0 c p s : keeps_wf h0 (start_call c p s) any.
Proof. unfold start_call. solve_keeps; grown. Qed.
Lemma keeps_ring_timeout h0 c p : keeps_wf h0 (ring_timeout c p) any.
Proof. unfold ring_timeout. solve_keeps; grown. Qed.
Lemma keeps_on_offer h0 c p : keeps_wf h0 (on_call_offer c p) any.
Proof. unfold on_call_offer. solve_keeps; grown. Qed.
Lemma keeps_offer_checked h0 c p : keeps_wf h0 (offer_checked c p) any.
Proof. unfold offer_checked. solve_keeps; grown. Qed.
Lemma keeps_offer_timeout h0 c p : keeps_wf h0 (offer_timeout c p) any.
Proof. unfold offer_timeout. solve_keeps; grown. Qed.
Lemma keeps_accept_call h0 c s : keeps_wf h0 (accept_call c s) any.
Proof. unfold accept_call. solve_keeps; grown. Qed.
Lemma keeps_answered h0 c p : keeps_wf h0 (on_call_answered c p) any.
Proof. unfold on_call_answered. solve_keeps; grown. Qed.
Lemma keeps_abandon_call h0 c p : keeps_wf h0 (abandon_call c p) any.
Proof. unfold abandon_call. solve_keeps. Qed.
Lemma keeps_reject h0 c : keeps_wf h0 (reject_call c) any.
Proof. unfold reject_call. solve_keeps; grown. Qed.
Lemma keeps_hangup h0 : keeps_wf h0 hangup any.
Proof. unfold hangup. solve_keeps; grown. Qed.
Lemma keeps_on_ended h0 c : keeps_wf h0 (on_call_ended c) any.
Proof. unfold on_call_ended. solve_keeps; grown. Qed.

(** The audio of a session opens for allocated references. *)
Lemma keeps_open_audio h0 audio token muted streams initiated cid remote :
  allocated h0 token muted streams ->
  keeps_wf h0 (open_audio audio streams (SessionRunning initiated cid remote token muted streams)) any.
Proof.
  intros Ha. unfold open_audio. solve_keeps. destruct (audio_device_prefs h) as [input output]. solve_keeps.
  eapply keeps_bind; [apply keeps_set_streams; by intros|]. cbn. intros _ h2 G2 Hc.
  assert (capturing h2 streams) as Hcap.
  { apply Hc; [|by eexists]. pose proof (al_streams _ _ _ _ Ha). grown. }
  eapply keeps_bind with (Q := any).
  - case_match; [|by apply keeps_ret]. eapply keeps_weaken, keeps_set_streams. by intros ? [].
  - intros _ h3 G3 _. solve_keeps. grown.
Qed.
Lemma keeps_end_session h0 c s : keeps_wf h0 (end_session c s) any.
Proof.
  unfold end_session. eapply keeps_bind; [apply keeps_set_streams; by intros ? []|]. intros _ h G _.
  solve_keeps.
Qed.
Lemma keeps_session_opening h0 ok audio c p target token muted streams :
  allocated h0 token muted streams ->
  keeps_wf h0 (session_opening ok audio c p target token muted streams) any.
Proof.
  intros Ha. unfold session_opening. case_match; [|apply keeps_abandon_call].
  eapply keeps_bind; [by apply keeps_open_audio|]. intros started h G _.
  case_match; [by apply keeps_ret|apply keeps_abandon_call].
Qed.
Lemma keeps_accept_opening h0 ok audio c remote streams :
  is_Some (ch_streams h0 !! streams) -> keeps_wf h0 (accept_opening ok audio c remote streams) any.
Proof.
  intros Hs. unfold accept_opening. solve_keeps.
  eapply keeps_bind; [apply keeps_open_audio|intros ? ? ? _; by apply keeps_ret].
  destruct (hw_active _ Hw _ H2) as [A1 A2 _]. split; [done|done|grown].
Qed.
Lemma keeps_accept h0 d remote : keeps_wf h0 (accept d remote) any.
Proof. unfold accept. solve_keeps; grown. Qed.
Lemma keeps_toggle h0 : keeps_wf h0 toggle_mute any.
Proof. unfold toggle_mute. solve_keeps. Qed.
Lemma keeps_switch_input h0 b n : keeps_wf h0 (switch_input_device b n) any.
Proof.
  unfold switch_input_device. solve_keeps.
  eapply keeps_bind; [apply keeps_set_streams; by intros|intros _ ? ? _; by apply keeps_ret].
Qed.
Lemma keeps_switch_output h0 b n : keeps_wf h0 (switch_output_device b n) any.
Proof.
  unfold switch_output_device. solve_keeps.
  eapply keeps_bind; [apply keeps_set_streams; by intros ? []|intros _ ? ? _; by apply keeps_ret].
Qed.
Lemma keeps_rebuild h0 b1 b2 : keeps_wf h0 (rebuild_streams b1 b2) any.
Proof.
  unfold rebuild_streams. solve_keeps. eapply keeps_weaken, keeps_set_streams.
  intros s [dev Hd]. cbn. by rewrite Hd.
Qed.

Lemma keeps_resolving h0 d c p : keeps_wf h0 (answer_resolving d c p) any.
Proof.
  unfold answer_resolving. destruct (list_find _ _) as [[? target]|]; solve_keeps; grown. apply keeps_abandon_call.
Qed.
Lemma keeps_connecting h0 ok c p target : keeps_wf h0 (answer_connecting ok c p target) any.
Proof. unfold answer_connecting. solve_keeps; grown. apply keeps_abandon_call. Qed.
Lemma keeps_session_starting h0 c p target : keeps_wf h0 (session_starting c p target) any.
Proof. unfold session_starting. solve_keeps; grown. Qed.

Lemma keeps_operation h0 d x : keeps_wf h0 (operation d x) any.
Proof.
  destruct x; cbn [operation]; try by apply keeps_ret.
  all: try (eapply keeps_bind; [|intros ? ? ? _; by apply keeps_ret]).
  - apply keeps_start.
  - apply keeps_accept_call.
  - apply keeps_reject.
  - apply keeps_hangup.
  - apply keeps_toggle.
  - apply keeps_switch_input.
  - apply keeps_switch_output.
  - apply keeps_rebuild.
  - destruct payload; cbn [on_signal]; try (by apply keeps_ret).
    + apply keeps_on_offer.
    + apply keeps_answered.
    + apply keeps_on_ended.
    + apply keeps_on_ended.
  - apply keeps_accept.
Qed.
Lemma keeps_resume h0 d t ok audio : task_wf h0 t -> keeps_wf h0 (resume d t ok audio) any.
Proof.
  intros Ht. destruct t; cbn in Ht; cbn [resume].
  - apply keeps_unless, keeps_ring_timeout.
  - apply keeps_unless, keeps_offer_timeout.
  - apply keeps_offer_checked.
  - apply keeps_resolving.
  - apply keeps_connecting.
  - apply keeps_session_starting.
  - by apply keeps_session_opening.
  - eapply keeps_bind; [by apply keeps_accept_opening|intros ? ? ? _; by apply keeps_ret].
  - destruct initiated; [|apply keeps_end_session]. unfold session_ends.
    eapply keeps_bind; [apply keeps_log|intros _ ? ? _; apply keeps_end_session].
Qed.

Definition system_wf (sys : CallSystem) : Prop :=
  handler_wf (sy_handler sys) /\ Forall (task_wf (sy_handler sys)) (sy_tasks sys).

(** A step does nothing, performs its operation, or resumes a task. *)
Lemma call_step_cases d x sys (P : CallSystem -> list CallEffect -> Prop) :
  P sys [] ->
  (forall listening, let r := perform (operation d x) (sy_tasks sys) sys in
     P {| sy_handler := sy_handler r.1.1; sy_tasks := sy_tasks r.1.1; sy_listening := listening |} r.1.2) ->
  (forall i ok audio t, x = Resume i ok audio -> sy_tasks sys !! i = Some t ->
     let r := perform (resume d t ok audio) (delete i (sy_tasks sys)) sys in P r.1.1 r.1.2) ->
  P (call_step d x sys).1 (call_step d x sys).2.
Proof.
  intros H1 H2 H3.
  destruct x; cbn [call_step]; try (
    unfold perform in H2; specialize (H2 (sy_listening sys)); unfold perform;
    destruct (operation _ _ _) as [[? ?] ?]; exact H2).
  - destruct (sy_listening sys); [|done]. unfold perform in *.
    destruct (operation _ _ _) as [[? ?] ?]. apply H2.
  - destruct (sy_tasks sys !! i) as [t|] eqn:Et; [|done]. specialize (H3 i ok audio t eq_refl Et).
    cbv zeta in H3. unfold perform in *. by destruct (resume _ _ _ _ _) as [[? ?] ?].
Qed.

Lemma call_step_wf d x sys : system_wf sys -> system_wf (call_step d x sys).1.
Proof.
  intros [Hw Ht]. apply (call_step_cases d x sys (fun s _ => system_wf s)).
  - done.
  - intros l. apply (keeps_perform (operation d x)); [apply keeps_operation|done..].
  - intros i ok audio t -> Ei. apply keeps_perform; [apply keeps_resume|done|by apply Forall_delete].
    by eapply Forall_lookup_1 in Ht; [|exact Ei].
Qed.

Lemma call_reach_wf prefs xs sys : call_reach prefs xs sys -> system_wf sys.
Proof.
  induction 1 as [|xs sys d x _ IH]; [|by apply call_step_wf]. split; [|constructor].
  split; cbn; [by intros t ?%elem_of_empty|done|]. intros r [x Hx]. by rewrite lookup_empty in Hx.
Qed.

(** ** Where sessions come from *)

Section origin.
Context (xs : list (Db * CallInput)).

(** The user started call [cid] to [peer], or [peer] offered it. *)
Definition begun (cid peer : string) : Prop :=
  (exists d, (d, StartCall cid peer (Ok tt)) ∈ xs) \/
  (exists d v, (d, Signalled peer (CallOffer cid v)) ∈ xs).
(** [peer] answered the call [cid], and had the address [node] at some step. *)
Definition answered (cid peer : string) : Prop :=
  (exists d, (d, Signalled peer (CallAnswer cid)) ∈ xs) /\ exists other, begun cid other.
Definition address (peer node : string) : Prop :=
  exists d x ids, (d, x) ∈ xs /\ get_peer_transport_node_ids d peer = Ok ids /\ node ∈ ids.
(** [remote] connected, and its cached identity is the peer of the call [cid]. *)
Definition connected (cid remote : string) : Prop :=
  exists d, (d, AudioConnection remote) ∈ xs /\
    begun cid (default remote (get_master_pubkey_for_transport d remote)).

Definition task_from (t : CallTask) : Prop :=
  match t with
  | RingTimeout _ _ _ | OfferTimeout _ _ _ => True
  | OfferChecked cid peer => begun cid peer
  | AnswerResolving cid peer => answered cid peer
  | AnswerConnecting cid peer node | SessionStarting cid peer node
  | SessionOpening cid peer node _ _ _ => answered cid peer /\ address peer node
  | SessionRunning true cid node _ _ _ => exists peer, answered cid peer /\ address peer node
  | AcceptOpening cid remote _ | SessionRunning false cid remote _ _ _ => connected cid remote
  end.
Definition active_from (h : CallHandler) : Prop :=
  forall c, ch_active_call h = Some c -> begun (ac_call_id c) (ac_peer_pubkey c).
Definition anyhow (_ _ : CallHandler) : Prop := True.

#[local] Instance from_keepable : Keepable active_from anyhow (fun _ => task_from).
Proof. by split; [split|]. Qed.
Abbreviation keeps_from := (keeps active_from anyhow (fun _ => task_from)).

(** Operations that leave the active call and spawn nothing. *)
Lemma from_quiet {A} h0 (m : call A) :
  (forall h, ch_active_call (m h).1.1 = ch_active_call h /\ (m h).1.2 = []) -> keeps_from h0 m any.
Proof.
  intros Hm h _ Hw. destruct (Hm h) as [Ea Ee]. rewrite Ee. split_and!; [|done|constructor|done].
  intros c. rewrite Ea. apply Hw.
Qed.
Lemma from_set_active h0 a :
  (forall c, a = Some c -> begun (ac_call_id c) (ac_peer_pubkey c)) -> keeps_from h0 (set_active a) any.
Proof. intros Ha h _ _. by split_and!; [|done|constructor|done]. Qed.
Lemma from_new_call h0 cid peer cancel :
  keeps_from h0 (new_call cid peer cancel) (fun c _ => ac_call_id c = cid /\ ac_peer_pubkey c = peer).
Proof.
  intros h _ Hw. unfold new_call. run_call. split_and!; [done|done|constructor|]. by intros c [= <-].
Qed.
Lemma from_renew h0 c :
  begun (ac_call_id c) (ac_peer_pubkey c) -> keeps_from h0 (renew_token c) any.
Proof.
  intros Hc h _ Hw. unfold renew_token. run_call. split_and!; [|done|constructor|done].
  by intros ? [= <-].
Qed.
Lemma from_open_audio h0 audio s t :
  task_from t -> keeps_from h0 (open_audio audio s t) any.
Proof.
  intros Ht h _ Hw. unfold open_audio. run_call. destruct (audio_device_prefs h) as [input output].
  destruct (ao_capture audio); [destruct (ao_playback audio)|]; cbn; split_and!; try done; by repeat constructor.
Qed.
Lemma active_as_from h cid c :
  active_from h -> active_as cid h = Some c -> ac_call_id c = cid /\ begun cid (ac_peer_pubkey c).
Proof.
  intros Hw. unfold active_as. destruct (ch_active_call h) as [c'|] eqn:E; [|done].
  destruct (decide _) as [<-|]; [|done]. intros [= <-]. split; [done|by apply Hw].
Qed.

Ltac solve_from :=
  repeat lazymatch goal with
  | |- keeps _ _ _ _ (mret _) _ => apply keeps_ret; done
  | |- keeps _ _ _ _ (get_state ≫= _) _ => eapply keeps_bind; [apply keeps_get|intros ? ?h _ [-> ?Hw]]
  | |- keeps _ _ _ _ (new_call _ _ _ ≫= _) _ =>
      eapply keeps_bind; [apply from_new_call|intros ? ?h _ [? ?]; subst]
  | |- keeps _ _ _ _ (renew_token _ ≫= _) _ => eapply keeps_bind; [apply from_renew|intros _ ?h _ _]
  | |- keeps _ _ _ _ (set_active _ ≫= _) _ => eapply keeps_bind; [apply from_set_active|intros _ ?h _ _]
  | |- keeps _ _ _ _ (emit_call_event _ _ _ ≫= _) _ =>
      eapply keeps_bind; [by apply keeps_effect; constructor|intros _ ?h _ _]
  | |- keeps _ _ _ _ (effect (Spawn _) ≫= _) _ => eapply keeps_bind; [apply keeps_effect|intros _ ?h _ _]
  | |- keeps _ _ _ _ (effect _ ≫= _) _ =>
      eapply keeps_bind; [by apply keeps_effect; constructor|intros _ ?h _ _]
  | |- keeps _ _ _ _ (_ ≫= _) _ =>
      eapply keeps_bind; [by apply from_quiet; intros; split|intros ? ?h _ _]
  | |- keeps _ _ _ _ panic _ => apply keeps_panic
  | |- keeps _ _ _ _ (emit_call_event _ _ _) _ => by apply keeps_effect; constructor
  | |- keeps _ _ _ _ (effect (Spawn _)) _ => apply keeps_effect
  | |- keeps _ _ _ _ (effect _) _ => by apply keeps_effect; constructor
  | |- keeps _ _ _ _ (set_active _) _ => apply from_set_active
  | |- keeps _ _ _ _ (match _ with _ => _ end) _ => first [case_decide | case_match]
  | |- keeps _ _ _ _ _ _ => by apply from_quiet; intros; split
  end;
  repeat match goal with
  | Hw : active_from ?h, E : active_as _ ?h = Some _ |- _ => destruct (active_as_from _ _ _ Hw E) as [? ?]; clear E
  | Hw : active_from ?h, E : ch_active_call ?h = Some _ |- _ => pose proof (Hw _ E); clear E
  | |- Forall _ (spawned _) => apply Forall_singleton; cbn
  | |- forall c, None = Some c -> _ => done
  | |- forall c, Some _ = Some c -> _ => intros ? [= <-]
  end; subst; try done.

Lemma from_abandon_call h0 cid peer : keeps_from h0 (abandon_call cid peer) any.
Proof. unfold abandon_call. solve_from. Qed.
Lemma from_end_session h0 cid s : keeps_from h0 (end_session cid s) any.
Proof. unfold end_session. solve_from. Qed.

(** The operation of an input, which is one of [xs]. *)
Lemma from_operation h0 d x : (d, x) ∈ xs -> keeps_from h0 (operation d x) any.
Proof.
  intros Hx. destruct x; cbn [operation]; try by apply keeps_ret.
  all: try (eapply keeps_bind with (Q := any); [|intros ? ? ? _; by apply keeps_ret]).
  - destruct sent as [[]|]; unfold start_call; solve_from. left. by eexists.
  - unfold accept_call. solve_from.
  - unfold reject_call. solve_from.
  - unfold hangup. solve_from.
  - unfold toggle_mute. solve_from.
  - unfold switch_input_device. solve_from.
  - unfold switch_output_device. solve_from.
  - unfold rebuild_streams. solve_from.
  - destruct payload; cbn [on_signal]; try (by apply keeps_ret).
    + unfold on_call_offer. solve_from. right. by eexists _, _.
    + unfold on_call_answered. solve_from. split; [by eexists|by eexists].
    + unfold on_call_ended. solve_from.
    + unfold on_call_ended. solve_from.
  - unfold accept. solve_from. eexists. split; [done|].
    match goal with E : ac_peer_pubkey _ = _ |- _ => by rewrite <-E end.
Qed.

Lemma from_resume h0 d i t ok audio :
  (d, Resume i ok audio) ∈ xs -> task_from t -> keeps_from h0 (resume d t ok audio) any.
Proof.
  intros Hx Ht. destruct t; cbn [resume]; cbn in Ht.
  - apply keeps_unless. unfold ring_timeout. solve_from.
  - apply keeps_unless. unfold offer_timeout. solve_from.
  - unfold offer_checked. solve_from.
  - unfold answer_resolving. destruct (list_find _ _) as [[k target]|] eqn:El; solve_from.
    split; [done|]. apply list_find_Some in El as (El & _). apply list_elem_of_lookup_2 in El.
    destruct (get_peer_transport_node_ids d peer_pubkey) as [ids|] eqn:Ei; [|by apply elem_of_nil in El].
    by exists d, (Resume i ok audio), ids.
  - unfold answer_connecting. solve_from.
  - unfold session_starting. solve_from.
  - unfold session_opening. destruct ok; [|apply from_abandon_call].
    eapply keeps_bind; [apply from_open_audio; by eexists|]. intros [] h _ _; [by apply keeps_ret|apply from_abandon_call].
  - eapply keeps_bind with (Q := any); [|intros ? ? ? _; by apply keeps_ret].
    unfold accept_opening. solve_from.
    eapply keeps_bind; [by apply from_open_audio|intros ? ? ? _; by apply keeps_ret].
  - destruct initiated; [|apply from_end_session]. unfold session_ends. solve_from. apply from_end_session.
Qed.
End origin.

Lemma begun_mono xs ys cid p : xs ⊆ ys -> begun xs cid p -> begun ys cid p.
Proof. unfold begun. set_solver. Qed.
Lemma task_from_mono xs ys t : xs ⊆ ys -> task_from xs t -> task_from ys t.
Proof.
  intros Hs. pose proof (begun_mono xs ys) as Hb. destruct t; cbn; unfold answered, address, connected;
    try naive_solver. destruct initiated; naive_solver.
Qed.

Lemma call_reach_from prefs xs sys :
  call_reach prefs xs sys -> active_from xs (sy_handler sys) /\ Forall (task_from xs) (sy_tasks sys).
Proof.
  induction 1 as [|xs sys d x _ [IHa IHt]]; [split; [done|constructor]|].
  set (ys := (d, x) :: xs). assert (xs ⊆ ys) as Hs by set_solver.
  assert (active_from ys (sy_handler sys)) as Ha
    by (intros c Hc; eapply begun_mono; [exact Hs|by apply IHa]).
  assert (Forall (task_from ys) (sy_tasks sys)) as Ht
    by (eapply Forall_impl; [exact IHt|intros t; by apply task_from_mono]).
  apply (call_step_cases d x sys (fun s _ => active_from ys (sy_handler s) /\
    Forall (task_from ys) (sy_tasks s))); [done| |].
  - intros l. pose proof (from_keepable ys).
    apply (keeps_perform (R := anyhow) (T := fun _ => task_from ys) (operation d x)); [|done..].
    apply from_operation. by left.
  - intros i ok audio t -> Ei. pose proof (from_keepable ys).
    apply (keeps_perform (R := anyhow) (T := fun _ => task_from ys)); [|done|by apply Forall_delete].
    eapply from_resume; [by left|]. by eapply Forall_lookup_1 in Ht; [|exact Ei].
Qed.

(** The node sends sound only for a call its user started or was offered, and
    only to an address of the peer that answered it, or to a node that connected
    and whose cached identity is that of the call's peer; the microphone of a
    session is open and its references are live. *)
Theorem call_audio_origin (prefs : Preferences) (xs : list (Db * CallInput)) (sys : CallSystem)
    (initiated : bool) (cid remote : string) (token muted streams : nat)
    (Hreach : call_reach prefs xs sys)
    (Hsession : SessionRunning initiated cid remote token muted streams ∈ sy_tasks sys) :
  capturing (sy_handler sys) streams /\
  if initiated then exists peer, answered xs cid peer /\ address xs peer remote
  else connected xs cid remote.
Proof.
  apply list_elem_of_lookup in Hsession as [i Hi].
  destruct (call_reach_wf _ _ _ Hreach) as [_ Hw]. eapply Forall_lookup_1 in Hw; [|exact Hi].
  destruct (call_reach_from _ _ _ Hreach) as [_ Hf]. eapply Forall_lookup_1 in Hf; [|exact Hi].
  destruct Hw as [_ Hc]. split; [done|]. by destruct initiated.
Qed.

(** A run of inputs with one database is reachable. *)
Lemma reach_run prefs d inputs xs sys :
  call_reach prefs xs sys ->
  call_reach prefs (rev ((fun x => (d, x)) <$> inputs) ++ xs) (run_calls d inputs sys).1.
Proof.
  revert xs sys. induction inputs as [|x inputs IH]; intros xs sys Hr; [done|].
  cbn [run_calls fmap list_fmap rev]. destruct (call_step d x sys) as [sys' ef] eqn:E.
  rewrite <-app_assoc. pose proof (reach_step _ _ _ d x Hr) as Hr'. rewrite E in Hr'.
  specialize (IH _ _ Hr'). cbn in *. destruct (run_calls d inputs sys'). exact IH.
Qed.
End calls.
