(* ===== verification/CallTheorems.v ===== *)
(** * Voice calls: scenarios

    A caller that listens to somebody who has not accepted; a whole call between
    two nodes; and the sound of a call from the microphone to the other ear. *)

From S2P Require Import Prelude Types Signing Validation Store Effects Framing Audio AudioTheorems Peers FollowRequests Call CallSafety Concrete ConcreteStore.

Local Open Scope Z_scope.

(** The first and the second of the tasks that came last. *)
Lemma task_first {A} (l k : list A) (x : A) : (l ++ x :: k) !! length l = Some x.
Proof. by rewrite list_lookup_middle. Qed.
Lemma delete_first {A} (l k : list A) (x : A) : delete (length l) (l ++ x :: k) = l ++ k.
Proof. induction l as [|y l IH]; [done|]. cbn. by f_equal. Qed.
Lemma task_second {A} (l k : list A) (x y : A) : (l ++ x :: y :: k) !! S (length l) = Some y.
Proof.
  replace (l ++ x :: y :: k) with ((l ++ [x]) ++ y :: k) by by rewrite <-app_assoc.
  apply list_lookup_middle. rewrite length_app. cbn. lia.
Qed.
Lemma delete_second {A} (l k : list A) (x y : A) : delete (S (length l)) (l ++ x :: y :: k) = l ++ x :: k.
Proof. induction l as [|z l IH]; [done|]. cbn. by f_equal. Qed.

(** Resumes the task the next step names. *)
Ltac next_task :=
  cbn; rewrite ?app_nil_r; rewrite <-?app_assoc; cbn [app];
  first [rewrite task_first, delete_first | rewrite task_second, delete_second]; cbn [resume].

Definition audio_ok : AudioOutcome := {| ao_capture := true; ao_playback := true |}.

(** The states of the calls the user interface is told. *)
Definition events_of (ef : list CallEffect) : list CallState :=
  omap (fun e => match e with Emit e => Some (ce_state e) | _ => None end) ef.
(** The signals sent. *)
Definition signals_of (ef : list CallEffect) : list (string * DmPayload) :=
  omap (fun e => match e with SendSignal peer p => Some (peer, p) | _ => None end) ef.

Section calls.
Context `{Ed25519, SqlOrder, !Serde (list string)}.

(** whoever may send direct messages to a node can listen to its microphone
    without its user accepting a call: an offer registers the call, and a
    connection is then taken for its audio.  After half a minute the timer tells
    the user that the call has ended and forgets it, but cancels nothing: the
    session goes on, and hanging up answers that there is no call. *)
Theorem call_unconsented (prefs : Preferences) (xs : list (Db * CallInput)) (sys : CallSystem) (d : Db)
    (cid peer remote : string) (v : bool)
    (Hreach : call_reach prefs xs sys) (Hidle : ch_active_call (sy_handler sys) = None)
    (Hlisten : sy_listening sys = true)
    (Hpeer : get_master_pubkey_for_transport d remote = Some peer)
    (Hcid : is_Some (short_id cid)) (Hremote : is_Some (short_id remote)) :
  let n := length (sy_tasks sys) in
  exists sys' ef token muted streams,
    run_calls d [Signalled peer (CallOffer cid v); Resume n true audio_ok; AudioConnection remote;
                 Resume (S n) true audio_ok; Resume n true audio_ok] sys = (sys', ef) /\
    sy_tasks sys' = sy_tasks sys ++ [SessionRunning false cid remote token muted streams] /\
    token ∉ ch_cancelled (sy_handler sys') /\ capturing (sy_handler sys') streams /\
    events_of ef = [Incoming; Ended] /\
    hangup (sy_handler sys') = (sy_handler sys', [], Some (Err (Other "no active call"))).
Proof.
  destruct (call_reach_wf _ _ _ Hreach) as [[Hcanc _ _] _].
  destruct sys as [[pr act canc mut str fresh] tasks ls]. cbn in *. subst. destruct Hcid as [sc Hcid].
  destruct Hremote as [sr Hremote].
  unfold call_step, perform. cbn [sy_listening sy_handler sy_tasks operation on_signal resume].
  unfold on_call_offer. run_call. next_task. unfold offer_checked. run_call.
  unfold accept. run_call. rewrite Hremote, Hpeer. cbn. rewrite decide_True by done. rewrite Hcid.
  next_task. unfold accept_opening, open_audio. run_call. next_task. run_call. rewrite decide_False by (intros ?%Hcanc; lia).
  unfold ring_timeout, offer_timeout. run_call. rewrite Hcid. cbn.
  rewrite decide_True by done. cbn.
  eexists _, _, fresh, (S fresh), (S (S fresh)). split; [reflexivity|]. cbn [sy_tasks sy_handler].
  rewrite app_nil_r. split; [done|]. split; [intros ?%Hcanc; cbn in *; lia|]. split; [|done].
  eexists. split; [cbn; by rewrite !lookup_alter_eq, lookup_insert_eq|]. by eexists.
Qed.

(** ** A whole call *)

(** The call [cid] with [peer] is active, and its session, the last of the tasks
    after [l], streams the open microphone to [remote]. *)
Definition in_call (sys : CallSystem) (l : list CallTask) (cid peer remote : string) : Prop :=
  exists c initiated, ch_active_call (sy_handler sys) = Some c /\
    ac_call_id c = cid /\ ac_peer_pubkey c = peer /\
    sy_tasks sys = l ++ [SessionRunning initiated cid remote (ac_cancel c) (ac_muted c) (ac_streams c)] /\
    ac_cancel c ∉ ch_cancelled (sy_handler sys) /\ capturing (sy_handler sys) (ac_streams c) /\
    sy_listening sys = true.

(** The call is over: nothing is left of it, and its session was cancelled. *)
Definition call_over (sys sys' : CallSystem) (l : list CallTask) : Prop :=
  ch_active_call (sy_handler sys') = None /\ sy_tasks sys' = l /\ sy_listening sys' = true /\
  forall c, ch_active_call (sy_handler sys) = Some c -> ac_cancel c ∈ ch_cancelled (sy_handler sys').

(** What the caller goes through: the answer, the address, the connection, the
    stream, and the timer, which is cancelled. *)
Definition caller_inputs (n : nat) (cid peer : string) : list CallInput :=
  [StartCall cid peer (Ok tt); Signalled peer (CallAnswer cid);
   Resume (S n) true audio_ok; Resume (S n) true audio_ok; Resume (S n) true audio_ok;
   Resume (S n) true audio_ok; Resume n true audio_ok].
(** What the callee goes through. *)
Definition callee_inputs (n : nat) (cid peer remote : string) : list CallInput :=
  [Signalled peer (CallOffer cid false); Resume n true audio_ok; AcceptCall cid (Ok tt);
   AudioConnection remote; Resume (S n) true audio_ok; Resume n true audio_ok].

Lemma caller_connects prefs xs sys d cid peer node ids i
    (Hreach : call_reach prefs xs sys) (Hidle : ch_active_call (sy_handler sys) = None)
    (Hlisten : sy_listening sys = true)
    (Hids : get_peer_transport_node_ids d peer = Ok ids)
    (Hnode : list_find (fun id => is_ok (pk_parse id)) ids = Some (i, node))
    (Hcid : is_Some (short_id cid)) (Hpeer : is_Some (short_id peer)) :
  exists sys' ef, run_calls d (caller_inputs (length (sy_tasks sys)) cid peer) sys = (sys', ef) /\
    in_call sys' (sy_tasks sys) cid peer node /\
    signals_of ef = [(peer, CallOffer cid false)] /\ events_of ef = [Ringing; Active].
Proof.
  destruct (call_reach_wf _ _ _ Hreach) as [[Hcanc _ _] _].
  destruct sys as [[pr act canc mut str fresh] tasks ls]. cbn in *. subst. destruct Hcid as [sc Hcid].
  destruct Hpeer as [sp Hpeer].
  unfold call_step, perform. cbn [sy_listening sy_handler sy_tasks operation on_signal resume].
  unfold start_call. run_call. rewrite Hcid, Hpeer. run_call.
  unfold on_call_answered. run_call. rewrite decide_True by done. cbn.
  next_task. unfold answer_resolving. rewrite Hids. cbn [res_ok default id from_option]. rewrite Hnode. run_call.
  next_task. unfold answer_connecting. run_call. rewrite Hcid. cbn.
  next_task. unfold session_starting. run_call. rewrite decide_True by done. cbn.
  next_task. unfold session_opening, open_audio. run_call.
  next_task. run_call. rewrite decide_True by set_solver. cbn.
  eexists _, _. split; [reflexivity|]. split; [|done]. eexists _, true. split; [done|]. cbn.
  split_and!; [done|done|by rewrite app_nil_r| | |done].
  - intros [?%elem_of_singleton|?%Hcanc]%elem_of_union; lia.
  - eexists. split; [cbn; by rewrite !lookup_alter_eq, lookup_insert_eq|]. by eexists.
Qed.

Lemma callee_connects prefs xs sys d cid peer remote
    (Hreach : call_reach prefs xs sys) (Hidle : ch_active_call (sy_handler sys) = None)
    (Hlisten : sy_listening sys = true)
    (Hmaster : get_master_pubkey_for_transport d remote = Some peer)
    (Hcid : is_Some (short_id cid)) (Hpeer : is_Some (short_id peer)) (Hremote : is_Some (short_id remote)) :
  exists sys' ef, run_calls d (callee_inputs (length (sy_tasks sys)) cid peer remote) sys = (sys', ef) /\
    in_call sys' (sy_tasks sys) cid peer remote /\
    signals_of ef = [(peer, CallAnswer cid)] /\ events_of ef = [Incoming; Active].
Proof.
  destruct (call_reach_wf _ _ _ Hreach) as [[Hcanc _ _] _].
  destruct sys as [[pr act canc mut str fresh] tasks ls]. cbn in *. subst. destruct Hcid as [sc Hcid].
  destruct Hpeer as [sp Hpeer], Hremote as [sr Hremote].
  unfold call_step, perform. cbn [sy_listening sy_handler sy_tasks operation on_signal resume].
  unfold on_call_offer. run_call. next_task. unfold offer_checked. run_call.
  unfold accept_call. run_call. rewrite decide_True by done. run_call. rewrite Hcid, Hpeer. run_call.
  unfold accept. run_call. rewrite Hremote, Hmaster. cbn. rewrite decide_True by done. rewrite Hcid. cbn.
  next_task. unfold accept_opening, open_audio. run_call.
  next_task. run_call. rewrite decide_True by set_solver. cbn.
  eexists _, _. split; [reflexivity|]. split; [|done]. eexists _, false. split; [done|]. cbn.
  split_and!; [done|done|by rewrite app_nil_r| | |done].
  - intros [?%elem_of_singleton|?%Hcanc]%elem_of_union; lia.
  - eexists. split; [cbn; by rewrite !lookup_alter_eq, lookup_insert_eq|]. by eexists.
Qed.

Lemma hang_up_ends sys l d cid peer remote :
  in_call sys l cid peer remote -> is_Some (short_id cid) ->
  exists sys' ef, run_calls d [Hangup; Resume (length l) true audio_ok] sys = (sys', ef) /\
    call_over sys sys' l /\ signals_of ef = [(peer, CallHangup cid)] /\ events_of ef = [Ended].
Proof.
  intros (c & ini & Ha & Hc & Hp & Ht & _ & _ & Hl) [sc Hcid].
  destruct sys as [[pr act canc mut str fresh] tasks ls]. cbn in *. subst.
  unfold call_step, perform. cbn [sy_listening sy_handler sy_tasks operation].
  unfold hangup. run_call. rewrite Hcid. cbn. next_task.
  unfold call_over. destruct ini; unfold session_ends; run_call; rewrite ?Hcid; cbn;
    (eexists _, _; split; [reflexivity|]; split; [|done]; cbn; split_and!; [done|by rewrite ?app_nil_r|done|]);
    intros ? [= <-]; set_solver.
Qed.
Lemma peer_hang_up_ends sys l d cid peer remote from :
  in_call sys l cid peer remote -> is_Some (short_id cid) ->
  exists sys' ef, run_calls d [Signalled from (CallHangup cid); Resume (length l) true audio_ok] sys = (sys', ef) /\
    call_over sys sys' l /\ signals_of ef = [] /\ events_of ef = [Ended].
Proof.
  intros (c & ini & Ha & Hc & Hp & Ht & _ & _ & Hl) [sc Hcid].
  destruct sys as [[pr act canc mut str fresh] tasks ls]. cbn in *. subst.
  unfold call_step, perform. cbn [sy_listening sy_handler sy_tasks operation on_signal].
  unfold on_call_ended. run_call. rewrite decide_True by done. cbn. next_task.
  unfold call_over. destruct ini; unfold session_ends; run_call; rewrite ?Hcid; cbn;
    (eexists _, _; split; [reflexivity|]; split; [|done]; cbn; split_and!; [done|by rewrite ?app_nil_r|done|]);
    intros ? [= <-]; set_solver.
Qed.

(** C31: a call between two idle nodes that know each other's addresses, over a
    network that delivers: offer, answer, connection; both are then in the call,
    each microphone streaming to the other, and the ringing timers find their
    token cancelled.  When the caller hangs up, both sessions are cancelled and
    nothing is left; each side is told each change once. *)
Theorem call_complete (prefsA prefsB : Preferences) (xsA xsB : list (Db * CallInput))
    (sysA sysB : CallSystem) (dA dB : Db) (cid ka kb nodeA nodeB : string) (ids : list string) (i : nat)
    (HreachA : call_reach prefsA xsA sysA) (HreachB : call_reach prefsB xsB sysB)
    (HidleA : ch_active_call (sy_handler sysA) = None) (HidleB : ch_active_call (sy_handler sysB) = None)
    (HlistenA : sy_listening sysA = true) (HlistenB : sy_listening sysB = true)
    (Hids : get_peer_transport_node_ids dA kb = Ok ids)
    (Hnode : list_find (fun id => is_ok (pk_parse id)) ids = Some (i, nodeB))
    (Hmaster : get_master_pubkey_for_transport dB nodeA = Some ka)
    (Hlog : Forall (fun s => is_Some (short_id s)) [cid; ka; kb; nodeA]) :
  let nA := length (sy_tasks sysA) in let nB := length (sy_tasks sysB) in
  exists A1 efA B1 efB,
    run_calls dA (caller_inputs nA cid kb) sysA = (A1, efA) /\
    run_calls dB (callee_inputs nB cid ka nodeA) sysB = (B1, efB) /\
    signals_of efA = [(kb, CallOffer cid false)] /\ signals_of efB = [(ka, CallAnswer cid)] /\
    events_of efA = [Ringing; Active] /\ events_of efB = [Incoming; Active] /\
    in_call A1 (sy_tasks sysA) cid kb nodeB /\ in_call B1 (sy_tasks sysB) cid ka nodeA /\
    exists A2 efA' B2 efB',
      run_calls dA [Hangup; Resume nA true audio_ok] A1 = (A2, efA') /\
      run_calls dB [Signalled ka (CallHangup cid); Resume nB true audio_ok] B1 = (B2, efB') /\
      signals_of efA' = [(kb, CallHangup cid)] /\ signals_of efB' = [] /\
      events_of efA' = [Ended] /\ events_of efB' = [Ended] /\
      call_over A1 A2 (sy_tasks sysA) /\ call_over B1 B2 (sy_tasks sysB).
Proof.
  apply Forall_cons in Hlog as [L1 [L2 [L3 [L4 _]%Forall_cons]%Forall_cons]%Forall_cons]. intros nA nB.
  destruct (caller_connects prefsA xsA sysA dA cid kb nodeB ids i) as (A1 & efA & EA & IA & SA & VA); [done..|].
  destruct (callee_connects prefsB xsB sysB dB cid ka nodeA) as (B1 & efB & EB & IB & SB & VB); [done..|].
  destruct (hang_up_ends A1 _ dA _ _ _ IA L1) as (A2 & efA' & EA' & OA & SA' & VA').
  destruct (peer_hang_up_ends B1 _ dB _ _ _ ka IB L1) as (B2 & efB' & EB' & OB & SB' & VB').
  exists A1, efA, B1, efB. split_and!; [done..|]. by exists A2, efA', B2, efB'.
Qed.
End calls.

(** ** From the microphone to the other ear *)

Section sound.
Context {Sample : Type} (silence : Sample) `{OpusLib Sample, Aec3 Sample}.

(** The frames of some packets, numbered from [k]. *)
Definition numbered (k : nat) (ps : list bytes) : list AudioFrame :=
  imap (fun i p => {| af_seq := Z.of_nat (k + i) mod 2 ^ 32;
                      af_timestamp := (SAMPLES_PER_FRAME * Z.of_nat (k + i)) mod 2 ^ 32;
                      af_tag := TAG_NORMAL; af_payload := p |}) ps.

Lemma numbered_cons k p ps :
  numbered k (p :: ps) =
    {| af_seq := Z.of_nat k mod 2 ^ 32; af_timestamp := (SAMPLES_PER_FRAME * Z.of_nat k) mod 2 ^ 32;
       af_tag := TAG_NORMAL; af_payload := p |} :: numbered (S k) ps.
Proof.
  unfold numbered. rewrite imap_cons, Nat.add_0_r. f_equal. apply imap_ext. intros i x _. cbn.
  by rewrite Nat.add_succ_r.
Qed.
Lemma numbered_app k ps qs : numbered k (ps ++ qs) = numbered k ps ++ numbered (k + length ps) qs.
Proof.
  revert k. induction ps as [|p ps IH]; intros k; [by rewrite Nat.add_0_r|].
  cbn [app]. rewrite !numbered_cons, IH. cbn. by rewrite Nat.add_succ_r.
Qed.

Lemma numbered_payload k ps : af_payload <$> numbered k ps = ps.
Proof.
  revert k. induction ps as [|p ps IH]; intros k; [done|]. rewrite numbered_cons. cbn. f_equal. apply IH.
Qed.
Lemma numbered_wf k ps : Forall frame_wf (numbered k ps).
Proof.
  revert k. induction ps as [|p ps IH]; intros k; [constructor|]. rewrite numbered_cons.
  constructor; [|apply IH]. split; [by apply Z.mod_pos_bound|].
  split; [by apply Z.mod_pos_bound|done].
Qed.
Lemma numbered_fits k ps :
  Forall (fun p => Z.of_nat (length p) <= 65526) ps -> Forall frame_fits (numbered k ps).
Proof.
  intros Hp. revert k. induction Hp as [|p ps Hp _ IH]; intros k; [constructor|]. rewrite numbered_cons.
  by constructor.
Qed.

Lemma send_packets_numbered k ps :
  send_packets (Z.of_nat k mod 2 ^ 32) ((SAMPLES_PER_FRAME * Z.of_nat k) mod 2 ^ 32) ps =
    (numbered k ps, Z.of_nat (k + length ps) mod 2 ^ 32,
     (SAMPLES_PER_FRAME * Z.of_nat (k + length ps)) mod 2 ^ 32).
Proof.
  revert k. induction ps as [|p ps IH]; intros k; cbn [send_packets]; [by rewrite Nat.add_0_r|].
  unfold wrapping_add_u32. rewrite !Zplus_mod_idemp_l.
  replace (Z.of_nat k + 1) with (Z.of_nat (S k)) by lia.
  replace (SAMPLES_PER_FRAME * Z.of_nat k + SAMPLES_PER_FRAME) with (SAMPLES_PER_FRAME * Z.of_nat (S k)) by lia.
  rewrite IH, numbered_cons. cbn [length]. by rewrite Nat.add_succ_r.
Qed.

Lemma send_audio_loop_numbered enc k chunks :
  send_audio_loop enc (Z.of_nat k mod 2 ^ 32) ((SAMPLES_PER_FRAME * Z.of_nat k) mod 2 ^ 32) chunks =
    numbered k (push_chunks enc chunks).2.
Proof.
  revert enc k. induction chunks as [|c chunks IH]; intros enc k; cbn [send_audio_loop push_chunks]; [done|].
  destruct (push_samples enc c) as [enc' ps]. rewrite send_packets_numbered, IH.
  destruct (push_chunks enc' chunks) as [enc2 qs]. cbn [snd]. by rewrite numbered_app.
Qed.

(** The reference decoder: packet after packet. *)
Fixpoint decode_packets {Decoder : Type} (decode : Decoder -> bytes -> Decoder * option (list Sample))
    (dec : Decoder) (ps : list bytes) : list (list Sample) :=
  match ps with
  | [] => []
  | p :: ps =>
      let '(dec, out) := decode dec p in
      match out with Some s => s :: decode_packets decode dec ps | None => decode_packets decode dec ps end
  end.
Lemma recv_audio_decodes {Decoder : Type} (decode : Decoder -> bytes -> Decoder * option (list Sample)) dec fs :
  recv_audio_loop decode dec fs = (decode_packets decode dec (af_payload <$> fs), Z.of_nat (length fs)).
Proof.
  revert dec. induction fs as [|f fs IH]; intros dec; [done|]. cbn [recv_audio_loop fmap list_fmap decode_packets].
  destruct (decode dec (af_payload f)) as [dec' out]. rewrite IH. cbn [length].
  destruct out; (apply pair_equal_spec; split; [done|lia]).
Qed.

Lemma aec_thread_muted aec rounds :
  Forall (fun r => ar_muted r = true) rounds ->
  Forall (fun c => c = replicate (length c) silence) (aec_thread silence aec rounds).
Proof.
  intros Hr. revert aec. induction Hr as [|r rounds Hm _ IH]; intros aec; cbn [aec_thread]; [constructor|].
  destruct (ar_cancelled r); [constructor|]. unfold aec_round. rewrite Hm.
  destruct (process_capture _ _) as [aec' [|s cleaned]]; [apply IH|]. constructor; [|apply IH].
  by rewrite length_replicate.
Qed.

Lemma encode_frames_packets e fs (P : bytes -> Prop) :
  (forall e f e' p, encode_float e f = (e', Some p) -> P p) -> Forall P (encode_frames e fs).2.
Proof.
  intros HP. revert e. induction fs as [|f fs IH]; intros e; cbn; [constructor|].
  destruct (encode_float e f) as [e' out] eqn:E. specialize (IH e').
  destruct (encode_frames e' fs) as [e2 ps]. destruct out; [|done]. cbn. constructor; [by eapply HP|done].
Qed.

(** A chunk of any length: of the samples that wait and the chunk, the last ten
    frames are encoded, and the older ones are dropped. *)
Definition newest_samples (enc : OpusEncoder Sample) (chunk : list Sample) : list Sample :=
  let all := oe_buffer enc ++ chunk in drop (length all - FRAME_SIZE * 10) all.
Definition push_newest (enc : OpusEncoder Sample) (chunk : list Sample) : OpusEncoder Sample * list bytes :=
  encode_signal {| oe_encoder := oe_encoder enc; oe_buffer := [] |} (newest_samples enc chunk).

Lemma push_chunks_packets (P : bytes -> Prop) enc chunks :
  (forall e f e' p, encode_float e f = (e', Some p) -> P p) -> Forall P (push_chunks enc chunks).2.
Proof.
  intros HP. revert enc. induction chunks as [|c chunks IH]; intros enc; cbn [push_chunks]; [constructor|].
  unfold push_samples. cbv zeta. destruct (drain_frames _ FRAME_SIZE (extend_capped _ _ c)) as [frames rest].
  pose proof (encode_frames_packets (oe_encoder enc) frames _ HP) as Hp.
  destruct (encode_frames _ _) as [e ps]. specialize (IH {| oe_encoder := e; oe_buffer := rest |}).
  destruct (push_chunks _ chunks) as [enc2 qs]. by apply Forall_app.
Qed.

(** C32: what the other side plays is the decoding of the packets that the
    encoder makes of the echo-cancelled chunks: the frames carry their number and
    their first sample modulo 2^32, and are read back from the bytes written.  If
    no chunk is longer than nine frames, the packets are those of the whole
    signal encoded at once: nothing is lost or repeated between the echo
    canceller and the decoder, however it is cut.  A chunk of any length is
    encoded up to its oldest samples beyond ten frames, which are dropped.  While
    the call is muted only silence is encoded. *)
Theorem call_sound {Decoder : Type} (decode : Decoder -> bytes -> Decoder * option (list Sample))
    (dec : Decoder) (aec : EchoCanceller Sample) (enc : OpusEncoder Sample) (rounds : list AecRound)
    (closed : bool)
    (Hbuffer : oe_buffer enc = [])
    (Hpackets : forall e f e' p, encode_float e f = (e', Some p) -> Z.of_nat (length p) <= 65526) :
  let chunks := aec_thread silence aec rounds in
  let packets := (push_chunks enc chunks).2 in
  let fs := send_audio_loop enc 0 0 chunks in
  fs = numbered 0 packets /\
  read_audio_frames (S (length fs)) closed (concat (write_audio_frame <$> fs)) = (fs, closed) /\
  recv_audio_loop decode dec fs = (decode_packets decode dec packets, Z.of_nat (length packets)) /\
  (Forall (fun c => length c <= FRAME_SIZE * 9)%nat chunks -> packets = (encode_signal enc (concat chunks)).2) /\
  (forall enc c, push_samples enc c = push_newest enc c) /\
  (Forall (fun r => ar_muted r = true) rounds -> Forall (eq silence) (concat chunks)).
Proof.
  intros chunks packets fs.
  assert (length (oe_buffer enc) < FRAME_SIZE)%nat as Hb by (rewrite Hbuffer; apply frame_size_pos).
  assert (fs = numbered 0 packets) as Hfs by apply (send_audio_loop_numbered enc 0).
  assert (af_payload <$> fs = packets) as Hpay.
  { rewrite Hfs. apply numbered_payload. }
  split; [done|]. split_and!.
  - apply read_written_frames; [rewrite Hfs; apply numbered_wf| |lia]. rewrite Hfs.
    apply numbered_fits. by apply push_chunks_packets.
  - rewrite recv_audio_decodes, Hpay. f_equal. rewrite <-Hpay, length_fmap. done.
  - intros Hc. unfold packets. by rewrite push_chunks_signal.
  - done.
  - intros Hm. apply Forall_concat. eapply Forall_impl; [by apply aec_thread_muted|].
    intros c ->. apply Forall_replicate. done.
Qed.
End sound.

(** ** Witnesses *)

(** Bob is known under one address. *)
Definition bob_known : Db :=
  set_peer_delegations {["b"%string := {| pd_signing_pubkey := "s"; pd_dm_pubkey := "d";
    pd_delegation_json := ""; pd_transport_node_ids_json := to_json ["kn"%string]; pd_cached_at := 0 |}]}
    empty_db.
Definition nobody : CallSystem := idle_calls ∅.
Definition bob_listens : list CallInput :=
  [Signalled "b" (CallOffer "c" false); Resume 0 true audio_ok; AudioConnection "kn";
   Resume 1 true audio_ok].
Definition bob_events : list (Db * CallInput) := rev ((fun x => (bob_known, x)) <$> bob_listens) ++ [].

Lemma nobody_reached : call_reach ∅ [] nobody.
Proof. constructor. Qed.
Lemma bob_address : get_peer_transport_node_ids bob_known "b" = Ok ["kn"%string].
Proof. vm_compute. reflexivity. Qed.
Lemma bob_identity : get_master_pubkey_for_transport bob_known "kn" = Some "b"%string.
Proof. vm_compute. reflexivity. Qed.

Lemma call_audio_origin_witness :
  let sys := (run_calls bob_known bob_listens nobody).1 in
  capturing (sy_handler sys) 2 /\ connected bob_events "c" "kn".
Proof.
  intros sys.
  refine (call_audio_origin ∅ bob_events sys false "c" "kn" 0 1 2 (reach_run _ _ _ _ _ nobody_reached) _).
  vm_compute. right. left.
Defined.

Lemma call_unconsented_witness :
  exists sys' ef, run_calls bob_known (bob_listens ++ [Resume 0 true audio_ok]) nobody = (sys', ef) /\
    events_of ef = [Incoming; Ended] /\ (length (sy_tasks sys') = 1)%nat.
Proof.
  destruct (call_unconsented ∅ [] nobody bob_known "c" "b" "kn" false nobody_reached)
    as (sys' & ef & tok & m & s & E & Et & _ & _ & Ee & _);
    [done|done|apply bob_identity|by eexists|by eexists|].
  exists sys', ef. split; [exact E|]. split; [done|]. by rewrite Et.
Defined.

Lemma call_complete_witness :
  exists A1 efA, run_calls bob_known (caller_inputs 0 "c" "b") nobody = (A1, efA) /\
    in_call A1 [] "c" "b" "kn" /\ signals_of efA = [("b"%string, CallOffer "c" false)].
Proof.
  destruct (call_complete ∅ ∅ [] [] nobody nobody bob_known bob_known "c" "b" "b" "kn" "kn" ["kn"%string] 0)
    as (A1 & efA & B1 & efB & EA & _ & SA & _ & _ & _ & IA & _);
    [apply nobody_reached|apply nobody_reached|done|done|done|done|apply bob_address|done|apply bob_identity
    |repeat constructor; by eexists|].
  exists A1, efA. split; [exact EA|]. split; [exact IA|exact SA].
Defined.

Definition muted_rounds : list AecRound :=
  [{| ar_far := []; ar_raw := replicate 480 7; ar_cancelled := false; ar_muted := true |};
   {| ar_far := []; ar_raw := replicate 480 7; ar_cancelled := false; ar_muted := true |}].

(** An encoder that writes how many samples of a frame are not silent. *)
Definition counting_opus : OpusLib Z :=
  {| Encoder := unit; encode_float e f := (e, Some [Z.of_nat (length (filter (fun x => x <> 0) f))]) |}.

Lemma call_sound_witness :
  let aec := {| ec_inner := tt : @EchoCanceller3 Z no_aec; ec_render_buf := []; ec_capture_buf := [] |} in
  let enc : @OpusEncoder Z counting_opus :=
    {| oe_encoder := tt : @Encoder Z counting_opus; oe_buffer := [] |} in
  let fs := @send_audio_loop Z counting_opus enc 0 0 (@aec_thread Z 0 no_aec aec muted_rounds) in
  read_audio_frames 2 true (concat (write_audio_frame <$> fs)) = (fs, true) /\
  recv_audio_loop (fun (dec : unit) p => (dec, Some p)) tt fs = ([[0]], 1).
Proof.
  intros aec enc fs.
  assert (@aec_thread Z 0 no_aec aec muted_rounds = [replicate 480 0; replicate 480 0]) as Ea
    by (vm_compute; reflexivity).
  destruct (@call_sound Z 0 counting_opus no_aec unit (fun dec p => (dec, Some p)) tt aec enc muted_rounds true)
    as (Efs & Eread & Eplay & Esig & _).
  - done.
  - intros e f e' p [= <- <-]. cbn. lia.
  - assert ((push_chunks enc (@aec_thread Z 0 no_aec aec muted_rounds)).2 = [[0]]) as Ep.
    { etransitivity; [apply Esig|vm_compute; reflexivity].
      rewrite Ea. repeat constructor; rewrite length_replicate; vm_compute; lia. }
    rewrite Ep in Efs, Eplay. rewrite Efs in Eread, Eplay. unfold fs. rewrite Efs.
    split; [exact Eread|exact Eplay].
Defined.
