(* ===== verification/Identity.v ===== *)
(** * The identity of a node

    Model of the key material of [src-tauri/src/state.rs], of its construction
    from the files of the data directory ([src-tauri/src/setup.rs],
    [crypto/keys.rs]) and of the parts of [commands/identity.rs] that compute a
    new one.  A file that cannot be written or read for other reasons than its
    contents is not modelled; [None] is a panic.  The bip39 crate is the class
    [Bip39]. *)

From S2P Require Import Prelude Text Types Ratchet Signing Validation Store Peers Framing Handler Noise Dm Peer Link.

Local Open Scope Z_scope.

(** ** The data directory *)

(** The files by name. *)
Abbreviation DataDir := (gmap string bytes).

(** [random] are the bytes of the generator. *)
Definition load_or_create_key_bytes (random : bytes) (path : string) (dir : DataDir)
    : option (bytes * DataDir) :=
  match dir !! path with
  | Some b => if (length b =? 32)%nat then Some (b, dir) else None
  | None => Some (random, <[path := random]> dir)
  end.

(** 0 when the file is missing or holds no number. *)
Definition load_index (path : string) (dir : DataDir) : Z :=
  match dir !! path with
  | Some b => default 0 (s ← string_from_utf8 b; parse_u32 (trim s))
  | None => 0
  end.
Definition load_signing_key_index : DataDir -> Z := load_index "signing_key_index".
Definition load_dm_key_index : DataDir -> Z := load_index "dm_key_index".

(** The writes of a command, in order. *)
Definition write_files (files : list (string * bytes)) (dir : DataDir) : DataDir :=
  fold_left (fun dir f => <[f.1 := f.2]> dir) files dir.

(** ** The key material *)

Record UserIdentity `{Ed25519} : Type := {
  ui_master_secret : bytes;
  ui_master_pubkey : string;
  ui_signing_secret : bytes;
  ui_signing_key : SecretKey;
  ui_signing_key_index : Z; (* u32 *)
  ui_dm_secret : bytes;
  ui_dm_pubkey : string;
  ui_dm_key_index : Z; (* u32 *)
  ui_dm_x25519_private : bytes;
  ui_dm_x25519_public : bytes;
  ui_ratchet_storage_key : bytes;
  ui_transport_node_id : string;
  ui_delegation : SigningKeyDelegation;
}.

(** The parts the components read. *)
Definition dm_identity `{Ed25519} (id : UserIdentity) : Identity :=
  {| id_master_pubkey := ui_master_pubkey id; id_dm_pubkey := ui_dm_pubkey id;
     id_dm_x25519_private := ui_dm_x25519_private id; id_dm_x25519_public := ui_dm_x25519_public id;
     id_ratchet_storage_key := ui_ratchet_storage_key id |}.
Definition peer_identity `{Ed25519} (id : UserIdentity) : PeerIdentity :=
  {| pi_master_pubkey := ui_master_pubkey id; pi_delegation := ui_delegation id;
     pi_transport_node_id := ui_transport_node_id id |}.
Definition link_identity `{Ed25519} (id : UserIdentity) : LinkIdentity :=
  {| li_master_secret := ui_master_secret id; li_master_pubkey := ui_master_pubkey id;
     li_signing_secret := ui_signing_secret id; li_dm_secret := ui_dm_secret id;
     li_delegation := ui_delegation id; li_transport_node_id := ui_transport_node_id id |}.

Section identity.
Context `{RatchetPrims, Ed25519, !KeyConv, HexCodec, JsonCodec}.

(** ** keys.rs *)

Definition derive_ratchet_storage_key (dm_secret : bytes) : bytes :=
  hkdf_expand None dm_secret (str_bytes "proscenium-ratchet-storage-v1") 32.

Definition x25519_keypair_from_raw (secret : bytes) : bytes * bytes :=
  let private := clamp_x25519 secret in (private, x25519_base private).

(** ** setup.rs *)

(** The node id of the endpoint, which [build_network_stack] binds. *)
Definition transport_id (master_secret : bytes) : string :=
  pk_to_string (sk_public (sk_from_bytes (derive_transport_key master_secret 0))).

(** The identity of a master key and two indices. *)
Definition identity_of (now : Z) (master : bytes) (signing_index dm_index : Z) : UserIdentity :=
  let master_secret := sk_from_bytes master in
  let signing_secret := derive_signing_key master signing_index in
  let signing_key := sk_from_bytes signing_secret in
  let dm_secret := derive_dm_key master dm_index in
  let '(dm_private, dm_public) := x25519_keypair_from_raw dm_secret in
  {| ui_master_secret := master;
     ui_master_pubkey := pk_to_string (sk_public master_secret);
     ui_signing_secret := signing_secret;
     ui_signing_key := signing_key;
     ui_signing_key_index := signing_index;
     ui_dm_secret := dm_secret;
     ui_dm_pubkey := hex_encode dm_public;
     ui_dm_key_index := dm_index;
     ui_dm_x25519_private := dm_private;
     ui_dm_x25519_public := dm_public;
     ui_ratchet_storage_key := derive_ratchet_storage_key dm_secret;
     ui_transport_node_id := transport_id master;
     ui_delegation := sign_delegation master_secret (sk_public signing_key) signing_index
                        (hex_encode dm_public) dm_index now |}.

Definition build_identity (now : Z) (random : bytes) (dir : DataDir) : option (UserIdentity * DataDir) :=
  '(master, dir) ← load_or_create_key_bytes random "master_key.key" dir;
  Some (identity_of now master (load_signing_key_index dir) (load_dm_key_index dir), dir).

(** ** commands/identity.rs *)

(** [rotate_signing_key], the computation: the rotation to announce and the
    identity afterwards. *)
Definition rotate_identity (now : Z) (id : UserIdentity) : SigningKeyRotation * UserIdentity :=
  let old_index := ui_signing_key_index id in
  let new_index := add_u32 old_index 1 in
  let master := ui_master_secret id in
  let master_secret := sk_from_bytes master in
  let old_signing_pub := sk_public (sk_from_bytes (derive_signing_key master old_index)) in
  let new_signing_bytes := derive_signing_key master new_index in
  let new_signing_pub := sk_public (sk_from_bytes new_signing_bytes) in
  let new_delegation := sign_delegation master_secret new_signing_pub new_index
                          (ui_dm_pubkey id) (ui_dm_key_index id) now in
  (sign_rotation master_secret old_signing_pub new_signing_pub new_index now new_delegation,
   {| ui_master_secret := master; ui_master_pubkey := ui_master_pubkey id;
      ui_signing_secret := new_signing_bytes;
      ui_signing_key := sk_from_bytes new_signing_bytes;
      ui_signing_key_index := new_index;
      ui_dm_secret := ui_dm_secret id; ui_dm_pubkey := ui_dm_pubkey id;
      ui_dm_key_index := ui_dm_key_index id; ui_dm_x25519_private := ui_dm_x25519_private id;
      ui_dm_x25519_public := ui_dm_x25519_public id;
      ui_ratchet_storage_key := ui_ratchet_storage_key id;
      ui_transport_node_id := ui_transport_node_id id; ui_delegation := new_delegation |}).
End identity.

(** ** The recovery phrase *)

(** [Mnemonic::from_entropy], its words, and [Mnemonic::from_str] followed by
    [to_entropy]. *)
Class Bip39 := {
  mnemonic_words : bytes -> option (list string);
  mnemonic_entropy : string -> option bytes;
}.
(** The phrase of 32 bytes of entropy is parsed back, and has no white space at
    its ends. *)
Class Bip39Laws `{Bip39} := {
  mnemonic_roundtrip e : length e = 32%nat -> exists ws, mnemonic_words e = Some ws /\
    mnemonic_entropy (String.concat " " ws) = Some e /\ trim (String.concat " " ws) = String.concat " " ws;
}.

Section phrase.
Context `{Bip39}.

Definition get_seed_phrase (master_secret : bytes) : result AppError string :=
  ws ← ok_or (mnemonic_words master_secret) (Other "bip39");
  Ok (String.concat " " ws).

Fixpoint check_words (words : list string) (checks : list (nat * string)) : bool :=
  match checks with
  | [] => true
  | (idx, word) :: checks =>
      match words !! idx with
      | None => false
      | Some w => if decide (w <> word) then false else check_words words checks
      end
  end.
Definition verify_seed_phrase_words (master_secret : bytes) (checks : list (nat * string))
    : result AppError bool :=
  words ← ok_or (mnemonic_words master_secret) (Other "bip39");
  Ok (check_words words checks).

(** The files [recover_from_seed_phrase] removes. *)
Definition derived_files : list string :=
  ["signing_key.key"; "signing_key_index"; "dm_key_index"; "transport_key.key"; "device_index"]%string.

(** [recover_from_seed_phrase], as far as the files are concerned. *)
Definition recover_files (phrase : string) (dir : DataDir) : result AppError DataDir :=
  entropy ← ok_or (mnemonic_entropy (trim phrase)) (Other "Invalid recovery phrase");
  _ ← bail_if (negb (length entropy =? 32)%nat) (Other "not 32 bytes of entropy");
  let dir := <["master_key.key" := entropy]> dir in
  let dir := fold_left (fun dir f => delete f dir) derived_files dir in
  Ok (<[".seed_backed_up" := [49]]> dir).
End phrase.

(** [is_seed_phrase_backed_up] and [mark_seed_phrase_backed_up]. *)
Definition is_seed_phrase_backed_up (dir : DataDir) : bool := bool_decide (is_Some (dir !! ".seed_backed_up"%string)).
Definition mark_seed_phrase_backed_up (dir : DataDir) : DataDir := <[".seed_backed_up"%string := [49]]> dir.
