(* ===== verification/IdentityTheorems.v ===== *)
(** * Theorems on the identity of a node

    The key material stays consistent when it is built and rotated, survives a
    restart and a recovery; what the followers of a rotated or recovered node
    make of it; what a linked device becomes. *)

From stdpp Require Import pretty.
From S2P Require Import Prelude Text Types Ratchet Signing Concrete SigningTheorems Validation Store ConcreteStore Social Moderation Posts Interactions Notifications Peers Framing Handler Ingest Gossip GossipTheorems ConcreteWire Noise ConcreteDm Dm Peer Link LinkTheorems Identity.

Local Open Scope Z_scope.

Section identity.
Context `{RatchetPrims, Ed25519, !Ed25519Laws, !KeyConv, HexCodec, !HexLaws, JsonCodec}.
Implicit Types (id : UserIdentity) (dir : DataDir).

(** ** Consistency *)

(** Every key is derived from the master key, and the master key certifies the
    signing key and the DM key. *)
Record identity_ok (id : UserIdentity) : Prop := {
  ok_master : ui_master_pubkey id = pk_to_string (sk_public (sk_from_bytes (ui_master_secret id)));
  ok_indices : is_u32 (ui_signing_key_index id) /\ is_u32 (ui_dm_key_index id);
  ok_signing : ui_signing_secret id = derive_signing_key (ui_master_secret id) (ui_signing_key_index id);
  ok_signing_key : ui_signing_key id = sk_from_bytes (ui_signing_secret id);
  ok_dm : ui_dm_secret id = derive_dm_key (ui_master_secret id) (ui_dm_key_index id);
  ok_dm_pair : x25519_keypair_from_raw (ui_dm_secret id) = (ui_dm_x25519_private id, ui_dm_x25519_public id);
  ok_dm_pubkey : ui_dm_pubkey id = hex_encode (ui_dm_x25519_public id);
  ok_storage_key : ui_ratchet_storage_key id = derive_ratchet_storage_key (ui_dm_secret id);
  ok_transport : ui_transport_node_id id = transport_id (ui_master_secret id);
  ok_certified : verify_delegation (ui_delegation id) = Ok tt;
  ok_delegation : dl_master_pubkey (ui_delegation id) = ui_master_pubkey id /\
    dl_signing_pubkey (ui_delegation id) = pk_to_string (sk_public (ui_signing_key id)) /\
    dl_key_index (ui_delegation id) = ui_signing_key_index id /\
    dl_dm_pubkey (ui_delegation id) = ui_dm_pubkey id /\
    dl_dm_key_index (ui_delegation id) = ui_dm_key_index id;
}.

Lemma identity_of_ok now master i j : is_u32 i -> is_u32 j -> identity_ok (identity_of now master i j).
Proof. intros Hi Hj. split; try done. apply verify_delegation_sign. Qed.

Lemma rotate_ok now id : identity_ok id -> identity_ok (rotate_identity now id).2.
Proof.
  intros [Hm [Hi Hj] Hs Hk Hd Hp Hpub Hst Ht Hc (D1 & D2 & D3 & D4 & D5)].
  split; cbn; try done.
  - split; [apply add_u32_range|done].
  - apply verify_delegation_sign.
Qed.

(** The rotation of a consistent identity verifies. *)
Lemma rotation_verifies t id : identity_ok id ->
  verify_rotation (rotate_identity t id).1 = Ok tt /\
  rt_master_pubkey (rotate_identity t id).1 = ui_master_pubkey id.
Proof.
  intros Hok. split; [|by rewrite (ok_master _ Hok)].
  unfold rotate_identity, verify_rotation, sign_rotation. cbn [fst rt_signature rt_master_pubkey].
  rewrite hex_to_signature_to_hex. cbn. rewrite parse_pubkey_to_string. cbn. rewrite verify_or_sign. cbn.
  rewrite verify_delegation_sign. cbn. by rewrite !bool_decide_false by naive_solver.
Qed.

(** A file with the text of an index. *)
Lemma load_index_text dir path n : is_u32 n -> load_index path (<[path := index_text n]> dir) = n.
Proof.
  intros Hn. unfold load_index. rewrite lookup_insert_eq. unfold index_text, string_from_utf8.
  destruct (pretty_text n Hn) as (Hd & Hne & Hp).
  rewrite digits_utf8, bytes_str_bytes by done. cbn. rewrite trim_digits by done.
  by rewrite (parse_u32_digits _ n).
Qed.
Lemma load_index_ne dir path path' b : path <> path' ->
  load_index path (<[path' := b]> dir) = load_index path dir.
Proof. intros Hne. unfold load_index. by rewrite lookup_insert_ne. Qed.

Lemma parse_digits_range s acc n : 0 <= acc < 2 ^ 32 -> parse_digits acc s = Some n -> is_u32 n.
Proof.
  revert acc. induction s as [|a s IH]; intros acc Hacc; cbn -[Z.pow]; [by intros [= <-]|].
  destruct (digit a) as [d|] eqn:Ed; cbn -[Z.pow]; [|done]. apply digit_range in Ed as [? ->].
  destruct (Z.ltb_spec (acc * 10 + (Z.of_N (Ascii.N_of_ascii a) - 48)) (2 ^ 32)); [|done].
  apply IH. lia.
Qed.
Lemma load_index_range path dir : is_u32 (load_index path dir).
Proof.
  unfold load_index. assert (is_u32 0) as Hzero by (unfold is_u32; lia).
  destruct (dir !! path) as [b|]; [|done]. destruct (string_from_utf8 b) as [s|]; [|done]. cbn.
  destruct (parse_u32 (trim s)) as [n|] eqn:Ep; [|done]. cbn. unfold parse_u32 in Ep.
  repeat case_match; try done; by eapply parse_digits_range; [|exact Ep].
Qed.

(** The files a node with this identity has on disk. *)
Definition persisted (id : UserIdentity) (dir : DataDir) : Prop :=
  dir !! "master_key.key"%string = Some (ui_master_secret id) /\ length (ui_master_secret id) = 32%nat /\
  load_signing_key_index dir = ui_signing_key_index id /\ load_dm_key_index dir = ui_dm_key_index id.

(** The same keys; only the time of the delegation may differ. *)
Definition same_keys (id id' : UserIdentity) : Prop :=
  exists now, id' = identity_of now (ui_master_secret id) (ui_signing_key_index id) (ui_dm_key_index id).

Lemma build_persisted now random id dir : persisted id dir ->
  build_identity now random dir =
    Some (identity_of now (ui_master_secret id) (ui_signing_key_index id) (ui_dm_key_index id), dir).
Proof.
  intros (Hk & Hl & Hs & Hd). unfold build_identity, load_or_create_key_bytes. rewrite Hk, Hl. cbn.
  by rewrite Hs, Hd.
Qed.

(** The index file of a rotation makes a restart find the rotated keys. *)
Lemma rotation_restart t now random id dir : identity_ok id -> persisted id dir ->
  let id2 := (rotate_identity t id).2 in
  let dir2 := <["signing_key_index"%string := index_text (ui_signing_key_index id2)]> dir in
  exists id3, build_identity now random dir2 = Some (id3, dir2) /\ same_keys id2 id3.
Proof.
  intros Hok (Hk & Hl & Hs & Hd) id2 dir2.
  assert (persisted id2 dir2) as Hp.
  { split_and!; [by unfold dir2; rewrite lookup_insert_ne|done|apply load_index_text, add_u32_range|].
    by unfold load_dm_key_index, dir2; rewrite load_index_ne. }
  exists (identity_of now (ui_master_secret id2) (ui_signing_key_index id2) (ui_dm_key_index id2)).
  split; [by apply build_persisted|by exists now].
Qed.

(** A data directory with a master key or none. *)
Lemma build_identity_cases now random dir : length random = 32%nat ->
  match build_identity now random dir with
  | None => exists b, dir !! "master_key.key"%string = Some b /\ length b <> 32%nat
  | Some (id, dir1) => identity_ok id /\ persisted id dir1
  end.
Proof.
  intros Hrandom. unfold build_identity, load_or_create_key_bytes.
  destruct (dir !! "master_key.key"%string) as [m|] eqn:Em.
  - destruct (Nat.eqb_spec (length m) 32); cbn; [|by exists m].
    split; [apply identity_of_ok; apply load_index_range|by split_and!].
  - cbn. split; [apply identity_of_ok; apply load_index_range|].
    split_and!; [by rewrite lookup_insert_eq|done..].
Qed.

(** What is built from the files of a data directory is consistent, and
    rotating the signing key keeps it so; the rotation that is announced is
    valid and certifies the new key under the next index.  The index file that
    is written makes a restart find the same keys as before. *)
Theorem identity_well_formed (now now' : Z) (random random' : bytes) (dir : DataDir)
    (Hrandom : length random = 32%nat) :
  match build_identity now random dir with
  | None => exists b, dir !! "master_key.key"%string = Some b /\ length b <> 32%nat
  | Some (id, dir1) =>
      identity_ok id /\ persisted id dir1 /\
      forall t rotation id2, rotate_identity t id = (rotation, id2) ->
        identity_ok id2 /\ verify_rotation rotation = Ok tt /\
        rt_master_pubkey rotation = ui_master_pubkey id /\
        rt_new_signing_pubkey rotation = pk_to_string (sk_public (ui_signing_key id2)) /\
        ui_signing_key_index id2 = (ui_signing_key_index id + 1) mod 2 ^ 32 /\
        let dir2 := <["signing_key_index"%string := index_text (ui_signing_key_index id2)]> dir1 in
        exists id3, build_identity now' random' dir2 = Some (id3, dir2) /\ same_keys id2 id3
  end.
Proof.
  pose proof (build_identity_cases now random dir Hrandom) as Hb.
  destruct (build_identity now random dir) as [[id dir1]|]; [|done]. destruct Hb as [Hok Hp].
  split; [done|]. split; [done|]. intros t rotation id2 Hr.
  pose proof (rotate_ok t id Hok) as Hok2. pose proof (rotation_verifies t id Hok) as [Hv Hm].
  pose proof (rotation_restart t now' random' id dir1 Hok Hp) as Hrestart.
  rewrite Hr in Hok2, Hv, Hm, Hrestart. unfold rotate_identity in Hr. injection Hr as <- <-. by split_and!.
Qed.
End identity.

(** ** Recovery *)

Section recovery.
Context `{RatchetPrims, Ed25519, !Ed25519Laws, !KeyConv, HexCodec, !HexLaws, JsonCodec, Bip39, !Bip39Laws}.

Lemma derived_deleted (fs : list string) (dir : DataDir) path :
  path ∈ fs -> fold_left (fun dir f => delete f dir) fs dir !! path = None.
Proof.
  revert dir. induction fs as [|f fs IH]; intros dir; [by intros ?%elem_of_nil|]. cbn.
  destruct (decide (path ∈ fs)) as [Hin|Hout]; [by intros _; apply IH|].
  intros [->|?]%elem_of_cons; [|done]. clear IH.
  assert (forall dir : DataDir, dir !! f = None ->
    fold_left (fun dir f => delete f dir) fs dir !! f = None) as Hkeep.
  { clear dir Hout. induction fs as [|g fs IH]; intros dir Hd; [done|]. apply IH.
    destruct (decide (f = g)) as [->|]; [apply lookup_delete_eq|by rewrite lookup_delete_ne]. }
  apply Hkeep, lookup_delete_eq.
Qed.
Lemma derived_kept (fs : list string) (dir : DataDir) path :
  path ∉ fs -> fold_left (fun dir f => delete f dir) fs dir !! path = dir !! path.
Proof.
  revert dir. induction fs as [|f fs IH]; intros dir; [done|]. intros [? ?]%not_elem_of_cons. cbn.
  rewrite IH by done. by rewrite lookup_delete_ne.
Qed.

Lemma seed_not_derived : ".seed_backed_up"%string ∉ derived_files.
Proof. unfold derived_files. rewrite !elem_of_cons, elem_of_nil. intuition discriminate. Qed.
Lemma master_not_derived : "master_key.key"%string ∉ derived_files.
Proof. unfold derived_files. rewrite !elem_of_cons, elem_of_nil. intuition discriminate. Qed.

(** C37: The phrase of a node, typed on any other, restores the master key, and with
    it the identity, the node id and the DM key of index 0; the indices start
    at 0 again, whatever rotations there were. *)
Theorem recovery_roundtrip (now : Z) (random : bytes) (id : UserIdentity) (dir : DataDir)
    (Hok : identity_ok id) (Hlen : length (ui_master_secret id) = 32%nat) :
  exists phrase dir', get_seed_phrase (ui_master_secret id) = Ok phrase /\
    recover_files phrase dir = Ok dir' /\ is_seed_phrase_backed_up dir' = true /\
    build_identity now random dir' = Some (identity_of now (ui_master_secret id) 0 0, dir') /\
    let id' := identity_of now (ui_master_secret id) 0 0 in
    ui_master_pubkey id' = ui_master_pubkey id /\ ui_transport_node_id id' = ui_transport_node_id id /\
    (ui_dm_key_index id = 0 -> dm_identity id' = dm_identity id) /\
    (ui_signing_key_index id = 0 -> ui_signing_key id' = ui_signing_key id).
Proof.
  destruct (mnemonic_roundtrip (ui_master_secret id) Hlen) as (ws & Hws & Hentropy & Htrim).
  eexists _, _. split_and!.
  - unfold get_seed_phrase. rewrite Hws. reflexivity.
  - unfold recover_files. rewrite Htrim, Hentropy. cbn -[derived_files]. rewrite Hlen. reflexivity.
  - unfold is_seed_phrase_backed_up. rewrite lookup_insert_eq. by apply bool_decide_eq_true_2.
  - set (dir1 := fold_left _ derived_files _).
    assert (forall path, path ∈ derived_files -> load_index path (<[".seed_backed_up"%string := [49]]> dir1) = 0)
      as Hindex.
    { intros path Hp. unfold load_index. rewrite lookup_insert_ne by (intros <-; by apply seed_not_derived in Hp).
      unfold dir1. by rewrite derived_deleted. }
    unfold build_identity, load_or_create_key_bytes.
    rewrite lookup_insert_ne by done. unfold dir1 at 1. rewrite derived_kept by apply master_not_derived.
    rewrite lookup_insert_eq, Hlen. cbn -[derived_files].
    unfold load_signing_key_index, load_dm_key_index.
    rewrite !Hindex by (unfold derived_files; rewrite !elem_of_cons; tauto). done.
  - intros id'. split_and!; [by rewrite (ok_master _ Hok)|by rewrite (ok_transport _ Hok)|..].
  { intros Hz. pose proof (ok_dm_pair _ Hok) as Hp. rewrite (ok_dm _ Hok), Hz in Hp.
    unfold dm_identity. rewrite (ok_dm_pubkey _ Hok), (ok_storage_key _ Hok), (ok_dm _ Hok), (ok_master _ Hok), Hz.
    unfold id', identity_of. rewrite Hp. done. }
  intros Hz. by rewrite (ok_signing_key _ Hok), (ok_signing _ Hok), Hz.
Qed.
End recovery.

(** ** Linked devices *)

Section linked.
Context `{RatchetPrims, Ed25519, !Ed25519Laws, !KeyConv, HexCodec, !HexLaws, JsonCodec, LinkBase64}.

(** Even if the keys of a bundle could be decoded: a device that is given the
    master key starts with the node id of the device that linked it, whatever
    its own transport key and index, and a device that is not given it stays
    the identity it was before, with the key indices of the other. *)
Theorem linked_device_identity (now : Z) (random : bytes) (bundle : LinkBundleData)
    (files : list (string * bytes)) (dir dir' : DataDir) (id : UserIdentity)
    (Hlink : link_files bundle = (files, Ok tt))
    (Hbuild : build_identity now random (write_files files dir) = Some (id, dir')) :
  match lb_master_secret_key bundle with
  | Some m => exists master, b64_url_decode m = Some master /\ ui_master_secret id = master /\
                             ui_transport_node_id id = transport_id master
  | None => ui_master_secret id = default random (dir !! "master_key.key"%string)
  end /\
  (is_u32 (dl_key_index (lb_delegation bundle)) ->
   ui_signing_key_index id = dl_key_index (lb_delegation bundle)).
Proof.
  unfold link_files in Hlink.
  destruct (b64_url_decode (lb_signing_secret_key bundle)) as [sk|]; [|done].
  destruct (b64_url_decode (lb_transport_secret_key bundle)) as [tk|]; [|done].
  unfold build_identity, load_or_create_key_bytes in Hbuild.
  destruct (lb_master_secret_key bundle) as [m|].
  - destruct (b64_url_decode m) as [mk|]; [|done]. injection Hlink as <-. cbn -[index_text] in Hbuild.
    rewrite lookup_insert_eq in Hbuild. destruct (length mk =? 32)%nat; [|done].
    injection Hbuild as <- <-. split; [by exists mk|]. intros Hi. cbn.
    unfold load_signing_key_index. rewrite !load_index_ne by done. by apply load_index_text.
  - injection Hlink as <-. cbn -[index_text] in Hbuild. rewrite !lookup_insert_ne in Hbuild by done.
    destruct (dir !! "master_key.key"%string) as [mk|]; cbn -[index_text] in Hbuild.
    + destruct (length mk =? 32)%nat; [|done]. injection Hbuild as <- <-. split; [done|]. intros Hi. cbn.
      unfold load_signing_key_index. rewrite !load_index_ne by done. by apply load_index_text.
    + injection Hbuild as <- <-. split; [done|]. intros Hi. cbn.
      unfold load_signing_key_index. rewrite !load_index_ne by done. by apply load_index_text.
Qed.
End linked.

(** ** What followers make of it *)

Section followers.
Context `{RatchetPrims, Ed25519, !Ed25519Laws, !KeyConv, HexCodec, !HexLaws, JsonCodec, Sha, SqlOrder,
  !Serde (list MediaAttachment), !Serde SigningKeyDelegation, !SerdeLaws SigningKeyDelegation,
  !Serde (list string), !SerdeLaws (list string), !Serde LinkedDevicesAnnouncement}.
Implicit Types (id : UserIdentity) (d : Db) (post : Post).

(** A post of the user that would be stored if its signature is right. *)
Definition postable (now : Z) (pk : string) (post : Post) : Prop :=
  post_author post = pk /\ forall s, is_ok (validate_post now (set_post_signature s post)) = true.

Lemma signed_post_verifies post k : verify_post_signature (sign_post post k) (sk_public k) = Ok tt.
Proof.
  unfold verify_post_signature, sign_post. cbn [post_signature set_post_signature].
  rewrite hex_to_signature_to_hex. cbn.
  change (post_signing_bytes (set_post_signature _ post)) with (post_signing_bytes post).
  apply verify_or_sign.
Qed.

Lemma signed_post_bytes post k pk :
  pk_verify pk (post_signing_bytes post) (sk_sign k (post_signing_bytes post)) = false ->
  is_ok (verify_post_signature (sign_post post k) pk) = false.
Proof.
  intros Hv. unfold verify_post_signature, sign_post. cbn [post_signature set_post_signature].
  rewrite hex_to_signature_to_hex. cbn.
  change (post_signing_bytes (set_post_signature _ post)) with (post_signing_bytes post).
  unfold verify_or. by rewrite Hv.
Qed.

Lemma notify_post_total my_id post : total (notify_post my_id post).
Proof. unfold notify_post. solve_total. Qed.

Lemma signed_post_accepted now my_id post k pk d :
  postable now pk post -> resolve_signer d pk = Some (sk_public k) ->
  exists d' ev, process_incoming_post now my_id (sign_post post k) d = Done (true, d', ev) /\
    same_content (insert_post (sign_post post k) d) d'.
Proof.
  intros [Ha Hval] Hs. unfold process_incoming_post.
  change (sign_post post k) with (set_post_signature (post_signature (sign_post post k)) post) at 1.
  rewrite Hval, run_get. change (post_author (sign_post post k)) with (post_author post). rewrite Ha, Hs.
  rewrite signed_post_verifies. cbn [is_ok]. rewrite run_modify, run_bind.
  destruct (notify_post_total my_id (sign_post post k) (insert_post (sign_post post k) d)) as [[[u d'] ev] En].
  rewrite En. eexists _, _. split; [reflexivity|exact (always_done _ _ _ _ _ _ (notify_post_same _ _) En)].
Qed.

Lemma signed_post_rejected now my_id post k pk signer d :
  postable now pk post -> resolve_signer d pk = Some signer ->
  pk_verify signer (post_signing_bytes post) (sk_sign k (post_signing_bytes post)) = false ->
  process_incoming_post now my_id (sign_post post k) d = Done (false, d, []).
Proof.
  intros [Ha Hval] Hs Hv. unfold process_incoming_post.
  change (sign_post post k) with (set_post_signature (post_signature (sign_post post k)) post) at 1.
  rewrite Hval, run_get. change (post_author (sign_post post k)) with (post_author post). rewrite Ha, Hs.
  by rewrite signed_post_bytes.
Qed.

(** C38: A follower that has the identity cached under a smaller key index takes
    over an announced rotation: it keeps the addresses, accepts the posts signed
    with the new key, and rejects those signed with a key the new one does not
    verify. *)
Theorem rotation_followed (now t : Z) (id : UserIdentity) (my_id : string) (d : Db)
    (cached : SigningKeyDelegation)
    (Hok : identity_ok id)
    (Hcached : get_peer_delegation d (ui_master_pubkey id) = Ok (Some cached))
    (Hnewer : dl_key_index cached < ui_signing_key_index (rotate_identity t id).2)
    (Hlog : is_Some (short_id (ui_master_pubkey id))) :
  let pk := ui_master_pubkey id in
  let '(rotation, id2) := rotate_identity t id in
  exists d', handle_follow_message now pk my_id (Some (RotateSigningKey rotation)) d = Done (tt, d', []) /\
    get_peer_signing_pubkey d' pk = Some (pk_to_string (sk_public (ui_signing_key id2))) /\
    get_peer_transport_node_ids d' pk = Ok (default [] (res_ok (get_peer_transport_node_ids d pk))) /\
    posts d' = posts d /\
    forall post, postable now pk post ->
      (exists d2 ev, process_incoming_post now my_id (sign_post post (ui_signing_key id2)) d' = Done (true, d2, ev) /\
         same_content (insert_post (sign_post post (ui_signing_key id2)) d') d2) /\
      forall k, pk_verify (sk_public (ui_signing_key id2)) (post_signing_bytes post)
                  (sk_sign k (post_signing_bytes post)) = false ->
        process_incoming_post now my_id (sign_post post k) d' = Done (false, d', []).
Proof.
  cbv zeta. set (pk := ui_master_pubkey id) in *. destruct (rotation_verifies t id Hok) as [Hv Hpk].
  fold pk in Hpk. destruct (rotate_identity t id) as [rotation id2] eqn:Er. cbn in Hv, Hpk, Hnewer.
  assert (rt_new_key_index rotation = ui_signing_key_index id2 /\
          dl_signing_pubkey (rt_new_delegation rotation) = pk_to_string (sk_public (ui_signing_key id2)))
    as [Hidx Hkey] by (unfold rotate_identity in Er; by injection Er as <- <-).
  unfold handle_follow_message. destruct Hlog as [x Hx]. rewrite run_log, Hx. unfold handle_signing_key_rotation.
  rewrite decide_False by (rewrite Hpk; naive_solver). rewrite Hv. cbn [is_ok]. rewrite run_get, Hcached.
  rewrite Hidx, (proj2 (Z.leb_gt _ _)) by lia. rewrite run_log, Hx. eexists. split; [reflexivity|].
  set (d' := cache_peer_identity _ _ _).
  assert (get_peer_signing_pubkey d' pk = Some (pk_to_string (sk_public (ui_signing_key id2)))) as Hsign.
  { unfold d', get_peer_signing_pubkey, cache_peer_identity. cbn. rewrite Hpk, lookup_insert_eq. cbn. by rewrite Hkey. }
  assert (resolve_signer d' pk = Some (sk_public (ui_signing_key id2))) as Hres.
  { unfold resolve_signer. by rewrite Hsign, pk_parse_to_string. }
  split_and!; [done| |done|].
  - unfold d', get_peer_transport_node_ids at 1, cache_peer_identity. cbn. rewrite Hpk, lookup_insert_eq. cbn.
    by rewrite from_to_json.
  - intros post Hpost. split; [by eapply signed_post_accepted|]. intros k Hk. by eapply signed_post_rejected.
Qed.

(** Recovering starts at key index 0 again: a follower that has seen a rotation
    ignores every rotation of the recovered node up to that index, and rejects
    its posts as long as the cached key does not verify them. *)
Theorem recovered_identity_rejected (now t : Z) (id : UserIdentity) (my_id : string) (d : Db)
    (cached : SigningKeyDelegation) (signer : PublicKey)
    (Hok : identity_ok id)
    (Hcached : get_peer_delegation d (ui_master_pubkey id) = Ok (Some cached))
    (Hsigner : resolve_signer d (ui_master_pubkey id) = Some signer)
    (Hlog : is_Some (short_id (ui_master_pubkey id))) :
  let pk := ui_master_pubkey id in
  (ui_signing_key_index id + 1 <= dl_key_index cached -> ui_signing_key_index id + 1 < 2 ^ 32 ->
   handle_follow_message now pk my_id (Some (RotateSigningKey (rotate_identity t id).1)) d = Done (tt, d, [])) /\
  (forall post, postable now pk post ->
     pk_verify signer (post_signing_bytes post) (sk_sign (ui_signing_key id) (post_signing_bytes post)) = false ->
     process_incoming_post now my_id (sign_post post (ui_signing_key id)) d = Done (false, d, [])).
Proof.
  cbv zeta. set (pk := ui_master_pubkey id) in *. split; [|intros post Hpost Hv; by eapply signed_post_rejected].
  intros Hold Hsmall. destruct (rotation_verifies t id Hok) as [Hv Hpk]. fold pk in Hpk.
  unfold handle_follow_message. destruct Hlog as [x Hx]. rewrite run_log, Hx. unfold handle_signing_key_rotation.
  rewrite decide_False by (rewrite Hpk; naive_solver). rewrite Hv. cbn [is_ok]. rewrite run_get, Hcached.
  rewrite (proj2 (Z.leb_le _ _)).
  - unfold log_short. by rewrite Hx.
  - cbn. destruct Hok as [_ [[? _] _] _ _ _ _ _ _ _ _]. unfold add_u32. rewrite Z.mod_small by lia. done.
Qed.
End followers.

(** ** Witnesses *)

(** A phrase of one word. *)
#[export] Instance toy_bip39 : Bip39 := {
  mnemonic_words e := Some [pos_text (encode e)];
  mnemonic_entropy s := decode (text_pos s);
}.
#[export] Instance toy_bip39_laws : Bip39Laws.
Proof.
  split. intros e _. exists [pos_text (encode e)]. split; [done|]. cbn [String.concat]. split.
  - cbn. by rewrite text_pos_text, decode_encode.
  - apply trim_digits. induction (encode e) as [p IH|p IH|]; [| |done]; cbn; by rewrite IH.
Qed.

Definition fresh_secret : bytes := replicate 32 7.

Lemma identity_well_formed_witness :
  exists id dir1, build_identity 1 fresh_secret ∅ = Some (id, dir1) /\ identity_ok id.
Proof.
  pose proof (identity_well_formed 1 2 fresh_secret fresh_secret ∅ eq_refl) as H.
  destruct (build_identity 1 fresh_secret ∅) as [[id dir1]|].
  - exists id, dir1. split; [reflexivity|]. apply H.
  - destruct H as (b & Hb & _). exfalso. by apply lookup_empty_Some in Hb.
Defined.

(** After three rotations. *)
Definition rotated_thrice : UserIdentity := identity_of 1 fresh_secret 3 0.

Lemma recovery_roundtrip_witness :
  exists phrase dir', get_seed_phrase fresh_secret = Ok phrase /\ recover_files phrase ∅ = Ok dir' /\
    build_identity 9 [] dir' = Some (identity_of 9 fresh_secret 0 0, dir').
Proof.
  destruct (recovery_roundtrip 9 [] rotated_thrice ∅) as (phrase & dir' & E1 & E2 & _ & E3 & _).
  - apply identity_of_ok; split; reflexivity || discriminate.
  - reflexivity.
  - exists phrase, dir'. split; [exact E1|]. split; [exact E2|exact E3].
Defined.

(** Linked with the master key of another device, over a directory that has an
    own key already. *)
Definition toy_bundle : LinkBundleData :=
  {| lb_signing_secret_key := b64_url_encode [1]; lb_dm_secret_key := b64_url_encode [2];
     lb_delegation := sign_delegation ("m"%string : @SecretKey toy_ed25519) ("s"%string : @PublicKey toy_ed25519) 4 "dm" 0 1;
     lb_transport_secret_key := b64_url_encode [3]; lb_device_index := 1;
     lb_master_secret_key := Some (b64_url_encode (replicate 32 5)); lb_profile := None; lb_follows := [];
     lb_bookmarks := []; lb_blocked_users := []; lb_muted_users := []; lb_ratchet_sessions := [] |}.
Definition linked_directory : DataDir := <["master_key.key"%string := fresh_secret]> ∅.

Lemma linked_device_identity_witness :
  exists files id dir', link_files toy_bundle = (files, Ok tt) /\
    build_identity 9 [] (write_files files linked_directory) = Some (id, dir') /\
    ui_signing_key_index id = 4 /\ exists master, ui_master_secret id = master /\ ui_transport_node_id id = transport_id master.
Proof.
  destruct (link_files toy_bundle) as [files r] eqn:Ef.
  assert (r = Ok tt /\ write_files files linked_directory !! "master_key.key"%string = Some (replicate 32 5)) as [-> Hmaster].
  { unfold link_files, toy_bundle in Ef. cbn [lb_signing_secret_key lb_transport_secret_key lb_master_secret_key] in Ef.
    rewrite !b64_url_roundtrip in Ef. injection Ef as <- <-. split; [reflexivity|].
    unfold write_files. cbn [app fold_left fst snd]. by rewrite lookup_insert_eq. }
  destruct (build_identity 9 [] (write_files files linked_directory)) as [[id dir']|] eqn:Eb.
  - pose proof (linked_device_identity 9 [] toy_bundle files linked_directory dir' id Ef Eb) as [H Hi].
    exists files, id, dir'. split; [reflexivity|]. split; [exact Eb|]. split.
    + apply Hi. split; [discriminate|reflexivity].
    + destruct H as (master & _ & H1 & H2). exists master. split; [exact H1|exact H2].
  - exfalso. unfold build_identity, load_or_create_key_bytes in Eb. by rewrite Hmaster in Eb.
Defined.

(** A user whose follower has the first identity cached. *)
Definition dora : UserIdentity := identity_of 1 [7] 0 0.
Definition dora_cached (dl : SigningKeyDelegation) : Db :=
  cache_peer_identity 1 {| ir_master_pubkey := ui_master_pubkey dora; ir_delegation := dl;
    ir_transport_node_ids := [ui_transport_node_id dora]; ir_profile := None |} empty_db.
Lemma dora_ok : identity_ok dora.
Proof. apply identity_of_ok; split; reflexivity || discriminate. Qed.
Lemma dora_delegation dl : get_peer_delegation (dora_cached dl) (ui_master_pubkey dora) = Ok (Some dl).
Proof.
  unfold get_peer_delegation, dora_cached, cache_peer_identity. cbn [peer_delegations set_peer_delegations ir_master_pubkey].
  rewrite lookup_insert_eq. cbn [pd_delegation_json ir_delegation]. by rewrite from_to_json.
Qed.
Lemma dora_resolved dl : resolve_signer (dora_cached dl) (ui_master_pubkey dora) =
  match pk_parse (dl_signing_pubkey dl) with Ok pk => Some pk | Err _ => res_ok (pk_parse (ui_master_pubkey dora)) end.
Proof.
  unfold resolve_signer, get_peer_signing_pubkey, dora_cached, cache_peer_identity.
  cbn [peer_delegations set_peer_delegations ir_master_pubkey]. by rewrite lookup_insert_eq.
Qed.
Lemma dora_named : is_Some (short_id (ui_master_pubkey dora)).
Proof. vm_compute. by eexists. Qed.

Lemma rotation_followed_witness :
  exists d', handle_follow_message 1000 (ui_master_pubkey dora) "kme"
    (Some (RotateSigningKey (rotate_identity 50 dora).1)) (dora_cached (ui_delegation dora)) = Done (tt, d', []).
Proof.
  pose proof (rotation_followed 1000 50 dora "kme" (dora_cached (ui_delegation dora)) (ui_delegation dora)
    dora_ok (dora_delegation _) eq_refl dora_named) as H.
  destruct (rotate_identity 50 dora) as [rotation id2]. destruct H as (d' & E & _). exists d'. exact E.
Defined.

(** The follower has seen five rotations, to a key that is lost. *)
Definition lost_key : @SecretKey toy_ed25519 := "lost"%string.
Definition sixth_delegation : SigningKeyDelegation :=
  sign_delegation (sk_from_bytes [7]) (sk_public lost_key) 5 "dm" 0 1.
Definition dora_post : Post :=
  {| post_id := "p1"; post_author := ui_master_pubkey dora; post_content := "hi"; post_timestamp := 10;
     post_media := []; post_reply_to := None; post_reply_to_author := None;
     post_quote_of := None; post_quote_of_author := None; post_signature := "" |}.

Lemma recovered_identity_rejected_witness :
  handle_follow_message 1000 (ui_master_pubkey dora) "kme"
    (Some (RotateSigningKey (rotate_identity 50 dora).1)) (dora_cached sixth_delegation) =
      Done (tt, dora_cached sixth_delegation, []) /\
  process_incoming_post 1000 "kme" (sign_post dora_post (ui_signing_key dora)) (dora_cached sixth_delegation) =
    Done (false, dora_cached sixth_delegation, []).
Proof.
  pose proof (recovered_identity_rejected 1000 50 dora "kme" (dora_cached sixth_delegation) sixth_delegation
    (sk_public lost_key) dora_ok (dora_delegation _) (dora_resolved _) dora_named) as [H1 H2].
  split; [apply H1; vm_compute; congruence|]. apply H2; [split; reflexivity|]. vm_compute. reflexivity.
Defined.
