(* ===== verification/Servers.v ===== *)
(** * The community servers a node knows

    Model of [src-tauri/src/storage/servers.rs]: the table of
    [migrations/009_servers.sql], by URL. *)

From S2P Require Import Prelude Text Types Validation Store.

Local Open Scope Z_scope.

Record ServerRow : Type := {
  vr_name : string;
  vr_description : string;
  vr_node_id : string;
  vr_registered_at : option Z;
  vr_visibility : string;
  vr_added_at : Z;
  vr_last_synced_at : option Z;
}.
Abbreviation ServerTable := (gmap string ServerRow).

Record ServerEntry : Type := {
  se_url : string;
  se_name : string;
  se_description : string;
  se_node_id : string;
  se_registered_at : option Z;
  se_visibility : string;
  se_added_at : Z;
  se_last_synced_at : option Z;
}.

(** [ProfileUpdate] of [commands/servers.rs], the body of a request. *)
Record ProfileUpdateBody : Type := {
  ub_master_pubkey : string;
  ub_transport_node_id : string;
  ub_server_url : string;
  ub_timestamp : Z;
  ub_visibility : string;
  ub_display_name : option string;
  ub_bio : option string;
  ub_avatar_hash : option string;
  ub_signature : string;
  ub_delegation : SigningKeyDelegation;
}.
Record ServerInfo : Type := {
  fo_name : string;
  fo_description : string;
  fo_node_id : string;
}.

Definition row_to_server (kr : string * ServerRow) : ServerEntry :=
  {| se_url := kr.1; se_name := vr_name kr.2; se_description := vr_description kr.2;
     se_node_id := vr_node_id kr.2; se_registered_at := vr_registered_at kr.2;
     se_visibility := vr_visibility kr.2; se_added_at := vr_added_at kr.2;
     se_last_synced_at := vr_last_synced_at kr.2 |}.

(** The columns left out take their defaults. *)
Definition add_server (now : Z) (url : string) (t : ServerTable) : ServerTable :=
  insert_or_ignore url
    {| vr_name := ""; vr_description := ""; vr_node_id := ""; vr_registered_at := None;
       vr_visibility := "public"; vr_added_at := as_i64 now; vr_last_synced_at := None |} t.

Definition remove_server (url : string) (t : ServerTable) : ServerTable :=
  sql_delete (fun kr => bool_decide (kr.1 = url)) t.

Definition set_vr_info (name description node_id : string) (r : ServerRow) : ServerRow :=
  {| vr_name := name; vr_description := description; vr_node_id := node_id;
     vr_registered_at := vr_registered_at r; vr_visibility := vr_visibility r;
     vr_added_at := vr_added_at r; vr_last_synced_at := vr_last_synced_at r |}.
Definition set_vr_registered (at_ : option Z) (visibility : string) (r : ServerRow) : ServerRow :=
  {| vr_name := vr_name r; vr_description := vr_description r; vr_node_id := vr_node_id r;
     vr_registered_at := at_; vr_visibility := visibility; vr_added_at := vr_added_at r;
     vr_last_synced_at := vr_last_synced_at r |}.

Definition update_server_info (url name description node_id : string) (t : ServerTable) : ServerTable :=
  sql_update (fun kr => bool_decide (kr.1 = url)) (set_vr_info name description node_id) t.
Definition mark_server_registered (now : Z) (url visibility : string) (t : ServerTable) : ServerTable :=
  sql_update (fun kr => bool_decide (kr.1 = url)) (set_vr_registered (Some (as_i64 now)) visibility) t.
Definition mark_server_unregistered (url : string) (t : ServerTable) : ServerTable :=
  sql_update (fun kr => bool_decide (kr.1 = url)) (fun r => set_vr_registered None (vr_visibility r) r) t.

Definition get_server (t : ServerTable) (url : string) : option ServerEntry :=
  (fun r => row_to_server (url, r)) <$> t !! url.

Section queries.
Context `{SqlOrder}.

Definition get_servers (t : ServerTable) : list ServerEntry :=
  row_to_server <$> sql_select (fun _ => true) (fun kr => - vr_added_at kr.2) t.
Definition get_registered_servers (t : ServerTable) : list ServerEntry :=
  row_to_server <$>
    sql_select (fun kr => bool_decide (is_Some (vr_registered_at kr.2))) (fun kr => - vr_added_at kr.2) t.
End queries.
