(* ===== verification/Service.v ===== *)
(** * The gossip service of a node

    Model of [src-tauri/src/gossip/{mod,broadcast,subscriptions,health,own_feed}.rs]
    over the state of the application ([state.rs]): the topic of the own feed,
    the subscriptions to the feeds of others with the tasks that listen to them,
    broadcasts, and the direct push that replaces them for a profile that is not
    public.  A call of the gossip or the HTTP library can fail: [nd_outcomes] says
    which of the next calls succeed, and calls after those do.  An operation runs without
    interruption; an aborted task stops at once.  [None] is a panic. *)

From S2P Require Import Prelude Text Types Ratchet Signing Validation Store Social Moderation Posts Interactions Notifications Peers Handler Ingest Gossip Noise Dm FollowRequests Peer Link Identity Servers Effects.

Local Open Scope Z_scope.
Local Open Scope eff_scope.

(** ** The state *)

(** A task with the identity it was started for. *)
Inductive GossipTask : Type :=
| OwnFeed (my_id : string)
| Listener (pk my_id : string).

(** Task handles are numbers.  The flag of a subscription that it has had a
    neighbour is written and never read, and is left out. *)
Record GossipInner : Type := {
  gi_my_sender : bool;
  gi_own_feed_handle : option nat;
  gi_subscriptions : gmap string nat;
  gi_reconnect_rx : bool;
}.

Inductive SyncCommand : Type := SyncPeer (pubkey : string) | SyncAll.

(** [nd_tasks] are the tasks that are not finished. *)
Record Node `{Ed25519} : Type := {
  nd_db : Db;
  nd_identity : UserIdentity;
  nd_servers : ServerTable;
  nd_files : DataDir;
  nd_inner : GossipInner;
  nd_tasks : gmap nat GossipTask;
  nd_reconnects : list string;
  nd_outcomes : list bool;
  nd_fresh : nat;
}.

Inductive NetEffect : Type :=
| Broadcast (m : GossipMessage)
| Subscribe (pubkey : string) (bootstrap : list string)
| SpawnPush (recipients : list string) (m : PushMessage)
| UiEvent (event : string)
| NetworkChange
| StartLoops
| QueueSync (c : SyncCommand)
| PostRegister (url : string) (req : RegistrationRequest)
| DeleteRegister (url : string) (req : RegistrationRequest)
| PutRegister (url : string) (update : ProfileUpdateBody).

Section service.
Context `{RatchetPrims, Ed25519, !KeyConv, HexCodec, JsonCodec, Sha, SqlOrder,
  !Serde (list MediaAttachment), !Serde SigningKeyDelegation, !Serde (list string),
  !Serde LinkedDevicesAnnouncement}.

Abbreviation net := (eff Node NetEffect).

Definition my_id (n : Node) : string := ui_master_pubkey (nd_identity n).

(** ** Access to the state *)

Definition set_db (d : Db) (n : Node) : Node :=
  {| nd_db := d; nd_identity := nd_identity n; nd_servers := nd_servers n; nd_files := nd_files n;
     nd_inner := nd_inner n; nd_tasks := nd_tasks n; nd_reconnects := nd_reconnects n;
     nd_outcomes := nd_outcomes n; nd_fresh := nd_fresh n |}.
Definition set_identity (id : UserIdentity) (n : Node) : Node :=
  {| nd_db := nd_db n; nd_identity := id; nd_servers := nd_servers n; nd_files := nd_files n;
     nd_inner := nd_inner n; nd_tasks := nd_tasks n; nd_reconnects := nd_reconnects n;
     nd_outcomes := nd_outcomes n; nd_fresh := nd_fresh n |}.
Definition set_servers (t : ServerTable) (n : Node) : Node :=
  {| nd_db := nd_db n; nd_identity := nd_identity n; nd_servers := t; nd_files := nd_files n;
     nd_inner := nd_inner n; nd_tasks := nd_tasks n; nd_reconnects := nd_reconnects n;
     nd_outcomes := nd_outcomes n; nd_fresh := nd_fresh n |}.
Definition set_files (f : DataDir) (n : Node) : Node :=
  {| nd_db := nd_db n; nd_identity := nd_identity n; nd_servers := nd_servers n; nd_files := f;
     nd_inner := nd_inner n; nd_tasks := nd_tasks n; nd_reconnects := nd_reconnects n;
     nd_outcomes := nd_outcomes n; nd_fresh := nd_fresh n |}.
Definition set_inner (i : GossipInner) (n : Node) : Node :=
  {| nd_db := nd_db n; nd_identity := nd_identity n; nd_servers := nd_servers n; nd_files := nd_files n;
     nd_inner := i; nd_tasks := nd_tasks n; nd_reconnects := nd_reconnects n;
     nd_outcomes := nd_outcomes n; nd_fresh := nd_fresh n |}.
Definition set_tasks (t : gmap nat GossipTask) (n : Node) : Node :=
  {| nd_db := nd_db n; nd_identity := nd_identity n; nd_servers := nd_servers n; nd_files := nd_files n;
     nd_inner := nd_inner n; nd_tasks := t; nd_reconnects := nd_reconnects n;
     nd_outcomes := nd_outcomes n; nd_fresh := nd_fresh n |}.
Definition set_reconnects (q : list string) (n : Node) : Node :=
  {| nd_db := nd_db n; nd_identity := nd_identity n; nd_servers := nd_servers n; nd_files := nd_files n;
     nd_inner := nd_inner n; nd_tasks := nd_tasks n; nd_reconnects := q;
     nd_outcomes := nd_outcomes n; nd_fresh := nd_fresh n |}.

Definition set_sender (b : bool) (handle : option nat) (i : GossipInner) : GossipInner :=
  {| gi_my_sender := b; gi_own_feed_handle := handle; gi_subscriptions := gi_subscriptions i;
     gi_reconnect_rx := gi_reconnect_rx i |}.
Definition set_subscriptions (s : gmap string nat) (i : GossipInner) : GossipInner :=
  {| gi_my_sender := gi_my_sender i; gi_own_feed_handle := gi_own_feed_handle i;
     gi_subscriptions := s; gi_reconnect_rx := gi_reconnect_rx i |}.
Definition take_reconnect_rx (i : GossipInner) : GossipInner :=
  {| gi_my_sender := gi_my_sender i; gi_own_feed_handle := gi_own_feed_handle i;
     gi_subscriptions := gi_subscriptions i; gi_reconnect_rx := false |}.

(** A handler on the database of the node; its events go to the user
    interface.  Where it panics, what it wrote before is dropped. *)
Definition on_db {A} (m : handler A) : net A := fun n =>
  match m (nd_db n) with
  | Done (a, d, ev) => (set_db d n, UiEvent <$> ev, Some a)
  | Panicked d ev => (set_db d n, UiEvent <$> ev, None)
  end.

(** A call of the gossip or the HTTP library. *)
Definition library_call : net (result AppError unit) := fun n =>
  ({| nd_db := nd_db n; nd_identity := nd_identity n; nd_servers := nd_servers n;
      nd_files := nd_files n; nd_inner := nd_inner n; nd_tasks := nd_tasks n;
      nd_reconnects := nd_reconnects n; nd_outcomes := tail (nd_outcomes n); nd_fresh := nd_fresh n |},
   [], Some (if hd true (nd_outcomes n) then Ok tt else Err (Other "library"))).

(** [tokio::spawn]. *)
Definition spawn_task (t : GossipTask) : net nat := fun n =>
  ({| nd_db := nd_db n; nd_identity := nd_identity n; nd_servers := nd_servers n;
      nd_files := nd_files n; nd_inner := nd_inner n; nd_tasks := <[nd_fresh n := t]> (nd_tasks n);
      nd_reconnects := nd_reconnects n; nd_outcomes := nd_outcomes n; nd_fresh := S (nd_fresh n) |},
   [], Some (nd_fresh n)).

(** The end of a task, by itself or by [abort]. *)
Definition end_task (handle : nat) : net unit := modify_state (fun n => set_tasks (delete handle (nd_tasks n)) n).
Definition is_finished (n : Node) (handle : nat) : bool := negb (bool_decide (is_Some (nd_tasks n !! handle))).

(** ** broadcast.rs *)

Definition broadcast_msg (msg : GossipMessage) : net (result AppError bool) :=
  n ← get_state;
  if gi_my_sender (nd_inner n) then
    _ ←? library_call;
    _ ← effect (Broadcast msg);
    mret (Ok true)
  else mret (Ok false).

(** ** mod.rs *)

Definition my_visibility (n : Node) : Visibility := get_visibility (nd_db n) (my_id n).

Definition push_recipients (n : Node) : list string :=
  let followers := default [] (res_ok (get_followers (nd_db n) (my_id n))) in
  match my_visibility n with
  | Public => []
  | Listed => sg_pubkey <$> followers
  | Private =>
      let follow_set := sg_pubkey <$> default [] (res_ok (get_follows (nd_db n) (my_id n))) in
      sg_pubkey <$> filter (fun f => sg_pubkey f ∈ follow_set) followers
  end.

Definition attempt_push (msg : PushMessage) : net unit :=
  n ← get_state;
  match push_recipients n with
  | [] => mret tt
  | recipients => effect (SpawnPush recipients msg)
  end.

(** The spawned task: the nodes of a recipient that are tried, up to the first
    that takes the message. *)
Fixpoint push_attempts (reachable : string -> bool) (node_ids : list string) : list string :=
  match node_ids with
  | [] => []
  | node_id :: node_ids =>
      if is_ok (pk_parse node_id) then
        if reachable node_id then [node_id] else node_id :: push_attempts reachable node_ids
      else push_attempts reachable node_ids
  end.
Definition push_task (d : Db) (reachable : string -> bool) (recipients : list string)
    : list (string * list string) :=
  (fun r => (r, push_attempts reachable (default [] (res_ok (get_peer_transport_node_ids d r))))) <$> recipients.

(** [if !broadcast_msg(..)? { attempt_push(..) }]. *)
Definition broadcast_or_push (msg : GossipMessage) (push : PushMessage) : net (result AppError unit) :=
  sent ←? broadcast_msg msg;
  if (sent : bool) then mret (Ok tt) else _ ← attempt_push push; mret (Ok tt).
Definition broadcast_only (msg : GossipMessage) : net (result AppError unit) :=
  _ ←? broadcast_msg msg; mret (Ok tt).

Definition broadcast_heartbeat : net (result AppError unit) := broadcast_only Heartbeat.
Definition broadcast_profile (profile : Profile) : net (result AppError unit) :=
  n ← get_state;
  broadcast_or_push (ProfileUpdate profile)
    {| pm_author := my_id n; pm_posts := []; pm_interactions := []; pm_profile := Some profile |}.
Definition broadcast_post (post : Post) : net (result AppError unit) :=
  n ← get_state;
  broadcast_or_push (NewPost post)
    {| pm_author := my_id n; pm_posts := [post]; pm_interactions := []; pm_profile := None |}.
Definition broadcast_interaction (i : Interaction) : net (result AppError unit) :=
  n ← get_state;
  broadcast_or_push (NewInteraction i)
    {| pm_author := my_id n; pm_posts := []; pm_interactions := [i]; pm_profile := None |}.
Definition broadcast_delete (id author signature : string) : net (result AppError unit) :=
  broadcast_only (DeletePost id author signature).
Definition broadcast_delete_interaction (id author signature : string) : net (result AppError unit) :=
  broadcast_only (DeleteInteraction id author signature).
Definition broadcast_linked_devices (a : LinkedDevicesAnnouncement) : net (result AppError unit) :=
  broadcast_only (LinkedDevices a).
Definition broadcast_signing_key_rotation (r : SigningKeyRotation) : net (result AppError unit) :=
  broadcast_only (RotateSigningKey r).
Definition broadcast_stage_announcement (stage_id title : string) (ticket : StageTicket)
    (host_pubkey : string) (started_at : Z) : net (result AppError unit) :=
  broadcast_only (StageAnnounced stage_id title ticket host_pubkey started_at).
Definition broadcast_stage_ended (stage_id : string) : net (result AppError unit) :=
  broadcast_only (StageEnded stage_id).

(** ** own_feed.rs *)

Definition stop_own_feed : net unit :=
  n ← get_state;
  match gi_own_feed_handle (nd_inner n) with
  | None => mret tt
  | Some handle =>
      _ ← end_task handle;
      modify_state (fun n => set_inner (set_sender false None (nd_inner n)) n)
  end.

Definition start_own_feed_unconditional : net (result AppError unit) :=
  n ← get_state;
  let running := match gi_own_feed_handle (nd_inner n) with
                 | Some handle => negb (is_finished n handle)
                 | None => false
                 end in
  if (running : bool) then mret (Ok tt)
  else
    _ ← log_arg (my_id n);
    _ ←? library_call;
    _ ← effect (Subscribe (my_id n) []);
    handle ← spawn_task (OwnFeed (my_id n));
    _ ← modify_state (fun n => set_inner (set_sender true (Some handle) (nd_inner n)) n);
    mret (Ok tt).

Definition start_own_feed : net (result AppError unit) :=
  n ← get_state;
  if decide (my_visibility n <> Public) then mret (Ok tt) else start_own_feed_unconditional.

(** Before the new visibility is stored. *)
Definition handle_visibility_change (old new : Visibility) (profile : Profile) : net (result AppError unit) :=
  if decide (old = new) then mret (Ok tt)
  else match old, new with
  | Public, _ =>
      _ ←? broadcast_profile profile;
      _ ← stop_own_feed;
      mret (Ok tt)
  | _, Public =>
      _ ←? start_own_feed_unconditional;
      broadcast_profile profile
  | _, _ => mret (Ok tt)
  end.

(** ** subscriptions.rs *)

Definition join_topic (pubkey : string) (transport_node_ids : list string) : net (result AppError unit) :=
  let bootstrap := filter (fun id => is_ok (pk_parse id)) transport_node_ids in
  _ ← log_arg pubkey;
  match bootstrap with
  | [] => mret (Err (Other "no valid transport NodeIds"))
  | _ =>
      _ ←? library_call;
      _ ← effect (Subscribe pubkey bootstrap);
      n ← get_state;
      handle ← spawn_task (Listener pubkey (my_id n));
      _ ← modify_state (fun n =>
            set_inner (set_subscriptions (<[pubkey := handle]> (gi_subscriptions (nd_inner n))) (nd_inner n)) n);
      mret (Ok tt)
  end.

(** [follow_user]: the topic is joined unless a live task listens to it. *)
Definition subscribe_user (pubkey : string) (transport_node_ids : list string) : net (result AppError unit) :=
  n ← get_state;
  let subs := gi_subscriptions (nd_inner n) in
  match subs !! pubkey with
  | Some handle =>
      if is_finished n handle then
        _ ← modify_state (fun n => set_inner (set_subscriptions (delete pubkey subs) (nd_inner n)) n);
        join_topic pubkey transport_node_ids
      else log_arg pubkey ≫= fun _ => mret (Ok tt)
  | None => join_topic pubkey transport_node_ids
  end.

(** [unfollow_user]. *)
Definition unsubscribe_user (pubkey : string) : net unit :=
  n ← get_state;
  let subs := gi_subscriptions (nd_inner n) in
  match subs !! pubkey with
  | None => mret tt
  | Some handle =>
      _ ← modify_state (fun n => set_inner (set_subscriptions (delete pubkey subs) (nd_inner n)) n);
      _ ← log_arg pubkey;
      end_task handle
  end.

Definition get_subscription_count (n : Node) : nat := size (gi_subscriptions (nd_inner n)).

(** ** The tasks *)

(** An event of a topic; [NeighborUp] comes with what the neighbour answers when
    it is asked for its identity. *)
Inductive FeedEvent : Type :=
| FeedReceived (msg : option GossipMessage)
| FeedNeighborUp (transport_id : string) (response : result AppError PeerResponse)
| FeedNeighborDown (transport_id : string)
| FeedOther
| FeedEnded.

(** The loop of a task on one event. *)
Definition on_feed_event (now : Z) (handle : nat) (task : GossipTask) (ev : FeedEvent) : net unit :=
  match task, ev with
  | OwnFeed my_id, FeedNeighborUp id response => on_db (neighbor_up now my_id id response)
  | OwnFeed my_id, FeedNeighborDown id => on_db (neighbor_down my_id id)
  | OwnFeed _, FeedEnded => end_task handle
  | OwnFeed _, (FeedReceived _ | FeedOther) => mret tt
  | Listener pk my_id, FeedReceived msg => on_db (handle_follow_message now pk my_id msg)
  | Listener pk _, (FeedNeighborUp _ _ | FeedNeighborDown _ | FeedOther) => log_arg pk
  | Listener pk _, FeedEnded =>
      _ ← log_arg pk;
      _ ← end_task handle;
      modify_state (fun n => set_reconnects (nd_reconnects n ++ [pk]) n)
  end.

(** An event of the task [handle]; a task that panics is finished. *)
Definition feed_event (now : Z) (handle : nat) (ev : FeedEvent) : net unit := fun n =>
  match nd_tasks n !! handle with
  | None => (n, [], Some tt)
  | Some task =>
      match on_feed_event now handle task ev n with
      | (n', ef, None) => (set_tasks (delete handle (nd_tasks n')) n', ef, Some tt)
      | r => r
      end
  end.

(** ** health.rs *)

(** One round of [reconnect_loop], after its pause. *)
Definition reconnect_next : net unit :=
  n ← get_state;
  match nd_reconnects n with
  | [] => mret tt
  | pubkey :: queue =>
      _ ← modify_state (set_reconnects queue);
      _ ← log_arg pubkey;
      match default [] (res_ok (get_peer_transport_node_ids (nd_db n) pubkey)) with
      | [] => mret tt
      | node_ids =>
          r ← subscribe_user pubkey node_ids;
          match (r : result AppError unit) with Ok _ => mret tt | Err _ => log_arg pubkey end
      end
  end.

(** The subscriptions are visited in some order. *)
Definition refresh_all : net unit :=
  modify_state (fun n =>
    set_reconnects (nd_reconnects n ++
      (fst <$> filter (fun kv => is_finished n kv.2) (map_to_list (gi_subscriptions (nd_inner n))))) n).

(** In milliseconds. *)
Definition GOSSIP_HEARTBEAT_INTERVAL : Z := 30000.
Definition HEALTH_TICK_INTERVAL : Z := 5000.
Definition WAKE_THRESHOLD : Z := 15000.

Record HealthClock : Type := { hc_last_tick : Z; hc_last_heartbeat : Z }.

(** One round of [network_health_task] at [now], after its pause. *)
Definition health_tick (now : Z) (c : HealthClock) : net HealthClock :=
  _ ← (if WAKE_THRESHOLD <? now - hc_last_tick c then
         _ ← effect NetworkChange; refresh_all
       else mret tt : net unit);
  if GOSSIP_HEARTBEAT_INTERVAL <=? now - hc_last_heartbeat c then
    _ ← broadcast_heartbeat;
    mret {| hc_last_tick := now; hc_last_heartbeat := now |}
  else mret {| hc_last_tick := now; hc_last_heartbeat := hc_last_heartbeat c |}.

(** ** mod.rs: starting *)

Definition start_subscription (pubkey : string) : net unit :=
  n ← get_state;
  match default [] (res_ok (get_peer_transport_node_ids (nd_db n) pubkey)) with
  | [] => log_arg pubkey
  | node_ids =>
      r ← subscribe_user pubkey node_ids;
      match (r : result AppError unit) with Ok _ => mret tt | Err _ => log_arg pubkey end
  end.
Fixpoint start_subscriptions (pubkeys : list string) : net unit :=
  match pubkeys with
  | [] => mret tt
  | pubkey :: pubkeys => _ ← start_subscription pubkey; start_subscriptions pubkeys
  end.

(** It panics when it is called twice. *)
Definition start_background : net unit :=
  n ← get_state;
  _ ← start_subscriptions (sg_pubkey <$> default [] (res_ok (get_follows (nd_db n) (my_id n))));
  n ← get_state;
  if gi_reconnect_rx (nd_inner n) then
    _ ← modify_state (fun n => set_inner (take_reconnect_rx (nd_inner n)) n);
    effect StartLoops
  else panic.
End service.
