(* ===== verification/Commands.v ===== *)
(** * The commands of the user interface

    Model of [src-tauri/src/commands/{posts,interactions,profile,social,
    moderation,identity,servers}.rs] and of [util.rs], over the gossip service.
    [now] is the clock, [random] the generator; what a peer answers is an
    argument.  An error of a library or of a check is [Other]. *)

From S2P Require Import Prelude Text Types Ratchet Signing Validation Store Social Moderation Posts Interactions Notifications Peers Handler Ingest Gossip Noise Dm FollowRequests Peer Link Identity Servers Effects Service.

Local Open Scope Z_scope.
Local Open Scope eff_scope.

(** ** util.rs *)

(** [{:0nx}]: [n] digits of a number, in lower case. *)
Definition hex_digit (d : Z) : Ascii.ascii :=
  Ascii.ascii_of_N (Z.to_N (if d <? 10 then 48 + d else 87 + d)).
Fixpoint lower_hex (n : nat) (x : Z) : string :=
  match n with
  | O => EmptyString
  | S n => String (hex_digit ((x / 16 ^ Z.of_nat n) mod 16)) (lower_hex n x)
  end.
(** [u64::from_le_bytes]. *)
Definition from_le (l : bytes) : Z := from_be (reverse l).
(** [random] are 16 bytes. *)
Definition generate_id (random : bytes) : string :=
  lower_hex 16 (from_le (take 8 random)) +:+ lower_hex 16 (from_le (drop 8 random)).

Section commands.
Context `{RatchetPrims, Ed25519, !KeyConv, HexCodec, JsonCodec, Sha, SqlOrder,
  !Serde (list MediaAttachment), !Serde SigningKeyDelegation, !Serde (list string),
  !Serde LinkedDevicesAnnouncement}.

Abbreviation net := (eff Node NetEffect).

Definition modify_db (f : Db -> Db) : net unit := modify_state (fun n => set_db (f (nd_db n)) n).
Definition signing_key (n : Node) : SecretKey := sk_from_bytes (ui_signing_secret (nd_identity n)).
(** A check whose error is a text. *)
Definition text_error {A} (r : result string A) : result AppError A :=
  match r with Ok a => Ok a | Err e => Err (Other e) end.

(** ** posts.rs *)

(** Validated, signed, stored, announced. *)
Definition publish_post (now : Z) (post : Post) : net (result AppError Post) :=
  n ← get_state;
  _ ←? eff_lift (text_error (validate_post now post));
  let post := sign_post post (signing_key n) in
  _ ← modify_db (insert_post post);
  _ ←? broadcast_post post;
  mret (Ok post).

Definition create_post (now : Z) (random : bytes) (content : string) (media : option (list MediaAttachment))
    (reply_to reply_to_author quote_of quote_of_author : option string) : net (result AppError Post) :=
  n ← get_state;
  publish_post now
    {| post_id := generate_id random; post_author := my_id n; post_content := content;
       post_timestamp := now; post_media := default [] media; post_reply_to := reply_to;
       post_reply_to_author := reply_to_author; post_quote_of := quote_of;
       post_quote_of_author := quote_of_author; post_signature := "" |}.

Definition repost (now : Z) (random : bytes) (target_post_id target_author : string)
    : net (result AppError Post) :=
  n ← get_state;
  publish_post now
    {| post_id := generate_id random; post_author := my_id n; post_content := "";
       post_timestamp := now; post_media := []; post_reply_to := None; post_reply_to_author := None;
       post_quote_of := Some target_post_id; post_quote_of_author := Some target_author;
       post_signature := "" |}.

Definition unrepost (target_post_id : string) : net (result AppError unit) :=
  n ← get_state;
  let '(d, id) := delete_repost_by_target (my_id n) target_post_id (nd_db n) in
  _ ← modify_db (fun _ => d);
  match id with
  | None => mret (Ok tt)
  | Some id => broadcast_delete id (my_id n) (sign_delete_post id (my_id n) (signing_key n))
  end.

Definition delete_post_command (id : string) : net (result AppError unit) :=
  n ← get_state;
  post ←? eff_lift (get_post_by_id (nd_db n) id);
  match (post : option Post) with
  | None => mret (Err (Other "not found"))
  | Some post =>
      if decide (post_author post = my_id n) then
        _ ← modify_db (fun d => (delete_post id d).1);
        broadcast_delete id (my_id n) (sign_delete_post id (my_id n) (signing_key n))
      else mret (Err (Other "cannot delete posts authored by other users"))
  end.

(** ** interactions.rs *)

Definition like_post (now : Z) (random : bytes) (target_post_id target_author : string)
    : net (result AppError Interaction) :=
  n ← get_state;
  let interaction := sign_interaction
    {| in_id := generate_id random; in_author := my_id n; in_kind := Like;
       in_target_post_id := target_post_id; in_target_author := target_author;
       in_timestamp := now; in_signature := "" |} (signing_key n) in
  _ ← modify_db (save_interaction interaction);
  _ ←? broadcast_interaction interaction;
  mret (Ok interaction).

Definition unlike_post (target_post_id : string) : net (result AppError unit) :=
  n ← get_state;
  let '(d, id) := delete_interaction_by_target (my_id n) "Like" target_post_id (nd_db n) in
  _ ← modify_db (fun _ => d);
  match id with
  | None => mret (Ok tt)
  | Some id =>
      broadcast_delete_interaction id (my_id n) (sign_delete_interaction id (my_id n) (signing_key n))
  end.

(** ** servers.rs *)

Definition registration_request (now : Z) (n : Node) (url : string) (v : Visibility)
    (action : option string) (key : SecretKey) (delegation : SigningKeyDelegation) : RegistrationRequest :=
  {| rr_master_pubkey := my_id n; rr_transport_node_id := ui_transport_node_id (nd_identity n);
     rr_server_url := url; rr_timestamp := now; rr_visibility := v; rr_action := action;
     rr_signature := sign_registration
       {| rp_master_pubkey := my_id n; rp_transport_node_id := ui_transport_node_id (nd_identity n);
          rp_server_url := url; rp_timestamp := now; rp_visibility := v; rp_action := action |} key;
     rr_delegation := delegation |}.

Definition non_empty (s : string) : option string := if decide (s = ""%string) then None else Some s.

(** The visibility sent is the one of the registration, not of the profile. *)
Definition profile_update (now : Z) (n : Node) (url : string) (profile : Profile) : ProfileUpdateBody :=
  let vis := match get_server (nd_servers n) url with
             | Some s => se_visibility s
             | None => "public"%string
             end in
  {| ub_master_pubkey := my_id n; ub_transport_node_id := ui_transport_node_id (nd_identity n);
     ub_server_url := url; ub_timestamp := now; ub_visibility := vis;
     ub_display_name := non_empty (pr_display_name profile); ub_bio := non_empty (pr_bio profile);
     ub_avatar_hash := pr_avatar_hash profile;
     ub_signature := sign_registration
       {| rp_master_pubkey := my_id n; rp_transport_node_id := ui_transport_node_id (nd_identity n);
          rp_server_url := url; rp_timestamp := now;
          rp_visibility := default visibility_default (res_ok (visibility_from_str vis));
          rp_action := None |} (signing_key n);
     ub_delegation := ui_delegation (nd_identity n) |}.

Definition sync_profile_to_server_inner (now : Z) (url : string) : net (result AppError unit) :=
  n ← get_state;
  profile ←? eff_lift (ok_or (get_profile (nd_db n) (my_id n)) (Other "no profile to sync"));
  _ ← effect (PutRegister url (profile_update now n url profile));
  library_call.

Definition register_with_server (now : Z) (url visibility : string) : net (result AppError unit) :=
  n ← get_state;
  vis ←? eff_lift (text_error (visibility_from_str visibility));
  _ ← effect (PostRegister url
        (registration_request now n url vis None (signing_key n) (ui_delegation (nd_identity n))));
  _ ←? library_call;
  _ ← modify_state (fun n => set_servers (mark_server_registered now url (visibility_to_string vis) (nd_servers n)) n);
  _ ← sync_profile_to_server_inner now url;
  mret (Ok tt).

Definition unregister_from_server (now : Z) (url : string) : net (result AppError unit) :=
  n ← get_state;
  _ ← effect (DeleteRegister url
        (registration_request now n url Public (Some "unregister"%string) (signing_key n)
           (ui_delegation (nd_identity n))));
  _ ←? library_call;
  _ ← modify_state (fun n => set_servers (mark_server_unregistered url (nd_servers n)) n);
  mret (Ok tt).

(** [trim_end_matches('/')]. *)
Definition trim_slashes (url : string) : string :=
  let fix drop (l : list Ascii.ascii) := match l with
    | a :: l' => if (Ascii.N_of_ascii a =? 47)%N then drop l' else l
    | [] => []
    end in
  String.string_of_list_ascii (reverse (drop (reverse (String.list_ascii_of_string url)))).

(** [info] is what the server answers. *)
Definition add_server_command (now : Z) (url : string) (info : result AppError ServerInfo)
    : net (result AppError ServerEntry) :=
  let url := trim_slashes url in
  _ ← modify_state (fun n => set_servers (add_server now url (nd_servers n)) n);
  _ ← (match info with
       | Ok i => modify_state (fun n =>
           set_servers (update_server_info url (fo_name i) (fo_description i) (fo_node_id i) (nd_servers n)) n)
       | Err _ => mret tt
       end : net unit);
  n ← get_state;
  mret (ok_or (get_server (nd_servers n) url) (Other "server not found after adding")).
Definition remove_server_command (url : string) : net unit :=
  modify_state (fun n => set_servers (remove_server url (nd_servers n)) n).
Definition refresh_server_info (url : string) (info : result AppError ServerInfo)
    : net (result AppError ServerInfo) :=
  i ←? eff_lift info;
  _ ← modify_state (fun n =>
        set_servers (update_server_info url (fo_name i) (fo_description i) (fo_node_id i) (nd_servers n)) n);
  mret (Ok i).
(** ** profile.rs *)

Fixpoint sync_profile_to_servers (now : Z) (urls : list string) : net unit :=
  match urls with
  | [] => mret tt
  | url :: urls => _ ← sync_profile_to_server_inner now url; sync_profile_to_servers now urls
  end.

Definition save_my_profile (now : Z) (display_name bio : string) (avatar_hash avatar_ticket : option string)
    (visibility : string) : net (result AppError unit) :=
  n ← get_state;
  new_visibility ←? eff_lift (text_error (visibility_from_str visibility));
  let profile := {| pr_display_name := display_name; pr_bio := bio; pr_avatar_hash := avatar_hash;
                    pr_avatar_ticket := avatar_ticket; pr_visibility := new_visibility;
                    pr_signature := "" |} in
  _ ←? eff_lift (text_error (validate_profile profile));
  let profile := sign_profile profile (signing_key n) in
  let old_visibility := get_visibility (nd_db n) (my_id n) in
  _ ←? (if decide (old_visibility = new_visibility) then mret (Ok tt)
        else handle_visibility_change old_visibility new_visibility profile);
  _ ← modify_db (save_profile (my_id n) profile);
  _ ←? broadcast_profile profile;
  n ← get_state;
  _ ← sync_profile_to_servers now
        (se_url <$> filter (fun s => is_Some (se_registered_at s)) (get_servers (nd_servers n)));
  mret (Ok tt).

(** ** social.rs *)

(** One hour. *)
Definition CACHE_MAX_AGE_MS : Z := 60 * 60 * 1000.
Definition cache_is_fresh (now : Z) (fetched_at : option Z) : bool :=
  match fetched_at with Some t => saturating_sub now t <? CACHE_MAX_AGE_MS | None => false end.

Definition follow_user_command (now : Z) (node_id : string) (response : result AppError PeerResponse)
    : net (result AppError unit) :=
  n ← get_state;
  '(pubkey, node_ids) ←? on_db (follow_user now (peer_identity (nd_identity n)) node_id response);
  _ ←? subscribe_user pubkey node_ids;
  _ ← log_arg pubkey;
  _ ← effect (QueueSync (SyncPeer pubkey));
  mret (Ok tt).

Definition unfollow_user_command (now : Z) (pubkey : string) : net (result AppError unit) :=
  n ← get_state;
  _ ← log_arg pubkey;
  _ ← modify_db (unfollow now (my_id n) pubkey);
  _ ← unsubscribe_user pubkey;
  _ ← modify_db (fun d => (delete_posts_by_author pubkey d).1);
  _ ← log_arg pubkey;
  mret (Ok tt).

(** A list of another user, with where it comes from. *)
Record RemoteList : Type := {
  rl_entries : list SocialGraphEntry;
  rl_hidden : bool;
  rl_cached : bool;
}.
Definition cached_list (c : CachedRemoteSocial) : RemoteList :=
  {| rl_entries := entries c; rl_hidden := hidden c; rl_cached := true |}.

(** The first node that answers. *)
Fixpoint first_answer {A} (ask : string -> result AppError A) (node_ids : list string) : option A :=
  match node_ids with
  | [] => None
  | node_id :: node_ids =>
      if is_ok (pk_parse node_id) then
        match ask node_id with Ok a => Some a | Err _ => first_answer ask node_ids end
      else first_answer ask node_ids
  end.

(** [ask] is what a node answers. *)
Definition get_remote_follows (now : Z) (ask : string -> result AppError PeerResponse) (pubkey : string)
    : net (result AppError RemoteList) :=
  n ← get_state;
  let cached := default None (res_ok (get_cached_remote_follows (nd_db n) pubkey)) in
  let live :=
    match first_answer (fun id => fetch_remote_follows (ask id))
            (default [] (res_ok (get_peer_transport_node_ids (nd_db n) pubkey))) with
    | Some l =>
        _ ← modify_db (cache_remote_follows now pubkey (fl_follows l) (fl_hidden l));
        mret (Ok {| rl_entries := fl_follows l; rl_hidden := fl_hidden l; rl_cached := false |})
    | None =>
        match cached with
        | Some c => mret (Ok (cached_list c))
        | None => mret (Err (Other "peer offline and no cached data"))
        end
    end : net (result AppError RemoteList) in
  match cached with
  | Some c => if cache_is_fresh now (fetched_at c) then mret (Ok (cached_list c)) else live
  | None => live
  end.
Definition get_remote_followers (now : Z) (ask : string -> result AppError PeerResponse) (pubkey : string)
    : net (result AppError RemoteList) :=
  n ← get_state;
  let cached := default None (res_ok (get_cached_remote_followers (nd_db n) pubkey)) in
  let live :=
    match first_answer (fun id => fetch_remote_followers (ask id))
            (default [] (res_ok (get_peer_transport_node_ids (nd_db n) pubkey))) with
    | Some l =>
        _ ← modify_db (cache_remote_followers now pubkey (fw_followers l) (fw_hidden l));
        mret (Ok {| rl_entries := fw_followers l; rl_hidden := fw_hidden l; rl_cached := false |})
    | None =>
        match cached with
        | Some c => mret (Ok (cached_list c))
        | None => mret (Err (Other "peer offline and no cached data"))
        end
    end : net (result AppError RemoteList) in
  match cached with
  | Some c => if cache_is_fresh now (fetched_at c) then mret (Ok (cached_list c)) else live
  | None => live
  end.

(** ** moderation.rs *)

Definition block_user_command (now : Z) (pubkey : string) : net (result AppError unit) :=
  n ← get_state;
  _ ← (if is_following (nd_db n) (my_id n) pubkey then
         _ ← modify_db (unfollow now (my_id n) pubkey); unsubscribe_user pubkey
       else mret tt : net unit);
  _ ← modify_db (block_user now pubkey);
  mret (Ok tt).

(** ** identity.rs *)

(** The announcement of all devices under the new delegation. *)
Definition rotation_announcement (now : Z) (id' : UserIdentity) (d : Db) : LinkedDevicesAnnouncement :=
  let devices := get_linked_devices d in
  let current_version := default (Z.of_nat (length devices))
                           (get_peer_announcement_version d (ui_master_pubkey id')) in
  sign_linked_devices_announcement
    {| an_master_pubkey := ui_master_pubkey id'; an_delegation := ui_delegation id';
       an_devices := devices; an_version := add_u64 current_version 1; an_timestamp := now;
       an_signature := "" |} (sk_from_bytes (ui_signing_secret id')).

Fixpoint reregister (now : Z) (id' : UserIdentity) (servers : list ServerEntry) : net unit :=
  match servers with
  | [] => mret tt
  | s :: servers =>
      n ← get_state;
      _ ← effect (PostRegister (se_url s)
            (registration_request now n (se_url s)
               (default Public (res_ok (visibility_from_str (se_visibility s)))) None
               (sk_from_bytes (ui_signing_secret id')) (ui_delegation id')));
      _ ← library_call;
      reregister now id' servers
  end.

Definition rotate_signing_key (now : Z) : net (result AppError unit) :=
  n ← get_state;
  let '(rotation, id') := rotate_identity now (nd_identity n) in
  _ ←? broadcast_signing_key_rotation rotation;
  let announcement := rotation_announcement now id' (nd_db n) in
  _ ← modify_db (cache_peer_device_announcement now (my_id n) announcement);
  _ ←? broadcast_linked_devices announcement;
  _ ← reregister now id' (get_registered_servers (nd_servers n));
  _ ← modify_state (fun n =>
        set_files (<["signing_key_index"%string := index_text (ui_signing_key_index id')]> (nd_files n)) n);
  _ ← modify_state (set_identity id');
  mret (Ok tt).

(** ** setup.rs *)

(** The announcement of every start. *)
Definition startup_announcement (now : Z) (id : UserIdentity) : LinkedDevicesAnnouncement :=
  sign_linked_devices_announcement
    {| an_master_pubkey := ui_master_pubkey id; an_delegation := ui_delegation id;
       an_devices := [{| de_node_id := ui_transport_node_id id; de_device_name := "Primary Device";
                         de_is_primary := true; de_added_at := now |}];
       an_version := 1; an_timestamp := now; an_signature := "" |} (ui_signing_key id).

Definition broadcast_initial_state (now : Z) : net unit :=
  _ ← start_own_feed;
  n ← get_state;
  _ ← (match get_profile (nd_db n) (my_id n) with
       | Some profile => _ ← broadcast_profile profile; mret tt
       | None => mret tt
       end : net unit);
  _ ← modify_db (upsert_linked_device now (ui_transport_node_id (nd_identity n)) "Primary Device" true true now);
  _ ← broadcast_linked_devices (startup_announcement now (nd_identity n));
  mret tt.

(** The services of a freshly built network stack. *)
Definition start_node (now : Z) : net unit := _ ← start_background; broadcast_initial_state now.

(** ** The node as a system *)

(** What can happen next. *)
Inductive NodeInput : Type :=
| CreatePost (random : bytes) (content : string) (media : option (list MediaAttachment))
    (reply_to reply_to_author quote_of quote_of_author : option string)
| Repost (random : bytes) (target_post_id target_author : string)
| Unrepost (target_post_id : string)
| RemovePost (id : string)
| LikePost (random : bytes) (target_post_id target_author : string)
| UnlikePost (target_post_id : string)
| SaveProfile (display_name bio : string) (avatar_hash avatar_ticket : option string) (visibility : string)
| FollowNode (node_id : string) (response : result AppError PeerResponse)
| Unfollow (pubkey : string)
| BlockUser (pubkey : string)
| RemoteFollows (ask : string -> result AppError PeerResponse) (pubkey : string)
| RemoteFollowers (ask : string -> result AppError PeerResponse) (pubkey : string)
| RotateKey
| AddServer (url : string) (info : result AppError ServerInfo)
| RemoveServer (url : string)
| RefreshServer (url : string) (info : result AppError ServerInfo)
| RegisterAt (url visibility : string)
| UnregisterFrom (url : string)
| TopicEvent (handle : nat) (ev : FeedEvent)
| Reconnect
| HealthTick (clock : HealthClock).

Definition discard {A} (m : net A) : net unit := _ ← m; mret tt.

Definition node_op (now : Z) (x : NodeInput) : net unit :=
  match x with
  | CreatePost random content media r ra q qa => discard (create_post now random content media r ra q qa)
  | Repost random id author => discard (repost now random id author)
  | Unrepost id => discard (unrepost id)
  | RemovePost id => discard (delete_post_command id)
  | LikePost random id author => discard (like_post now random id author)
  | UnlikePost id => discard (unlike_post id)
  | SaveProfile name bio hash ticket v => discard (save_my_profile now name bio hash ticket v)
  | FollowNode node_id response => discard (follow_user_command now node_id response)
  | Unfollow pubkey => discard (unfollow_user_command now pubkey)
  | BlockUser pubkey => discard (block_user_command now pubkey)
  | RemoteFollows ask pubkey => discard (get_remote_follows now ask pubkey)
  | RemoteFollowers ask pubkey => discard (get_remote_followers now ask pubkey)
  | RotateKey => discard (rotate_signing_key now)
  | AddServer url info => discard (add_server_command now url info)
  | RemoveServer url => remove_server_command url
  | RefreshServer url info => discard (refresh_server_info url info)
  | RegisterAt url v => discard (register_with_server now url v)
  | UnregisterFrom url => discard (unregister_from_server now url)
  | TopicEvent handle ev => feed_event now handle ev
  | Reconnect => reconnect_next
  | HealthTick clock => discard (health_tick now clock)
  end.

(** A node that has not started its services. *)
Definition idle_node (d : Db) (id : UserIdentity) (servers : ServerTable) (files : DataDir)
    (outcomes : list bool) : Node :=
  {| nd_db := d; nd_identity := id; nd_servers := servers; nd_files := files;
     nd_inner := {| gi_my_sender := false; gi_own_feed_handle := None; gi_subscriptions := ∅;
                    gi_reconnect_rx := true |};
     nd_tasks := ∅; nd_reconnects := []; nd_outcomes := outcomes; nd_fresh := 0 |}.

(** The states a node can reach, with the effects on the way, newest last. *)
Inductive node_reach : Node -> list NetEffect -> Prop :=
| node_started now d id servers files outcomes :
    node_reach (start_node now (idle_node d id servers files outcomes)).1.1
      (start_node now (idle_node d id servers files outcomes)).1.2
| node_step now x n ef :
    node_reach n ef -> node_reach (node_op now x n).1.1 (ef ++ (node_op now x n).1.2).
End commands.
