(* ===== verification/ServiceSafety.v ===== *)
(** * The gossip service: its tasks

    In every state a node can reach, the live listeners are those of the
    subscriptions, one for each followed user, and the own feed has at most one
    task. *)

From S2P Require Import Prelude Text Types Ratchet Signing Validation Store Social Moderation Posts Interactions Notifications Peers Handler Ingest Gossip Noise Dm FollowRequests Peer Link Identity Servers Effects Service Commands.

Local Open Scope Z_scope.

Section tasks.
Context `{RatchetPrims, Ed25519, !KeyConv, HexCodec, JsonCodec, Sha, SqlOrder,
  !Serde (list MediaAttachment), !Serde SigningKeyDelegation, !Serde (list string),
  !Serde LinkedDevicesAnnouncement}.

(** The part of a node that the tasks concern. *)
Record tasks_ok (n : Node) : Prop := {
  tk_live : forall t task, nd_tasks n !! t = Some task ->
    match task with
    | Listener pk _ => gi_subscriptions (nd_inner n) !! pk = Some t
    | OwnFeed _ => gi_own_feed_handle (nd_inner n) = Some t
    end;
  tk_fresh : forall t, is_Some (nd_tasks n !! t) -> (t < nd_fresh n)%nat;
  tk_handles : (forall pk t, gi_subscriptions (nd_inner n) !! pk = Some t -> (t < nd_fresh n)%nat) /\
    (forall t, gi_own_feed_handle (nd_inner n) = Some t -> (t < nd_fresh n)%nat);
  tk_named : forall pk t, gi_subscriptions (nd_inner n) !! pk = Some t -> is_Some (short_id pk);
  tk_sender : gi_my_sender (nd_inner n) = bool_decide (is_Some (gi_own_feed_handle (nd_inner n)));
}.

(** Whatever leaves these fields alone keeps it. *)
Lemma tasks_ok_same n n' :
  nd_inner n' = nd_inner n -> nd_tasks n' = nd_tasks n -> nd_fresh n' = nd_fresh n ->
  tasks_ok n -> tasks_ok n'.
Proof. intros Ei Et Ef [A B C N D]. split; rewrite ?Ei, ?Et, ?Ef; done. Qed.

Lemma tasks_ok_ended t n : tasks_ok n -> tasks_ok (set_tasks (delete t (nd_tasks n)) n).
Proof.
  intros [A B C N D]. split; cbn; try done.
  - intros u task [_ Hu]%lookup_delete_Some. by apply A.
  - intros u [task [_ Hu]%lookup_delete_Some]. by apply B.
Qed.

Local Abbreviation keeps_tasks := (preserves (E := NetEffect) tasks_ok).

Lemma tasks_modify_db f : keeps_tasks (modify_db f).
Proof. apply preserves_modify. intros n. by apply tasks_ok_same. Qed.
Lemma tasks_on_db {A} (m : handler A) : keeps_tasks (on_db m).
Proof. intros n Hn. unfold on_db. destruct (m (nd_db n)) as [[[??]?]|]; cbn; by apply (tasks_ok_same n). Qed.
Lemma tasks_library : keeps_tasks library_call.
Proof. intros n. by apply tasks_ok_same. Qed.
Lemma tasks_servers f : keeps_tasks (modify_state (fun n => set_servers (f n) n)).
Proof. apply preserves_modify. intros n. by apply tasks_ok_same. Qed.
Lemma tasks_reconnects f : keeps_tasks (modify_state (fun n => set_reconnects (f n) n)).
Proof. apply preserves_modify. intros n. by apply tasks_ok_same. Qed.
Lemma tasks_files f : keeps_tasks (modify_state (fun n => set_files (f n) n)).
Proof. apply preserves_modify. intros n. by apply tasks_ok_same. Qed.
Lemma tasks_identity id : keeps_tasks (modify_state (set_identity id)).
Proof. apply preserves_modify. intros n. by apply tasks_ok_same. Qed.
Lemma tasks_end t : keeps_tasks (end_task t).
Proof. apply preserves_modify. intros n. by apply tasks_ok_ended. Qed.
#[local] Hint Resolve tasks_modify_db tasks_on_db tasks_library tasks_servers tasks_reconnects tasks_files
  tasks_identity tasks_end : preserves.

(** ** Broadcasts *)

Lemma tasks_broadcast_msg m : keeps_tasks (broadcast_msg m).
Proof. unfold broadcast_msg. solve_preserves. Qed.
Lemma tasks_attempt_push m : keeps_tasks (attempt_push m).
Proof. unfold attempt_push. solve_preserves. Qed.
#[local] Hint Resolve tasks_broadcast_msg tasks_attempt_push : preserves.
Lemma tasks_broadcast_only m : keeps_tasks (broadcast_only m).
Proof. unfold broadcast_only. solve_preserves. Qed.
Lemma tasks_broadcast_or_push m p : keeps_tasks (broadcast_or_push m p).
Proof. unfold broadcast_or_push. solve_preserves. Qed.
#[local] Hint Resolve tasks_broadcast_only tasks_broadcast_or_push : preserves.
Lemma tasks_broadcast_profile p : keeps_tasks (broadcast_profile p).
Proof. unfold broadcast_profile. solve_preserves. Qed.
Lemma tasks_broadcast_post p : keeps_tasks (broadcast_post p).
Proof. unfold broadcast_post. solve_preserves. Qed.
Lemma tasks_broadcast_interaction i : keeps_tasks (broadcast_interaction i).
Proof. unfold broadcast_interaction. solve_preserves. Qed.
#[local] Hint Resolve tasks_broadcast_profile tasks_broadcast_post tasks_broadcast_interaction : preserves.

(** ** The own feed *)

Lemma tasks_stop : keeps_tasks stop_own_feed.
Proof.
  intros n Hn. unfold stop_own_feed. rewrite run_eff_get.
  destruct (gi_own_feed_handle (nd_inner n)) as [h|] eqn:Eh; [|done]. unfold end_task. rewrite run_eff_modify.
  destruct Hn as [A B [C1 C2] N D].
  split; cbn; [|..|done]; try done.
  - intros t task [Hne Ht]%lookup_delete_Some. specialize (A t task Ht). destruct task; [|done]. congruence.
  - intros t [task [_ Ht]%lookup_delete_Some]. by apply B.
Qed.

(** Where no own feed is running. *)
Definition feed_idle (n : Node) : Prop :=
  forall h, gi_own_feed_handle (nd_inner n) = Some h -> nd_tasks n !! h = None.

Lemma tasks_ok_own_feed me n : tasks_ok n -> feed_idle n ->
  let n' := (spawn_task (OwnFeed me) n).1.1 in
  tasks_ok (set_inner (set_sender true (Some (nd_fresh n)) (nd_inner n')) n').
Proof.
  intros [A B [C1 C2] N D] Hidle. split; cbn; [|..|done].
  - intros t task [[<- <-]|[Hne Ht]]%lookup_insert_Some; [done|]. specialize (A t task Ht).
    destruct task as [me'|]; [|done]. exfalso. specialize (Hidle t A). congruence.
  - intros t [task [[<- <-]|[Hne Ht]]%lookup_insert_Some]; [lia|]. specialize (B t (mk_is_Some _ _ Ht)). lia.
  - split; [intros pk t Ht; specialize (C1 pk t Ht); lia|]. intros t [= <-]. lia.
  - exact N.
Qed.

Lemma tasks_start_own : keeps_tasks start_own_feed_unconditional.
Proof.
  intros n Hn. unfold start_own_feed_unconditional. rewrite run_eff_get.
  set (running := match gi_own_feed_handle (nd_inner n) with Some _ => _ | None => _ end).
  assert (running = false -> feed_idle n) as Hidle.
  { intros Hr h Hh. unfold running in Hr. rewrite Hh in Hr. unfold is_finished in Hr.
    rewrite negb_involutive in Hr. apply bool_decide_eq_false_1 in Hr. by apply eq_None_not_Some. }
  destruct running; [done|]. specialize (Hidle eq_refl).
  unfold log_arg. rewrite run_eff. destruct (short_id (my_id n)); [|done].
  rewrite run_eff_try. unfold library_call. destruct (hd true (nd_outcomes n)); cbn; [|by apply (tasks_ok_same n)].
  apply (tasks_ok_own_feed (my_id n) (library_call n).1.1); [by apply (tasks_ok_same n)|exact Hidle].
Qed.
#[local] Hint Resolve tasks_stop tasks_start_own : preserves.
Lemma tasks_start_own_feed : keeps_tasks start_own_feed.
Proof. unfold start_own_feed. solve_preserves. Qed.
Lemma tasks_visibility old new p : keeps_tasks (handle_visibility_change old new p).
Proof. unfold handle_visibility_change. solve_preserves. Qed.
#[local] Hint Resolve tasks_start_own_feed tasks_visibility : preserves.

(** ** Subscriptions *)

(** Where no live task listens to [pk]. *)
Definition unheard (pk : string) (n : Node) : Prop :=
  forall t, gi_subscriptions (nd_inner n) !! pk = Some t -> nd_tasks n !! t = None.

Lemma tasks_ok_listener pk me n : tasks_ok n -> unheard pk n -> is_Some (short_id pk) ->
  let n' := (spawn_task (Listener pk me) n).1.1 in
  tasks_ok (set_inner (set_subscriptions (<[pk := nd_fresh n]> (gi_subscriptions (nd_inner n'))) (nd_inner n')) n').
Proof.
  intros [A B [C1 C2] N D] Hun Hpk. split; cbn; [|..|done].
  - intros t task [[<- <-]|[Hne Ht]]%lookup_insert_Some; [by rewrite lookup_insert_eq|]. specialize (A t task Ht).
    destruct task as [|pk' me']; [done|]. destruct (decide (pk = pk')) as [<-|]; [|by rewrite lookup_insert_ne].
    exfalso. specialize (Hun t A). congruence.
  - intros t [task [[<- <-]|[Hne Ht]]%lookup_insert_Some]; [lia|]. specialize (B t (mk_is_Some _ _ Ht)). lia.
  - split; [|intros t Ht; specialize (C2 t Ht); lia].
    intros pk' t [[<- <-]|[Hne Ht]]%lookup_insert_Some; [lia|]. specialize (C1 pk' t Ht). lia.
  - intros pk' t [[<- <-]|[Hne Ht]]%lookup_insert_Some; [done|by eapply N].
Qed.

Lemma tasks_join pk ids n : tasks_ok n -> unheard pk n -> tasks_ok (join_topic pk ids n).1.1.
Proof.
  intros Hn Hun. unfold join_topic, log_arg. rewrite run_eff. destruct (short_id pk) eqn:Es; [|done].
  destruct (filter _ ids) as [|b bs]; [done|]. rewrite run_eff_try. unfold library_call.
  destruct (hd true (nd_outcomes n)); cbn; [|by apply (tasks_ok_same n)].
  apply (tasks_ok_listener pk _ (library_call n).1.1); [by apply (tasks_ok_same n)|exact Hun|by rewrite Es].
Qed.

Lemma is_finished_None n t : is_finished n t = true -> nd_tasks n !! t = None.
Proof.
  unfold is_finished. intros Hf%negb_true_iff%bool_decide_eq_false_1. by apply eq_None_not_Some.
Qed.

(** Forgetting the handle of a task that is not live. *)
Lemma tasks_ok_forget pk t n :
  tasks_ok n -> gi_subscriptions (nd_inner n) !! pk = Some t -> nd_tasks n !! t = None ->
  tasks_ok (set_inner (set_subscriptions (delete pk (gi_subscriptions (nd_inner n))) (nd_inner n)) n).
Proof.
  intros [A B [C1 C2] N D] Hpk Ht. split; cbn; try done.
  - intros u task Hu. specialize (A u task Hu). destruct task as [|pk' me]; [done|].
    rewrite lookup_delete_ne; [done|]. intros <-. congruence.
  - split; [|done]. intros pk' u [_ Hu]%lookup_delete_Some. by eapply C1.
  - intros pk' u [_ Hu]%lookup_delete_Some. by eapply N.
Qed.

Lemma tasks_subscribe pk ids : keeps_tasks (subscribe_user pk ids).
Proof.
  intros n Hn. unfold subscribe_user. rewrite run_eff_get.
  destruct (gi_subscriptions (nd_inner n) !! pk) as [t|] eqn:Et.
  - destruct (is_finished n t) eqn:Ef.
    + apply is_finished_None in Ef. rewrite run_eff_modify. apply tasks_join; [by eapply tasks_ok_forget|].
      intros u. cbn. by rewrite lookup_delete_eq.
    + unfold log_arg. rewrite run_eff. by destruct (short_id pk).
  - apply tasks_join; [done|]. intros u Hu. congruence.
Qed.

Lemma tasks_unsubscribe pk : keeps_tasks (unsubscribe_user pk).
Proof.
  intros n Hn. unfold unsubscribe_user. rewrite run_eff_get.
  destruct (gi_subscriptions (nd_inner n) !! pk) as [t|] eqn:Et; [|done]. rewrite run_eff_modify.
  destruct (tk_named n Hn pk t Et) as [x Hx]. unfold log_arg. rewrite run_eff, Hx. cbn.
  pose proof (tasks_ok_forget pk t (set_tasks (delete t (nd_tasks n)) n)) as Hforget.
  eapply tasks_ok_same; [..|apply Hforget]; [done|done|done|by apply tasks_ok_ended|done|].
  apply lookup_delete_eq.
Qed.
#[local] Hint Resolve tasks_subscribe tasks_unsubscribe : preserves.

(** ** Background tasks *)

Lemma tasks_feed_event now t ev : keeps_tasks (feed_event now t ev).
Proof.
  intros n Hn. unfold feed_event. destruct (nd_tasks n !! t) as [task|]; [|done].
  assert (keeps_tasks (on_feed_event now t task ev)) as Hev by (unfold on_feed_event; solve_preserves).
  specialize (Hev n Hn). destruct (on_feed_event now t task ev n) as [[n' ef] [u|]]; [done|]. by apply tasks_ok_ended.
Qed.
Lemma tasks_reconnect : keeps_tasks reconnect_next.
Proof.
  unfold reconnect_next. solve_preserves.
Qed.
Lemma tasks_refresh : keeps_tasks refresh_all.
Proof. unfold refresh_all. apply tasks_reconnects. Qed.
#[local] Hint Resolve tasks_feed_event tasks_reconnect tasks_refresh : preserves.
Lemma tasks_health now c : keeps_tasks (health_tick now c).
Proof. unfold health_tick, broadcast_heartbeat. solve_preserves. Qed.
Lemma tasks_start_subscriptions pks : keeps_tasks (start_subscriptions pks).
Proof. induction pks as [|pk pks IH]; cbn; unfold start_subscription; solve_preserves. Qed.
#[local] Hint Resolve tasks_health tasks_start_subscriptions : preserves.
Lemma tasks_background : keeps_tasks start_background.
Proof.
  unfold start_background. solve_preserves. apply preserves_modify. intros n [A B C N D]. by split.
Qed.
#[local] Hint Resolve tasks_background : preserves.

(** ** Commands *)

Lemma tasks_publish now post : keeps_tasks (publish_post now post).
Proof. unfold publish_post. solve_preserves. Qed.
Lemma tasks_sync_profile now url : keeps_tasks (sync_profile_to_server_inner now url).
Proof. unfold sync_profile_to_server_inner. solve_preserves. Qed.
#[local] Hint Resolve tasks_publish tasks_sync_profile : preserves.
Lemma tasks_sync_profiles now urls : keeps_tasks (sync_profile_to_servers now urls).
Proof. induction urls as [|url urls IH]; cbn; solve_preserves. Qed.
Lemma tasks_reregister now id servers : keeps_tasks (reregister now id servers).
Proof. induction servers as [|s servers IH]; cbn; solve_preserves. Qed.
#[local] Hint Resolve tasks_sync_profiles tasks_reregister : preserves.

Lemma tasks_initial now : keeps_tasks (broadcast_initial_state now).
Proof. unfold broadcast_initial_state, broadcast_linked_devices. solve_preserves. Qed.
#[local] Hint Resolve tasks_initial : preserves.
Lemma tasks_start now : keeps_tasks (start_node now).
Proof. unfold start_node. solve_preserves. Qed.

Lemma tasks_op now x : keeps_tasks (node_op now x).
Proof.
  destruct x; cbn [node_op]; unfold discard;
    unfold create_post, repost, unrepost, delete_post_command, like_post, unlike_post, save_my_profile,
      follow_user_command, unfollow_user_command, block_user_command, get_remote_follows,
      get_remote_followers, rotate_signing_key, add_server_command, remove_server_command,
      refresh_server_info, register_with_server, unregister_from_server, broadcast_delete,
      broadcast_delete_interaction, broadcast_signing_key_rotation, broadcast_linked_devices; solve_preserves.
Qed.

Lemma idle_tasks_ok d id servers files outcomes : tasks_ok (idle_node d id servers files outcomes).
Proof.
  split; cbn.
  - intros t task Ht. by rewrite lookup_empty in Ht.
  - intros t [task Ht]. by rewrite lookup_empty in Ht.
  - split; [|done]. intros pk t Ht. by rewrite lookup_empty in Ht.
  - intros pk t Ht. by rewrite lookup_empty in Ht.
  - done.
Qed.

Lemma reach_tasks_ok n ef : node_reach n ef -> tasks_ok n.
Proof.
  induction 1 as [now d id servers files outcomes|now x n ef _ IH].
  - apply tasks_start, idle_tasks_ok.
  - by apply tasks_op.
Qed.

(** C34: In every state a node can reach, each live listener is the task of the
    subscription to its user, so that no user is listened to twice (a reconnect
    that is queued can subscribe to a user again who was unfollowed meanwhile);
    there is at most one live task of the own feed; and the node can broadcast exactly when it has a handle of that feed. *)
Theorem one_listener_per_feed (n : Node) (ef : list NetEffect) (Hreach : node_reach n ef) :
  (forall t u pk me me', nd_tasks n !! t = Some (Listener pk me) -> nd_tasks n !! u = Some (Listener pk me') -> t = u) /\
  (forall t pk me, nd_tasks n !! t = Some (Listener pk me) -> gi_subscriptions (nd_inner n) !! pk = Some t) /\
  (forall t u me me', nd_tasks n !! t = Some (OwnFeed me) -> nd_tasks n !! u = Some (OwnFeed me') -> t = u) /\
  gi_my_sender (nd_inner n) = bool_decide (is_Some (gi_own_feed_handle (nd_inner n))).
Proof.
  destruct (reach_tasks_ok n ef Hreach) as [A _ _ _ D]. split_and!; [|intros t pk me Ht; apply (A t _ Ht)| |done].
  - intros t u pk me me' Ht Hu. apply A in Ht, Hu. congruence.
  - intros t u me me' Ht Hu. apply A in Ht, Hu. congruence.
Qed.
End tasks.
