(* ===== verification/ServiceTheorems.v ===== *)
(** * Theorems on the application services

    What a command of the user interface does end to end: a post that is made is
    stored, announced or pushed, and taken by the followers that have the
    identity cached; who is pushed to; how a change of visibility takes effect
    and fails; what a rotation announces; what registering sends to a server. *)

From S2P Require Import Prelude Text Types Ratchet Signing Concrete SigningTheorems Validation Store ConcreteStore Social SocialTheorems Moderation Posts Interactions Notifications Peers Framing Handler Ingest Gossip GossipTheorems ConcreteWire Sync SyncTheorems Noise ConcreteDm Dm FollowRequests Peer PeerTheorems Link LinkTheorems Identity IdentityTheorems Servers Effects Service Commands ServiceSafety.

Local Open Scope Z_scope.

Section services.
Context `{RatchetPrims, Ed25519, !Ed25519Laws, !KeyConv, HexCodec, !HexLaws, JsonCodec, Sha, SqlOrder,
  !SqlOrderLaws, !Serde (list MediaAttachment), !Serde SigningKeyDelegation, !SerdeLaws SigningKeyDelegation,
  !Serde (list string), !SerdeLaws (list string), !Serde LinkedDevicesAnnouncement}.
Implicit Types (n : Node) (d : Db) (post : Post).

(** ** Broadcasts *)

(** The node after a call of a library. *)
Definition called (n : Node) : Node := (library_call n).1.1.

Lemma run_broadcast_msg msg n :
  broadcast_msg msg n =
    if gi_my_sender (nd_inner n) then
      if hd true (nd_outcomes n) then (called n, [Broadcast msg], Some (Ok true))
      else (called n, [], Some (Err (Other "library")))
    else (n, [], Some (Ok false)).
Proof.
  unfold broadcast_msg. rewrite run_eff_get. destruct (gi_my_sender (nd_inner n)); [|done].
  rewrite run_eff_try. unfold called, library_call. by destruct (hd true (nd_outcomes n)).
Qed.

(** What an announcement sends. *)
Definition announced (n : Node) (msg : GossipMessage) (push : PushMessage) : list NetEffect :=
  if gi_my_sender (nd_inner n) then [Broadcast msg]
  else match push_recipients n with [] => [] | l => [SpawnPush l push] end.

Lemma run_attempt_push push n :
  attempt_push push n =
    (n, match push_recipients n with [] => [] | l => [SpawnPush l push] end, Some tt).
Proof. unfold attempt_push. rewrite run_eff_get. by destruct (push_recipients n). Qed.

Lemma run_broadcast_or_push msg push n :
  broadcast_or_push msg push n =
    if gi_my_sender (nd_inner n) then
      if hd true (nd_outcomes n) then (called n, [Broadcast msg], Some (Ok tt))
      else (called n, [], Some (Err (Other "library")))
    else (n, announced n msg push, Some (Ok tt)).
Proof.
  unfold broadcast_or_push, announced. rewrite run_eff_try, run_broadcast_msg.
  destruct (gi_my_sender (nd_inner n)); [by destruct (hd true (nd_outcomes n))|].
  rewrite run_eff, run_attempt_push. cbn. by rewrite app_nil_r.
Qed.
Lemma run_broadcast_only msg n :
  broadcast_only msg n =
    if gi_my_sender (nd_inner n) then
      if hd true (nd_outcomes n) then (called n, [Broadcast msg], Some (Ok tt))
      else (called n, [], Some (Err (Other "library")))
    else (n, [], Some (Ok tt)).
Proof.
  unfold broadcast_only. rewrite run_eff_try, run_broadcast_msg.
  destruct (gi_my_sender (nd_inner n)); [by destruct (hd true (nd_outcomes n))|done].
Qed.

Lemma broadcast_or_push_ok msg push n n' ef :
  broadcast_or_push msg push n = (n', ef, Some (Ok tt)) ->
  ef = announced n msg push /\ nd_db n' = nd_db n.
Proof.
  rewrite run_broadcast_or_push. unfold announced. destruct (gi_my_sender (nd_inner n)).
  - destruct (hd true (nd_outcomes n)); [|done]. by intros [= <- <-].
  - by intros [= <- <-].
Qed.

(** ** Followers *)

Lemma get_followers_rows d me l :
  get_followers d me = Ok l ->
  forall pk, pk ∈ sg_pubkey <$> l <-> exists r, social_graph d !! (pk, me) = Some r /\ is_Some (sr_first_seen r).
Proof.
  unfold get_followers. intros Hd%decode_all_Ok pk.
  set (sel := sql_select _ _ (social_graph d)) in Hd.
  assert (sg_pubkey <$> l = (fun kr => kr.1.1) <$> sel) as ->.
  { clear -Hd. clearbody sel. induction Hd as [|[[a b] r] e ?? He _ IH]; [done|]. cbn in *. f_equal; [|exact IH].
    destruct (sr_first_seen r), (sr_last_seen r); cbn in He; try done. by injection He as <-. }
  rewrite list_elem_of_fmap. split.
  - intros [[[a b] r] [-> [Hl Hp]%elem_of_sql_select]]. cbn in *.
    apply andb_prop in Hp as [->%bool_decide_eq_true Hs%bool_decide_eq_true]. by exists r.
  - intros [r [Hl Hs]]. exists (pk, me, r). split; [done|]. apply elem_of_sql_select. split; [done|]. cbn.
    by rewrite !bool_decide_eq_true_2.
Qed.

Lemma get_follows_rows d me l :
  get_follows d me = Ok l -> forall pk, pk ∈ sg_pubkey <$> l <-> is_following d me pk = true.
Proof.
  unfold get_follows. intros Hd%decode_all_Ok pk.
  set (sel := sql_select _ _ (social_graph d)) in Hd.
  assert (sg_pubkey <$> l = (fun kr => kr.1.2) <$> sel) as ->.
  { clear -Hd. clearbody sel. induction Hd as [|[[a b] r] e ?? He _ IH]; [done|]. cbn in *. f_equal; [|exact IH].
    destruct (sr_followed_at r); cbn in He; try done. by injection He as <-. }
  unfold is_following, active_edge. rewrite list_elem_of_fmap. split.
  - intros [[[a b] r] [-> [Hl Hp]%elem_of_sql_select]]. cbn in *.
    apply andb_prop in Hp as [->%bool_decide_eq_true Hs]. by rewrite Hl.
  - destruct (social_graph d !! (me, pk)) as [r|] eqn:Hl; [|done]. intros Hs. exists (me, pk, r). split; [done|].
    apply elem_of_sql_select. split; [done|]. cbn. by rewrite bool_decide_eq_true_2, Hs.
Qed.

Lemma push_recipients_seen n pk :
  pk ∈ push_recipients n -> exists r, social_graph (nd_db n) !! (pk, my_id n) = Some r /\ is_Some (sr_first_seen r).
Proof.
  unfold push_recipients. destruct (get_followers (nd_db n) (my_id n)) as [l|e] eqn:Ef; cbn.
  - pose proof (get_followers_rows _ _ _ Ef pk) as Hr. destruct (my_visibility n).
    + by intros ?%elem_of_nil.
    + apply Hr.
    + intros (e & -> & [_ Hin]%list_elem_of_filter)%list_elem_of_fmap. apply Hr, list_elem_of_fmap. by exists e.
  - destruct (my_visibility n); by intros ?%elem_of_nil.
Qed.

(** a direct push goes to no one while the profile is public, to the followers
    that have been seen while it is listed, and to those of them that the node
    follows while it is private. *)
Theorem push_recipients_exact (n : Node) (followers follows : list SocialGraphEntry) (pk : string)
    (Hfollowers : get_followers (nd_db n) (my_id n) = Ok followers)
    (Hfollows : get_follows (nd_db n) (my_id n) = Ok follows) :
  pk ∈ push_recipients n <->
  my_visibility n <> Public /\
  (exists r, social_graph (nd_db n) !! (pk, my_id n) = Some r /\ is_Some (sr_first_seen r)) /\
  (my_visibility n = Private -> is_following (nd_db n) (my_id n) pk = true).
Proof.
  unfold push_recipients. rewrite Hfollowers, Hfollows. cbn.
  rewrite <-(get_followers_rows _ _ _ Hfollowers pk), <-(get_follows_rows _ _ _ Hfollows pk).
  destruct (my_visibility n).
  - rewrite elem_of_nil. tauto.
  - split; [by intros Hin; split_and!|by intros (_ & ? & _)].
  - rewrite !list_elem_of_fmap. split.
    + intros (e & -> & [Hf Hin]%list_elem_of_filter). split_and!; [done|by exists e|intros _].
      by apply list_elem_of_fmap in Hf.
    + intros (_ & (e & -> & Hin) & Hf). exists e. split; [done|]. apply list_elem_of_filter.
      split; [|done]. apply list_elem_of_fmap, Hf. done.
Qed.

(** ** Posts *)

Lemma run_publish_post now post n n' ef r :
  publish_post now post n = (n', ef, Some (Ok r)) ->
  r = sign_post post (signing_key n) /\ is_ok (validate_post now post) = true /\
  nd_db n' = insert_post r (nd_db n) /\
  ef = announced (set_db (insert_post r (nd_db n)) n) (NewPost r)
         {| pm_author := my_id n; pm_posts := [r]; pm_interactions := []; pm_profile := None |}.
Proof.
  unfold publish_post. rewrite run_eff_get, run_eff_try_lift.
  destruct (validate_post now post) as [[]|e]; cbn [text_error]; [|done].
  unfold modify_db. rewrite run_eff_modify. set (n1 := set_db _ n). rewrite run_eff_try.
  unfold broadcast_post. rewrite run_eff_get.
  destruct (broadcast_or_push _ _ n1) as [[n2 ef2] [[[]|e]|]] eqn:Eb; [|done|done].
  apply broadcast_or_push_ok in Eb as [-> Ed]. intros [= <- <- <-]. by rewrite app_nil_r.
Qed.

Lemma publish_sent now post n :
  gi_my_sender (nd_inner n) = true -> hd true (nd_outcomes n) = true -> is_ok (validate_post now post) = true ->
  let r := sign_post post (signing_key n) in
  publish_post now post n = (called (set_db (insert_post r (nd_db n)) n), [Broadcast (NewPost r)], Some (Ok r)).
Proof.
  intros Hs Ho Hv r. unfold publish_post. rewrite run_eff_get, run_eff_try_lift.
  destruct (validate_post now post) as [[]|e]; [|done]. cbn [text_error]. cbv zeta. fold r.
  unfold modify_db. rewrite run_eff_modify, run_eff_try. unfold broadcast_post.
  rewrite run_eff_get, run_broadcast_or_push. cbn [nd_inner nd_outcomes set_db]. by rewrite Hs, Ho.
Qed.

(** The announcement reads the social graph and the profiles only. *)
Lemma announced_insert post n msg push :
  announced (set_db (insert_post post (nd_db n)) n) msg push = announced n msg push.
Proof. done. Qed.

Lemma validate_post_signature now s post : validate_post now (set_post_signature s post) = validate_post now post.
Proof. done. Qed.

(** A follower takes a signed post from the topic of its author. *)
Lemma gossip_takes_post now pk me post k d :
  postable now pk post -> resolve_signer d pk = Some (sk_public k) -> is_hidden d pk = false ->
  is_Some (short_id pk) ->
  exists d' ev, handle_follow_message now pk me (Some (NewPost (sign_post post k))) d = Done (tt, d', ev) /\
    same_content (insert_post (sign_post post k) d) d'.
Proof.
  intros Hp Hs Hh [x Hx]. destruct (signed_post_accepted now me post k pk d Hp Hs) as (d' & ev & E & Hsame).
  unfold handle_follow_message. rewrite run_log, Hx. unfold handle_new_post. rewrite decide_False by (destruct Hp as [Ha _]; cbn; tauto).
  rewrite run_get, Hh, run_bind, E. eexists _, _. split; [reflexivity|done].
Qed.

(** A follower takes a signed post that its author pushes. *)
Lemma push_takes_post now pk me remote post k d :
  postable now pk post -> resolve_signer d pk = Some (sk_public k) -> is_hidden d pk = false ->
  resolve_peer d remote = pk -> push_allowed d me pk = true -> is_Some (short_id pk) ->
  exists d' ev,
    handle_push now me remote
      {| pm_author := pk; pm_posts := [sign_post post k]; pm_interactions := []; pm_profile := None |} d =
      Done (Ok {| pa_received_post_ids := [post_id post]; pa_received_interaction_ids := [] |}, d', ev) /\
    same_content (insert_post (sign_post post k) d) d'.
Proof.
  intros Hp Hs Hh Hr Ha [x Hx]. destruct (signed_post_accepted now me post k pk d Hp Hs) as (d' & ev & E & Hsame).
  unfold handle_push. rewrite run_get, Hr. cbn [pm_author pm_posts pm_interactions pm_profile].
  rewrite decide_False by (by intros []). rewrite Ha. cbn [negb length Nat.ltb Nat.leb MAX_PUSH_POSTS MAX_PUSH_INTERACTIONS].
  destruct Hp as [Hauthor _]. unfold take_push. cbn [pm_posts pm_interactions pm_profile].
  rewrite run_bind. cbn [push_posts]. rewrite run_get, run_bind, decide_False by (cbn; tauto). rewrite Hh, E.
  cbn -[short_id]. unfold log_short. rewrite Hx. eexists _, _. split; [reflexivity|done].
Qed.

(** A post that was valid when it was made is valid for a clock that is at most
    the drift behind. *)
Lemma validate_post_later now now' post :
  is_ok (validate_post now post) = true -> 0 <= now' < 2 ^ 64 - MAX_TIMESTAMP_DRIFT_MS ->
  post_timestamp post <= now' + MAX_TIMESTAMP_DRIFT_MS -> is_ok (validate_post now' post) = true.
Proof.
  intros Hv Hn Ht. unfold validate_post in *.
  destruct (bail_if (_ <? str_len _) _); [|discriminate Hv]. cbn in *.
  destruct (bail_if (_ <? Z.of_nat _) _); [|discriminate Hv]. cbn in *.
  unfold add_u64. rewrite Z.mod_small by (unfold MAX_TIMESTAMP_DRIFT_MS in *; lia).
  by rewrite (proj2 (Z.ltb_ge _ _)).
Qed.

(** Where a database would take the posts of a node. *)
Record takes_posts (id : UserIdentity) (d : Db) : Prop := {
  ts_key : resolve_signer d (ui_master_pubkey id) = Some (sk_public (ui_signing_key id));
  ts_visible : is_hidden d (ui_master_pubkey id) = false;
  ts_named : is_Some (short_id (ui_master_pubkey id));
}.


(** ** Followers whose list was read *)

Lemma run_remote_follows now ask pk n n' ef l :
  get_remote_follows now ask pk n = (n', ef, Some (Ok l)) -> rl_cached l = false ->
  nd_db n' = cache_remote_follows now pk (rl_entries l) (rl_hidden l) (nd_db n) /\ my_id n' = my_id n.
Proof.
  unfold get_remote_follows. rewrite run_eff_get.
  set (cached := default None _). set (live := match first_answer _ _ with Some _ => _ | None => _ end).
  intros Hrun Hlive. assert (live n = (n', ef, Some (Ok l))) as Hrun2.
  { destruct cached as [c|]; [|done]. destruct (cache_is_fresh now (fetched_at c)); [|done].
    by injection Hrun as <- <- <-. }
  clear Hrun. subst live. destruct (first_answer _ _) as [a|].
  - unfold modify_db in Hrun2. rewrite run_eff_modify in Hrun2. by injection Hrun2 as <- <- <-.
  - destruct cached as [c|]; [|done]. by injection Hrun2 as <- <- <-.
Qed.

(** Caching a list that names [me] leaves a row (remote, me) with a follow time;
    if it had one already, the row is a new one, which was never seen. *)
Lemma cache_follows_row now remote l h me d :
  me ∈ sg_pubkey <$> l ->
  exists r, social_graph (cache_remote_follows now remote l h d) !! (remote, me) = Some r /\
    is_Some (sr_followed_at r) /\
    ((exists r0, social_graph d !! (remote, me) = Some r0 /\ is_Some (sr_followed_at r0)) -> sr_first_seen r = None).
Proof.
  intros Hin. cbn [cache_remote_follows social_graph set_social_graph set_remote_social_meta].
  set (t := sql_delete _ _).
  assert ((exists r0, social_graph d !! (remote, me) = Some r0 /\ is_Some (sr_followed_at r0)) ->
    t !! (remote, me) = None) as Ht.
  { intros (r0 & Hr0 & Hf). unfold t. rewrite lookup_sql_delete, Hr0. cbn. by rewrite !bool_decide_eq_true_2. }
  assert (forall o, o = fold_upsert (fun f => (remote, sg_pubkey f))
      (fun f => followed_row (as_i64 (sg_followed_at f)) "active" 0)
      (fun f r => set_sr_followed (as_i64 (sg_followed_at f)) "active" (sr_last_changed_at r) r) l t !! (remote, me) ->
      t !! (remote, me) = None -> match o with Some r => sr_first_seen r = None | None => True end) as Hnone.
  { intros o -> Hn. apply (fold_upsert_inv _ _ _ _ _ _ (fun o => match o with
      | Some r => sr_first_seen r = None | None => True end)); [by rewrite Hn|].
    intros f [r|] _ _; cbn; auto. }
  pose proof (fold_upsert_hit (fun f => (remote, sg_pubkey f))
      (fun f => followed_row (as_i64 (sg_followed_at f)) "active" 0)
      (fun f r => set_sr_followed (as_i64 (sg_followed_at f)) "active" (sr_last_changed_at r) r) l t (remote, me)
      (fun o => exists r, o = Some r /\ is_Some (sr_followed_at r))) as Hhit.
  destruct Hhit as (r & Hr & Hf).
  - apply list_elem_of_fmap in Hin as (f & -> & Hf). apply list_elem_of_fmap. by exists f.
  - intros f [r|] _ _; eexists; split; cbn; eauto.
  - exists r. split; [exact Hr|]. split; [done|]. intros Hold. specialize (Hnone _ eq_refl (Ht Hold)).
    by rewrite Hr in Hnone.
Qed.

(** a follower whose list of follows is read from the network twice, when it
    names the user, is not pushed to any more, whatever the visibility: the row
    is replaced by one that counts as a follower but was never seen.  That the
    follower is seen again later changes nothing. *)
Theorem browsed_follower_unpushed (now1 now2 : Z) (ask1 ask2 : string -> result AppError PeerResponse)
    (pk : string) (n n1 n2 : Node) (ef1 ef2 : list NetEffect) (l1 l2 : RemoteList)
    (Hrun1 : get_remote_follows now1 ask1 pk n = (n1, ef1, Some (Ok l1)))
    (Hrun2 : get_remote_follows now2 ask2 pk n1 = (n2, ef2, Some (Ok l2)))
    (Hlive : rl_cached l1 = false /\ rl_cached l2 = false)
    (Hnamed : my_id n ∈ sg_pubkey <$> rl_entries l1 /\ my_id n ∈ sg_pubkey <$> rl_entries l2) :
  is_follower (nd_db n2) (my_id n) pk = true /\ (pk ∉ push_recipients n2) /\
  forall t, let n3 := set_db (upsert_follower (my_id n) pk t (nd_db n2)).1 n2 in
    is_follower (nd_db n3) (my_id n) pk = true /\ (pk ∉ push_recipients n3).
Proof.
  destruct Hlive as [Hl1 Hl2], Hnamed as [Hm1 Hm2].
  apply run_remote_follows in Hrun1 as [Hd1 Hid1]; [|done].
  apply run_remote_follows in Hrun2 as [Hd2 Hid2]; [|done].
  destruct (cache_follows_row now1 pk _ (rl_hidden l1) _ (nd_db n) Hm1) as (r1 & Hr1 & Hf1 & _).
  rewrite <-Hd1 in Hr1.
  destruct (cache_follows_row now2 pk _ (rl_hidden l2) _ (nd_db n1) Hm2) as (r2 & Hr2 & Hf2 & Hnone).
  rewrite <-Hd2 in Hr2. specialize (Hnone (ex_intro _ r1 (conj Hr1 Hf1))).
  assert (my_id n2 = my_id n) as Hid by congruence. split_and!.
  - unfold is_follower. rewrite Hr2. by apply bool_decide_eq_true_2.
  - intros (r & Hr & [s Hs])%push_recipients_seen. rewrite Hid in Hr. congruence.
  - intros t n3. subst n3. unfold upsert_follower. cbn [fst nd_db set_db].
    assert (exists r3, social_graph (upsert_follower (my_id n) pk t (nd_db n2)).1 !! (pk, my_id n) = Some r3 /\
      sr_first_seen r3 = None) as (r3 & Hr3 & Hs3).
    { unfold upsert_follower. cbn [fst social_graph set_social_graph]. rewrite lookup_upsert, decide_True, Hr2 by done.
      by eexists. }
    unfold upsert_follower in Hr3. cbn [fst] in Hr3. split.
    + unfold is_follower. rewrite Hr3. by apply bool_decide_eq_true_2.
    + intros (r & Hr & [s Hs])%push_recipients_seen.
      change (my_id (set_db _ n2)) with (my_id n2) in Hr. rewrite Hid in Hr. cbn [nd_db set_db] in Hr. congruence.
Qed.

(** ** Deletions without a broadcast *)

Definition keeps_posts (d d' : Db) : Prop := posts d ⊆ posts d'.
#[export] Instance keeps_posts_refl : Reflexive keeps_posts.
Proof. intros d. unfold keeps_posts. reflexivity. Qed.
#[export] Instance keeps_posts_trans : Transitive keeps_posts.
Proof. unfold keeps_posts. intros d1 d2 d3 ??. by etransitivity. Qed.

Lemma keeps_posts_same d d' : posts d' = posts d -> keeps_posts d d'.
Proof. unfold keeps_posts. intros ->. reflexivity. Qed.

Lemma ingest_post_keeps now me post : always keeps_posts (process_incoming_post now me post).
Proof.
  intros d. destruct (ingest_post_end now me post d) as [->|(_ & Hp & _)]; [reflexivity|]. unfold keeps_posts. rewrite Hp. cbn.
  apply map_subseteq_spec. intros k r Hk. rewrite lookup_insert_or_ignore. case_decide as Hk'; [|done].
  by rewrite Hk', Hk.
Qed.

Lemma ingest_interaction_keeps now me i pk : always keeps_posts (process_incoming_interaction now me i pk).
Proof.
  unfold process_incoming_interaction. solve_always; apply keeps_posts_same; (done || (unfold save_interaction; by case_match)).
Qed.

Lemma sync_result_keeps now pk me r : always keeps_posts (process_sync_result now pk me r).
Proof.
  unfold process_sync_result. apply always_bind; [apply _| |].
  { apply always_count_each; try apply _. intros. by apply ingest_post_keeps. }
  intros stored. apply always_bind; [apply _| |intros _].
  { case_match; [|apply always_ret, _]. apply always_modify. intros d. by apply keeps_posts_same. }
  apply always_bind; [apply _| |intros _; apply always_ret, _].
  apply always_count_each; try apply _. intros i Hi.
  apply always_bind; [apply _|by apply ingest_interaction_keeps|]. intros _. apply always_ret, _.
Qed.

(** without a sender (a listed or a private profile) the deletion of an own
    post is done locally and reported as done, but nothing leaves the node:
    no broadcast and no push.  A follower keeps the post through every later
    synchronisation, whatever it brings. *)
Theorem deletion_unsent (id : string) (post : Post) (n : Node)
    (Hquiet : gi_my_sender (nd_inner n) = false)
    (Hpost : get_post_by_id (nd_db n) id = Ok (Some post)) (Hown : post_author post = my_id n) :
  exists n', delete_post_command id n = (n', [], Some (Ok tt)) /\
    (forall author, posts (nd_db n') !! (author, id) = None) /\
    forall now me r d row, posts d !! (my_id n, id) = Some row ->
      posts (end_db (process_sync_result now (my_id n) me r d)) !! (my_id n, id) = Some row.
Proof.
  unfold delete_post_command, modify_db, broadcast_delete. rewrite run_eff_get, run_eff_try_lift, Hpost.
  rewrite decide_True by done. rewrite run_eff_modify, run_broadcast_only. cbn [nd_inner set_db]. rewrite Hquiet.
  eexists. split; [reflexivity|]. split.
  - intros author. cbn. rewrite lookup_sql_delete.
    destruct (posts (nd_db n) !! (author, id)); cbn; by rewrite ?bool_decide_eq_true_2.
  - intros now me r d row Hrow. apply (lookup_weaken _ _ _ _ Hrow), sync_result_keeps.
Qed.

(** ** Rotations *)

Definition is_registration (e : NetEffect) : Prop := match e with PostRegister _ _ => True | _ => False end.

Lemma run_reregister now id' servers n :
  exists n' ef, reregister now id' servers n = (n', ef, Some tt) /\ Forall is_registration ef /\
    nd_db n' = nd_db n /\ nd_inner n' = nd_inner n /\ nd_identity n' = nd_identity n /\ nd_files n' = nd_files n.
Proof.
  revert n. induction servers as [|s servers IH]; intros n; cbn [reregister]; [by eexists _, _|].
  rewrite run_eff_get, run_eff_effect, run_eff. unfold library_call.
  match goal with |- context [reregister now id' servers ?m] => destruct (IH m) as (n' & ef & -> & Hf & ? & ? & ? & ?) end.
  eexists _, _. split; [reflexivity|]. split; [by repeat constructor|done].
Qed.

Lemma broadcast_only_ok msg n n' ef :
  broadcast_only msg n = (n', ef, Some (Ok tt)) ->
  ef = (if gi_my_sender (nd_inner n) then [Broadcast msg] else []) /\ (n' = n \/ n' = called n).
Proof.
  rewrite run_broadcast_only. destruct (gi_my_sender (nd_inner n)).
  - destruct (hd true (nd_outcomes n)); [|done]. intros [= <- <-]. by split; [|right].
  - intros [= <- <-]. by split; [|left].
Qed.

Lemma run_rotate now n n' ef :
  rotate_signing_key now n = (n', ef, Some (Ok tt)) ->
  let '(rotation, id') := rotate_identity now (nd_identity n) in
  exists reg, Forall is_registration reg /\
    ef = (if gi_my_sender (nd_inner n) then
            [Broadcast (RotateSigningKey rotation); Broadcast (LinkedDevices (rotation_announcement now id' (nd_db n)))]
          else []) ++ reg /\
    nd_identity n' = id' /\ nd_inner n' = nd_inner n /\
    nd_files n' = <["signing_key_index"%string := index_text (ui_signing_key_index id')]> (nd_files n) /\
    nd_db n' = cache_peer_device_announcement now (my_id n) (rotation_announcement now id' (nd_db n)) (nd_db n).
Proof.
  unfold rotate_signing_key, modify_db. rewrite run_eff_get.
  destruct (rotate_identity now (nd_identity n)) as [rotation id'].
  intros (n1 & ef1 & [] & ef2 & [-> Hn1]%broadcast_only_ok & Hrun & ->)%eff_try_inv.
  rewrite run_eff_modify in Hrun. set (n2 := set_db _ n1) in Hrun.
  apply eff_try_inv in Hrun as (n3 & ef3 & [] & ef4 & [-> Hn3]%broadcast_only_ok & Hrun & ->).
  rewrite run_eff in Hrun.
  destruct (run_reregister now id' (get_registered_servers (nd_servers n)) n3)
    as (n4 & reg & Ereg & Hreg & D4 & I4 & _ & F4). rewrite Ereg, !run_eff_modify in Hrun.
  injection Hrun as <- <-. exists reg. cbn. rewrite D4, I4, F4, app_nil_r, app_assoc.
  destruct Hn1 as [-> | ->], Hn3 as [-> | ->]; cbn; by destruct (gi_my_sender (nd_inner n)).
Qed.

(** a node that cannot broadcast rotates its key in silence: the command
    succeeds, the new identity is consistent and its index is on disk, but apart
    from registrations with servers nothing is sent, neither a broadcast nor a
    push.  A follower rejects every post made from then on, from a push as from
    anywhere, as long as the key it has cached does not verify it. *)
Theorem rotation_unannounced (now : Z) (n n' : Node) (ef : list NetEffect)
    (Hok : identity_ok (nd_identity n)) (Hquiet : gi_my_sender (nd_inner n) = false)
    (Hrun : rotate_signing_key now n = (n', ef, Some (Ok tt))) :
  identity_ok (nd_identity n') /\ my_id n' = my_id n /\
  load_signing_key_index (nd_files n') = ui_signing_key_index (nd_identity n') /\
  Forall is_registration ef /\
  forall now' me post d, takes_posts (nd_identity n) d -> postable now' (my_id n) post ->
    pk_verify (sk_public (ui_signing_key (nd_identity n))) (post_signing_bytes post)
      (sk_sign (signing_key n') (post_signing_bytes post)) = false ->
    process_incoming_post now' me (sign_post post (signing_key n')) d = Done (false, d, []).
Proof.
  apply run_rotate in Hrun. pose proof (rotate_ok now _ Hok) as Hok'.
  assert (ui_master_pubkey (rotate_identity now (nd_identity n)).2 = my_id n) as Hid by done.
  assert (is_u32 (ui_signing_key_index (rotate_identity now (nd_identity n)).2)) as Hu by apply add_u32_range.
  destruct (rotate_identity now (nd_identity n)) as [rotation id']. cbn in Hok', Hid, Hu.
  destruct Hrun as (reg & Hreg & -> & Hi & Hin & Hf & _). rewrite Hquiet. cbn [app].
  unfold my_id at 1. rewrite Hi, Hf. split_and!; try done.
  - by apply load_index_text.
  - intros now' me post d Htakes Hp Hv. eapply signed_post_rejected; [done|apply Htakes|done].
Qed.

(** ** Visibility *)

(** What [sync_profile_to_servers] and the calls of libraries leave alone. *)
Definition same_node (n n' : Node) : Prop :=
  nd_db n' = nd_db n /\ nd_inner n' = nd_inner n /\ nd_identity n' = nd_identity n /\ nd_tasks n' = nd_tasks n.

Lemma sync_profiles_same now urls n0 : preserves (E := NetEffect) (same_node n0) (sync_profile_to_servers now urls).
Proof.
  assert (preserves (E := NetEffect) (same_node n0) library_call) as Hlib by by intros n.
  induction urls as [|url urls IH]; cbn; unfold sync_profile_to_server_inner; solve_preserves; done.
Qed.

Lemma broadcast_profile_ok profile n n' ef :
  broadcast_profile profile n = (n', ef, Some (Ok tt)) -> same_node n n'.
Proof.
  unfold broadcast_profile. rewrite run_eff_get, run_broadcast_or_push.
  destruct (gi_my_sender (nd_inner n)); [destruct (hd true (nd_outcomes n)); [|done]|]; by intros [= <- _].
Qed.

Lemma stop_own_feed_ok n n' ef u :
  stop_own_feed n = (n', ef, Some u) ->
  nd_db n' = nd_db n /\ nd_identity n' = nd_identity n /\
  (tasks_ok n -> gi_my_sender (nd_inner n') = false).
Proof.
  unfold stop_own_feed. rewrite run_eff_get. destruct (gi_own_feed_handle (nd_inner n)) as [h|] eqn:Eh.
  - unfold end_task. rewrite run_eff_modify. intros [= <- _]. by split_and!.
  - intros [= <- _]. split_and!; [done..|]. intros Hn. by rewrite (tk_sender n Hn), Eh.
Qed.

Lemma start_own_feed_ok n n' ef :
  start_own_feed_unconditional n = (n', ef, Some (Ok tt)) ->
  nd_db n' = nd_db n /\ nd_identity n' = nd_identity n /\
  (tasks_ok n -> gi_my_sender (nd_inner n') = true).
Proof.
  unfold start_own_feed_unconditional. rewrite run_eff_get.
  set (running := match gi_own_feed_handle (nd_inner n) with Some _ => _ | None => _ end).
  assert (running = true -> tasks_ok n -> gi_my_sender (nd_inner n) = true) as Hr.
  { intros Hr Hn. rewrite (tk_sender n Hn). unfold running in Hr.
    destruct (gi_own_feed_handle (nd_inner n)); [|done]. by apply bool_decide_eq_true_2. }
  destruct running.
  - intros [= <- _]. split_and!; [done..|]. by apply Hr.
  - unfold log_arg. rewrite run_eff. destruct (short_id (my_id n)); [|done]. rewrite run_eff_try.
    unfold library_call. destruct (hd true (nd_outcomes n)); [|done]. cbn. by intros [= <- _].
Qed.

(** The own feed is opened by a change to public and closed by a change from
    public; any other saving leaves it, open or not. *)
Definition feed_after (old new : Visibility) (open : bool) : bool :=
  if Bool.eqb (bool_decide (old = Public)) (bool_decide (new = Public)) then open
  else bool_decide (new = Public).

Lemma visibility_change_ok old new profile n n' ef :
  (if decide (old = new) then mret (Ok tt) else handle_visibility_change old new profile) n =
    (n', ef, Some (Ok tt)) ->
  nd_db n' = nd_db n /\ nd_identity n' = nd_identity n /\
  (tasks_ok n -> gi_my_sender (nd_inner n') = feed_after old new (gi_my_sender (nd_inner n))).
Proof.
  destruct (decide (old = new)) as [->|Hne].
  { intros [= <- _]. split_and!; [done..|]. unfold feed_after. by rewrite Bool.eqb_reflx. } unfold handle_visibility_change.
  rewrite decide_False by done. intros Hrun.
  assert (forall n1 ef1, broadcast_profile profile n = (n1, ef1, Some (Ok tt)) -> tasks_ok n -> tasks_ok n1) as Hb.
  { intros n1 ef1 E Hn. pose proof (tasks_broadcast_profile profile n Hn) as Hp. by rewrite E in Hp. }
  assert (forall m : eff Node NetEffect (result AppError unit),
    (m = _ ←? broadcast_profile profile; _ ← stop_own_feed; mret (Ok tt))%eff -> m n = (n', ef, Some (Ok tt)) ->
    nd_db n' = nd_db n /\ nd_identity n' = nd_identity n /\ (tasks_ok n -> gi_my_sender (nd_inner n') = false)) as Hstop.
  { intros m -> (n1 & ef1 & [] & ef2 & E1 & E2 & _)%eff_try_inv.
    apply eff_bind_inv in E2 as (n2 & ef3 & u & ef4 & E2 & [= <- _] & _).
    apply stop_own_feed_ok in E2 as (D2 & I2 & S2). pose proof (Hb _ _ E1) as Ht.
    apply broadcast_profile_ok in E1 as (D1 & I1 & J1 & _). split_and!; [congruence..|auto]. }
  assert (forall m : eff Node NetEffect (result AppError unit),
    (m = _ ←? start_own_feed_unconditional; broadcast_profile profile)%eff -> m n = (n', ef, Some (Ok tt)) ->
    nd_db n' = nd_db n /\ nd_identity n' = nd_identity n /\ (tasks_ok n -> gi_my_sender (nd_inner n') = true)) as Hstart.
  { intros m -> (n1 & ef1 & [] & ef2 & E1 & E2 & _)%eff_try_inv.
    apply start_own_feed_ok in E1 as (D1 & I1 & S1). apply broadcast_profile_ok in E2 as (D2 & J2 & I2 & _).
    rewrite J2. split_and!; [congruence..|done]. }
  destruct old, new; try done.
  all: first [apply Hstop in Hrun as (D & I & S); [|reflexivity]|apply Hstart in Hrun as (D & I & S); [|reflexivity]
             |injection Hrun as <- _; split_and!; try done].
  all: split_and!; [done..|]; intros Hn; by rewrite S by done.
Qed.

Lemma saved_visibility id p d : get_visibility (save_profile id p d) id = pr_visibility p.
Proof.
  unfold get_visibility. cbn. rewrite lookup_insert_eq. cbn. by rewrite visibility_from_to_string.
Qed.
Lemma saved_profile id p d : get_profile (save_profile id p d) id = Some p.
Proof.
  unfold get_profile. cbn. rewrite lookup_insert_eq. cbn. rewrite visibility_from_to_string. cbn. by destruct p.
Qed.

(** C35: a profile that is saved without an error takes effect: it is stored,
    signed with the current key, under the visibility that was asked for; the own
    feed is opened if the profile becomes public, closed if it ceases to be, and
    left otherwise, so that a node that could broadcast exactly when its profile
    was public still does, for the new visibility.  (A feed that is open though
    the profile is not public, as [visibility_leak] leaves it, stays open until
    the profile has been public.) *)
Theorem visibility_applied (now : Z) (name bio : string) (hash ticket : option string) (v : string)
    (n n' : Node) (ef : list NetEffect)
    (Htasks : tasks_ok n)
    (Hrun : save_my_profile now name bio hash ticket v n = (n', ef, Some (Ok tt))) :
  exists new profile, visibility_from_str v = Ok new /\ my_visibility n' = new /\ my_id n' = my_id n /\
    get_profile (nd_db n') (my_id n) = Some profile /\ pr_display_name profile = name /\ pr_bio profile = bio /\
    verify_profile_signature profile (sk_public (signing_key n)) = Ok tt /\
    gi_my_sender (nd_inner n') = feed_after (my_visibility n) new (gi_my_sender (nd_inner n)) /\
    (gi_my_sender (nd_inner n) = bool_decide (my_visibility n = Public) ->
     gi_my_sender (nd_inner n') = bool_decide (my_visibility n' = Public)).
Proof.
  unfold save_my_profile in Hrun. rewrite run_eff_get, run_eff_try_lift in Hrun.
  destruct (visibility_from_str v) as [new|]; [|done]. cbn [text_error] in Hrun. cbv zeta in Hrun.
  rewrite run_eff_try_lift in Hrun. destruct (validate_profile _) as [[]|]; [|done]. cbn [text_error] in Hrun.
  set (profile := sign_profile _ _) in Hrun.
  apply eff_try_inv in Hrun as (n1 & ef1 & [] & ef2 & (D1 & I1 & S1)%visibility_change_ok & Hrun & _).
  unfold modify_db in Hrun. rewrite run_eff_modify in Hrun. set (n2 := set_db _ n1) in Hrun.
  apply eff_try_inv in Hrun as (n3 & ef3 & [] & ef4 & (D3 & J3 & I3 & _)%broadcast_profile_ok & Hrun & _).
  rewrite run_eff_get in Hrun. apply eff_bind_inv in Hrun as (n4 & ef5 & u & ef6 & E4 & [= <- _] & _).
  match type of E4 with sync_profile_to_servers _ ?urls _ = _ =>
    pose proof (sync_profiles_same now urls n3 n3) as Hs end.
  rewrite E4 in Hs. cbn in Hs. destruct Hs as (D4 & J4 & I4 & _); [done|].
  assert (my_id n4 = my_id n) as Hid by (unfold my_id; rewrite I4, I3; cbn; by rewrite I1).
  assert (nd_db n4 = save_profile (my_id n) profile (nd_db n1)) as Hdb by (rewrite D4, D3; done).
  assert (my_visibility n4 = new) as Hvis.
  { unfold my_visibility. rewrite Hid, Hdb. apply (saved_visibility (my_id n) profile). }
  assert (gi_my_sender (nd_inner n4) = feed_after (my_visibility n) new (gi_my_sender (nd_inner n))) as Hfeed by
    (rewrite J4, J3; by apply S1).
  exists new, profile. split_and!; try done.
  - rewrite Hdb. apply saved_profile.
  - unfold profile, verify_profile_signature, sign_profile. cbn. rewrite hex_to_signature_to_hex. cbn.
    apply verify_or_sign.
  - rewrite Hfeed, Hvis. intros ->. unfold feed_after. by destruct (my_visibility n), new.
Qed.

(** going public can fail half way: when the announcement of the profile
    fails after the own feed has started, the command reports an error and the
    stored profile stays as it was, listed, but the feed stays open: the next
    post goes to the public topic instead of to the followers. *)
Theorem visibility_leak (now now' : Z) (name bio : string) (hash ticket : option string)
    (random : bytes) (content : string) (n : Node) (outcomes : list bool) (post : Post)
    (Hlisted : my_visibility n = Listed) (Hidle : gi_own_feed_handle (nd_inner n) = None)
    (Hquiet : gi_my_sender (nd_inner n) = false) (Hnamed : is_Some (short_id (my_id n)))
    (Hvalid : forall s, validate_profile {| pr_display_name := name; pr_bio := bio; pr_avatar_hash := hash;
       pr_avatar_ticket := ticket; pr_visibility := Public; pr_signature := s |} = Ok tt)
    (Houtcomes : nd_outcomes n = true :: false :: outcomes) (Hnext : hd true outcomes = true)
    (Hpost : post = sign_post {| post_id := generate_id random; post_author := my_id n; post_content := content;
       post_timestamp := now'; post_media := []; post_reply_to := None; post_reply_to_author := None;
       post_quote_of := None; post_quote_of_author := None; post_signature := "" |} (signing_key n))
    (Hpostable : is_ok (validate_post now' post) = true) :
  exists n' n'', save_my_profile now name bio hash ticket "public" n =
      (n', [Subscribe (my_id n) []], Some (Err (Other "library"))) /\
    nd_db n' = nd_db n /\ my_visibility n' = Listed /\ gi_my_sender (nd_inner n') = true /\
    create_post now' random content None None None None None n' = (n'', [Broadcast (NewPost post)], Some (Ok post)).
Proof.
  unfold save_my_profile. rewrite run_eff_get, run_eff_try_lift.
  assert (visibility_from_str "public" = Ok Public) as -> by reflexivity. cbn [text_error]. cbv zeta. rewrite run_eff_try_lift, Hvalid. cbn [text_error].
  change (get_visibility (nd_db n) (my_id n)) with (my_visibility n). rewrite Hlisted.
  rewrite decide_False by done. unfold handle_visibility_change. rewrite decide_False by done.
  unfold start_own_feed_unconditional. rewrite !run_eff_try, run_eff_get, Hidle, run_eff_log by done.
  rewrite run_eff_try. unfold library_call at 1. rewrite Houtcomes. cbn [hd].
  rewrite run_eff_effect. unfold spawn_task at 1. rewrite run_eff, run_eff_modify. cbn [mret eff_ret].
  unfold broadcast_profile. rewrite run_eff_get, run_broadcast_or_push. cbn.
  set (n' := {| nd_db := nd_db n; nd_identity := nd_identity n |}). exists n', (called (set_db (insert_post post (nd_db n)) n')).
  split; [reflexivity|]. split; [done|]. split; [done|]. split; [done|].
  unfold create_post. rewrite run_eff_get. rewrite Hpost in Hpostable |- *.
  set (p := {| post_id := generate_id random |}) in Hpostable |- *. by apply (publish_sent now' p n').
Qed.

(** following checks too late that the node is another one: a node that
    answers with the identity of the user and some profile of its own making
    has that profile stored as the user's before the command refuses.  If it
    says public, everyone can synchronise what was private. *)
Theorem own_profile_overwritten (now : Z) (node_id : string) (forged : IdentityResponse) (p : Profile) (n : Node)
    (Hnode : node_id <> ui_transport_node_id (nd_identity n))
    (Hforged : ir_master_pubkey forged = my_id n /\ ir_profile forged = Some p)
    (Hpublic : pr_visibility p = Public)
    (Hlog : is_Some (short_id node_id) /\ is_Some (short_id (my_id n))) :
  exists n', follow_user_command now node_id (Ok (RespIdentity forged)) n =
      (n', [], Some (Err (Other "cannot follow yourself"))) /\
    get_profile (nd_db n') (my_id n) = Some p /\ my_visibility n' = Public /\
    forall remote, sync_access (nd_db n') (my_id n') remote = Ok tt.
Proof.
  destruct Hforged as [Hid Hp], Hlog as [[x Hx] [y Hy]].
  unfold follow_user_command. rewrite run_eff_get, run_eff_try. unfold on_db, follow_user.
  rewrite decide_False by done. rewrite run_log, Hx. cbn [query_identity mbind result_bind].
  rewrite Hid, Hp, !run_log, Hx, Hy, !run_modify. rewrite decide_True by done. rewrite run_lift.
  set (n1 := set_db (save_profile (my_id n) p (cache_peer_identity now forged (nd_db n))) n).
  assert (get_visibility (nd_db n1) (my_id n1) = Public) as Hv.
  { rewrite <-Hpublic. apply (saved_visibility (my_id n) p). }
  exists n1. split; [reflexivity|]. split; [apply (saved_profile (my_id n) p)|]. split; [exact Hv|].
  intros remote. unfold sync_access. by rewrite Hv.
Qed.
End services.

(** ** Identifiers *)

Lemma from_be_app l1 l2 : from_be (l1 ++ l2) = from_be l1 * 256 ^ Z.of_nat (length l2) + from_be l2.
Proof. unfold from_be at 1. rewrite fold_left_app. apply from_be_acc. Qed.
Lemma from_be_last l b : from_be (l ++ [b]) = from_be l * 256 + b.
Proof. by rewrite from_be_app. Qed.
Lemma from_be_range l : Forall is_u8 l -> 0 <= from_be l < 256 ^ Z.of_nat (length l).
Proof.
  induction l as [|b l IH] using rev_ind; [done|]. intros [Hl [Hb _]%Forall_cons]%Forall_app.
  specialize (IH Hl). unfold is_u8 in Hb. change (2 ^ 8) with 256 in Hb.
  rewrite from_be_last, length_app, Nat2Z.inj_add, Z.pow_add_r by lia. change (256 ^ Z.of_nat (length [b])) with 256. lia.
Qed.
Lemma from_be_inj l1 l2 :
  Forall is_u8 l1 -> Forall is_u8 l2 -> length l1 = length l2 -> from_be l1 = from_be l2 -> l1 = l2.
Proof.
  revert l2. induction l1 as [|a l1 IH] using rev_ind; intros l2; [by destruct l2|].
  destruct l2 as [|b l2 _] using rev_ind; [rewrite length_app; cbn; lia|].
  rewrite !length_app. cbn. intros [Ha1 [Ha _]%Forall_cons]%Forall_app [Hb1 [Hb _]%Forall_cons]%Forall_app Hlen.
  unfold is_u8 in Ha, Hb. rewrite !from_be_last. intros He.
  assert (a = b) as -> by lia. f_equal. apply IH; [done|done|lia|lia].
Qed.

Lemma length_lower_hex n x : String.length (lower_hex n x) = n.
Proof. induction n; cbn; congruence. Qed.

Lemma hex_digit_inj d e : 0 <= d < 16 -> 0 <= e < 16 -> Commands.hex_digit d = Commands.hex_digit e -> d = e.
Proof.
  unfold Commands.hex_digit. intros Hd He Heq%(f_equal Ascii.N_of_ascii).
  rewrite !Ascii.N_ascii_embedding in Heq by (destruct (Z.ltb_spec d 10), (Z.ltb_spec e 10); lia).
  destruct (Z.ltb_spec d 10), (Z.ltb_spec e 10); lia.
Qed.
Lemma lower_hex_inj n x y :
  0 <= x < 16 ^ Z.of_nat n -> 0 <= y < 16 ^ Z.of_nat n -> lower_hex n x = lower_hex n y -> x = y.
Proof.
  intros Hx Hy Heq.
  assert (x mod 16 ^ Z.of_nat n = y mod 16 ^ Z.of_nat n) as Hm; [|by rewrite !Z.mod_small in Hm].
  clear Hx Hy. induction n as [|n IH]; [by rewrite !Z.mod_1_r|].
  cbn [lower_hex] in Heq. injection Heq as Hd Hr. specialize (IH Hr).
  apply hex_digit_inj in Hd; [|by apply Z.mod_pos_bound..].
  rewrite Nat2Z.inj_succ, Z.pow_succ_r, (Z.mul_comm 16), !Z.rem_mul_r by lia. lia.
Qed.

Lemma string_app_length (a b : string) : String.length (a +:+ b) = (String.length a + String.length b)%nat.
Proof. induction a as [|x a IH]; [done|]. exact (f_equal S IH). Qed.
Lemma app_inj_length (a b c d : string) :
  String.length a = String.length c -> a +:+ b = c +:+ d -> a = c /\ b = d.
Proof.
  revert c. induction a as [|x a IH]; intros [|y c]; cbn; try done. intros [= Hl] [= -> He].
  destruct (IH c Hl He) as [-> ->]. done.
Qed.

(** an identifier has 32 characters, and two identifiers are equal only when
    the 16 random bytes they were made from are. *)
Theorem generate_id_unique (r1 r2 : bytes)
    (Hu8 : Forall is_u8 r1 /\ Forall is_u8 r2) (Hlen : length r1 = 16%nat /\ length r2 = 16%nat) :
  String.length (generate_id r1) = 32%nat /\ (generate_id r1 = generate_id r2 -> r1 = r2).
Proof.
  destruct Hu8 as [H1 H2], Hlen as [L1 L2]. split.
  { unfold generate_id. by rewrite string_app_length, !length_lower_hex. }
  unfold generate_id. intros [He1 He2]%app_inj_length; [|by rewrite !length_lower_hex].
  assert (forall l1 l2 : bytes, Forall is_u8 l1 -> Forall is_u8 l2 -> length l1 = 8%nat -> length l2 = 8%nat ->
    lower_hex 16 (from_le l1) = lower_hex 16 (from_le l2) -> l1 = l2) as Hhalf.
  { intros l1 l2 U1 U2 E1 E2 He. unfold from_le in He.
    pose proof (from_be_range (reverse l1)) as R1. pose proof (from_be_range (reverse l2)) as R2.
    rewrite length_reverse, E1 in R1. rewrite length_reverse, E2 in R2.
    apply lower_hex_inj in He; [|apply R1; by apply Forall_reverse|apply R2; by apply Forall_reverse].
    apply from_be_inj in He; [by apply (inj reverse)|by apply Forall_reverse..|by rewrite !length_reverse, E1, E2]. }
  rewrite <-(take_drop 8 r1), <-(take_drop 8 r2).
  f_equal; apply Hhalf; try done; rewrite ?length_take, ?length_drop, ?L1, ?L2; try done;
    first [by apply Forall_take|by apply Forall_drop].
Qed.

(** ** Witnesses *)

(** Dora's node, freshly started with a public profile. *)
Definition started_node : Node := (start_node 10 (idle_node empty_db dora ∅ ∅ [])).1.1.
Lemma started_reached : exists ef, node_reach started_node ef.
Proof. eexists. apply node_started. Qed.

(** Bob's identity, and the list of the users he follows: Dora. *)
Definition bob_identity : IdentityResponse :=
  {| ir_master_pubkey := "kbob"; ir_delegation := ui_delegation dora; ir_transport_node_ids := ["knode"%string];
     ir_profile := None |}.
Definition bob_follows (_ : string) : result AppError PeerResponse :=
  Ok (RespFollowsList {| fl_pubkey := "kbob"; fl_hidden := false;
    fl_follows := [{| sg_pubkey := ui_master_pubkey dora; sg_followed_at := 5; sg_first_seen := 0;
                      sg_last_seen := 0; sg_is_online := false |}] |}).

(** Dora's node with a listed profile and a follower. *)
Definition profile_of (v : Visibility) : Profile :=
  {| pr_display_name := "Dora"; pr_bio := "hi"; pr_avatar_hash := None; pr_avatar_ticket := None;
     pr_visibility := v; pr_signature := "" |}.
Definition listed_db : Db :=
  (upsert_follower (ui_master_pubkey dora) "kbob" 5
     (cache_peer_identity 1 bob_identity (save_profile (ui_master_pubkey dora) (profile_of Listed) empty_db))).1.
Definition quiet_node (outcomes : list bool) : Node := idle_node listed_db dora ∅ ∅ outcomes.

(** An operation that returned. *)
Definition returned {A} (r : Node * list NetEffect * option (result AppError A)) : bool :=
  match r.2 with Some (Ok _) => true | _ => false end.
Lemma returned_parts {A} (r : Node * list NetEffect * option (result AppError A)) :
  returned r = true -> exists n ef a, r = (n, ef, Some (Ok a)).
Proof. destruct r as [[n ef] [[a|]|]]; [|done..]. by exists n, ef, a. Qed.

Lemma one_listener_per_feed_witness :
  gi_subscriptions (nd_inner (node_op 20 (FollowNode "knode" (Ok (RespIdentity bob_identity))) started_node).1.1)
    !! "kbob"%string = Some 1%nat.
Proof.
  destruct started_reached as [ef Hr].
  pose proof (one_listener_per_feed _ _ (node_step 20 (FollowNode "knode" (Ok (RespIdentity bob_identity))) _ _ Hr)) as H.
  destruct H as (_ & H & _). apply (H 1%nat "kbob"%string (ui_master_pubkey dora)). vm_compute. reflexivity.
Defined.

Lemma push_recipients_exact_witness : "kbob"%string ∈ push_recipients (quiet_node []).
Proof.
  destruct (get_followers listed_db (ui_master_pubkey dora)) as [followers|] eqn:E1.
  2: { exfalso. vm_compute in E1. discriminate E1. }
  destruct (get_follows listed_db (ui_master_pubkey dora)) as [follows|] eqn:E2.
  2: { exfalso. vm_compute in E2. discriminate E2. }
  apply (push_recipients_exact (quiet_node []) followers follows "kbob" E1 E2). split_and!.
  - vm_compute. discriminate.
  - eexists. split; [vm_compute; reflexivity|by eexists].
  - intros Hp. exfalso. vm_compute in Hp. discriminate Hp.
Defined.


Definition live_list : RemoteList :=
  {| rl_entries := [{| sg_pubkey := ui_master_pubkey dora; sg_followed_at := 5; sg_first_seen := 0;
                       sg_last_seen := 0; sg_is_online := false |}]; rl_hidden := false; rl_cached := false |}.
Definition browsed (now : Z) (n : Node) := get_remote_follows now bob_follows "kbob" n.
Lemma result_parts {A} (r : Node * list NetEffect * option A) a : r.2 = Some a -> r = (r.1.1, r.1.2, Some a).
Proof. destruct r as [[n ef] o]. by intros [= ->]. Qed.

Lemma browsed_follower_unpushed_witness :
  exists n2, is_follower (nd_db n2) (ui_master_pubkey dora) "kbob" = true /\ ("kbob"%string ∉ push_recipients n2).
Proof.
  pose (n1 := (browsed 1000 (quiet_node [])).1.1).
  assert ((browsed 1000 (quiet_node [])).2 = Some (Ok live_list)) as E1 by (vm_compute; reflexivity).
  assert ((browsed 9000000 n1).2 = Some (Ok live_list)) as E2 by (vm_compute; reflexivity).
  pose proof (browsed_follower_unpushed 1000 9000000 bob_follows bob_follows "kbob" (quiet_node []) n1
    (browsed 9000000 n1).1.1 _ _ live_list live_list (result_parts _ _ E1) (result_parts _ _ E2)) as H.
  destruct H as (H1 & H2 & _).
  - split; reflexivity.
  - split; left.
  - exists (browsed 9000000 n1).1.1. split; [exact H1|exact H2].
Defined.

Lemma deletion_unsent_witness :
  exists n', delete_post_command "p1" (set_db (insert_post dora_post listed_db) (quiet_node [])) = (n', [], Some (Ok tt)).
Proof.
  destruct (deletion_unsent "p1" dora_post (set_db (insert_post dora_post listed_db) (quiet_node [])))
    as (n' & E & _); [reflexivity|vm_compute; reflexivity|reflexivity|].
  exists n'. exact E.
Defined.

Lemma rotation_unannounced_witness :
  exists n' ef, rotate_signing_key 50 (quiet_node []) = (n', ef, Some (Ok tt)) /\
    identity_ok (nd_identity n') /\ Forall is_registration ef.
Proof.
  assert ((rotate_signing_key 50 (quiet_node [])).2 = Some (Ok tt)) as E by (vm_compute; reflexivity).
  pose proof (rotation_unannounced 50 (quiet_node []) _ _ dora_ok eq_refl (result_parts _ _ E)) as (H1 & _ & _ & H2 & _).
  eexists _, _. split; [exact (result_parts _ _ E)|]. split; [exact H1|exact H2].
Defined.

Lemma visibility_applied_witness :
  exists n' ef, save_my_profile 20 "Dora" "hi" None None "listed" started_node = (n', ef, Some (Ok tt)) /\
    gi_my_sender (nd_inner started_node) = true /\ my_visibility n' = Listed /\ gi_my_sender (nd_inner n') = false.
Proof.
  assert ((save_my_profile 20 "Dora" "hi" None None "listed" started_node).2 = Some (Ok tt)) as E
    by (vm_compute; reflexivity).
  destruct started_reached as [ef0 Hr].
  pose proof (visibility_applied 20 "Dora" "hi" None None "listed" started_node _ _ (reach_tasks_ok _ _ Hr)
    (result_parts _ _ E)) as (new & profile & Hv & Hm & _ & _ & _ & _ & _ & _ & Hs).
  specialize (Hs ltac:(vm_compute; reflexivity)).
  assert (new = Listed) as -> by (vm_compute in Hv; congruence).
  eexists _, _. split; [exact (result_parts _ _ E)|]. split; [vm_compute; reflexivity|]. split; [exact Hm|].
  rewrite Hs, Hm. reflexivity.
Defined.

Lemma visibility_leak_witness :
  exists n' n'' post, save_my_profile 20 "Dora" "hi" None None "public" (quiet_node [true; false]) =
      (n', [Subscribe (ui_master_pubkey dora) []], Some (Err (Other "library"))) /\
    my_visibility n' = Listed /\
    create_post 30 (replicate 16 3) "for followers" None None None None None n' =
      (n'', [Broadcast (NewPost post)], Some (Ok post)).
Proof.
  edestruct (visibility_leak 20 30 "Dora" "hi" None None (replicate 16 3) "for followers" (quiet_node [true; false]) [])
    as (n' & n'' & E1 & _ & E2 & _ & E3); [vm_compute; reflexivity|reflexivity|reflexivity|exact dora_named|
    intros s; reflexivity|reflexivity|reflexivity|reflexivity|vm_compute; reflexivity|].
  exists n', n''. eexists. split; [exact E1|]. split; [exact E2|exact E3].
Defined.

Lemma own_profile_overwritten_witness :
  exists n', follow_user_command 20 "knode" (Ok (RespIdentity {| ir_master_pubkey := ui_master_pubkey dora;
      ir_delegation := ui_delegation dora; ir_transport_node_ids := []; ir_profile := Some (profile_of Public) |}))
      (quiet_node []) = (n', [], Some (Err (Other "cannot follow yourself"))) /\
    my_visibility (quiet_node []) = Listed /\ my_visibility n' = Public.
Proof.
  edestruct (own_profile_overwritten 20 "knode" {| ir_master_pubkey := ui_master_pubkey dora;
      ir_delegation := ui_delegation dora; ir_transport_node_ids := []; ir_profile := Some (profile_of Public) |}
    (profile_of Public) (quiet_node [])) as (n' & E & _ & Hv & _).
  - vm_compute. discriminate.
  - split; reflexivity.
  - reflexivity.
  - split; [by eexists|exact dora_named].
  - exists n'. split; [exact E|]. split; [vm_compute; reflexivity|exact Hv].
Defined.

Lemma generate_id_unique_witness : generate_id (replicate 16 3) <> generate_id (replicate 16 4).
Proof.
  pose proof (generate_id_unique (replicate 16 3) (replicate 16 4)) as H.
  destruct H as [_ H]; [split; apply Forall_replicate; unfold is_u8; lia|split; reflexivity|].
  intros E. specialize (H E). discriminate H.
Defined.
