(* ===== verification/RegistrationTheorems.v ===== *)
(** * Registering with a community server, end to end

    The requests a node sends and what the server makes of them: both sides are
    the modelled ones. *)

From S2P Require Import Prelude Text Types Ratchet Signing Concrete SigningTheorems Validation Store ConcreteStore Social Moderation Posts Interactions Notifications Peers Framing Handler Ingest Gossip GossipTheorems ConcreteWire Noise ConcreteDm Dm FollowRequests Peer Link LinkTheorems Identity IdentityTheorems Servers Effects Service Commands ServiceSafety ServiceTheorems Server ServerIngest ServerApi ServerSafety ServerTheorems.

Local Open Scope Z_scope.

(** The body of a profile update as the server reads it. *)
Definition received (b : ProfileUpdateBody) : ProfileUpdateRequest :=
  {| pu_master_pubkey := ub_master_pubkey b; pu_transport_node_id := ub_transport_node_id b;
     pu_server_url := ub_server_url b; pu_timestamp := ub_timestamp b; pu_visibility := ub_visibility b;
     pu_display_name := ub_display_name b; pu_bio := ub_bio b; pu_avatar_hash := ub_avatar_hash b;
     pu_signature := ub_signature b; pu_delegation := ub_delegation b |}.

Section registration.
Context `{RatchetPrims, Ed25519, !Ed25519Laws, !KeyConv, HexCodec, !HexLaws, JsonCodec, Sha, SqlOrder,
  !SqlOrderLaws, !Serde (list MediaAttachment), !Serde SigningKeyDelegation, !SerdeLaws SigningKeyDelegation,
  !Serde (list string), !SerdeLaws (list string), !Serde LinkedDevicesAnnouncement}.
Implicit Types (n : Node) (s : ServerState).

Lemma signed_registration_verifies p key req :
  dl_signing_pubkey (rr_delegation req) = pk_to_string (sk_public key) ->
  p = {| rp_master_pubkey := rr_master_pubkey req; rp_transport_node_id := rr_transport_node_id req;
         rp_server_url := rr_server_url req; rp_timestamp := rr_timestamp req;
         rp_visibility := rr_visibility req; rp_action := rr_action req |} ->
  rr_signature req = sign_registration p key -> verify_registration_signature req = Ok tt.
Proof.
  intros Hd -> Hs. unfold verify_registration_signature. rewrite Hs. unfold sign_registration.
  rewrite hex_to_signature_to_hex. cbn. rewrite Hd, parse_pubkey_to_string. cbn. by rewrite verify_or_sign.
Qed.

Lemma registered_active now req d :
  exists row, sv_registrations (registered now req d) !! rr_master_pubkey req = Some row /\ rg_is_active row = 1.
Proof.
  unfold registered, register_user. rewrite from_to_json. cbn. rewrite lookup_upsert, decide_True by done.
  destruct (sv_registrations d !! _); by eexists.
Qed.

(** A profile update of an active user by the holder of the key in its delegation. *)
Lemma profile_update_accepted now req v s row :
  pu_visibility req = visibility_to_string v ->
  verify_registration_signature (profile_registration req v) = Ok tt ->
  sv_registrations (st_db s) !! pu_master_pubkey req = Some row -> rg_is_active row = 1 ->
  exists s' row', update_profile_request now req s = (s', Some (Ok "profile updated"%string)) /\
    get_registration (st_db s') (pu_master_pubkey req) = Some row' /\
    rg_visibility row' = visibility_to_string v /\
    rg_display_name row' = Some (default EmptyString (pu_display_name req)) /\
    rg_bio row' = Some (default EmptyString (pu_bio req)) /\
    sv_posts (st_db s') = sv_posts (st_db s) /\
    (forall pk, get_peer_signing_pubkey (st_db s') pk = get_peer_signing_pubkey (st_db s) pk).
Proof.
  intros Hv Hsig Hrow Hact. unfold update_profile_request. rewrite Hv, visibility_from_to_string, Hsig.
  cbn [checked]. unfold mbind, task_bind, ServerIngest.get_server, update_profile.
  rewrite (proj2 (Z.ltb_lt _ _)).
  2: { eapply sql_count_row; [exact Hrow|]. unfold active_row. cbn. by rewrite Hact, bool_decide_true. }
  eexists _, _. split; [reflexivity|]. unfold get_registration. cbn -[visibility_to_string].
  rewrite lookup_sql_update, Hrow. unfold active_row. cbn -[visibility_to_string].
  rewrite Hact, bool_decide_true by done. cbn -[visibility_to_string]. by split_and!.
Qed.

(** The requests of [register_with_server] when it succeeds. *)
Lemma run_register now url vis n n' ef v row profile :
  register_with_server now url vis n = (n', ef, Some (Ok tt)) ->
  visibility_from_str vis = Ok v -> nd_servers n !! url = Some row ->
  get_profile (nd_db n) (my_id n) = Some profile ->
  exists upd, ef = [PostRegister url (registration_request now n url v None (signing_key n)
                     (ui_delegation (nd_identity n))); PutRegister url upd] /\
    received upd = {| pu_master_pubkey := my_id n;
      pu_transport_node_id := Identity.ui_transport_node_id (nd_identity n); pu_server_url := url; pu_timestamp := now;
      pu_visibility := visibility_to_string v; pu_display_name := non_empty (pr_display_name profile);
      pu_bio := non_empty (pr_bio profile); pu_avatar_hash := pr_avatar_hash profile;
      pu_signature := sign_registration {| rp_master_pubkey := my_id n;
        rp_transport_node_id := Identity.ui_transport_node_id (nd_identity n); rp_server_url := url; rp_timestamp := now;
        rp_visibility := v; rp_action := None |} (signing_key n);
      pu_delegation := ui_delegation (nd_identity n) |}.
Proof.
  intros Hrun Hv Hrow Hp. unfold register_with_server in Hrun. rewrite run_eff_get, run_eff_try_lift, Hv in Hrun.
  cbn [text_error] in Hrun. rewrite run_eff_effect, run_eff_try in Hrun. unfold library_call at 1 in Hrun.
  destruct (hd true (nd_outcomes n)); [|done]. rewrite run_eff_modify in Hrun.
  unfold sync_profile_to_server_inner in Hrun. rewrite run_eff, run_eff_get, run_eff_try_lift in Hrun.
  cbn [nd_db nd_identity set_servers] in Hrun. change (my_id (set_servers _ _)) with (my_id n) in Hrun.
  rewrite Hp in Hrun. cbn [ok_or] in Hrun. rewrite run_eff_effect in Hrun. unfold library_call in Hrun.
  injection Hrun as _ <-. eexists. split; [reflexivity|]. unfold received, profile_update.
  cbn -[visibility_from_str visibility_to_string].
  unfold Servers.get_server, mark_server_registered. rewrite lookup_sql_update, Hrow.
  cbn -[visibility_from_str visibility_to_string].
  rewrite bool_decide_eq_true_2 by done. cbn -[visibility_from_str visibility_to_string].
  by rewrite visibility_from_to_string.
Qed.

End registration.

(** ** Witnesses *)

Definition node_with_server : Node := idle_node listed_db dora (add_server 5 "here" ∅) ∅ [].

