(* ===== verification/Orchestration.v ===== *)
(** * Synchronising with the followed users

    Model of [src-tauri/src/sync/orchestration.rs], of the part of
    [sync/client.rs] that talks to a node, and of the tasks of
    [src-tauri/src/tasks/] and [sync_all_devices] of [device_sync.rs].  What a
    node answers is an argument; [Err] is a connection that fails or times out.
    An operation runs without interruption by others. *)

From S2P Require Import Prelude Types Ratchet Signing Validation Store Social Moderation Posts Interactions Notifications Peers Messaging Merge Handler Ingest Gossip Framing Sync DeviceSync.

Local Open Scope Z_scope.
Local Open Scope handler_scope.

(** A node that is asked: the bytes of its summary, and of its data stream for
    the ids it is sent. *)
Record RemoteNode : Type := {
  rn_summary : SyncRequest -> result AppError bytes;
  rn_stream : SyncRequest -> bytes -> result AppError bytes;
}.

(** In milliseconds. *)
Definition DRIP_IDLE_INTERVAL : Z := 300 * 1000.
Definition DRIP_ACTIVE_INTERVAL : Z := 60 * 1000.
Definition SYNC_CONCURRENCY : nat := 4.

Record SyncOneResult : Type := {
  so_stored : Z;
  so_posts : list Post;
  so_remote_post_count : Z;
}.

(** What the peer synchronisation task keeps; times are in milliseconds. *)
Record PeerSync : Type := {
  ps_follows : list string;
  ps_next : nat;
  ps_interval : Z;
  ps_last_activity : Z;
}.

Inductive SyncInput : Type :=
| SyncOnDemand (pubkey : string)
| SyncEveryone
| DripTick.

Section orchestration.
Context `{Ed25519, HexCodec, JsonCodec, Sha, SqlOrder, !Wire SyncSummary, !Wire SyncFrame,
  !Wire (list string), !Serde (list MediaAttachment), !Serde (list string),
  !Serde LinkedDevicesAnnouncement}.

(** ** client.rs *)

(** The loop over the frames, with what was received before an error. *)
Fixpoint pull_frames (fuel : nat) (now : Z) (author : string) (stream : bytes) (rc : received)
    : received * result AppError unit :=
  match fuel with
  | O => (rc, Ok tt)
  | S fuel =>
      match read_frame stream with
      | Ok (Some frame_bytes, rest) =>
          match from_slice frame_bytes with
          | Ok frame => pull_frames fuel now author rest (take_frame now author rc frame)
          | Err e => (rc, Err e)
          end
      | Ok (None, _) | Err _ => (rc, Ok tt)
      end
  end.

(** [sync_from_peer]: the device announcements received before an error stay. *)
Definition pull_from_node (now : Z) (d : Db) (author : string) (node : RemoteNode)
    : Db * result AppError SyncResult :=
  let req := client_request d author in
  let summary : result AppError SyncSummary :=
    summary_bytes ← rn_summary node req;
    _ ← bail_if (65536 <? Z.of_nat (length summary_bytes)) (Other "too long");
    from_slice summary_bytes in
  match summary with
  | Err e => (d, Err e)
  | Ok summary =>
      if decide (sm_mode summary = UpToDate) then
        (d, Ok {| sy_posts := []; sy_interactions := []; sy_profile := sm_profile summary;
                  sy_remote_post_count := sm_server_post_count summary; sy_mode := UpToDate;
                  sy_active_stage := sm_active_stage summary |})
      else match rn_stream node req (known_ids_bytes d author (sm_mode summary)) with
      | Err e => (d, Err e)
      | Ok stream =>
          let '(rc, r) := pull_frames (S (length stream)) now author stream
                            {| rc_db := d; rc_posts := []; rc_interactions := [] |} in
          (rc_db rc,
           _ ← r;
           Ok {| sy_posts := rc_posts rc; sy_interactions := rc_interactions rc;
                 sy_profile := sm_profile summary;
                 sy_remote_post_count := sm_server_post_count summary;
                 sy_mode := sm_mode summary; sy_active_stage := sm_active_stage summary |})
      end
  end.

(** ** orchestration.rs *)

(** The nodes of a peer in order, up to the first that answers. *)
Fixpoint try_nodes (now : Z) (pubkey my_id : string) (ask : string -> RemoteNode) (node_ids : list string)
    : handler (option SyncOneResult) :=
  match node_ids with
  | [] => mret None
  | node_id :: node_ids =>
      if is_ok (pk_parse node_id) then
        d ← get_db;
        let '(d, r) := pull_from_node now d pubkey (ask node_id) in
        _ ← modify (fun _ => d);
        match r with
        | Ok sync_result =>
            stored ← process_sync_result now pubkey my_id sync_result;
            _ ← (match sy_active_stage sync_result with
                 | Some _ => _ ← log_short pubkey; emit "stage-announced"
                 | None => mret tt
                 end : handler unit);
            _ ← log_short pubkey;
            _ ← log_short node_id;
            mret (Some {| so_stored := stored; so_posts := sy_posts sync_result;
                          so_remote_post_count := sy_remote_post_count sync_result |})
        | Err _ => _ ← log_short node_id; try_nodes now pubkey my_id ask node_ids
        end
      else _ ← log_short node_id; try_nodes now pubkey my_id ask node_ids
  end.

Definition sync_one_peer (now : Z) (pubkey my_id : string) (ask : string -> RemoteNode)
    : fallible SyncOneResult :=
  d ← get_db;
  node_ids ←? lift (get_peer_transport_node_ids d pubkey);
  match node_ids with
  | [] => _ ← log_short pubkey; lift (Err (Other "no cached transport NodeId"))
  | _ =>
      r ← try_nodes now pubkey my_id ask node_ids;
      match r with
      | Some result => lift (Ok result)
      | None => _ ← log_short pubkey; lift (Err (Other "sync failed"))
      end
  end.

(** ** tasks/peer_sync.rs *)

Definition sync_one (now : Z) (my_id : string) (ask : string -> RemoteNode) (pubkey : string) : handler unit :=
  r ← sync_one_peer now pubkey my_id ask;
  match r with
  | Ok _ => log_short pubkey
  | Err _ => mret tt (* logged at the debug level, which is off *)
  end.

Definition followed (d : Db) (my_id : string) : list string :=
  sg_pubkey <$> default [] (res_ok (get_follows d my_id)).

(** A task of its own: its panic ends there. *)
Definition spawned (m : handler unit) : handler unit := fun d =>
  match m d with Done r => Done r | Panicked d ev => Done (tt, d, ev) end.

Fixpoint for_each {A} (f : A -> handler unit) (l : list A) : handler unit :=
  match l with
  | [] => mret tt
  | x :: l => _ ← f x; for_each f l
  end.

(** The batches of [SYNC_CONCURRENCY]; the tasks of a batch run in order. *)
Definition startup_sync (now : Z) (my_id : string) (ask : string -> RemoteNode) : handler unit :=
  d ← get_db;
  for_each (fun pubkey => spawned (sync_one now my_id ask pubkey)) (followed d my_id).

(** The state after [startup_sync], at [now]. *)
Definition peer_sync_start (now : Z) : PeerSync :=
  {| ps_follows := []; ps_next := 0; ps_interval := DRIP_IDLE_INTERVAL; ps_last_activity := now |}.

(** One round of the loop of [run]. *)
Definition peer_sync_step (now : Z) (my_id : string) (ask : string -> RemoteNode) (x : SyncInput) (p : PeerSync)
    : handler PeerSync :=
  let active := {| ps_follows := ps_follows p; ps_next := ps_next p;
                   ps_interval := DRIP_ACTIVE_INTERVAL; ps_last_activity := now |} in
  match x with
  | SyncOnDemand pubkey => _ ← sync_one now my_id ask pubkey; mret active
  | SyncEveryone => _ ← startup_sync now my_id ask; mret active
  | DripTick =>
      d ← get_db;
      let '(follows, i) := if (length (ps_follows p) <=? ps_next p)%nat then (followed d my_id, 0%nat)
                           else (ps_follows p, ps_next p) in
      match follows !! i with
      | None => mret {| ps_follows := follows; ps_next := i; ps_interval := ps_interval p;
                        ps_last_activity := ps_last_activity p |}
      | Some pubkey =>
          _ ← sync_one now my_id ask pubkey;
          mret {| ps_follows := follows; ps_next := S i;
                  ps_interval := if DRIP_ACTIVE_INTERVAL * 3 <? now - ps_last_activity p
                                 then DRIP_IDLE_INTERVAL else ps_interval p;
                  ps_last_activity := ps_last_activity p |}
      end
  end.

(** A run of the loop, each round at its time. *)
Fixpoint peer_sync_run (my_id : string) (ask : string -> RemoteNode) (l : list (Z * SyncInput)) (p : PeerSync)
    : handler PeerSync :=
  match l with
  | [] => mret p
  | (now, x) :: l => p ← peer_sync_step now my_id ask x p; peer_sync_run my_id ask l p
  end.
End orchestration.

(** ** device_sync.rs *)

Section devices.
Context `{Ed25519, HexCodec, SqlOrder, !Serde (list MediaAttachment), !Wire DeviceSyncFrame,
  !Wire DeviceSyncAccepted}.

(** What another device answers: its response and its data stream. *)
Definition RemoteDevice : Type := DeviceSyncRequest -> result AppError (bytes * bytes).

Definition sync_one_device (now : Z) (master_pubkey : string) (signing_secret : SecretKey)
    (challenge : bytes) (device : RemoteDevice) : fallible DeviceSyncStats :=
  d ← get_db;
  '(resp_bytes, data) ←? lift (device (device_sync_request d master_pubkey signing_secret challenge));
  let '(d, r) := sync_with_device now d master_pubkey signing_secret challenge resp_bytes data in
  _ ← modify (fun _ => d);
  '(_, stats) ←? lift r;
  lift (Ok stats).

(** [challenge] are the random bytes of each session. *)
Definition sync_all_devices (now : Z) (master_pubkey : string) (signing_secret : SecretKey)
    (challenge : string -> bytes) (ask : string -> RemoteDevice) : handler unit :=
  d ← get_db;
  for_each (fun node_id =>
    if is_ok (pk_parse node_id) then
      _ ← log_short node_id;
      _ ← sync_one_device now master_pubkey signing_secret (challenge node_id) (ask node_id);
      log_short node_id
    else log_short node_id) (get_other_device_node_ids d).
End devices.
