(* ===== verification/OrchestrationTheorems.v ===== *)
(** * Theorems on the synchronisation with the followed users

    A synchronisation with one peer leaves on the client every valid post the
    peer serves, whichever of its nodes answers; a round of the slow loop visits
    every followed user. *)

From S2P Require Import Prelude Types Ratchet Signing Concrete SigningTheorems Validation Store ConcreteStore Social Moderation Posts Interactions Notifications Peers Messaging Merge Handler Ingest Gossip GossipTheorems Framing Sync DeviceSync ConcreteWire ContentTheorems SyncTheorems Orchestration.

Local Open Scope Z_scope.

(** ** What a processed result leaves *)

Section processing.
Context `{Ed25519, HexCodec, JsonCodec, Sha, !Serde (list MediaAttachment)}.

(** Content is only added, and the keys and devices are the same. *)
Record keeps_rows (d d' : Db) : Prop := {
  kr_posts : posts d ⊆ posts d';
  kr_interactions : interactions d ⊆ interactions d';
  kr_keys : peer_delegations d' = peer_delegations d;
  kr_announcements : peer_device_announcements d' = peer_device_announcements d;
}.
#[export] Instance keeps_rows_refl : Reflexive keeps_rows.
Proof. intros d. by split. Qed.
#[export] Instance keeps_rows_trans : Transitive keeps_rows.
Proof. intros d1 d2 d3 [] []. split; (by etransitivity) || congruence. Qed.

Lemma keeps_insert_post p d : keeps_rows d (insert_post p d).
Proof. split; try done. cbn. apply insert_or_ignore_subseteq. Qed.
Lemma keeps_save_interaction i d : keeps_rows d (save_interaction i d).
Proof. unfold save_interaction. case_match; [done|]. split; try done. cbn. apply insert_or_ignore_subseteq. Qed.
Lemma keeps_notification kind actor t p ts d : keeps_rows d (insert_notification kind actor t p ts d).
Proof. by split. Qed.
Hint Resolve keeps_insert_post keeps_save_interaction keeps_notification : core.

Lemma ingest_post_rows now me post : always keeps_rows (process_incoming_post now me post).
Proof. unfold process_incoming_post, notify_post. solve_always; auto. Qed.
Lemma ingest_interaction_rows now me i pk : always keeps_rows (process_incoming_interaction now me i pk).
Proof. unfold process_incoming_interaction. solve_always; auto. Qed.

(** A genuine post is there after it was processed. *)
Lemma ingest_post_stores now me post d b d' ev :
  process_incoming_post now me post d = Done (b, d', ev) -> genuine_post now d post ->
  is_Some (posts d' !! (post_author post, post_id post)).
Proof.
  intros E (Hv & signer & Hs & Hg). pose proof (ingest_post_spec _ _ _ _ _ _ _ E) as [[-> ->]|(_ & _ & Hp & _)].
  - exfalso. unfold process_incoming_post in E. rewrite Hv in E. cbn [is_ok] in E.
    rewrite run_get, Hs, Hg in E. cbn [is_ok] in E. rewrite run_modify in E.
    by apply bind_done in E as (? & ? & ? & ? & _ & ? & _).
  - rewrite Hp. cbn. rewrite lookup_insert_or_ignore, decide_True by done. by case_match.
Qed.

(** A row for the like [i]: its own, or one of its author for the same post. *)
Definition liked (d : Db) (i : Interaction) : Prop :=
  exists k r, interactions d !! k = Some r /\
    (k = (in_author i, in_id i) \/
     same_target (in_author i) (kind_str (in_kind i)) (in_target_post_id i) (k, r) = true).

(** A genuine like is there after it was processed, or one for the same post. *)
Lemma ingest_interaction_stores now me i d b d' ev :
  process_incoming_interaction now me i (in_author i) d = Done (b, d', ev) -> genuine_interaction now d i ->
  liked d' i.
Proof.
  intros E (Hv & signer & Hs & Hg). unfold process_incoming_interaction in E.
  rewrite decide_False in E by tauto. rewrite Hv in E. cbn [is_ok] in E.
  rewrite run_get, Hs, Hg in E. cbn [is_ok] in E. rewrite run_modify in E.
  assert (interactions d' = interactions (save_interaction i d)) as Hi.
  { destruct (decide _) in E; [|by injection E as _ <- _]. rewrite run_modify in E. by injection E as _ <- _. }
  unfold liked. rewrite Hi. unfold save_interaction. destruct (Z.ltb_spec 0 (sql_count
    (same_target (in_author i) (kind_str (in_kind i)) (in_target_post_id i)) (interactions d))) as [Hc|_].
  - apply sql_count_pos in Hc as (k & r & Hk & Ht). exists k, r. split; [done|by right].
  - cbn. exists (in_author i, in_id i). rewrite lookup_insert_or_ignore, decide_True by done.
    destruct (interactions d !! _); eexists; (split; [done|by left]).
Qed.

(** Each element of a list is processed: what [f] leaves of [x] is left of all. *)
Lemma count_each_leaves {A} (f : A -> handler bool) (G Q : Db -> A -> Prop) l d n d' ev :
  (forall x, always keeps_rows (f x)) ->
  (forall x d b d' ev, x ∈ l -> f x d = Done (b, d', ev) -> G d x -> Q d' x) ->
  (forall x d d', keeps_rows d d' -> G d x -> G d' x) ->
  (forall x d d', keeps_rows d d' -> Q d x -> Q d' x) ->
  count_each f l d = Done (n, d', ev) ->
  keeps_rows d d' /\ forall x, x ∈ l -> G d x -> Q d' x.
Proof.
  intros Hf Hx HG HQ. revert d n d' ev. induction l as [|y l IH]; intros d n d' ev; cbn [count_each].
  { intros [= <- <- <-]. split; [reflexivity|]. by intros x ?%elem_of_nil. }
  intros (b & d1 & ev1 & ev2 & E1 & E & _)%bind_done.
  apply bind_done in E as (m & d2 & ev3 & ev4 & E2 & [= <- <- <-] & _).
  pose proof (always_done _ _ _ _ _ _ (Hf y) E1) as Hk1.
  apply IH in E2 as [Hk2 Hl]; [|intros; eapply Hx; [by right|done..]].
  split; [by etransitivity|]. intros x [->|Hin]%elem_of_cons Hg.
  - eapply HQ; [exact Hk2|]. eapply Hx; [by left|done..].
  - apply Hl; [done|]. by eapply HG.
Qed.

Lemma keeps_genuine_post now p d d' : keeps_rows d d' -> genuine_post now d p -> genuine_post now d' p.
Proof. intros Hk. apply genuine_post_delegations. symmetry. apply Hk. Qed.
Lemma keeps_genuine_interaction now i d d' :
  keeps_rows d d' -> genuine_interaction now d i -> genuine_interaction now d' i.
Proof. intros Hk. apply genuine_interaction_delegations. symmetry. apply Hk. Qed.

Lemma process_result_stores now pk me r d n d' ev :
  (forall i, i ∈ sy_interactions r -> in_author i = pk) ->
  process_sync_result now pk me r d = Done (n, d', ev) ->
  keeps_rows d d' /\
  (forall p, p ∈ sy_posts r -> genuine_post now d p -> is_Some (posts d' !! (post_author p, post_id p))) /\
  (forall i, i ∈ sy_interactions r -> genuine_interaction now d i -> liked d' i).
Proof.
  intros Hauthors. unfold process_sync_result. intros (s1 & d1 & ev1 & ev2 & E1 & E & _)%bind_done.
  apply (count_each_leaves _ (genuine_post now) (fun d p => is_Some (posts d !! (post_author p, post_id p))))
    in E1 as [Hk1 Hs]; [|by intros; apply ingest_post_rows|by intros; eapply ingest_post_stores
      |by intros; eapply keeps_genuine_post|].
  2: { intros p da db Hk [row Hr]. exists row. eapply lookup_weaken; [exact Hr|apply Hk]. }
  apply bind_done in E as (u & d2 & ev3 & ev4 & E2 & E & _).
  apply bind_done in E as (s3 & d3 & ev5 & ev6 & E3 & [= <- <- <-] & _).
  assert (keeps_rows d1 d2) as Hk2 by (destruct (sy_profile r); by injection E2 as _ <- _).
  apply (count_each_leaves _ (genuine_interaction now) liked) in E3 as [Hk3 Hl];
    [| | |by intros; eapply keeps_genuine_interaction|].
  2: { intros i. apply always_bind; [apply _|apply ingest_interaction_rows|]. intros _. apply always_ret, _. }
  2: { intros i da b db ev0 Hi (u' & db' & ? & ? & Ei & [= <- <- <-] & _)%bind_done.
       rewrite <-(Hauthors i Hi) in Ei. by eapply ingest_interaction_stores. }
  2: { intros i da db Hk (k & row & Hr & Ht). exists k, row. split; [|done]. eapply lookup_weaken; [exact Hr|apply Hk]. }
  assert (keeps_rows d d2) as Hk12 by by etransitivity.
  split; [by etransitivity|split].
  - intros p Hp Hg. destruct (Hs p Hp Hg) as [row Hrow].
    exists row. eapply lookup_weaken; [exact Hrow|]. etransitivity; [apply Hk2|apply Hk3].
  - intros i Hi Hg. apply Hl; [done|]. by eapply keeps_genuine_interaction.
Qed.

(** Only rows of the synchronised user change. *)
Lemma process_result_isolated now pk me r :
  (forall p, p ∈ sy_posts r -> post_author p = pk) ->
  always (isolated pk no_id) (process_sync_result now pk me r).
Proof.
  intros Hauthors. unfold process_sync_result. apply always_bind; [apply _| |].
  { apply always_count_each; try apply _. intros p Hp. rewrite <-(Hauthors p Hp). apply ingest_post_isolated. }
  intros stored. apply always_bind; [apply _|solve_always; apply isolated_profile|]. intros _.
  apply always_bind; [apply _| |intros _; apply always_ret, _].
  apply always_count_each; try apply _. intros i _.
  apply always_bind; [apply _|apply ingest_interaction_isolated|]. intros _. apply always_ret, _.
Qed.

(** The profile is the received one, if one was received. *)
Lemma process_result_profile_is now pk me r d n d' ev :
  process_sync_result now pk me r d = Done (n, d', ev) ->
  get_profile d' pk = match sy_profile r with Some p => Some p | None => get_profile d pk end.
Proof.
  intros E. destruct (sy_profile r) as [p|] eqn:Hp; [by eapply process_result_profile|].
  unfold get_profile. do 2 f_equal. refine (always_done same_profiles _ _ _ _ _ _ E).
  unfold process_sync_result. rewrite Hp. apply always_bind; [apply _| |].
  { apply always_count_each; try apply _. intros q _. apply ingest_post_same_profiles. }
  intros stored. apply always_bind; [apply _|by solve_always|]. intros _.
  apply always_bind; [apply _|apply ingest_interaction_profiles|intros _; apply always_ret, _].
Qed.

Lemma count_each_total {A} (f : A -> handler bool) l :
  (forall x, x ∈ l -> total (f x)) -> total (count_each f l).
Proof.
  induction l as [|x l IH]; intros Hf; cbn [count_each]; [by apply total_ret|].
  apply total_bind; [apply Hf; left|]. intros b. apply total_bind; [apply IH; intros y Hy; apply Hf; by right|].
  intros n. apply total_ret.
Qed.

Lemma process_result_total now pk me r :
  is_Some (short_id pk) -> (forall p, p ∈ sy_posts r -> post_author p = pk) ->
  total (process_sync_result now pk me r).
Proof.
  intros Hpk Hauthors. unfold process_sync_result. apply total_bind.
  { apply count_each_total. intros p Hp. apply ingest_post_total. by rewrite (Hauthors p Hp). }
  intros stored. apply total_bind; [by solve_total|]. intros _. apply total_bind; [|intros; apply total_ret].
  apply count_each_total. intros i _. apply total_bind; [by apply ingest_interaction_total|intros; apply total_ret].
Qed.
End processing.

(** ** One peer *)

Section peer.
Context `{Ed25519, HexCodec, JsonCodec, Sha, SqlOrder, !SqlOrderLaws,
  !Serde (list MediaAttachment), !SerdeLaws (list MediaAttachment), !Serde (list string),
  !Serde LinkedDevicesAnnouncement, !Wire SyncFrame, !WireLaws SyncFrame, !Wire (list string),
  !WireLaws (list string), !Wire SyncSummary, !WireLaws SyncSummary}.

(** The node of [owner] with database [server], which sees the client as [remote]. *)
Definition serving_node (server : Db) (owner remote : string) (stage : option StageAnnouncement) : RemoteNode :=
  let answer req ids := match handle_sync server owner remote req stage ids with
                        | Some r => r
                        | None => Err (Other "connection lost")
                        end in
  {| rn_summary := fun req => '(summary, _) ← answer req []; Ok summary;
     rn_stream := fun req ids => '(_, stream) ← answer req ids; Ok stream |}.

Lemma pull_frames_read fuel now author stream rc :
  read_frames fuel now author stream rc =
    (let '(rc', r) := pull_frames fuel now author stream rc in _ ← r; Ok rc').
Proof.
  revert stream rc. induction fuel as [|fuel IH]; intros stream rc; [done|]. cbn [read_frames pull_frames].
  destruct (read_frame stream) as [[[frame_bytes|] rest]|e]; [|done|done].
  destruct (from_slice frame_bytes) as [frame|e]; [|done]. apply IH.
Qed.

(** Pulling from a serving node is a session with its database. *)
Lemma pull_serving now server client owner remote author stage d r :
  sync_session now server client owner remote author stage = Some (Ok (d, r)) ->
  pull_from_node now client author (serving_node server owner remote stage) = (d, Ok r).
Proof.
  unfold sync_session, pull_from_node, serving_node, handle_sync. cbn [rn_summary rn_stream].
  destruct (sync_access _ _ _) as [[]|e]; [|by destruct (short_id _)].
  destruct (short_id (sq_author (client_request client author))); [|done].
  set (req := client_request client author).
  set (ids := known_ids_bytes client author (sync_mode server req)).
  unfold mbind at 1 2, option_bind.
  destruct (decide (sync_mode server req = UpToDate)) as [Hm|Hm].
  - intros [= E]. revert E. unfold sync_from_peer. cbn [mbind result_bind].
    destruct (65536 <? _); cbn [bail_if]; [done|]. rewrite from_to_vec.
    cbn [mbind result_bind]. change (sm_mode (sync_summary server owner req stage)) with (sync_mode server req).
    rewrite !decide_True by done. by intros [= <- <-].
  - intros [= E]. revert E. unfold sync_from_peer. cbn [mbind result_bind].
    destruct (65536 <? _); cbn [bail_if]; [done|]. rewrite from_to_vec.
    cbn [mbind result_bind]. change (sm_mode (sync_summary server owner req stage)) with (sync_mode server req).
    rewrite !decide_False by done. fold ids. rewrite pull_frames_read.
    destruct (pull_frames _ _ _ _ _) as [rc [[]|e]]; [|done]. by intros [= <- <-].
Qed.

(** A node that is tried in vain: its id does not parse, or it does not answer. *)
Definition useless (ask : string -> RemoteNode) (node_id : string) : Prop :=
  is_Some (short_id node_id) /\
  (is_ok (pk_parse node_id) = true -> forall req, is_ok (rn_summary (ask node_id) req) = false).

Lemma try_useless now pubkey me ask ids1 ids2 d :
  Forall (useless ask) ids1 ->
  try_nodes now pubkey me ask (ids1 ++ ids2) d = try_nodes now pubkey me ask ids2 d.
Proof.
  induction 1 as [|id ids1 [[x Hx] Hu] _ IH]; [done|]. cbn [app try_nodes].
  destruct (is_ok (pk_parse id)) eqn:Ep.
  - rewrite run_get. unfold pull_from_node. specialize (Hu eq_refl (client_request d pubkey)).
    destruct (rn_summary (ask id) (client_request d pubkey)) as [s|e]; [done|]. cbn [mbind result_bind].
    rewrite run_modify, run_log, Hx. exact IH.
  - rewrite run_log, Hx. exact IH.
Qed.

(** The profile a session gives is the one the server has. *)
Lemma sync_session_profile now server client node_id remote author stage d r :
  sync_session now server client node_id remote author stage = Some (Ok (d, r)) ->
  sy_profile r = get_profile server node_id.
Proof.
  unfold sync_session, handle_sync. destruct (sync_access _ _ _) as [[]|e]; [|by destruct (short_id _)].
  destruct (short_id _); [|done]. unfold mbind at 1, option_bind.
  assert (forall stream, sync_from_peer now client author
    (to_vec (sync_summary server node_id (client_request client author) stage)) stream = Ok (d, r) ->
    sy_profile r = get_profile server node_id) as Hget.
  { intros stream. unfold sync_from_peer. destruct (65536 <? _); cbn [bail_if]; [done|].
    unfold mbind, result_bind. rewrite from_to_vec. case_decide; [by intros [= <- <-]|].
    destruct (read_frames _ _ _ _ _); [|done]. by intros [= <- <-]. }
  case_decide; intros [= E]; by eapply Hget.
Qed.

(** What one synchronisation may do to the client's database: content is only
    added, and what is added is the peer's own, from the server, valid and
    verified under the cached key; the profile is the server's, unchecked. *)
Record pulled (now : Z) (server client : Db) (pubkey : string) (client' : Db) : Prop := {
  pl_keeps : keeps_rows client client';
  pl_posts : forall k row, posts client' !! k = Some row -> posts client !! k = Some row \/
    exists p, missing_post server client pubkey p /\ k = (post_author p, post_id p) /\
      row = post_to_row p /\ genuine_post now client p;
  pl_interactions : forall k row, interactions client' !! k = Some row -> interactions client !! k = Some row \/
    exists i, in_author i = pubkey /\ stored_interaction server i /\ k = (pubkey, in_id i) /\
      row = interaction_to_row i /\ genuine_interaction now client i;
  pl_profile : get_profile client' pubkey =
    match get_profile server pubkey with Some p => Some p | None => get_profile client pubkey end;
  pl_others : isolated pubkey no_id client client';
}.

(** C39: one synchronisation is complete for a client that has missed no
    deletion: when the client's rows of the peer are among the server's (with
    counts that are equal by accident nothing would be transferred), one of the
    peer's nodes serves its database to this client within the size limits, and
    the nodes before it do not answer, then the synchronisation succeeds and the
    client has every post of the peer it lacked that is valid and verifies under
    the cached key, as the server has it, and every such like, unless it holds a
    row with the like's key or a like of the same post; it keeps all content it
    had; every post or like added is genuine content of the peer's from the
    server; the profile is replaced by the server's with no check; and no row of
    another user, no message, follow or setting changes. *)
Theorem sync_one_peer_complete (now : Z) (server client : Db) (pubkey me remote node_id : string)
    (stage : option StageAnnouncement) (ask : string -> RemoteNode) (ids1 ids2 : list string)
    (Hready : sync_ready server client pubkey)
    (Haccess : sync_access server pubkey (default remote (get_master_pubkey_for_transport server remote)) = Ok tt)
    (Hfit : sizes_fit server client pubkey pubkey stage)
    (Hnodes : get_peer_transport_node_ids client pubkey = Ok (ids1 ++ node_id :: ids2))
    (Huseless : Forall (useless ask) ids1)
    (Hserving : is_ok (pk_parse node_id) = true /\ ask node_id = serving_node server pubkey remote stage)
    (Hnamed : is_Some (short_id pubkey) /\ is_Some (short_id node_id)) :
  exists result client' ev, sync_one_peer now pubkey me ask client = Done (Ok result, client', ev) /\
    (forall p, missing_post server client pubkey p -> genuine_post now client p -> stored_post client' p) /\
    (forall i, missing_interaction server client pubkey i -> genuine_interaction now client i -> liked client' i) /\
    pulled now server client pubkey client'.
Proof.
  destruct Hserving as [Hparse Hask], Hnamed as [Hpk [y Hy]].
  destruct (sync_session_spec server client pubkey Hready now pubkey remote stage Haccess Hpk Hfit) as (r & Hsession & Hsynced).
  pose proof (sync_session_profile _ _ _ _ _ _ _ _ _ Hsession) as Hprofile. apply pull_serving in Hsession.
  assert (forall p, p ∈ sy_posts r -> post_author p = pubkey) as Hauthors.
  { intros p Hp. by apply (sd_posts _ _ _ _ Hsynced) in Hp as (Ha & _). }
  destruct (process_result_total now pubkey me r Hpk Hauthors client) as [[[stored d2] ev2] Eproc].
  destruct (process_result_stores _ _ _ _ _ _ _ _ (fun i Hi => proj1 (sd_sound _ _ _ _ Hsynced i Hi)) Eproc)
    as (Hkeep & Hstores & Hlikes).
  pose proof (always_done _ _ _ _ _ _ (process_result_added now pubkey me r) Eproc) as (_ & Hadded & Hints).
  assert (exists ev, try_nodes now pubkey me ask (node_id :: ids2) client = Done (Some {| so_stored := stored;
    so_posts := sy_posts r; so_remote_post_count := sy_remote_post_count r |}, d2, ev)) as [ev Etry].
  { cbn [try_nodes]. rewrite Hparse, run_get, Hask, Hsession, run_modify, run_bind, Eproc, run_bind.
    destruct Hpk as [x Hx]. destruct (sy_active_stage r).
    - rewrite run_log, Hx. unfold emit at 1. rewrite run_log, Hx, run_log, Hy. by eexists.
    - unfold mret at 1, handler_ret at 1. rewrite run_log, Hx, run_log, Hy. by eexists. }
  eexists _, d2, _. split.
  { unfold sync_one_peer. rewrite run_get, Hnodes, run_try_lift.
    destruct (ids1 ++ node_id :: ids2) as [|i0 l0] eqn:El; [by destruct ids1|]. rewrite <-El.
    rewrite run_bind, try_useless, Etry by done. rewrite run_lift. reflexivity. }
  assert (pulled now server client pubkey d2) as Hpulled.
  { split; [done| | | |exact (always_done _ _ _ _ _ _ (process_result_isolated now pubkey me r Hauthors) Eproc)].
    - intros k row Hk. destruct (Hadded k row Hk) as [?|(p & Hp & -> & -> & Hg)]; [by left|]. right. exists p.
      split; [by apply (sd_posts _ _ _ _ Hsynced)|done].
    - intros k row Hk. destruct (Hints k row Hk) as [?|(i & Hi & -> & -> & Hg)]; [by left|]. right. exists i.
      by destruct (sd_sound _ _ _ _ Hsynced i Hi).
    - by rewrite (process_result_profile_is _ _ _ _ _ _ _ _ Eproc), Hprofile. }
  split; [|split; [|done]].
  - intros p Hp Hg. pose proof (proj2 (sd_posts _ _ _ _ Hsynced p) Hp) as Hin. destruct (Hstores p Hin Hg) as [row Hrow].
    destruct Hp as (Ha & Hst & _ & Hno).
    destruct (pl_posts _ _ _ _ _ Hpulled _ _ Hrow) as [Hc|(q & (_ & Hq & _) & Ek & -> & _)]; [rewrite Ha in Hc; congruence|].
    unfold stored_post in *. rewrite Hrow. rewrite <-Ek, Hst in Hq. congruence.
  - intros i Hi Hg. apply Hlikes; [by apply Hsynced|done].
Qed.
End peer.

(** ** The loop *)

Section drip.
Context `{Ed25519, HexCodec, JsonCodec, Sha, SqlOrder, !Wire SyncSummary, !Wire SyncFrame,
  !Wire (list string), !Serde (list MediaAttachment), !Serde (list string),
  !Serde LinkedDevicesAnnouncement}.
Context (me : string) (ask : string -> RemoteNode).

(** Every follow of the current list was visited. *)
Definition exhausted (p : PeerSync) : Prop := (length (ps_follows p) <= ps_next p)%nat.
Definition visits (l : list (Z * string)) : handler unit := for_each (fun tp => sync_one tp.1 me ask tp.2) l.
Definition drips (ts : list Z) : list (Z * SyncInput) := (fun t => (t, DripTick)) <$> ts.

(** [m] does what [n] does, and leaves a state with [Q]. *)
Definition runs_as (m : handler PeerSync) (n : handler unit) (Q : PeerSync -> Prop) (d : Db) : Prop :=
  match n d with
  | Done (_, d', ev) => exists p, m d = Done (p, d', ev) /\ Q p
  | Panicked d' ev => m d = Panicked d' ev
  end.

Lemma drip_from ts p d :
  (ps_next p + length ts = length (ps_follows p))%nat ->
  runs_as (peer_sync_run me ask (drips ts) p) (visits (zip ts (drop (ps_next p) (ps_follows p)))) exhausted d.
Proof.
  revert p d. induction ts as [|t ts IH]; intros p d Hlen; cbn in Hlen.
  - unfold runs_as. cbn. exists p. split; [done|]. unfold exhausted. lia.
  - destruct (lookup_lt_is_Some_2 (ps_follows p) (ps_next p)) as [pk Hpk]; [lia|].
    rewrite (drop_S _ _ _ Hpk). unfold runs_as, drips, visits. cbn [fmap list_fmap peer_sync_run zip zip_with for_each fst snd].
    rewrite !run_bind. unfold peer_sync_step. rewrite run_get.
    rewrite (proj2 (Nat.leb_gt _ _)) by lia. rewrite Hpk, run_bind.
    destruct (sync_one t me ask pk d) as [[[u d1] ev1]|]; [|done]. unfold mret, handler_ret. cbn [after].
    match goal with |- context [peer_sync_run me ask _ ?p1 d1] => specialize (IH p1 d1) end.
    unfold runs_as, drips, visits in IH. cbn [ps_follows ps_next] in IH. specialize (IH ltac:(lia)).
    rewrite app_nil_r.
    destruct (for_each _ _ d1) as [[[u2 d2] ev2]|]; cbn [after]; [|by rewrite IH].
    destruct IH as (p' & E & Hex). exists p'. rewrite E. by split.
Qed.

(** C40: no followed user is starved: when the list of the loop is used up, the
    next rounds of its timer, as many as there are users followed then,
    synchronise with each of them once, in order, and leave the list used up
    again; a round panics only if one of the synchronisations does. *)
Theorem drip_round_visits_all (ts : list Z) (p : PeerSync) (d : Db)
    (Hdone : exhausted p) (Hlen : length ts = length (followed d me)) :
  runs_as (peer_sync_run me ask (drips ts) p) (visits (zip ts (followed d me))) exhausted d.
Proof.
  destruct ts as [|t ts]; [by exists p|]. unfold exhausted in Hdone.
  pose proof (drip_from (t :: ts) {| ps_follows := followed d me; ps_next := 0; ps_interval := ps_interval p;
    ps_last_activity := ps_last_activity p |} d Hlen) as Hd.
  unfold runs_as, drips in *. cbn [fmap list_fmap peer_sync_run ps_next ps_follows drop] in *. rewrite run_bind in *.
  unfold peer_sync_step in *. rewrite run_get in *. cbn [ps_follows ps_next ps_interval ps_last_activity] in Hd.
  rewrite (proj2 (Nat.leb_gt _ _)) in Hd by (rewrite <-Hlen; cbn; lia).
  by rewrite (proj2 (Nat.leb_le _ _)) by done.
Qed.
End drip.

(** ** Witnesses *)

(** Alice's node has her post; the client knows two nodes of hers, of which the
    first does not answer. *)
Definition alice_server : Db := insert_post alice_post empty_db.
Definition alice_identity : IdentityResponse :=
  {| ir_master_pubkey := "kalice";
     ir_delegation := sign_delegation ("alice"%string : @SecretKey toy_ed25519) ("alice"%string : @PublicKey toy_ed25519) 0 "dm" 0 1;
     ir_transport_node_ids := ["kold"; "knew"]%string; ir_profile := None |}.
Definition alice_client : Db := cache_peer_identity 1 alice_identity empty_db.
Definition dead_node : RemoteNode :=
  {| rn_summary := fun _ => Err (Other "timeout"); rn_stream := fun _ _ => Err (Other "timeout") |}.
Definition alice_nodes (node_id : string) : RemoteNode :=
  if decide (node_id = "knew"%string) then serving_node alice_server "kalice" "kclient" None else dead_node.

Lemma alice_server_rows k r : posts alice_server !! k = Some r ->
  k = (post_author alice_post, post_id alice_post) /\ r = post_to_row alice_post.
Proof. intros [?|Hr]%insert_post_inv; [done|]. cbn in Hr. by rewrite lookup_empty in Hr. Qed.
Lemma alice_client_ready : sync_ready alice_server alice_client "kalice".
Proof.
  split.
  - unfold alice_server. apply insert_post_ok; [vm_compute; split; [discriminate|reflexivity]|].
    intros k r. cbn. by rewrite lookup_empty.
  - intros k r. cbn. by rewrite lookup_empty.
  - intros k r _. cbn. by rewrite lookup_empty.
  - intros k r _. cbn. by rewrite lookup_empty.
  - intros k r _ [_ ->]%alice_server_rows. vm_compute. by split.
  - intros k r _. cbn. by rewrite lookup_empty.
  - vm_compute. reflexivity.
  - vm_compute. reflexivity.
Qed.
Lemma alice_server_fits : sizes_fit alice_server alice_client "kalice" "kalice" None.
Proof.
  split; [intros ps _ _|intros ps _ _| |].
  - unfold fits. cbn [to_vec wire_frame wire_countable length]. unfold MAX_FRAME_SIZE. lia.
  - unfold fits. cbn [to_vec wire_frame wire_countable length]. unfold MAX_FRAME_SIZE. lia.
  - cbn [to_vec wire_summary wire_countable length]. lia.
  - cbn [to_vec wire_strings wire_countable length]. lia.
Qed.
Lemma alice_client_nodes : get_peer_transport_node_ids alice_client "kalice" = Ok ["kold"; "knew"]%string.
Proof.
  unfold get_peer_transport_node_ids, alice_client, cache_peer_identity.
  cbn [peer_delegations set_peer_delegations ir_master_pubkey alice_identity]. rewrite lookup_insert_eq.
  exact (from_to_json ["kold"; "knew"]%string).
Qed.

Lemma sync_one_peer_complete_witness :
  exists result client' ev,
    sync_one_peer 1000 "kalice" "kme" alice_nodes alice_client = Done (Ok result, client', ev) /\
    stored_post client' alice_post.
Proof.
  destruct (sync_one_peer_complete 1000 alice_server alice_client "kalice" "kme" "kclient" "knew" None
    alice_nodes ["kold"%string] [] alice_client_ready eq_refl alice_server_fits alice_client_nodes) as
    (result & client' & ev & E & Hs & _).
  - constructor; [|constructor]. split; [by eexists|]. intros _ req. reflexivity.
  - split; reflexivity.
  - split; by eexists.
  - exists result, client', ev. split; [exact E|]. apply (Hs alice_post).
    + split_and!; [reflexivity|vm_compute; reflexivity|vm_compute; split; [discriminate|reflexivity]|reflexivity].
    + split; [vm_compute; reflexivity|]. exists ("alice"%string : @PublicKey toy_ed25519).
      split; vm_compute; reflexivity.
Defined.

(** The client follows Alice. *)
Definition following_alice : Db :=
  follow 1 "kme" {| sg_pubkey := "kalice"; sg_followed_at := 1; sg_first_seen := 0; sg_last_seen := 0;
                    sg_is_online := false |} alice_client.

Lemma drip_round_visits_all_witness :
  runs_as (peer_sync_run "kme" alice_nodes (drips [60000]) (peer_sync_start 0))
    (visits "kme" alice_nodes [(60000, "kalice"%string)]) exhausted following_alice.
Proof.
  assert (followed following_alice "kme" = ["kalice"%string]) as Hf by (vm_compute; reflexivity).
  pose proof (drip_round_visits_all "kme" alice_nodes [60000] (peer_sync_start 0) following_alice) as H.
  rewrite Hf in H. apply H; [unfold exhausted; cbn; lia|reflexivity].
Defined.
