(* ===== verification/Mixing.v ===== *)
(** * Mixing the voices of a stage

    Model of [src-tauri/src/stage/mixer.rs] and [speaker_mixer.rs]: the actor of
    the host that mixes the speakers for the listeners, and the one of a speaker
    that mixes the streams it receives; with the ring buffer of
    [audio/playback.rs].  A sample is an IEEE single, [f32].  What a tick takes
    from a channel, and whether the channel is closed then, is an argument; a
    number stands for each end of a channel.  The level (RMS) that the mixer
    keeps for each voice is never read and is left out. *)

From Stdlib Require Import SpecFloat.
From S2P Require Import Prelude Types Signing Store Effects Audio StageAuth.

Local Open Scope Z_scope.

(** ** f32 *)

Definition f32 : Type := spec_float.
Definition f32_zero : f32 := S754_zero false.
Definition f32_one : f32 := SFone 24 128.
Definition f32_add : f32 -> f32 -> f32 := SFadd 24 128.
Definition f32_sub : f32 -> f32 -> f32 := SFsub 24 128.
(** [x.clamp(-1.0, 1.0)]: a NaN stays. *)
Definition clamp (x : f32) : f32 :=
  if SFltb x (SFopp f32_one) then SFopp f32_one else if SFltb f32_one x then f32_one else x.

Definition silence (n : nat) : list f32 := replicate n f32_zero.

(** ** Buffers of voices, shared by the two mixers *)

Definition MAX_SPEAKER_BUFFER : nat := FRAME_SIZE * 5.
Definition MAX_STREAM_BUFFER : nat := FRAME_SIZE * 5.

(** [for (i, s) in samples { total[i] += s }]. *)
Fixpoint add_samples (total samples : list f32) : list f32 :=
  match total, samples with
  | t :: total, s :: samples => f32_add t s :: add_samples total samples
  | _, _ => total
  end.

(** The sum of a frame of each buffer, in the order of the map. *)
Definition mix_frame {K} `{HashOrder, Countable K} (buffers : gmap K (list f32)) : list f32 :=
  fold_left (fun total kb => add_samples total (take FRAME_SIZE kb.2)) (hash_iter buffers) (silence FRAME_SIZE).

(** What a voice adds, with silence where it has no sample. *)
Definition contribution (buf : list f32) : list f32 :=
  take FRAME_SIZE buf ++ silence (FRAME_SIZE - length buf).

(** The batches of a channel until it is empty, and whether it is closed then. *)
Definition Received : Type := nat -> list (list f32) * bool.

(** ** mixer.rs *)

Section mixer.
Context `{Ed25519, Sha256, OpusLib f32, HashOrder}.

Record Mixer : Type := {
  mx_buffers : gmap string (list f32);
  mx_channels : list (string * nat);
  mx_host_speaker : option (string * nat);
  mx_listener_encoder : OpusEncoder f32;
  mx_host_encoder : OpusEncoder f32;
  mx_auth : HostAuthState;
  mx_listener_seq : Z; (* u32 *)
  mx_listener_ts : Z; (* u32 *)
  mx_host_seq : Z; (* u32 *)
  mx_host_ts : Z; (* u32 *)
}.

(** A frame for the listener fanout or the fanout of the host's voice, and what
    is put on the channel of the local playback. *)
Inductive MixEffect : Type :=
| ListenerFrame (f : AudioFrame)
| HostFrame (f : AudioFrame)
| HostPlayback (pcm_tx : nat) (pcm : list f32).

Inductive MixInput : Type :=
| AddSpeaker (pubkey : string) (pcm_rx : nat)
| SetHostSpeaker (pubkey : string) (pcm_tx : nat)
| MixTick (received : Received).

Abbreviation mix := (eff Mixer MixEffect).

Definition new_mixer (signing_key : SecretKey) (listener_encoder host_encoder : Encoder) : Mixer :=
  {| mx_buffers := ∅; mx_channels := []; mx_host_speaker := None;
     mx_listener_encoder := {| oe_encoder := listener_encoder; oe_buffer := [] |};
     mx_host_encoder := {| oe_encoder := host_encoder; oe_buffer := [] |};
     mx_auth := host_auth_new signing_key;
     mx_listener_seq := 0; mx_listener_ts := 0; mx_host_seq := 0; mx_host_ts := 0 |}.

Definition set_voices (buffers : gmap string (list f32)) (channels : list (string * nat)) (m : Mixer) : Mixer :=
  {| mx_buffers := buffers; mx_channels := channels; mx_host_speaker := mx_host_speaker m;
     mx_listener_encoder := mx_listener_encoder m; mx_host_encoder := mx_host_encoder m; mx_auth := mx_auth m;
     mx_listener_seq := mx_listener_seq m; mx_listener_ts := mx_listener_ts m;
     mx_host_seq := mx_host_seq m; mx_host_ts := mx_host_ts m |}.
Definition set_host_speaker (h : option (string * nat)) (m : Mixer) : Mixer :=
  {| mx_buffers := mx_buffers m; mx_channels := mx_channels m; mx_host_speaker := h;
     mx_listener_encoder := mx_listener_encoder m; mx_host_encoder := mx_host_encoder m; mx_auth := mx_auth m;
     mx_listener_seq := mx_listener_seq m; mx_listener_ts := mx_listener_ts m;
     mx_host_seq := mx_host_seq m; mx_host_ts := mx_host_ts m |}.
Definition set_listener_encoder (e : OpusEncoder f32) (m : Mixer) : Mixer :=
  {| mx_buffers := mx_buffers m; mx_channels := mx_channels m; mx_host_speaker := mx_host_speaker m;
     mx_listener_encoder := e; mx_host_encoder := mx_host_encoder m; mx_auth := mx_auth m;
     mx_listener_seq := mx_listener_seq m; mx_listener_ts := mx_listener_ts m;
     mx_host_seq := mx_host_seq m; mx_host_ts := mx_host_ts m |}.
Definition set_host_encoder (e : OpusEncoder f32) (m : Mixer) : Mixer :=
  {| mx_buffers := mx_buffers m; mx_channels := mx_channels m; mx_host_speaker := mx_host_speaker m;
     mx_listener_encoder := mx_listener_encoder m; mx_host_encoder := e; mx_auth := mx_auth m;
     mx_listener_seq := mx_listener_seq m; mx_listener_ts := mx_listener_ts m;
     mx_host_seq := mx_host_seq m; mx_host_ts := mx_host_ts m |}.
Definition next_listener (auth : HostAuthState) (m : Mixer) : Mixer :=
  {| mx_buffers := mx_buffers m; mx_channels := mx_channels m; mx_host_speaker := mx_host_speaker m;
     mx_listener_encoder := mx_listener_encoder m; mx_host_encoder := mx_host_encoder m; mx_auth := auth;
     mx_listener_seq := add_u32 (mx_listener_seq m) 1;
     mx_listener_ts := add_u32 (mx_listener_ts m) (as_u32 SAMPLES_PER_FRAME);
     mx_host_seq := mx_host_seq m; mx_host_ts := mx_host_ts m |}.
Definition next_host (m : Mixer) : Mixer :=
  {| mx_buffers := mx_buffers m; mx_channels := mx_channels m; mx_host_speaker := mx_host_speaker m;
     mx_listener_encoder := mx_listener_encoder m; mx_host_encoder := mx_host_encoder m; mx_auth := mx_auth m;
     mx_listener_seq := mx_listener_seq m; mx_listener_ts := mx_listener_ts m;
     mx_host_seq := add_u32 (mx_host_seq m) 1;
     mx_host_ts := add_u32 (mx_host_ts m) (as_u32 SAMPLES_PER_FRAME) |}.

(** ** A tick *)

Definition set_buffer (pubkey : string) (buf : list f32) : mix unit :=
  modify_state (fun m => set_voices (<[pubkey := buf]> (mx_buffers m)) (mx_channels m) m).

(** A batch of a channel: the oldest samples beyond the cap are dropped. *)
Definition receive_batch (pubkey : string) (samples : list f32) : mix unit :=
  m ← get_state;
  match mx_buffers m !! pubkey with
  | Some buf =>
      _ ← set_buffer pubkey (buf ++ samples);
      if (MAX_SPEAKER_BUFFER <? length buf + length samples)%nat then
        _ ← log_arg pubkey;
        set_buffer pubkey (extend_capped MAX_SPEAKER_BUFFER buf samples)
      else mret tt
  | None => mret tt
  end.

Fixpoint receive_batches (pubkey : string) (batches : list (list f32)) : mix unit :=
  match batches with
  | [] => mret tt
  | samples :: batches => _ ← receive_batch pubkey samples; receive_batches pubkey batches
  end.

(** The loop over the channels; the keys of those that are closed. *)
Fixpoint drain_channels (received : Received) (channels : list (string * nat)) : mix (list string) :=
  match channels with
  | [] => mret []
  | (pubkey, rx) :: channels =>
      let '(batches, closed) := received rx in
      _ ← receive_batches pubkey batches;
      _ ← (if closed : bool then log_arg pubkey else mret tt);
      dead ← drain_channels received channels;
      mret (if closed : bool then pubkey :: dead else dead)
  end.

(** A closed channel: the speaker goes, with all its channels. *)
Definition remove_speaker (pubkey : string) (m : Mixer) : Mixer :=
  set_voices (delete pubkey (mx_buffers m)) (filter (fun pr => pr.1 <> pubkey) (mx_channels m)) m.

Fixpoint listener_frames (packets : list bytes) : mix unit :=
  match packets with
  | [] => mret tt
  | packet :: packets =>
      m ← get_state;
      let '(auth, (tag, wire_payload)) := process (mx_auth m) packet in
      _ ← effect (ListenerFrame {| af_seq := mx_listener_seq m; af_timestamp := mx_listener_ts m;
                                   af_tag := tag; af_payload := wire_payload |});
      _ ← modify_state (next_listener auth);
      listener_frames packets
  end.

Fixpoint host_frames (packets : list bytes) : mix unit :=
  match packets with
  | [] => mret tt
  | packet :: packets =>
      m ← get_state;
      _ ← effect (HostFrame {| af_seq := mx_host_seq m; af_timestamp := mx_host_ts m;
                               af_tag := TAG_NORMAL; af_payload := packet |});
      _ ← modify_state next_host;
      host_frames packets
  end.

(** The contribution of the host, cut out of the mix for its own playback. *)
Definition host_contribution (m : Mixer) : list f32 :=
  match mx_host_speaker m with
  | Some (host_pk, _) =>
      match mx_buffers m !! host_pk with Some buf => contribution buf | None => silence FRAME_SIZE end
  | None => silence FRAME_SIZE
  end.

Definition minus_host (total host : list f32) : list f32 :=
  zip_with (fun t c => clamp (f32_sub t c)) total host.

Definition mix_tick (received : Received) : mix unit :=
  m ← get_state;
  dead ← drain_channels received (mx_channels m);
  _ ← modify_state (fun m => fold_left (fun m pubkey => remove_speaker pubkey m) dead m);
  m ← get_state;
  let total := mix_frame (mx_buffers m) in
  let host_contrib := host_contribution m in
  _ ← modify_state (fun m => set_voices (drop FRAME_SIZE <$> mx_buffers m) (mx_channels m) m);
  let '(enc, packets) := push_samples (mx_listener_encoder m) (clamp <$> total) in
  _ ← modify_state (set_listener_encoder enc);
  _ ← listener_frames packets;
  _ ← match mx_host_speaker m with
      | Some (_, pcm_tx) => effect (HostPlayback pcm_tx (minus_host total host_contrib))
      | None => mret tt
      end;
  let '(enc, packets) := push_samples (mx_host_encoder m) (clamp <$> host_contrib) in
  _ ← modify_state (set_host_encoder enc);
  host_frames packets.

(** One round of the loop of [run_mixer]. *)
Definition mix_step (x : MixInput) : mix unit :=
  match x with
  | AddSpeaker pubkey pcm_rx =>
      _ ← log_arg pubkey;
      modify_state (fun m => set_voices (<[pubkey := []]> (mx_buffers m)) (mx_channels m ++ [(pubkey, pcm_rx)]) m)
  | SetHostSpeaker pubkey pcm_tx => modify_state (set_host_speaker (Some (pubkey, pcm_tx)))
  | MixTick received => mix_tick received
  end.

Fixpoint run_mixer (inputs : list MixInput) : mix unit :=
  match inputs with
  | [] => mret tt
  | x :: inputs => _ ← mix_step x; run_mixer inputs
  end.
End mixer.

(** ** speaker_mixer.rs *)

Section speaker_mixer.
Context `{HashOrder}.

Record SpeakerMixer : Type := {
  sm_buffers : gmap Z (list f32);
  sm_streams : list (Z * nat);
  sm_far_end_tx : option nat;
}.
Definition new_speaker_mixer : SpeakerMixer :=
  {| sm_buffers := ∅; sm_streams := []; sm_far_end_tx := None |}.

Inductive SpeakerMixerInput : Type :=
| AddStream (id : Z) (rx : nat)
| RemoveStream (id : Z)
| SetFarEndTx (tx : nat)
| SpeakerTick (received : Received).

(** The reference for the echo canceller, and what is played. *)
Inductive SpeakerMixEffect : Type :=
| FarEnd (tx : nat) (mix : list f32)
| PlayMix (mix : list f32).

Definition set_streams (buffers : gmap Z (list f32)) (streams : list (Z * nat)) (m : SpeakerMixer) : SpeakerMixer :=
  {| sm_buffers := buffers; sm_streams := streams; sm_far_end_tx := sm_far_end_tx m |}.

Definition remove_stream (id : Z) (m : SpeakerMixer) : SpeakerMixer :=
  set_streams (delete id (sm_buffers m)) (filter (fun s => s.1 <> id) (sm_streams m)) m.

(** The loop over the streams; the ids of those that are closed. *)
Fixpoint drain_streams (received : Received) (streams : list (Z * nat)) (buffers : gmap Z (list f32))
    : gmap Z (list f32) * list Z :=
  match streams with
  | [] => (buffers, [])
  | (id, rx) :: streams =>
      let '(batches, closed) := received rx in
      let buffers := alter (fun buf => fold_left (extend_capped MAX_STREAM_BUFFER) batches buf) id buffers in
      let '(buffers, dead) := drain_streams received streams buffers in
      (buffers, if closed : bool then id :: dead else dead)
  end.

Definition speaker_mix_step (x : SpeakerMixerInput) (m : SpeakerMixer) : SpeakerMixer * list SpeakerMixEffect :=
  match x with
  | AddStream id rx => (set_streams (<[id := []]> (sm_buffers m)) (sm_streams m ++ [(id, rx)]) m, [])
  | RemoveStream id => (remove_stream id m, [])
  | SetFarEndTx tx =>
      ({| sm_buffers := sm_buffers m; sm_streams := sm_streams m; sm_far_end_tx := Some tx |}, [])
  | SpeakerTick received =>
      let '(buffers, dead) := drain_streams received (sm_streams m) (sm_buffers m) in
      let m := fold_left (fun m id => remove_stream id m) dead (set_streams buffers (sm_streams m) m) in
      let mix := clamp <$> mix_frame (sm_buffers m) in
      (set_streams (drop FRAME_SIZE <$> sm_buffers m) (sm_streams m) m,
       match sm_far_end_tx m with Some tx => [FarEnd tx mix] | None => [] end ++ [PlayMix mix])
  end.

Fixpoint run_speaker_mixer (inputs : list SpeakerMixerInput) (m : SpeakerMixer)
    : SpeakerMixer * list SpeakerMixEffect :=
  match inputs with
  | [] => (m, [])
  | x :: inputs =>
      let '(m, ef) := speaker_mix_step x m in
      let '(m, ef') := run_speaker_mixer inputs m in (m, ef ++ ef')
  end.
End speaker_mixer.

(** ** audio/playback.rs *)

Definition PLAYBACK_CAPACITY_FRAMES : nat := 10.

(** The ring buffer of the ringbuf crate: [push_slice] returns how many samples
    it took, [pop_slice] the samples it gave. *)
Class RingLib := {
  Ring : Type;
  ring_new : nat -> Ring;
  push_slice : Ring -> list f32 -> Ring * nat;
  pop_slice : Ring -> nat -> Ring * list f32;
}.
(** What is documented: a queue of bounded length that takes the first samples
    of a slice that fit. *)
Class RingLaws `{RingLib} := {
  ring_items : Ring -> list f32;
  ring_capacity : Ring -> nat;
  ring_new_spec n : ring_items (ring_new n) = [] /\ ring_capacity (ring_new n) = n;
  push_slice_spec r l :
    (push_slice r l).2 = Nat.min (length l) (ring_capacity r - length (ring_items r)) /\
    ring_items (push_slice r l).1 = ring_items r ++ take (push_slice r l).2 l /\
    ring_capacity (push_slice r l).1 = ring_capacity r;
  pop_slice_spec r n :
    (pop_slice r n).2 = take n (ring_items r) /\
    ring_items (pop_slice r n).1 = drop n (ring_items r) /\
    ring_capacity (pop_slice r n).1 = ring_capacity r;
}.

Section playback.
Context `{RingLib}.

Record Playback : Type := {
  pb_ring : Ring;
  pb_underruns : Z; (* usize *)
}.

Definition playback_start : Playback :=
  {| pb_ring := ring_new (PLAYBACK_CAPACITY_FRAMES * FRAME_SIZE); pb_underruns := 0 |}.

Definition playback_push (samples : list f32) (p : Playback) : Playback * nat :=
  let '(ring, n) := push_slice (pb_ring p) samples in
  ({| pb_ring := ring; pb_underruns := pb_underruns p |}, n).

Definition drain_underruns (p : Playback) : Playback * Z :=
  ({| pb_ring := pb_ring p; pb_underruns := 0 |}, pb_underruns p).

(** The callback of the output stream, for [n] samples. *)
Definition output_callback (n : nat) (p : Playback) : Playback * list f32 :=
  let '(ring, samples) := pop_slice (pb_ring p) n in
  if (length samples <? n)%nat then
    ({| pb_ring := ring; pb_underruns := add_u64 (pb_underruns p) 1 |}, samples ++ silence (n - length samples))
  else ({| pb_ring := ring; pb_underruns := pb_underruns p |}, samples).

(** [built] is the result of building the new stream. *)
Definition switch_device {Error} (built : result Error unit) (p : Playback) : Playback * result Error unit :=
  match built with
  | Ok _ =>
      ({| pb_ring := ring_new (PLAYBACK_CAPACITY_FRAMES * FRAME_SIZE); pb_underruns := pb_underruns p |}, Ok tt)
  | Err e => (p, Err e)
  end.
End playback.
