(* ===== verification/MixingTheorems.v ===== *)
(** * Theorems on the mixers and the playback

    The listener stream of the host is the authenticated stream of the packets
    it encodes, numbered without a gap; buffers are bounded and samples clamped;
    a speaker that connects again before its first channel is noticed to be
    closed is dropped from the mix; the playback is a queue. *)

From Stdlib Require Import SpecFloat.
From S2P Require Import Prelude Types Validation Signing Concrete Store ConcreteStore Effects Framing Audio AudioTheorems StageAuth StageAuthTheorems Mixing.

Local Open Scope Z_scope.

(** ** Samples *)

(** Within [-1] and [1], or not a number. *)
Definition in_range (x : f32) : Prop := SFltb x (SFopp f32_one) = false /\ SFltb f32_one x = false.

Lemma clamp_in_range x : in_range (clamp x).
Proof.
  unfold in_range, clamp. destruct (SFltb x (SFopp f32_one)) eqn:E1; [by split|].
  destruct (SFltb f32_one x) eqn:E2; by split.
Qed.

Lemma add_samples_length total samples : length (add_samples total samples) = length total.
Proof. revert samples. induction total as [|t total IH]; intros [|s samples]; cbn; by rewrite ?IH. Qed.

Lemma mix_frame_length {K} `{HashOrder, Countable K} (buffers : gmap K (list f32)) :
  length (mix_frame buffers) = FRAME_SIZE.
Proof.
  unfold mix_frame. assert (forall l total, length (fold_left (fun total (kb : K * list f32) =>
    add_samples total (take FRAME_SIZE kb.2)) l total) = length total) as Hl.
  { induction l as [|kb l IH]; intros total; [done|]. cbn. by rewrite IH, add_samples_length. }
  rewrite Hl. apply length_replicate.
Qed.
Lemma contribution_length buf : length (contribution buf) = FRAME_SIZE.
Proof. unfold contribution, silence. rewrite length_app, length_take, length_replicate. lia. Qed.

(** A whole frame pushed to an encoder that holds none is encoded at once. *)
Lemma push_frame `{OpusLib f32} enc frame :
  oe_buffer enc = [] -> length frame = FRAME_SIZE ->
  push_samples enc frame =
    ({| oe_encoder := (encode_float (oe_encoder enc) frame).1; oe_buffer := [] |},
     option_list (encode_float (oe_encoder enc) frame).2).
Proof.
  intros Hb Hl. unfold push_samples. rewrite Hb. unfold extend_capped. rewrite app_nil_l, Hl.
  replace (FRAME_SIZE - FRAME_SIZE * 10)%nat with 0%nat by lia. rewrite drop_0.
  fold (frames_of FRAME_SIZE frame). rewrite (frames_of_long _ frame_size_pos) by lia.
  rewrite drop_ge, take_ge by lia. rewrite (frames_of_short _ frame_size_pos) by (cbn; apply frame_size_pos).
  cbn [fst snd encode_frames]. destruct (encode_float (oe_encoder enc) frame) as [e [p|]]; done.
Qed.

(** ** The stream of the listeners *)

(** Wire frames, numbered from a sequence number and a timestamp. *)
Fixpoint number (seq ts : Z) (wire : list (Z * bytes)) : list AudioFrame :=
  match wire with
  | [] => []
  | (tag, payload) :: wire =>
      {| af_seq := seq; af_timestamp := ts; af_tag := tag; af_payload := payload |} ::
        number (add_u32 seq 1) (add_u32 ts (as_u32 SAMPLES_PER_FRAME)) wire
  end.
Definition listener_out (ef : list MixEffect) : list AudioFrame :=
  omap (fun e => match e with ListenerFrame f => Some f | _ => None end) ef.

Section stream.
Context `{Ed25519, Sha256, OpusLib f32, HashOrder}.

(** The state of the host after a list of packets. *)
Definition host_after (st : HostAuthState) (packets : list bytes) : HostAuthState :=
  fold_left (fun st p => (process st p).1) packets st.

Lemma host_stream_app ps qs st :
  host_stream st (ps ++ qs) = host_stream st ps ++ host_stream (host_after st ps) qs.
Proof.
  revert st. induction ps as [|p ps IH]; intros st; [done|]. cbn [app host_stream].
  rewrite (surjective_pairing (process st p)). cbn. by rewrite IH.
Qed.

(** Packets that an encoder made of whole frames. *)
Definition encoded (p : bytes) : Prop :=
  exists e frame, length frame = FRAME_SIZE /\ (encode_float e frame).2 = Some p.

(** The frames [ef] shows are the next packets of the stream. *)
Definition streams (m : Mixer) (ef : list MixEffect) (m' : Mixer) : Prop :=
  exists packets,
    listener_out ef = number (mx_listener_seq m) (mx_listener_ts m) (host_stream (mx_auth m) packets) /\
    mx_auth m' = host_after (mx_auth m) packets /\
    mx_listener_seq m' = Nat.iter (length packets) (fun s => add_u32 s 1) (mx_listener_seq m) /\
    mx_listener_ts m' = Nat.iter (length packets) (fun t => add_u32 t (as_u32 SAMPLES_PER_FRAME)) (mx_listener_ts m) /\
    Forall encoded packets.

Lemma iter_comm {A} (f : A -> A) n x : Nat.iter n f (f x) = f (Nat.iter n f x).
Proof.
  induction n as [|n IH]; [done|]. change (f (Nat.iter n f (f x)) = f (f (Nat.iter n f x))). by rewrite IH.
Qed.

Lemma number_app seq ts l1 l2 :
  number seq ts (l1 ++ l2) = number seq ts l1 ++
    number (Nat.iter (length l1) (fun s => add_u32 s 1) seq)
      (Nat.iter (length l1) (fun t => add_u32 t (as_u32 SAMPLES_PER_FRAME)) ts) l2.
Proof.
  revert seq ts. induction l1 as [|[tag p] l1 IH]; intros seq ts; [done|].
  cbn [app number length]. rewrite IH. f_equal. f_equal. f_equal.
  - exact (iter_comm (fun s => add_u32 s 1) (length l1) seq).
  - exact (iter_comm (fun t => add_u32 t (as_u32 SAMPLES_PER_FRAME)) (length l1) ts).
Qed.
Lemma host_stream_length st ps : length (host_stream st ps) = length ps.
Proof.
  revert st. induction ps as [|p ps IH]; intros st; [done|]. cbn [host_stream].
  rewrite (surjective_pairing (process st p)). cbn. by rewrite IH.
Qed.

Lemma streams_nil m : streams m [] m.
Proof. by exists []. Qed.
Lemma streams_app m1 ef1 m2 ef2 m3 : streams m1 ef1 m2 -> streams m2 ef2 m3 -> streams m1 (ef1 ++ ef2) m3.
Proof.
  intros (ps & E1 & A1 & S1 & T1 & F1) (qs & E2 & A2 & S2 & T2 & F2). exists (ps ++ qs). split_and!.
  - unfold listener_out. rewrite omap_app. fold (listener_out ef1) (listener_out ef2).
    by rewrite E1, E2, host_stream_app, number_app, host_stream_length, A1, S1, T1.
  - rewrite A2, A1. unfold host_after. by rewrite fold_left_app.
  - rewrite S2, S1, length_app. rewrite Nat.add_comm. symmetry. apply Nat.iter_add.
  - rewrite T2, T1, length_app. rewrite Nat.add_comm. symmetry. apply Nat.iter_add.
  - by apply Forall_app.
Qed.
(** What changes neither the stream nor its numbers. *)
Lemma streams_same m ef m' :
  listener_out ef = [] -> mx_auth m' = mx_auth m -> mx_listener_seq m' = mx_listener_seq m ->
  mx_listener_ts m' = mx_listener_ts m -> streams m ef m'.
Proof. intros. exists []. by split_and!. Qed.

Local Abbreviation streaming := (traces streams).

Lemma streaming_bind {A B} (m : eff Mixer MixEffect A) (f : A -> eff Mixer MixEffect B) :
  streaming m -> (forall a, streaming (f a)) -> streaming (m ≫= f).
Proof. apply traces_bind, streams_app. Qed.
Lemma streaming_ret {A} (a : A) : streaming (mret a).
Proof. apply traces_ret, streams_nil. Qed.
Lemma streaming_get : streaming get_state.
Proof. apply traces_get, streams_nil. Qed.
Lemma streaming_log x : streaming (log_arg x).
Proof. apply traces_log, streams_nil. Qed.
Lemma streaming_modify f :
  (forall m, mx_auth (f m) = mx_auth m /\ mx_listener_seq (f m) = mx_listener_seq m /\
     mx_listener_ts (f m) = mx_listener_ts m) -> streaming (modify_state f).
Proof. intros Hf. apply traces_modify. intros m. destruct (Hf m) as (?&?&?). by apply streams_same. Qed.
Lemma streaming_effect e : listener_out [e] = [] -> streaming (effect e).
Proof. intros He. apply traces_effect. intros m. by apply streams_same. Qed.

Lemma receive_batches_streaming pubkey batches : streaming (receive_batches pubkey batches).
Proof.
  induction batches as [|samples batches IH]; cbn [receive_batches]; [apply streaming_ret|].
  apply streaming_bind; [|done]. unfold receive_batch, set_buffer. apply streaming_bind; [apply streaming_get|].
  intros m. destruct (mx_buffers m !! pubkey); [|apply streaming_ret].
  apply streaming_bind; [by apply streaming_modify|]. intros _. case_match; [|apply streaming_ret].
  apply streaming_bind; [apply streaming_log|]. intros _. by apply streaming_modify.
Qed.
Lemma drain_channels_streaming received channels : streaming (drain_channels received channels).
Proof.
  induction channels as [|[pubkey rx] channels IH]; cbn [drain_channels]; [apply streaming_ret|].
  destruct (received rx) as [batches closed]. apply streaming_bind; [apply receive_batches_streaming|].
  intros _. apply streaming_bind; [destruct closed; [apply streaming_log|apply streaming_ret]|].
  intros _. apply streaming_bind; [done|]. intros dead. apply streaming_ret.
Qed.

Lemma remove_speakers_fields dead m :
  let m' := fold_left (fun m pubkey => remove_speaker pubkey m) dead m in
  mx_auth m' = mx_auth m /\ mx_listener_seq m' = mx_listener_seq m /\ mx_listener_ts m' = mx_listener_ts m.
Proof. revert m. induction dead as [|pk dead IH]; intros m; [done|]. apply (IH (remove_speaker pk m)). Qed.

Lemma listener_frames_streaming packets :
  Forall encoded packets -> streaming (listener_frames packets).
Proof.
  induction 1 as [|p packets Hp _ IH]; cbn [listener_frames]; [apply streaming_ret|].
  intros m. rewrite run_eff_get. destruct (process (mx_auth m) p) as [auth [tag payload]] eqn:Ep.
  rewrite run_eff_effect, run_eff_modify. specialize (IH (next_listener auth m)).
  destruct (listener_frames packets (next_listener auth m)) as [[m' ef] r]. cbn [fst snd] in *.
  apply (streams_app m [_] (next_listener auth m) ef m'); [|exact IH].
  exists [p]. split_and!; try done; [| |by constructor]; cbn; by rewrite Ep.
Qed.
Lemma host_frames_streaming packets : streaming (host_frames packets).
Proof.
  induction packets as [|p packets IH]; cbn [host_frames]; [apply streaming_ret|].
  apply streaming_bind; [apply streaming_get|]. intros m. apply streaming_bind; [by apply streaming_effect|].
  intros _. apply streaming_bind; [by apply streaming_modify|done].
Qed.

Lemma encode_frames_encoded e frames :
  Forall (fun f => length f = FRAME_SIZE) frames -> Forall encoded (encode_frames e frames).2.
Proof.
  intros Hf. revert e. induction Hf as [|f frames Hf _ IH]; intros e; [constructor|]. cbn [encode_frames].
  destruct (encode_float e f) as [e1 out] eqn:E1. specialize (IH e1).
  destruct (encode_frames e1 frames) as [e2 packets]. destruct out as [p|]; [|done].
  constructor; [|done]. exists e, f. by rewrite E1.
Qed.
Lemma push_samples_encoded enc samples : Forall encoded (push_samples enc samples).2.
Proof.
  unfold push_samples. fold (frames_of FRAME_SIZE (extend_capped (FRAME_SIZE * 10) (oe_buffer enc) samples)).
  destruct (frames_of_whole _ frame_size_pos (extend_capped (FRAME_SIZE * 10) (oe_buffer enc) samples)) as [_ Hf].
  destruct (frames_of _ _) as [frames rest]. cbn [fst] in Hf.
  pose proof (encode_frames_encoded (oe_encoder enc) frames Hf) as He.
  by destruct (encode_frames _ _).
Qed.

Lemma mix_tick_streaming received : streaming (mix_tick received).
Proof.
  unfold mix_tick. apply streaming_bind; [apply streaming_get|]. intros m0.
  apply streaming_bind; [apply drain_channels_streaming|]. intros dead.
  apply streaming_bind; [apply streaming_modify, remove_speakers_fields|]. intros _.
  apply streaming_bind; [apply streaming_get|]. intros m. cbv zeta.
  apply streaming_bind; [by apply streaming_modify|]. intros _.
  pose proof (push_samples_encoded (mx_listener_encoder m) (clamp <$> mix_frame (mx_buffers m))) as He.
  destruct (push_samples (mx_listener_encoder m) _) as [enc packets]. cbn [snd] in He.
  apply streaming_bind; [by apply streaming_modify|]. intros _.
  apply streaming_bind; [by apply listener_frames_streaming|]. intros _.
  apply streaming_bind; [destruct (mx_host_speaker m) as [[??]|]; [by apply streaming_effect|apply streaming_ret]|].
  intros _. destruct (push_samples (mx_host_encoder m) _) as [enc2 packets2].
  apply streaming_bind; [by apply streaming_modify|]. intros _. apply host_frames_streaming.
Qed.

Lemma run_mixer_streaming inputs : streaming (run_mixer inputs).
Proof.
  induction inputs as [|x inputs IH]; cbn [run_mixer]; [apply streaming_ret|].
  apply streaming_bind; [|done]. destruct x as [pubkey rx|pubkey tx|received]; cbn [mix_step].
  - apply streaming_bind; [apply streaming_log|]. intros _. by apply streaming_modify.
  - by apply streaming_modify.
  - apply mix_tick_streaming.
Qed.
End stream.

(** ** The voices *)

Section voices.
Context `{Ed25519, Sha256, OpusLib f32, HashOrder}.

(** Buffers are capped, a voice has a buffer exactly if it has a channel, and no
    encoder holds a part of a frame. *)
Record mixer_ok (m : Mixer) : Prop := {
  mo_buffers : map_Forall (fun _ buf => length buf <= MAX_SPEAKER_BUFFER)%nat (mx_buffers m);
  mo_keys pk : is_Some (mx_buffers m !! pk) <-> exists rx, (pk, rx) ∈ mx_channels m;
  mo_listener : oe_buffer (mx_listener_encoder m) = [];
  mo_host : oe_buffer (mx_host_encoder m) = [];
}.

(** The fields but for the buffers. *)
Definition same_but_buffers (m m' : Mixer) : Prop :=
  m' = set_voices (mx_buffers m') (mx_channels m) m /\
  (forall pk, is_Some (mx_buffers m' !! pk) <-> is_Some (mx_buffers m !! pk)).
#[export] Instance same_but_buffers_refl : Reflexive same_but_buffers.
Proof. intros m. split; [by destruct m|done]. Qed.
#[export] Instance same_but_buffers_trans : Transitive same_but_buffers.
Proof.
  intros m1 m2 m3 [E1 K1] [E2 K2]. split.
  - rewrite E2 at 1. by rewrite E1.
  - intros pk. by rewrite K2.
Qed.
Lemma same_but_buffers_ok m m' :
  same_but_buffers m m' -> mixer_ok m ->
  map_Forall (fun _ buf => length buf <= MAX_SPEAKER_BUFFER)%nat (mx_buffers m') -> mixer_ok m'.
Proof.
  intros [E K] [B Ky L Ho] Hb. split; [done| |by rewrite E|by rewrite E].
  intros pk. rewrite K, Ky. by rewrite E.
Qed.

(** Receiving is silent and only changes the buffers, within the cap. *)
Definition receives (m : Mixer) (ef : list MixEffect) (m' : Mixer) : Prop :=
  ef = [] /\ same_but_buffers m m' /\ (mixer_ok m -> mixer_ok m').
Lemma receives_nil m : receives m [] m.
Proof. by split_and!. Qed.
Lemma receives_app m1 ef1 m2 ef2 m3 : receives m1 ef1 m2 -> receives m2 ef2 m3 -> receives m1 (ef1 ++ ef2) m3.
Proof. intros (-> & S1 & O1) (-> & S2 & O2). split_and!; [done|by etransitivity|auto]. Qed.

Lemma set_buffer_same pubkey buf m :
  is_Some (mx_buffers m !! pubkey) ->
  same_but_buffers m (set_voices (<[pubkey := buf]> (mx_buffers m)) (mx_channels m) m).
Proof.
  intros Hs. split; [done|]. intros pk. cbn. destruct (decide (pk = pubkey)) as [->|Hne].
  - rewrite lookup_insert_eq. split; [done|by eexists].
  - by rewrite lookup_insert_ne.
Qed.
Lemma extend_capped_length {A} cap (buf samples : list A) : (length (extend_capped cap buf samples) <= cap)%nat.
Proof. unfold extend_capped. rewrite length_drop. lia. Qed.

Lemma receive_batch_spec pubkey samples m m' ef u :
  receive_batch pubkey samples m = (m', ef, Some u) ->
  ef = [] /\ m' = set_voices (alter (fun buf => extend_capped MAX_SPEAKER_BUFFER buf samples) pubkey (mx_buffers m))
    (mx_channels m) m.
Proof.
  unfold receive_batch, set_buffer. rewrite run_eff_get.
  destruct (mx_buffers m !! pubkey) as [buf|] eqn:E.
  2: { intros [= <- <- _]. split; [done|]. rewrite alter_id; [by destruct m|]. intros x. by rewrite E. }
  rewrite run_eff_modify. destruct (Nat.ltb_spec MAX_SPEAKER_BUFFER (length buf + length samples)) as [Hl|Hl].
  - intros (m1 & ef1 & [] & ef2 & E1 & E2 & ->)%eff_bind_inv. unfold log_arg in E1.
    destruct (short_id pubkey); [|done]. injection E1 as <- <-. injection E2 as <- <-. split; [done|].
    cbn. rewrite insert_insert_eq. unfold set_voices. cbn. f_equal.
    rewrite <-(insert_id (mx_buffers m) pubkey buf E) at 2. by rewrite alter_insert_eq.
  - intros [= <- <- _]. split; [done|]. f_equal. rewrite <-(insert_id (mx_buffers m) pubkey buf E) at 2.
    rewrite alter_insert_eq. f_equal. unfold extend_capped. rewrite length_app.
    replace (length buf + length samples - MAX_SPEAKER_BUFFER)%nat with 0%nat by lia. by rewrite drop_0.
Qed.

Lemma receive_batch_receives pubkey samples : leads receives (receive_batch pubkey samples).
Proof.
  intros m m' ef u [-> ->]%receive_batch_spec.
  assert (same_but_buffers m (set_voices (alter (fun buf => extend_capped MAX_SPEAKER_BUFFER buf samples)
    pubkey (mx_buffers m)) (mx_channels m) m)) as Hs.
  { split; [done|]. intros pk. cbn. apply lookup_alter_is_Some. }
  split_and!; [done..|]. intros Hok. apply (same_but_buffers_ok m); [done..|].
  intros pk buf. cbn. destruct (decide (pk = pubkey)) as [->|Hne].
  - rewrite lookup_alter_eq. intros (b & _ & ->)%fmap_Some. apply extend_capped_length.
  - rewrite lookup_alter_ne by done. apply (mo_buffers _ Hok).
Qed.
Lemma receive_batches_receives pubkey batches : leads receives (receive_batches pubkey batches).
Proof.
  induction batches as [|samples batches IH]; cbn [receive_batches]; [apply leads_ret, receives_nil|].
  apply leads_bind; [apply receives_app|apply receive_batch_receives|done].
Qed.
Lemma drain_channels_receives received channels : leads receives (drain_channels received channels).
Proof.
  induction channels as [|[pubkey rx] channels IH]; cbn [drain_channels]; [apply leads_ret, receives_nil|].
  destruct (received rx) as [batches closed].
  apply leads_bind; [apply receives_app|apply receive_batches_receives|]. intros _.
  apply leads_bind; [apply receives_app|apply traces_leads; destruct closed;
    [apply traces_log, receives_nil|apply traces_ret, receives_nil]|]. intros _.
  apply leads_bind; [apply receives_app|done|]. intros dead. apply leads_ret, receives_nil.
Qed.

(** The keys reported closed are those of the channels that are. *)
Lemma drain_channels_dead received channels m m' ef dead :
  drain_channels received channels m = (m', ef, Some dead) ->
  forall pk, pk ∈ dead <-> exists rx, (pk, rx) ∈ channels /\ (received rx).2 = true.
Proof.
  revert m m' ef dead. induction channels as [|[pubkey rx] channels IH]; intros m m' ef dead; cbn [drain_channels].
  { intros [= _ _ <-] pk. split; [by intros ?%elem_of_nil|]. by intros (? & ?%elem_of_nil & _). }
  destruct (received rx) as [batches closed] eqn:Er.
  intros (m1 & ef1 & [] & ef2 & E1 & (m2 & ef3 & [] & ef4 & E2 & (m3 & ef5 & dead2 & ef6 & E3 & [= <- <- <-] & _)%eff_bind_inv
    & _)%eff_bind_inv & _)%eff_bind_inv pk.
  pose proof (IH _ _ _ _ E3 pk) as Hd.
  assert (pk ∈ dead2 \/ (closed = true /\ pk = pubkey) <-> exists rx0, (pk, rx0) ∈ (pubkey, rx) :: channels /\ (received rx0).2 = true) as Hall.
  { rewrite Hd. split.
    - intros [(rx0 & ? & ?)|[-> ->]]; [exists rx0; by rewrite elem_of_cons; auto|]. exists rx. rewrite Er. split; [by left|done].
    - intros (rx0 & [[= -> ->]|?]%elem_of_cons & Hc); [right; by rewrite Er in Hc|left; eauto]. }
  rewrite <-Hall. clear. destruct closed; [rewrite elem_of_cons; naive_solver|naive_solver].
Qed.

Lemma remove_speaker_ok pk m : mixer_ok m -> mixer_ok (remove_speaker pk m).
Proof.
  intros [B K L Ho]. split; cbn; [by apply map_Forall_delete| |done|done].
  intros pk'. rewrite lookup_delete_is_Some, K. setoid_rewrite list_elem_of_filter. cbn. naive_solver.
Qed.
Lemma remove_speakers_ok dead m : mixer_ok m -> mixer_ok (fold_left (fun m pk => remove_speaker pk m) dead m).
Proof. revert m. induction dead as [|pk dead IH]; intros m Hm; [done|]. by apply IH, remove_speaker_ok. Qed.
Lemma remove_speakers_gone dead m pk :
  let m' := fold_left (fun m pk => remove_speaker pk m) dead m in
  (pk ∈ dead -> mx_buffers m' !! pk = None) /\ (mx_buffers m !! pk = None -> mx_buffers m' !! pk = None).
Proof.
  revert m. induction dead as [|pk' dead IH]; intros m; cbn; [split; [by intros ?%elem_of_nil|done]|].
  destruct (IH (remove_speaker pk' m)) as [I1 I2]. split.
  - intros [->|?]%elem_of_cons; [|by apply I1]. apply I2. cbn. apply lookup_delete_eq.
  - intros Hn. apply I2. cbn. destruct (decide (pk = pk')) as [->|?]; [apply lookup_delete_eq|by rewrite lookup_delete_ne].
Qed.
End voices.

(** ** A tick *)

Section ticks.
Context `{Ed25519, Sha256, OpusLib f32, HashOrder}.

(** Everything played is a whole frame of samples in range. *)
Definition effect_ok (e : MixEffect) : Prop :=
  match e with HostPlayback _ pcm => length pcm = FRAME_SIZE /\ Forall in_range pcm | _ => True end.

Definition same_voices (m m' : Mixer) : Prop :=
  mx_buffers m' = mx_buffers m /\ mx_channels m' = mx_channels m /\ mx_host_speaker m' = mx_host_speaker m /\
  mx_listener_encoder m' = mx_listener_encoder m /\ mx_host_encoder m' = mx_host_encoder m.
(** Sending frames always succeeds. *)
Definition sends (x : eff Mixer MixEffect unit) : Prop :=
  forall m, exists m' ef, x m = (m', ef, Some tt) /\ same_voices m m' /\
    forall tx pcm, HostPlayback tx pcm ∉ ef.

Lemma listener_frames_sends packets : sends (listener_frames packets).
Proof.
  induction packets as [|p packets IH]; intros m; cbn [listener_frames].
  { exists m, []. split_and!; try done. by intros ? ? ?%elem_of_nil. }
  rewrite run_eff_get. destruct (process (mx_auth m) p) as [auth [tag payload]].
  rewrite run_eff_effect, run_eff_modify. destruct (IH (next_listener auth m)) as (m' & ef & -> & Hs & Hno).
  do 2 eexists. split; [reflexivity|]. split; [exact Hs|]. intros tx pcm [?|?]%elem_of_cons; [done|by eapply Hno].
Qed.
Lemma host_frames_sends packets : sends (host_frames packets).
Proof.
  induction packets as [|p packets IH]; intros m; cbn [host_frames].
  { exists m, []. split_and!; try done. by intros ? ? ?%elem_of_nil. }
  rewrite run_eff_get, run_eff_effect, run_eff_modify. destruct (IH (next_host m)) as (m' & ef & -> & Hs & Hno).
  do 2 eexists. split; [reflexivity|]. split; [exact Hs|]. intros tx pcm [?|?]%elem_of_cons; [done|by eapply Hno].
Qed.

(** What a tick leaves of the voices [m2] that were received and not removed. *)
Record ticked (m2 m' : Mixer) (ef : list MixEffect) : Prop := {
  tk_buffers : mx_buffers m' = drop FRAME_SIZE <$> mx_buffers m2;
  tk_channels : mx_channels m' = mx_channels m2;
  tk_listener : mx_listener_encoder m' = (push_samples (mx_listener_encoder m2) (clamp <$> mix_frame (mx_buffers m2))).1;
  tk_host : mx_host_encoder m' = (push_samples (mx_host_encoder m2) (clamp <$> host_contribution m2)).1;
  tk_playback tx pcm : HostPlayback tx pcm ∈ ef -> pcm = minus_host (mix_frame (mx_buffers m2)) (host_contribution m2);
}.

Lemma mix_tick_inv received m m' ef u :
  mix_tick received m = (m', ef, Some u) ->
  exists m1 dead, drain_channels received (mx_channels m) m = (m1, [], Some dead) /\
    ticked (fold_left (fun m pk => remove_speaker pk m) dead m1) m' ef.
Proof.
  unfold mix_tick. rewrite run_eff_get. intros (m1 & ef1 & dead & ef2 & E1 & E & ->)%eff_bind_inv.
  pose proof (drain_channels_receives _ _ _ _ _ _ E1) as (-> & _ & _). exists m1, dead. split; [done|].
  rewrite run_eff_modify, run_eff_get in E. revert E. cbv zeta.
  generalize (fold_left (fun m pk => remove_speaker pk m) dead m1) as m2. intros m2. rewrite run_eff_modify.
  destruct (push_samples (mx_listener_encoder m2) _) as [enc packets] eqn:P1. rewrite run_eff_modify, run_eff.
  match goal with |- context [listener_frames packets ?m] =>
    destruct (listener_frames_sends packets m) as (m3 & ef3 & -> & (B3 & C3 & H3 & L3 & O3) & N3) end.
  rewrite run_eff. set (host := host_contribution m2). set (total := mix_frame (mx_buffers m2)).
  assert (exists ef4, match mx_host_speaker m2 with
    | Some (_, pcm_tx) => effect (HostPlayback pcm_tx (minus_host total host)) | None => mret tt end m3 =
    (m3, ef4, Some tt) /\ forall tx pcm, HostPlayback tx pcm ∈ ef4 -> pcm = minus_host total host) as (ef4 & -> & N4).
  { destruct (mx_host_speaker m2) as [[pk tx]|]; (eexists; split; [reflexivity|]).
    - intros tx' pcm [= -> ->]%list_elem_of_singleton. done.
    - by intros tx' pcm ?%elem_of_nil. }
  destruct (push_samples (mx_host_encoder m2) _) as [enc2 packets2] eqn:P2. rewrite run_eff_modify.
  match goal with |- context [host_frames packets2 ?m] =>
    destruct (host_frames_sends packets2 m) as (m5 & ef5 & -> & (B5 & C5 & H5 & L5 & O5) & N5) end.
  intros [= <- <- _]. split.
  - by rewrite B5; cbn; rewrite B3.
  - by rewrite C5; cbn; rewrite C3.
  - rewrite L5. cbn. rewrite L3. cbn. by rewrite P1.
  - rewrite O5. cbn. fold host. by rewrite P2.
  - intros tx pcm. rewrite app_nil_l, !elem_of_app. intros [?|[?|?]]; [by edestruct N3|by eapply N4|by edestruct N5].
Qed.

Lemma ticked_ok m2 m' ef : ticked m2 m' ef -> mixer_ok m2 -> mixer_ok m' /\ Forall effect_ok ef.
Proof.
  intros [B C L Ho Hp] [Mb Mk Ml Mh]. split; [split|].
  - rewrite B. intros pk buf. rewrite lookup_fmap. intros (b & Hb & ->)%fmap_Some. rewrite length_drop.
    specialize (Mb pk b Hb). cbn in Mb. lia.
  - intros pk. rewrite B, C, lookup_fmap, fmap_is_Some. apply Mk.
  - rewrite L, push_frame; [done|done|]. by rewrite length_fmap, mix_frame_length.
  - rewrite Ho, push_frame; [done|done|]. rewrite length_fmap. unfold host_contribution.
    repeat case_match; rewrite ?contribution_length; unfold silence; rewrite ?length_replicate; done.
  - apply Forall_forall. intros [f|f|tx pcm] He; [done..|]. apply Hp in He as ->. unfold minus_host. cbn. split.
    + rewrite length_zip_with, mix_frame_length. unfold host_contribution.
      repeat case_match; rewrite ?contribution_length; unfold silence; rewrite ?length_replicate; lia.
    + apply Forall_lookup. intros i x Hx. apply lookup_zip_with_Some in Hx as (t & c & -> & _ & _). apply clamp_in_range.
Qed.

Definition bounded (m : Mixer) (ef : list MixEffect) (m' : Mixer) : Prop :=
  mixer_ok m -> mixer_ok m' /\ Forall effect_ok ef.
Lemma bounded_nil m : bounded m [] m.
Proof. by split. Qed.
Lemma bounded_app m1 ef1 m2 ef2 m3 : bounded m1 ef1 m2 -> bounded m2 ef2 m3 -> bounded m1 (ef1 ++ ef2) m3.
Proof. intros B1 B2 Hm. destruct (B1 Hm) as [H2' F1]. destruct (B2 H2') as [H3' F2]. split; [done|by apply Forall_app]. Qed.

Lemma mix_step_bounded x : leads bounded (mix_step x).
Proof.
  destruct x as [pubkey rx|pubkey tx|received]; intros m m' ef u; cbn [mix_step].
  - intros (m1 & ef1 & [] & ef2 & E1 & [= <- <-] & ->)%eff_bind_inv. unfold log_arg in E1.
    destruct (short_id pubkey); [|done]. injection E1 as <- <-. intros [B K L Ho]. split; [|by constructor].
    split; cbn; [apply map_Forall_insert_2; [cbn; lia|done]| |done|done].
    intros pk. setoid_rewrite elem_of_app. setoid_rewrite list_elem_of_singleton.
    destruct (decide (pk = pubkey)) as [->|Hne].
    + rewrite lookup_insert_eq. split; [intros _; exists rx; by right|by eexists].
    + rewrite lookup_insert_ne, K by done. split; intros [r Hr]; exists r; clear -Hr Hne; naive_solver.
  - intros [= <- <- _] [B K L Ho]. by split.
  - intros (m1 & dead & E1 & Ht)%mix_tick_inv Hok. eapply ticked_ok; [exact Ht|].
    apply remove_speakers_ok. by apply (drain_channels_receives _ _ _ _ _ _ E1).
Qed.
Lemma run_mixer_bounded inputs : leads bounded (run_mixer inputs).
Proof.
  induction inputs as [|x inputs IH]; cbn [run_mixer]; [apply leads_ret, bounded_nil|].
  apply leads_bind; [apply bounded_app|apply mix_step_bounded|done].
Qed.
Lemma new_mixer_ok sk le he : mixer_ok (new_mixer sk le he).
Proof.
  split; [apply map_Forall_empty| |done|done]. intros pk. cbn. rewrite lookup_empty. split; [by intros [? ?]|].
  by intros (? & ?%elem_of_nil).
Qed.
End ticks.

(** ** Theorems on the mixer of the host *)

Section theorems.
Context `{Ed25519, Sha256, OpusLib f32, HashOrder}.

(** C17: whatever the speakers send and however they come and go, a voice waits
    with at most five frames, it has a buffer exactly while it has a channel, no
    encoder is left with a part of a frame, and what the host hears is a whole
    frame of samples between -1 and 1 (or not numbers) at every tick. *)
Theorem mixer_bounded (sk : SecretKey) (le he : Encoder) (inputs : list MixInput) (m : Mixer)
    (ef : list MixEffect) :
  run_mixer inputs (new_mixer sk le he) = (m, ef, Some tt) ->
  mixer_ok m /\ Forall effect_ok ef.
Proof. intros E. by apply (run_mixer_bounded _ _ _ _ _ E), new_mixer_ok. Qed.

Definition gone (pk : string) (m : Mixer) : Prop :=
  mx_buffers m !! pk = None /\ forall rx, (pk, rx) ∉ mx_channels m.
Definition adds (pk : string) (x : MixInput) : Prop :=
  match x with AddSpeaker pubkey _ => pubkey = pk | _ => False end.

Lemma remove_speaker_gone pk pk' m : pk = pk' \/ gone pk m -> gone pk (remove_speaker pk' m).
Proof.
  intros Hg. split; cbn.
  - destruct (decide (pk = pk')) as [->|Hne]; [apply lookup_delete_eq|]. rewrite lookup_delete_ne by done.
    destruct Hg as [?|[? _]]; done.
  - intros rx [Hne Hin]%list_elem_of_filter. cbn in Hne. destruct Hg as [?|[_ Hno]]; [done|by eapply Hno].
Qed.
Lemma remove_speakers_all_gone pk dead m :
  pk ∈ dead \/ gone pk m -> gone pk (fold_left (fun m pk => remove_speaker pk m) dead m).
Proof.
  revert m. induction dead as [|pk' dead IH]; intros m; cbn; [intros [?%elem_of_nil|?]; done|].
  intros Hg. apply IH. rewrite elem_of_cons in Hg. destruct Hg as [[->|?]|?]; [right|by left|right].
  - apply remove_speaker_gone. by left.
  - apply remove_speaker_gone. by right.
Qed.
Lemma ticked_gone pk m2 m' ef : ticked m2 m' ef -> gone pk m2 -> gone pk m'.
Proof. intros [B C _ _ _] [G1 G2]. split; [by rewrite B, lookup_fmap, G1|by rewrite C]. Qed.
Lemma receives_gone pk m ef m' : receives m ef m' -> gone pk m -> gone pk m'.
Proof.
  intros (_ & [E K] & _) [G1 G2]. split; [|by rewrite E].
  apply eq_None_not_Some. rewrite K, G1. by intros [? ?].
Qed.

Lemma mix_step_gone pk x m m' ef u :
  ~ adds pk x -> mix_step x m = (m', ef, Some u) -> gone pk m -> gone pk m'.
Proof.
  destruct x as [pubkey rx|pubkey tx|received]; cbn [mix_step adds]; intros Hne.
  - intros (m1 & ef1 & [] & ef2 & E1 & [= <- _] & _)%eff_bind_inv. unfold log_arg in E1.
    destruct (short_id pubkey); [|done]. injection E1 as <- _. intros [G1 G2]. split; cbn.
    + by rewrite lookup_insert_ne.
    + intros r [?|[= -> _]%list_elem_of_singleton]%elem_of_app; [by eapply G2|done].
  - by intros [= <- _ _].
  - intros (m1 & dead & E1 & Ht)%mix_tick_inv Hg. eapply ticked_gone; [exact Ht|].
    apply remove_speakers_all_gone. right. eapply receives_gone; [|exact Hg]. exact (drain_channels_receives _ _ _ _ _ _ E1).
Qed.

(** C19: A speaker that connects again while the channel of its first connection is
    still registered is dropped: when that channel is seen closed, the tick
    removes the voice by its key, the new channel included, and the speaker
    stays out of the mix until it is added a third time. *)
Theorem speaker_reconnect_silenced (pk : string) (old new : nat) (received : Received) (inputs : list MixInput)
    (m m' : Mixer) (ef : list MixEffect)
    (Hold : (pk, old) ∈ mx_channels m) (Hclosed : (received old).2 = true)
    (Hinputs : Forall (fun x => ~ adds pk x) inputs)
    (Hrun : run_mixer (AddSpeaker pk new :: MixTick received :: inputs) m = (m', ef, Some tt)) :
  mx_buffers m' !! pk = None /\ forall rx, (pk, rx) ∉ mx_channels m'.
Proof.
  cbn [run_mixer] in Hrun. apply eff_bind_inv in Hrun as (m1 & ef1 & [] & ef2 & E1 & Hrun & _).
  apply eff_bind_inv in Hrun as (m2 & ef3 & [] & ef4 & E2 & Hrun & _). cbn [mix_step] in E1, E2.
  apply eff_bind_inv in E1 as (m0 & ef0 & [] & ef5 & E0 & [= <- _] & _). unfold log_arg in E0.
  destruct (short_id pk); [|done]. injection E0 as <- _.
  apply mix_tick_inv in E2 as (m3 & dead & E3 & Ht).
  assert (pk ∈ dead) as Hdead.
  { apply (drain_channels_dead _ _ _ _ _ _ E3). exists old. cbn [mx_channels set_voices]. split; [|done].
    apply elem_of_app. by left. }
  assert (gone pk m2) as Hg by (eapply ticked_gone; [exact Ht|]; apply remove_speakers_all_gone; by left).
  clear Ht E3. revert m2 ef4 Hg Hrun. induction Hinputs as [|x inputs Hx _ IH]; intros m2 ef4 Hg Hrun; cbn [run_mixer] in Hrun.
  { by injection Hrun as <- _. }
  apply eff_bind_inv in Hrun as (m5 & ef6 & [] & ef7 & E5 & Hrun & _).
  eapply IH; [|exact Hrun]. by eapply mix_step_gone.
Qed.
End theorems.

(** ** The playback *)

Section playback.
Context `{RingLib, !RingLaws}.

Inductive PlaybackOp : Type :=
| Push (samples : list f32)
| Callback (n : nat)
| ReadUnderruns.

(** The samples accepted, those heard without the silence that fills a
    callback, and the state. *)
Fixpoint run_playback (ops : list PlaybackOp) (p : Playback) : list f32 * list f32 * Playback :=
  match ops with
  | [] => ([], [], p)
  | Push samples :: ops =>
      let '(p, n) := playback_push samples p in
      let '(accepted, heard, p) := run_playback ops p in (take n samples ++ accepted, heard, p)
  | Callback n :: ops =>
      let popped := (pop_slice (pb_ring p) n).2 in
      let '(p, _) := output_callback n p in
      let '(accepted, heard, p) := run_playback ops p in (accepted, popped ++ heard, p)
  | ReadUnderruns :: ops => run_playback ops (drain_underruns p).1
  end.

(** The playback is a queue: what was accepted is heard in order, followed by
    what still waits, which is at most ten frames; a callback is always filled. *)
Theorem playback_queue (ops : list PlaybackOp) (p : Playback) :
  (length (ring_items (pb_ring p)) <= ring_capacity (pb_ring p))%nat ->
  let '(accepted, heard, p') := run_playback ops p in
  ring_items (pb_ring p) ++ accepted = heard ++ ring_items (pb_ring p') /\
  (length (ring_items (pb_ring p')) <= ring_capacity (pb_ring p'))%nat /\
  ring_capacity (pb_ring p') = ring_capacity (pb_ring p) /\
  forall n, length (output_callback n p').2 = n.
Proof.
  revert p. induction ops as [|[samples|n|] ops IH]; intros p Hp; cbn [run_playback].
  - split_and!; [by rewrite app_nil_r|done|done|]. intros n. unfold output_callback.
    destruct (pop_slice_spec (pb_ring p) n) as (E & _ & _). destruct (pop_slice (pb_ring p) n) as [r l]. cbn in E. subst l.
    destruct (Nat.ltb_spec (length (take n (ring_items (pb_ring p)))) n) as [Hl|Hl]; cbn [snd].
    + unfold silence. rewrite length_app, length_replicate. lia.
    + rewrite length_take in *. lia.
  - unfold playback_push. destruct (push_slice_spec (pb_ring p) samples) as (En & Ei & Ec).
    destruct (push_slice (pb_ring p) samples) as [r k]. cbn in En, Ei, Ec.
    specialize (IH {| pb_ring := r; pb_underruns := pb_underruns p |}). cbn [pb_ring] in IH.
    destruct (run_playback ops _) as [[accepted heard] p']. destruct IH as (I1 & I2 & I3 & I4).
    { rewrite Ei, Ec, length_app, length_take. lia. }
    split_and!; [|done|congruence|done]. by rewrite app_assoc, <-Ei, I1.
  - unfold output_callback. destruct (pop_slice_spec (pb_ring p) n) as (El & Ei & Ec).
    destruct (pop_slice (pb_ring p) n) as [r l]. cbn [fst snd] in *.
    assert (forall u, let '(accepted, heard, p') := run_playback ops {| pb_ring := r; pb_underruns := u |} in
      ring_items (pb_ring p) ++ accepted = (l ++ heard) ++ ring_items (pb_ring p') /\
      (length (ring_items (pb_ring p')) <= ring_capacity (pb_ring p'))%nat /\
      ring_capacity (pb_ring p') = ring_capacity (pb_ring p) /\
      forall n, length (output_callback n p').2 = n) as Hrun.
    { intros u. specialize (IH {| pb_ring := r; pb_underruns := u |}). cbn [pb_ring] in IH.
      destruct (run_playback ops _) as [[accepted heard] p']. destruct IH as (I1 & I2 & I3 & I4).
      { rewrite Ei, Ec, length_drop. lia. }
      split_and!; [|done|congruence|done].
      by rewrite <-(take_drop n (ring_items (pb_ring p))), <-app_assoc, <-Ei, I1, El, app_assoc. }
    destruct (length l <? n)%nat; [specialize (Hrun (add_u64 (pb_underruns p) 1))|specialize (Hrun (pb_underruns p))];
      by destruct (run_playback ops _) as [[??]?].
  - apply (IH (drain_underruns p).1 Hp).
Qed.
End playback.

(** ** Witnesses *)

(** An encoder that writes the number of samples that are not zero. *)
Definition count_opus : OpusLib f32 :=
  {| Encoder := unit;
     encode_float e f := (e, Some [Z.of_nat (length (filter (fun x => SFeqb x f32_zero = false) f)) mod 256]) |}.

(** The state after some inputs. *)
Definition mixed (inputs : list MixInput) : Mixer * list MixEffect * option unit :=
  @run_mixer toy_ed25519 toy_sha256 count_opus listed_order inputs (@new_mixer toy_ed25519 count_opus "host"%string tt tt).

Lemma mixer_bounded_witness :
  let run := mixed [SetHostSpeaker "host" 0; AddSpeaker "speaker1" 1;
    MixTick (fun _ => ([replicate 5000 f32_one], false)); MixTick (fun _ => ([], false))] in
  @mixer_ok toy_ed25519 count_opus run.1.1 /\ Forall effect_ok run.1.2 /\ length (listener_out run.1.2) = 2%nat.
Proof.
  set (run := mixed _). cbv zeta.
  assert (run = (run.1.1, run.1.2, Some tt)) as E.
  { apply run_returned. vm_compute. reflexivity. }
  destruct (@mixer_bounded toy_ed25519 toy_sha256 count_opus listed_order _ _ _ _ _ _ E) as [Hok Hef].
  split; [exact Hok|]. split; [exact Hef|]. vm_compute. reflexivity.
Defined.

(** A speaker with an open channel 0 connects again with channel 1; channel 0
    is closed at the next tick. *)
Definition reconnecting : Mixer := (mixed [AddSpeaker "speaker1" 0]).1.1.
Definition first_closed : Received := fun rx => ([], bool_decide (rx = 0%nat)).

Lemma speaker_reconnect_silenced_witness :
  let run := @run_mixer toy_ed25519 toy_sha256 count_opus listed_order
    [AddSpeaker "speaker1" 1; MixTick first_closed; MixTick first_closed] reconnecting in
  mx_buffers run.1.1 !! "speaker1" = None /\ forall rx, ("speaker1"%string, rx) ∉ mx_channels run.1.1.
Proof.
  set (run := run_mixer _ _). cbv zeta.
  assert (run = (run.1.1, run.1.2, Some tt)) as E.
  { apply run_returned. vm_compute. reflexivity. }
  apply (@speaker_reconnect_silenced toy_ed25519 toy_sha256 count_opus listed_order "speaker1" 0 1 first_closed
    [MixTick first_closed] reconnecting run.1.1 run.1.2).
  - by apply list_elem_of_singleton.
  - reflexivity.
  - repeat constructor. by intros [].
  - exact E.
Defined.

(** A ring buffer as a list. *)
Definition list_ring : RingLib :=
  {| Ring := nat * list f32; ring_new n := (n, []);
     push_slice r l := let n := Nat.min (length l) (r.1 - length r.2) in ((r.1, r.2 ++ take n l), n);
     pop_slice r n := ((r.1, drop n r.2), take n r.2) |}.
Definition list_ring_laws : @RingLaws list_ring.
Proof. by refine {| ring_items (r : @Ring list_ring) := r.2; ring_capacity (r : @Ring list_ring) := r.1 |}. Defined.

Lemma playback_queue_witness :
  let ops := [Push [f32_one; f32_zero]; Callback 1; ReadUnderruns; Callback 2] in
  let '(accepted, heard, p') := @run_playback list_ring ops (@playback_start list_ring) in
  accepted = heard ++ (@pb_ring list_ring p').2 /\ heard = [f32_one; f32_zero] /\ pb_underruns p' = 1.
Proof.
  pose proof (@playback_queue list_ring list_ring_laws [Push [f32_one; f32_zero]; Callback 1; ReadUnderruns; Callback 2]
    (@playback_start list_ring) (Nat.le_0_l _)) as H.
  cbv zeta. destruct (run_playback _ _) as [[accepted heard] p'] eqn:E. destruct H as (Hq & _ & _ & _).
  split; [exact Hq|]. vm_compute in E. injection E as _ <- <-. split; reflexivity.
Defined.
