(* ===== verification/Pipeline.v ===== *)
(** * The audio pipelines of a stage

    Model of [src-tauri/src/stage/pipeline.rs], [fanout.rs] and [relay.rs]: how
    frames are forwarded, and what a listener, a speaker and the host do with
    them.  Frames arrive as the bytes of a stream; what a channel or a
    connection does is an argument; an effect is emitted where the code
    plays samples, forwards a frame or starts and stops a task. *)

From S2P Require Import Prelude Types Signing Store Effects Framing Audio StageAuth Topology Stage StageActor Call Mixing.

Local Open Scope Z_scope.

(** The decoder of the opus crate: the samples it writes into a buffer of
    [FRAME_SIZE]; [None] is an error. *)
Class OpusDecoding (Sample : Type) := {
  Decoder : Type;
  decode_float : Decoder -> bytes -> Decoder * option (list Sample);
}.

(** ** fanout.rs and relay.rs *)

(** What the broadcast channel gives a subscriber. *)
Inductive Broadcast : Type :=
| Frame (f : AudioFrame)
| Lagged
| Closed.

(** The bytes a subscriber writes; [writable n] says whether the [n]-th write
    succeeds. *)
Fixpoint subscriber (writable : nat -> bool) (n : nat) (received : list Broadcast) : bytes :=
  match received with
  | [] | Closed :: _ => []
  | Lagged :: received => subscriber writable n received
  | Frame f :: received =>
      if writable n then write_audio_frame f ++ subscriber writable (S n) received else []
  end.

(** The whole frames in the bytes that have arrived, and whether the reader is
    then waiting for more; otherwise a length too short has ended it. *)
Fixpoint whole_frames (fuel : nat) (arrived : bytes) : list AudioFrame * bool :=
  match fuel with
  | O => ([], true)
  | S fuel =>
      match read_audio_frame false arrived with
      | Ok (Some f, rest) => let '(fs, waiting) := whole_frames fuel rest in (f :: fs, waiting)
      | Ok (None, _) => ([], false)
      | Err _ => ([], (length arrived <? 2)%nat || (Z.of_nat HEADER_SIZE <=? from_be (take 2 arrived)))
      end
  end.

(** The frames [run_relay] puts on its channel.  The upstream is cut where an
    [AddDownstream] arrives: [select!] then drops the [read_audio_frame] it has
    under way, with the bytes of a frame that read has consumed, and the next
    read starts at the byte after them.  (In the loops of pipeline.rs the only
    other branch of the [select!] is the cancellation, which ends the loop.) *)
Fixpoint run_relay_commands (closed : bool) (upstream : list bytes) : list AudioFrame :=
  match upstream with
  | [] => []
  | arrived :: upstream =>
      match upstream with
      | [] => (read_audio_frames (S (length arrived)) closed arrived).1
      | _ :: _ =>
          let '(fs, waiting) := whole_frames (S (length arrived)) arrived in
          fs ++ if waiting : bool then run_relay_commands closed upstream else []
      end
  end.

(** Without a command while a frame is read. *)
Definition run_relay (closed : bool) (upstream : bytes) : list AudioFrame :=
  run_relay_commands closed [upstream].

(** ** codec.rs *)

Section codec.
Context {Sample : Type} `{OpusDecoding Sample}.
Definition decode (d : Decoder) (packet : bytes) : Decoder * option (list Sample) := decode_float d packet.
Definition decode_loss (d : Decoder) : Decoder * option (list Sample) := decode_float d [].
End codec.

(** ** The listener *)

Definition JB_MIN_FRAMES : nat := 3.
Definition JB_INIT_FRAMES : nat := 4.
Definition JB_MAX_FRAMES : nat := 10.
Definition DRIFT_INTERVAL : nat := 250.

Section listener.
Context `{Ed25519, Sha256, OpusDecoding f32}.

(** The adaptive jitter buffer. *)
Record Jitter : Type := {
  jb_playback_live : bool;
  jb_prefill_count : nat;
  jb_target_frames : nat;
  jb_frames_since_adapt : nat;
}.
Definition jitter_new : Jitter :=
  {| jb_playback_live := false; jb_prefill_count := 0; jb_target_frames := JB_INIT_FRAMES;
     jb_frames_since_adapt := 0 |}.

(** After a decoded frame; [underruns] are those since the last time they were
    read. *)
Definition adapt (underruns : nat) (j : Jitter) : Jitter :=
  if jb_playback_live j then
    if (0 <? underruns)%nat then
      {| jb_playback_live := true; jb_prefill_count := jb_prefill_count j;
         jb_target_frames := if (jb_target_frames j <? JB_MAX_FRAMES)%nat then S (jb_target_frames j)
                             else jb_target_frames j;
         jb_frames_since_adapt := 0 |}
    else
      let since := S (jb_frames_since_adapt j) in
      if (DRIFT_INTERVAL <=? since)%nat && (JB_MIN_FRAMES <? jb_target_frames j)%nat then
        {| jb_playback_live := true; jb_prefill_count := jb_prefill_count j;
           jb_target_frames := pred (jb_target_frames j); jb_frames_since_adapt := 0 |}
      else
        {| jb_playback_live := true; jb_prefill_count := jb_prefill_count j;
           jb_target_frames := jb_target_frames j; jb_frames_since_adapt := since |}
  else
    let count := S (jb_prefill_count j) in
    {| jb_playback_live := (jb_target_frames j <=? count)%nat; jb_prefill_count := count;
       jb_target_frames := jb_target_frames j; jb_frames_since_adapt := jb_frames_since_adapt j |}.

Record Listener : Type := {
  ln_auth : ListenerAuthState;
  ln_decoder : Decoder;
  ln_last_seq : option Z; (* u32 *)
  ln_jitter : Jitter;
}.

(** Samples for the playback, the events of the user interface, and the
    connection. *)
Inductive ListenEffect : Type :=
| Play (samples : list f32)
| AuthFailed (source : string) (reason : string)
| ConnectTo (node : string)
| Identify (conn_type : Z)
| CloseConn.

Abbreviation listening := (eff Listener ListenEffect).

Definition set_auth (a : ListenerAuthState) (l : Listener) : Listener :=
  {| ln_auth := a; ln_decoder := ln_decoder l; ln_last_seq := ln_last_seq l; ln_jitter := ln_jitter l |}.
Definition set_decoder (d : Decoder) (l : Listener) : Listener :=
  {| ln_auth := ln_auth l; ln_decoder := d; ln_last_seq := ln_last_seq l; ln_jitter := ln_jitter l |}.
Definition set_last_seq (s : Z) (l : Listener) : Listener :=
  {| ln_auth := ln_auth l; ln_decoder := ln_decoder l; ln_last_seq := Some s; ln_jitter := ln_jitter l |}.
Definition set_jitter (j : Jitter) (l : Listener) : Listener :=
  {| ln_auth := ln_auth l; ln_decoder := ln_decoder l; ln_last_seq := ln_last_seq l; ln_jitter := j |}.

(** The number of frames lost before [seq], if there is a gap to fill. *)
Definition lost_frames (last_seq : option Z) (seq : Z) : nat :=
  match last_seq with
  | Some prev =>
      let lost := (seq - (prev + 1)) mod 2 ^ 32 in
      if (0 <? lost) && (lost <? 64) then Z.to_nat lost else 0%nat
  | None => 0%nat
  end.

Fixpoint conceal (lost : nat) : listening unit :=
  match lost with
  | O => mret tt
  | S lost =>
      l ← get_state;
      let '(d, plc) := decode_loss (ln_decoder l) in
      _ ← modify_state (set_decoder d);
      _ ← match plc with Some samples => effect (Play samples) | None => mret tt end;
      conceal lost
  end.

(** Decodes the audio of a frame for the playback. *)
Definition play_opus (opus : bytes) (underruns : nat) : listening unit :=
  l ← get_state;
  let '(d, samples) := decode (ln_decoder l) opus in
  _ ← modify_state (set_decoder d);
  match samples with
  | Some samples =>
      _ ← effect (Play samples);
      modify_state (fun l => set_jitter (adapt underruns (ln_jitter l)) l)
  | None => mret tt
  end.

(** A frame of the loop; [false] leaves it. *)
Definition listener_frame (source_id : string) (f : AudioFrame) (underruns : nat) : listening bool :=
  l ← get_state;
  _ ← conceal (lost_frames (ln_last_seq l) (af_seq f));
  _ ← modify_state (set_last_seq (af_seq f));
  match split_frame (af_tag f, af_payload f) with
  | None => mret true
  | Some (checkpoint, opus) =>
      l ← get_state;
      let '(auth, auth_result) := verify_frame (ln_auth l) opus (af_tag f) checkpoint in
      _ ← modify_state (set_auth auth);
      match auth_result with
      | TamperDetected =>
          _ ← log_arg source_id; _ ← effect (AuthFailed source_id "tamper_detected"); mret false
      | InvalidSignature =>
          _ ← log_arg source_id; _ ← effect (AuthFailed source_id "invalid_signature"); mret false
      | _ => _ ← play_opus opus underruns; mret true
      end
  end.

(** The loop over the frames that arrive, each with the underruns since the
    last one, until the stream ends. *)
Fixpoint listener_loop (source_id : string) (frames : list (AudioFrame * nat)) : listening unit :=
  match frames with
  | [] => mret tt
  | (f, underruns) :: frames =>
      go ← listener_frame source_id f underruns;
      if go : bool then listener_loop source_id frames else mret tt
  end.

(** What an attempt meets: the node that answers, and whether the stream can be
    opened, the type byte written, the decoder and the playback started. *)
Record Attempt : Type := {
  at_remote : option string;
  at_stream : bool;
  at_identified : bool;
  at_decoder : option Decoder;
  at_playback : bool;
  at_upstream : bytes;
  at_closed : bool;
  at_underruns : nat -> nat;
}.

Definition run_listener_once (host_node_id host_signing_pubkey : string) (a : Attempt)
    : list ListenEffect * option unit :=
  if negb (is_ok (pk_parse host_node_id)) then ([], Some tt)
  else match at_remote a with
  | None => ([ConnectTo host_node_id], Some tt)
  | Some source_id =>
      if negb (at_stream a) then ([ConnectTo host_node_id], Some tt)
      else if negb (at_identified a) then ([ConnectTo host_node_id; Identify CONN_TYPE_LISTENER], Some tt)
      else match pk_parse host_signing_pubkey, at_decoder a, at_playback a with
      | Ok host_pubkey, Some d, true =>
          let frames := (read_audio_frames (S (length (at_upstream a))) (at_closed a) (at_upstream a)).1 in
          let '(_, ef, r) := listener_loop source_id (imap (fun i f => (f, at_underruns a i)) frames)
            {| ln_auth := listener_auth_new host_pubkey; ln_decoder := d; ln_last_seq := None;
               ln_jitter := jitter_new |} in
          ([ConnectTo host_node_id; Identify CONN_TYPE_LISTENER] ++ ef ++
             match r with Some _ => [CloseConn] | None => [] end, r)
      | _, _, _ => ([ConnectTo host_node_id; Identify CONN_TYPE_LISTENER], Some tt)
      end
  end.

(** In milliseconds. *)
Definition BACKOFF_INITIAL : Z := 2000.
Definition BACKOFF_MAX : Z := 30000.

(** The attempts until the listener is cancelled, and the pauses between them. *)
Fixpoint listener_attempts (host_node_id host_signing_pubkey : string) (backoff : Z) (attempts : list Attempt)
    : list ListenEffect * list Z :=
  match attempts with
  | [] => ([], [])
  | a :: attempts =>
      let '(ef, r) := run_listener_once host_node_id host_signing_pubkey a in
      match r with
      | None => (ef, [])
      | Some _ =>
          let '(ef', pauses) := listener_attempts host_node_id host_signing_pubkey
            (Z.min (backoff * 2) BACKOFF_MAX) attempts in
          (ef ++ ef', backoff :: pauses)
      end
  end.
Definition start_listener_pipeline (host_node_id host_signing_pubkey : string) (attempts : list Attempt)
    : list ListenEffect * list Z :=
  listener_attempts host_node_id host_signing_pubkey BACKOFF_INITIAL attempts.

(** The connection of a relay; the arguments are what the network answers, an
    error of the library as its text. *)
Definition start_relay_pipeline (upstream_node_id : string) (conn stream : result string unit) (identified : bool)
    : list ListenEffect * result AppError unit :=
  match pk_parse upstream_node_id, conn, stream with
  | Err e, _, _ => ([], Err (Other ("invalid relay upstream node id: " ++ e)))
  | Ok _, Err e, _ =>
      ([ConnectTo upstream_node_id], Err (Other ("[stage-relay] connect to upstream failed: " ++ e)))
  | Ok _, Ok _, Err e =>
      ([ConnectTo upstream_node_id], Err (Other ("[stage-relay] open bi-stream failed: " ++ e)))
  | Ok _, Ok _, Ok _ =>
      ([ConnectTo upstream_node_id; Identify CONN_TYPE_LISTENER],
       if identified then Ok tt else Err (Other "[stage-relay] write conn type failed"))
  end.
End listener.

(** ** The host: a speaker's connection *)

Section host.
Context `{OpusDecoding f32, HashOrder}.

(** A frame forwarded to the other speakers, samples for the mixer, and the
    removal of the node from the hub. *)
Inductive SpeakerEffect : Type :=
| Forward (f : AudioFrame)
| ToMixer (samples : list f32)
| LeaveHub (node_id : string).

(** [accepts n] says whether the mixer still takes the [n]-th batch. *)
Fixpoint speaker_recv_frames (accepts : nat -> bool) (n : nat) (d : Decoder) (frames : list AudioFrame)
    : list SpeakerEffect :=
  match frames with
  | [] => []
  | f :: frames =>
      let '(d, decoded) := decode d (af_payload f) in
      Forward f ::
        match decoded with
        | Some samples =>
            if accepts n then ToMixer samples :: speaker_recv_frames accepts (S n) d frames else []
        | None => speaker_recv_frames accepts n d frames
        end
  end.

(** [decoder] is [None] when it cannot be created: the task ends without
    leaving the hub. *)
Definition speaker_recv_sfu_loop (node_id : string) (decoder : option Decoder) (accepts : nat -> bool)
    (frames : list AudioFrame) : list SpeakerEffect :=
  match decoder with
  | None => []
  | Some d => speaker_recv_frames accepts 0 d frames ++ [LeaveHub node_id]
  end.

(** The connection of a speaker: [opens from to] says whether the stream that
    carries [from] to [to] can be opened, [mixer_open] whether the mixer takes
    the speaker. *)
Definition connect_speaker (opens : option nat -> nat -> bool) (mixer_open : bool) (hub : SfuHub)
    (remote : string) (conn : nat) : SfuHub * list (option nat * nat) :=
  if mixer_open then
    let '(hub', subscriptions) := speaker_connects hub remote conn in
    (hub', filter (fun s => opens s.1 s.2 = true) subscriptions)
  else (hub, []).

(** ** run_host_playback *)

(** The samples played, and those queued as the reference of the echo
    canceller; [room n] says whether the queue takes the [n]-th. *)
Definition run_host_playback (started : bool) (room : nat -> bool) (pcm : list (list f32))
    : list (list f32) * list (list f32) :=
  if started then (pcm, concat (imap (fun i samples => if room i then [samples] else []) pcm)) else ([], []).
End host.

(** ** The speaker *)

Section speaker.
Context `{OpusDecoding f32, OpusLib f32}.

(** The samples of a forwarded stream for the mixer; the stream is removed from
    it at the end. *)
Fixpoint stream_recv_frames (accepts : nat -> bool) (n : nat) (d : Decoder) (frames : list AudioFrame)
    : list (list f32) :=
  match frames with
  | [] => []
  | f :: frames =>
      let '(d, decoded) := decode d (af_payload f) in
      match decoded with
      | Some samples => if accepts n then samples :: stream_recv_frames accepts (S n) d frames else []
      | None => stream_recv_frames accepts n d frames
      end
  end.
Definition speaker_stream_recv (stream_id : Z) (decoder : option Decoder) (accepts : nat -> bool)
    (frames : list AudioFrame) : list (list f32) * SpeakerMixerInput :=
  (match decoder with Some d => stream_recv_frames accepts 0 d frames | None => [] end, RemoveStream stream_id).

(** The packets of a chunk: the frames written, the next number and timestamp,
    and whether all writes succeeded. *)
Fixpoint mic_packets (writable : Z -> bool) (seq timestamp : Z) (packets : list bytes)
    : list AudioFrame * Z * Z * bool :=
  match packets with
  | [] => ([], seq, timestamp, true)
  | packet :: packets =>
      if writable seq then
        let '(fs, seq', timestamp', ok) := mic_packets writable (add_u32 seq 1)
          (add_u32 timestamp (as_u32 SAMPLES_PER_FRAME)) packets in
        ({| af_seq := seq; af_timestamp := timestamp; af_tag := TAG_NORMAL; af_payload := packet |} :: fs,
         seq', timestamp', ok)
      else ([], seq, timestamp, false)
  end.

(** The loop of [speaker_mic_send]: the frames written, and whether it
    cancelled its token after a failed write.  (Chunks it still takes before it
    sees the token cannot be written either.) *)
Fixpoint mic_loop (writable : Z -> bool) (enc : OpusEncoder f32) (seq timestamp : Z) (chunks : list (list f32))
    : list AudioFrame * bool :=
  match chunks with
  | [] => ([], false)
  | s :: chunks =>
      let '(enc, packets) := push_samples enc s in
      let '(fs, seq, timestamp, ok) := mic_packets writable seq timestamp packets in
      if ok : bool then let '(fs', cancelled) := mic_loop writable enc seq timestamp chunks in (fs ++ fs', cancelled)
      else (fs, true)
  end.
Definition speaker_mic_send (encoder : option Encoder) (writable : Z -> bool) (chunks : list (list f32))
    : list AudioFrame * bool :=
  match encoder with
  | Some e => mic_loop writable {| oe_encoder := e; oe_buffer := [] |} 0 0 chunks
  | None => ([], false)
  end.

(** ** A session of a speaker

    The tasks that hold a child of the token of the session; cancelling a child
    does not reach its parent. *)
Record SpeakerSession : Type := {
  ss_running : bool; (* the loop of [run_speaker_once] *)
  ss_mic : bool; (* [speaker_mic_send] *)
  ss_streams : gset Z; (* [speaker_stream_recv] *)
  ss_next_stream_id : Z; (* u32 *)
}.

Inductive SessionInput : Type :=
| StreamAccepted (rx : nat) (* the host opens a stream *)
| ConnectionLost
| SessionCancelled
| MicWriteFails (* its task cancels its own token and ends *)
| StreamEnds (stream_id : Z).

Inductive SessionEffect : Type :=
| ToSpeakerMixer (cmd : SpeakerMixerInput)
| ConnectHost (node_id : string)
| CloseSession.

(** The connection is up and the type byte was written. *)
Definition session_start : SpeakerSession :=
  {| ss_running := true; ss_mic := true; ss_streams := ∅; ss_next_stream_id := 0 |}.

Definition end_stream (id : Z) (s : SpeakerSession) : SpeakerSession :=
  {| ss_running := ss_running s; ss_mic := ss_mic s; ss_streams := ss_streams s ∖ {[id]};
     ss_next_stream_id := ss_next_stream_id s |}.

Definition session_step (x : SessionInput) (s : SpeakerSession) : SpeakerSession * list SessionEffect :=
  match x with
  | StreamAccepted rx =>
      if ss_running s then
        let id := ss_next_stream_id s in
        ({| ss_running := true; ss_mic := ss_mic s; ss_streams := {[id]} ∪ ss_streams s;
            ss_next_stream_id := add_u32 id 1 |}, [ToSpeakerMixer (AddStream id rx)])
      else (s, [])
  | ConnectionLost =>
      if ss_running s then
        ({| ss_running := false; ss_mic := ss_mic s; ss_streams := ss_streams s;
            ss_next_stream_id := ss_next_stream_id s |}, [CloseSession])
      else (s, [])
  | SessionCancelled =>
      ({| ss_running := false; ss_mic := false; ss_streams := ∅; ss_next_stream_id := ss_next_stream_id s |},
       (ToSpeakerMixer ∘ RemoveStream <$> elements (ss_streams s)) ++ if ss_running s then [CloseSession] else [])
  | MicWriteFails =>
      ({| ss_running := ss_running s; ss_mic := false; ss_streams := ss_streams s;
          ss_next_stream_id := ss_next_stream_id s |}, [])
  | StreamEnds id =>
      if decide (id ∈ ss_streams s) then (end_stream id s, [ToSpeakerMixer (RemoveStream id)]) else (s, [])
  end.

Fixpoint run_session (inputs : list SessionInput) (s : SpeakerSession) : SpeakerSession * list SessionEffect :=
  match inputs with
  | [] => (s, [])
  | x :: inputs =>
      let '(s, ef) := session_step x s in
      let '(s, ef') := run_session inputs s in (s, ef ++ ef')
  end.

(** An attempt: the channel made for the far end, whether the host answers, the
    stream opens and the type byte is written, and what the session meets. *)
Record SpeakerAttempt : Type := {
  sa_far_end_tx : nat;
  sa_connected : bool;
  sa_stream : bool;
  sa_identified : bool;
  sa_inputs : list SessionInput;
}.
Definition run_speaker_once (host_id : string) (a : SpeakerAttempt) : list SessionEffect :=
  [ToSpeakerMixer (SetFarEndTx (sa_far_end_tx a)); ConnectHost host_id] ++
  (if sa_connected a && sa_stream a && sa_identified a then (run_session (sa_inputs a) session_start).2 else []).

Fixpoint speaker_attempts (host_id : string) (backoff : Z) (attempts : list SpeakerAttempt)
    : list SessionEffect * list Z :=
  match attempts with
  | [] => ([], [])
  | a :: attempts =>
      let '(ef, pauses) := speaker_attempts host_id (Z.min (backoff * 2) BACKOFF_MAX) attempts in
      (run_speaker_once host_id a ++ ef, backoff :: pauses)
  end.
End speaker.

Definition start_speaker_pipeline `{Ed25519} (host_node_id : string) (attempts : list SpeakerAttempt)
    : list SessionEffect * list Z :=
  match pk_parse host_node_id with
  | Ok _ => speaker_attempts host_node_id BACKOFF_INITIAL attempts
  | Err _ => ([], [])
  end.

(** The thread that captures the microphone of a session, a round for each
    chunk; [accepts n] says whether the [n]-th result is still taken. *)
Fixpoint speaker_capture {Sample} (silent : Sample) `{Aec3 Sample} (accepts : nat -> bool) (n : nat)
    (aec : EchoCanceller Sample) (rounds : list (AecRound (Sample := Sample))) : list (list Sample) :=
  match rounds with
  | [] => []
  | r :: rounds =>
      let '(aec, out) := aec_round silent aec r in
      match out with
      | Some samples =>
          if accepts n then samples :: speaker_capture silent accepts (S n) aec rounds else []
      | None => speaker_capture silent accepts n aec rounds
      end
  end.
