(* ===== verification/PipelineTheorems.v ===== *)
(** * Theorems on the audio pipelines

    The mix of the host reaches a listener through any number of relays that
    lose nothing; what a listener plays does not depend on its adaptive jitter
    buffer; lost frames are concealed one by one; a speaker whose microphone
    stream broke stays connected. *)

From Stdlib Require Import SpecFloat.
From S2P Require Import Prelude Types Validation Signing Concrete SigningTheorems Store ConcreteStore Effects Framing Audio AudioTheorems StageAuth StageAuthTheorems Topology Stage StageActor Call Mixing MixingTheorems Pipeline.

Local Open Scope Z_scope.

(** ** The jitter buffer *)

Section jitter.
Context `{Ed25519, Sha256, OpusDecoding f32}.

(** Two listeners that differ at most in their jitter buffers. *)
Definition same_sound (l1 l2 : Listener) : Prop :=
  ln_auth l1 = ln_auth l2 /\ ln_decoder l1 = ln_decoder l2 /\ ln_last_seq l1 = ln_last_seq l2.

(** [m1] and [m2] do the same from such listeners. *)
Definition sounds_alike {A} (m1 m2 : eff Listener ListenEffect A) : Prop :=
  forall l1 l2, same_sound l1 l2 ->
    same_sound (m1 l1).1.1 (m2 l2).1.1 /\ (m1 l1).1.2 = (m2 l2).1.2 /\ (m1 l1).2 = (m2 l2).2.

Lemma alike_ret {A} (a : A) : sounds_alike (mret a) (mret a).
Proof. by intros l1 l2 Hl. Qed.
Lemma alike_bind {A B} (m1 m2 : eff Listener ListenEffect A) (f1 f2 : A -> eff Listener ListenEffect B) :
  sounds_alike m1 m2 -> (forall a, sounds_alike (f1 a) (f2 a)) -> sounds_alike (m1 ≫= f1) (m2 ≫= f2).
Proof.
  intros Hm Hf l1 l2 Hl. rewrite !run_eff. destruct (Hm l1 l2 Hl) as (S1 & E1 & R1).
  destruct (m1 l1) as [[l1' ef1] r1], (m2 l2) as [[l2' ef2] r2]. cbn in S1, E1, R1. subst ef2 r2.
  destruct r1 as [a|]; [|done]. destruct (Hf a l1' l2' S1) as (S2 & E2 & R2).
  destruct (f1 a l1') as [[??]?], (f2 a l2') as [[??]?]. cbn in *. split_and!; congruence || done.
Qed.
Lemma alike_get {B} (f1 f2 : Listener -> eff Listener ListenEffect B) :
  (forall l1 l2, same_sound l1 l2 -> sounds_alike (f1 l1) (f2 l2)) ->
  sounds_alike (get_state ≫= f1) (get_state ≫= f2).
Proof. intros Hf l1 l2 Hl. rewrite !run_eff_get. by apply Hf. Qed.
Lemma alike_modify g1 g2 :
  (forall l1 l2, same_sound l1 l2 -> same_sound (g1 l1) (g2 l2)) ->
  sounds_alike (modify_state g1) (modify_state g2).
Proof. intros Hg l1 l2 Hl. split_and!; [by apply Hg|done..]. Qed.
Lemma alike_effect e : sounds_alike (effect e) (effect e).
Proof. by intros l1 l2 Hl. Qed.
Lemma alike_log x : sounds_alike (log_arg x) (log_arg x).
Proof. by intros l1 l2 Hl. Qed.

Lemma conceal_alike n : sounds_alike (conceal n) (conceal n).
Proof.
  induction n as [|n IH]; cbn [conceal]; [apply alike_ret|]. apply alike_get.
  intros l1 l2 (Ea & Ed & Es). rewrite Ed. destruct (decode_loss (ln_decoder l2)) as [d plc].
  apply alike_bind; [apply alike_modify; by intros ?? (?&?&?)|]. intros _.
  apply alike_bind; [destruct plc; [apply alike_effect|apply alike_ret]|done].
Qed.

Lemma play_opus_alike opus u1 u2 : sounds_alike (play_opus opus u1) (play_opus opus u2).
Proof.
  apply alike_get. intros l1 l2 (_ & Ed & _). rewrite Ed. destruct (decode _ _) as [d samples].
  apply alike_bind; [apply alike_modify; by intros ?? (?&?&?)|]. intros _. destruct samples; [|apply alike_ret].
  apply alike_bind; [apply alike_effect|]. intros _. apply alike_modify. by intros ?? (?&?&?).
Qed.

Lemma listener_frame_alike source f u1 u2 :
  sounds_alike (listener_frame source f u1) (listener_frame source f u2).
Proof.
  unfold listener_frame. apply alike_get. intros l1 l2 (_ & _ & Es). rewrite Es.
  apply alike_bind; [apply conceal_alike|]. intros _.
  apply alike_bind; [apply alike_modify; by intros ?? (?&?&?)|]. intros _.
  destruct (split_frame _) as [[checkpoint opus]|]; [|apply alike_ret].
  apply alike_get. intros l3 l4 (Ea & _ & _). rewrite Ea.
  destruct (verify_frame _ _ _ _) as [auth auth_result].
  apply alike_bind; [apply alike_modify; by intros ?? (?&?&?)|]. intros _.
  destruct auth_result; try (apply alike_bind; [apply play_opus_alike|intros _; apply alike_ret]);
    (apply alike_bind; [apply alike_log|]; intros _; apply alike_bind; [apply alike_effect|];
     intros _; apply alike_ret).
Qed.

Lemma listener_loop_alike source frames us1 us2 :
  length us1 = length frames -> length us2 = length frames ->
  sounds_alike (listener_loop source (zip frames us1)) (listener_loop source (zip frames us2)).
Proof.
  revert us1 us2. induction frames as [|f frames IH]; intros [|u1 us1] [|u2 us2] L1 L2; try discriminate;
    cbn [zip zip_with listener_loop]; [apply alike_ret|].
  apply alike_bind; [apply listener_frame_alike|]. intros [|]; [|apply alike_ret].
  by apply IH; [injection L1|injection L2].
Qed.

(** The target depth stays between 60 and 200 ms. *)
Lemma adapt_bounds u j :
  (JB_MIN_FRAMES <= jb_target_frames j <= JB_MAX_FRAMES)%nat ->
  (JB_MIN_FRAMES <= jb_target_frames (adapt u j) <= JB_MAX_FRAMES)%nat.
Proof.
  unfold adapt, JB_MIN_FRAMES, JB_MAX_FRAMES. intros Hj. destruct (jb_playback_live j); [|exact Hj].
  destruct (0 <? u)%nat; cbn [jb_target_frames]; [destruct (Nat.ltb_spec (jb_target_frames j) 10); lia|].
  destruct (Nat.ltb_spec 3 (jb_target_frames j)); [|by rewrite andb_false_r].
  destruct (DRIFT_INTERVAL <=? _)%nat; cbn [jb_target_frames andb]; lia.
Qed.
End jitter.

(** ** An honest stream *)

Section honest.
Context `{Ed25519, !Ed25519Laws, Sha256, !Sha256Laws, OpusDecoding f32}.

(** What is played of a list of packets. *)
Fixpoint decode_all (d : Decoder) (packets : list bytes) : list (list f32) :=
  match packets with
  | [] => []
  | p :: packets => let '(d, out) := decode d p in option_list out ++ decode_all d packets
  end.

(** [seq] is the number that comes next. *)
Definition awaits (last_seq : option Z) (seq : Z) : Prop :=
  is_u32 seq /\ match last_seq with Some prev => seq = add_u32 prev 1 | None => True end.

Lemma awaits_no_loss last_seq seq : awaits last_seq seq -> lost_frames last_seq seq = 0%nat.
Proof.
  intros [Hu Ha]. unfold lost_frames. destruct last_seq as [prev|]; [|done]. rewrite Ha.
  unfold add_u32. rewrite Zminus_mod_idemp_l, Z.sub_diag. done.
Qed.

Lemma listener_frame_honest source host opus l seq ts u :
  follows (ln_auth l) host -> length (ha_chain_hash host) = 32%nat -> awaits (ln_last_seq l) seq ->
  let '(host', (tag, payload)) := process host opus in
  exists l', listener_frame source
      {| af_seq := seq; af_timestamp := ts; af_tag := tag; af_payload := payload |} u l =
      (l', Play <$> option_list (decode (ln_decoder l) opus).2, Some true) /\
    follows (ln_auth l') host' /\ length (ha_chain_hash host') = 32%nat /\
    ln_decoder l' = (decode (ln_decoder l) opus).1 /\ ln_last_seq l' = Some seq.
Proof.
  intros Hf Hlen Ha. destruct (honest_step _ _ opus Hf Hlen) as (cp & a' & Hs & Hv & Hf' & _ & Hlen').
  destruct (process host opus) as [host' [tag payload]]. cbn [fst snd] in *. cbv zeta in Hv.
  assert (exists r, verify_frame (ln_auth l) opus tag cp = (a', r) /\ r <> TamperDetected /\ r <> InvalidSignature)
    as (r & Er & R1 & R2) by (eexists; split; [exact Hv|]; by repeat case_match).
  unfold listener_frame. rewrite run_eff_get. cbn [af_seq af_tag af_payload].
  rewrite (awaits_no_loss _ _ Ha). cbn [conceal]. rewrite run_eff_ret, run_eff_modify, Hs, run_eff_get.
  cbn [ln_auth set_last_seq]. rewrite Er, run_eff_modify.
  destruct r; try done; rewrite run_eff; unfold play_opus; rewrite run_eff_get; cbn [ln_decoder set_auth set_last_seq];
    destruct (decode (ln_decoder l) opus) as [d [samples|]]; cbn [fst snd option_list];
    rewrite run_eff_modify; (eexists; split; [reflexivity|by split_and!]).
Qed.

Lemma listener_loop_cons source f frames u us :
  listener_loop source (zip (f :: frames) (u :: us)) =
    listener_frame source f u ≫= fun go => if go : bool then listener_loop source (zip frames us) else mret tt.
Proof. done. Qed.

Lemma listener_loop_honest source packets us : forall host l seq ts,
  follows (ln_auth l) host -> length (ha_chain_hash host) = 32%nat -> awaits (ln_last_seq l) seq ->
  length us = length packets ->
  exists l', listener_loop source (zip (number seq ts (host_stream host packets)) us) l =
    (l', Play <$> decode_all (ln_decoder l) packets, Some tt).
Proof.
  revert us. induction packets as [|opus packets IH]; intros us host l seq ts Hf Hlen Ha Hus.
  { by exists l. }
  destruct us as [|u us]; [discriminate|]. injection Hus as Hus.
  pose proof (listener_frame_honest source host opus l seq ts u Hf Hlen Ha) as Hstep.
  cbn [host_stream]. destruct (process host opus) as [host' [tag payload]].
  destruct Hstep as (l' & E & Hf' & Hlen' & Hd & Hseq).
  cbn [number]. rewrite listener_loop_cons, run_eff, E.
  destruct (IH us host' l' (add_u32 seq 1) (add_u32 ts (as_u32 SAMPLES_PER_FRAME)) Hf' Hlen') as [l2 E2].
  { rewrite Hseq. split; [apply add_u32_range|done]. }
  { done. }
  exists l2. rewrite E2. cbn [decode_all]. rewrite Hd.
  destruct (decode (ln_decoder l) opus) as [d out]. cbn [fst snd]. by rewrite fmap_app.
Qed.
End honest.

(** ** Relays *)

(** What a subscriber gets that loses nothing. *)
Definition subscribed (fs : list AudioFrame) : bytes := subscriber (fun _ => true) 0 (Frame <$> fs).

(** The same of a relay that reads its whole upstream, for a subscriber that
    joins after [j] frames. *)
Definition relay_hop (j : nat) (upstream : bytes) : bytes := subscribed (drop j (run_relay true upstream)).
Definition relay_hops (joins : list nat) (upstream : bytes) : bytes :=
  fold_left (fun upstream j => relay_hop j upstream) joins upstream.

Lemma subscribed_all fs : subscribed fs = concat (write_audio_frame <$> fs).
Proof.
  unfold subscribed. generalize 0%nat. induction fs as [|f fs IH]; intros n; [done|]. cbn. by rewrite IH.
Qed.

Lemma written_length fs : (length fs <= length (concat (write_audio_frame <$> fs)))%nat.
Proof.
  induction fs as [|f fs IH]; [done|]. cbn [fmap list_fmap concat length]. rewrite length_app.
  unfold write_audio_frame at 1. rewrite length_app, length_be_bytes. lia.
Qed.

Lemma relay_forwards j fs :
  Forall frame_wf fs -> Forall frame_fits fs -> relay_hop j (subscribed fs) = subscribed (drop j fs).
Proof.
  intros Hwf Hfit. unfold relay_hop, run_relay. cbn [run_relay_commands]. rewrite (subscribed_all fs).
  by rewrite read_written_frames by (try done; pose proof (written_length fs); lia).
Qed.
Lemma relays_forward joins fs :
  Forall frame_wf fs -> Forall frame_fits fs ->
  relay_hops joins (subscribed fs) = subscribed (drop (sum_list joins) fs).
Proof.
  revert fs. induction joins as [|j joins IH]; intros fs Hwf Hfit; [done|].
  change (relay_hops joins (relay_hop j (subscribed fs)) = subscribed (drop (j + sum_list joins) fs)).
  rewrite relay_forwards, <-drop_drop by done. by apply IH; apply Forall_drop.
Qed.

(** A command between two frames changes nothing. *)
Lemma whole_frames_written fs fuel :
  Forall frame_wf fs -> Forall frame_fits fs -> (length fs < fuel)%nat ->
  whole_frames fuel (subscribed fs) = (fs, true).
Proof.
  intros Hwf Hfit. rewrite subscribed_all. revert fuel Hfit.
  induction Hwf as [|f fs Hf _ IH]; intros [|fuel] Hfit Hfuel; try (cbn in Hfuel; lia); [done|].
  inversion Hfit as [|? ? Hf1 Hf2]; subst. cbn [fmap list_fmap concat whole_frames].
  rewrite read_write_audio by done. by rewrite IH by (cbn in Hfuel; try lia; done).
Qed.

(** A frame that has arrived in part is not a frame, and the reader waits. *)
Lemma whole_frames_part f k fuel :
  frame_fits f -> (0 < k < length (write_audio_frame f))%nat ->
  whole_frames (S fuel) (take k (write_audio_frame f)) = ([], true).
Proof.
  unfold frame_fits, write_audio_frame. intros Hfit Hk.
  set (w := encode_audio_frame f) in *. set (hd := be_bytes 2 (as_u16 (Z.of_nat (length w)))) in *.
  assert (length hd = 2%nat) as Hh by apply length_be_bytes.
  assert (9 <= Z.of_nat (length w) < 2 ^ 16) as Hw by (unfold w; rewrite encode_length; lia).
  assert (from_be hd = Z.of_nat (length w)) as Hn.
  { unfold hd. rewrite from_be_be_bytes. unfold as_u16. change (256 ^ Z.of_nat 2) with (2 ^ 16).
    by rewrite Z.mod_mod, Z.mod_small by lia. }
  rewrite length_app, Hh in Hk. cbn [whole_frames]. unfold read_audio_frame.
  rewrite andb_false_r. destruct (decide (k < 2)%nat) as [Hk2|Hk2].
  - assert (length (take k (hd ++ w)) = k) as El by (rewrite length_take, length_app; lia).
    unfold read_exact. rewrite El, (proj2 (Nat.leb_gt _ _)) by lia. cbn [mbind result_bind].
    by rewrite (proj2 (Nat.ltb_lt _ _)) by lia.
  - assert (take k (hd ++ w) = hd ++ take (k - 2) w) as ->.
    { rewrite take_app, Hh. by rewrite take_ge by lia. }
    pose proof (read_exact_app hd (take (k - 2) w)) as E. rewrite Hh in E. rewrite E. cbn [mbind result_bind].
    rewrite Hn, (proj2 (Z.ltb_ge _ _)) by (unfold HEADER_SIZE; lia). cbn [bail_if].
    rewrite Nat2Z.id. unfold read_exact. rewrite length_take, (proj2 (Nat.leb_gt _ _)) by lia.
    rewrite take_app_length' by done. rewrite Hn.
    by rewrite (proj2 (Z.leb_le _ _)), orb_true_r by (unfold HEADER_SIZE; lia).
Qed.

(** The commands of new subscribers: one that arrives between two frames loses
    nothing; one that arrives while [k] bytes of a frame have been read makes the
    relay go on in the middle of that frame, taking its bytes for a length. *)
Theorem relay_commands (closed : bool) (fs : list AudioFrame) (f : AudioFrame) (k : nat) (rest : bytes)
    (Hwf : Forall frame_wf fs) (Hfit : Forall frame_fits fs) (Hf : frame_fits f)
    (Hk : (0 < k < length (write_audio_frame f))%nat) :
  let w := write_audio_frame f in
  run_relay_commands closed [subscribed fs; w ++ rest] = fs ++ run_relay closed (w ++ rest) /\
  run_relay_commands closed [take k w; drop k w ++ rest] = run_relay closed (drop k w ++ rest).
Proof.
  intros w. split; unfold run_relay; cbn [run_relay_commands].
  - rewrite whole_frames_written; [done..|]. rewrite subscribed_all. pose proof (written_length fs). lia.
  - unfold w. by rewrite whole_frames_part.
Qed.

(** ** From the mixer of the host to a listener *)

(** The opus crate writes a packet into a buffer of 4000 bytes. *)
Definition MAX_PACKET_SIZE : nat := 4000.
Class OpusEncodingLaws `{OpusLib f32} := {
  encode_float_fits e frame p : (encode_float e frame).2 = Some p -> (length p <= MAX_PACKET_SIZE)%nat;
}.

Section wire.
Context `{Ed25519, !Ed25519Laws, Sha256, !Sha256Laws, OpusLib f32, !OpusEncodingLaws, HashOrder}.

(** What the host may put on the wire. *)
Definition wire_ok (w : Z * bytes) : Prop :=
  is_u8 w.1 /\ (length w.2 <= 96 + MAX_PACKET_SIZE)%nat.

Lemma host_stream_wire packets host :
  length (ha_chain_hash host) = 32%nat -> Forall encoded packets -> Forall wire_ok (host_stream host packets).
Proof.
  intros Hlen Hp. revert host Hlen.
  induction Hp as [|p packets (e & frame & _ & He) _ IH]; intros host Hlen; cbn [host_stream]; [constructor|].
  pose proof (encode_float_fits e frame p He) as Hsize. unfold process.
  set (h := sha256 (ha_chain_hash host ++ p)). assert (length h = 32%nat) as Hh by apply sha256_length.
  destruct (_ =? 0); (constructor; [|apply IH; exact Hh]); (split; [unfold is_u8, TAG_CHECKPOINT, TAG_NORMAL; cbn [fst]; lia|]); cbn [snd].
  - rewrite !length_app, Hh, sig_to_bytes_length. lia.
  - lia.
Qed.

Lemma number_ok wire : forall seq ts, is_u32 seq -> is_u32 ts -> Forall wire_ok wire ->
  Forall frame_wf (number seq ts wire) /\ Forall frame_fits (number seq ts wire).
Proof.
  induction wire as [|[tag p] wire IH]; intros seq ts Hs Ht Hw; cbn [number]; [by split; constructor|].
  inversion Hw as [|?? [Hu Hl] Hw']; subst. cbn [fst snd] in *.
  destruct (IH _ _ (add_u32_range seq 1) (add_u32_range ts (as_u32 SAMPLES_PER_FRAME)) Hw') as [IH1 IH2].
  split; constructor; try done. unfold frame_fits, MAX_PACKET_SIZE in *. cbn [af_payload]. lia.
Qed.

Lemma number_length seq ts wire : length (number seq ts wire) = length wire.
Proof. revert seq ts. induction wire as [|[tag p] wire IH]; intros seq ts; [done|]. cbn. by rewrite IH. Qed.

Lemma number_drop k wire : forall seq ts, is_u32 seq -> is_u32 ts ->
  exists seq' ts', is_u32 seq' /\ is_u32 ts' /\ drop k (number seq ts wire) = number seq' ts' (drop k wire).
Proof.
  revert wire. induction k as [|k IH]; intros wire seq ts Hs Ht; [by exists seq, ts|].
  destruct wire as [|[tag p] wire]; [by exists seq, ts|]. cbn [number drop]. apply IH; apply add_u32_range.
Qed.
End wire.

Lemma imap_zip {A B} (g : nat -> B) (l : list A) : imap (fun i x => (x, g i)) l = zip l (imap (fun i _ => g i) l).
Proof. revert g. induction l as [|x l IH]; intros g; [done|]. cbn. f_equal. exact (IH (g ∘ S)). Qed.

(** An attempt of a listener that goes through. *)
Definition connected `{Ed25519, OpusDecoding f32} (node pubkey source : string) (pk : PublicKey) (d : Decoder)
    (a : Attempt) : Prop :=
  is_ok (pk_parse node) = true /\ pk_parse pubkey = Ok pk /\ at_remote a = Some source /\
  at_stream a = true /\ at_identified a = true /\ at_decoder a = Some d /\ at_playback a = true.

Section delivered.
Context `{Ed25519, !Ed25519Laws, Sha256, !Sha256Laws, OpusDecoding f32, OpusLib f32, !OpusEncodingLaws, HashOrder}.

(** C16: Whatever the speakers of a stage do, the packets that the mixer of the host
    encodes reach a listener: behind any number of relays that lose
    nothing (no frame to a lagging subscriber, and no read cut by a command, see
    [relay_commands]), each of them and the listener joining its upstream at any
    frame, it decodes and plays exactly the packets from there on, in order,
    without a concealed frame and without an authentication failure. *)
Theorem stage_audio_delivered (sk : SecretKey) (le he : Encoder) (inputs : list MixInput) (k : nat) (joins : list nat)
    (node pubkey source : string) (d : Decoder) (a : Attempt)
    (Hconn : connected node pubkey source (sk_public sk) d a)
    (Hup : at_upstream a = relay_hops joins (subscribed (drop k (listener_out (run_mixer inputs (new_mixer sk le he)).1.2)))) :
  exists packets,
    listener_out (run_mixer inputs (new_mixer sk le he)).1.2 = number 0 0 (host_stream (host_auth_new sk) packets) /\
    run_listener_once node pubkey a =
      ([ConnectTo node; Identify CONN_TYPE_LISTENER] ++ (Play <$> decode_all d (drop (k + sum_list joins) packets)) ++
         [CloseConn], Some tt).
Proof.
  destruct (run_mixer_streaming inputs (new_mixer sk le he)) as (packets & Hout & _ & _ & _ & Henc).
  exists packets. split; [exact Hout|]. cbn [mx_listener_seq mx_listener_ts mx_auth new_mixer] in Hout.
  assert (is_u32 0) as Hz by (unfold is_u32; lia).
  assert (length (ha_chain_hash (host_auth_new sk)) = 32%nat) as Hlen by done.
  assert (forall n, exists host seq ts, drop n (number 0 0 (host_stream (host_auth_new sk) packets)) =
      number seq ts (host_stream host (drop n packets)) /\ is_u32 seq /\ ha_signing_key host = sk /\
      length (ha_chain_hash host) = 32%nat /\
      Forall frame_wf (number seq ts (host_stream host (drop n packets))) /\
      Forall frame_fits (number seq ts (host_stream host (drop n packets)))) as Hfrom.
  { intros n. destruct (number_drop n (host_stream (host_auth_new sk) packets) 0 0 Hz Hz) as (seq & ts & Hs & Ht & Hd).
    destruct (host_stream_drop n (host_auth_new sk) packets) as (host & Hh & Hkey & Hl).
    exists host, seq, ts. rewrite Hd, Hh. split_and!; try done; [by apply Hl|..];
      (apply number_ok; [done..|]; apply host_stream_wire; [by apply Hl|by apply Forall_drop]). }
  rewrite Hout in Hup. destruct (Hfrom k) as (host1 & seq1 & ts1 & E1 & _ & _ & _ & Hwf1 & Hfit1).
  rewrite relays_forward, drop_drop, subscribed_all in Hup by (rewrite E1; done).
  destruct (Hfrom (k + sum_list joins)%nat) as (host & seq & ts & E & Hs & Hkey & Hl & Hwf & Hfit).
  rewrite E in Hup. set (rest := drop (k + sum_list joins) packets) in *. clearbody rest.
  destruct Hconn as (Hn & Hp & Hr & Hst & Hi & Hdec & Hplay).
  unfold run_listener_once. rewrite Hn, Hr, Hst, Hi, Hp, Hdec, Hplay, Hup. cbn [negb].
  rewrite read_written_frames; [|done..|pose proof (written_length (number seq ts (host_stream host rest))); lia].
  cbn [fst]. rewrite imap_zip.
  destruct (listener_loop_honest source rest
    (imap (fun i _ => at_underruns a i) (number seq ts (host_stream host rest))) host
    {| ln_auth := listener_auth_new (sk_public sk); ln_decoder := d; ln_last_seq := None; ln_jitter := jitter_new |}
    seq ts) as [l' ->]; [split_and!; [done|by rewrite Hkey|done]|done|by split| |done].
  by rewrite length_imap, number_length, host_stream_length.
Qed.
End delivered.

(** ** What a listener plays *)

Section listener.
Context `{Ed25519, Sha256, OpusDecoding f32}.

Definition with_underruns (underruns : nat -> nat) (a : Attempt) : Attempt :=
  {| at_remote := at_remote a; at_stream := at_stream a; at_identified := at_identified a;
     at_decoder := at_decoder a; at_playback := at_playback a; at_upstream := at_upstream a;
     at_closed := at_closed a; at_underruns := underruns |}.

(** The adaptive jitter buffer does nothing: whatever underruns the playback
    reports, a listener plays the same samples at the same point of its loop.
    The target depth is computed (between 60 and 200 ms) and read by nothing but
    the log. *)
Theorem jitter_buffer_inert (node pubkey : string) (underruns : nat -> nat) (a : Attempt) :
  run_listener_once node pubkey (with_underruns underruns a) = run_listener_once node pubkey a.
Proof.
  unfold run_listener_once. cbn [with_underruns at_remote at_stream at_identified at_decoder at_playback at_upstream
    at_closed at_underruns].
  destruct (negb _); [done|]. destruct (at_remote a) as [source|]; [|done].
  destruct (negb (at_stream a)); [done|]. destruct (negb (at_identified a)); [done|].
  destruct (pk_parse pubkey) as [pk|]; [|done]. destruct (at_decoder a) as [d|]; [|done].
  destruct (at_playback a); [|done]. rewrite !imap_zip. cbv zeta.
  set (l := {| ln_auth := _; ln_decoder := _; ln_last_seq := _; ln_jitter := _ |}).
  match goal with |- context [zip ?fs (imap (fun i _ => underruns i) _)] => generalize fs end. intros fs.
  destruct (listener_loop_alike source fs (imap (fun i _ => underruns i) fs) (imap (fun i _ => at_underruns a i) fs)
    ltac:(by rewrite length_imap) ltac:(by rewrite length_imap) l l) as (_ & E & R); [done|].
  destruct (listener_loop _ (zip fs (imap (fun i _ => underruns i) fs)) l) as [[??]?].
  destruct (listener_loop _ _ l) as [[??]?]. cbn in E, R. by subst.
Qed.

Definition played (ef : list ListenEffect) : list (list f32) :=
  omap (fun e => match e with Play samples => Some samples | _ => None end) ef.
Lemma played_app ef ef' : played (ef ++ ef') = played ef ++ played ef'.
Proof. apply omap_app. Qed.

(** The frames from the last one received to [f], itself included. *)
Definition advance (last_seq : option Z) (f : AudioFrame) : Z :=
  match last_seq with Some prev => (af_seq f - prev) mod 2 ^ 32 | None => 1 end.
Fixpoint elapsed (last_seq : option Z) (fs : list AudioFrame) : Z :=
  match fs with [] => 0 | f :: fs => advance last_seq f + elapsed (Some (af_seq f)) fs end.
(** No gap of more than 63 frames, and no frame that comes late or twice. *)
Fixpoint small_gaps (last_seq : option Z) (fs : list AudioFrame) : Prop :=
  match fs with [] => True | f :: fs => 1 <= advance last_seq f <= 64 /\ small_gaps (Some (af_seq f)) fs end.

Lemma lost_advance last_seq f :
  1 <= advance last_seq f <= 64 -> Z.of_nat (lost_frames last_seq (af_seq f)) = advance last_seq f - 1.
Proof.
  unfold advance, lost_frames. destruct last_seq as [prev|]; [|done]. intros Ha.
  assert ((af_seq f - (prev + 1)) mod 2 ^ 32 = (af_seq f - prev) mod 2 ^ 32 - 1) as ->.
  { replace (af_seq f - (prev + 1)) with ((af_seq f - prev) - 1) by lia. rewrite <-Zminus_mod_idemp_l.
    apply Z.mod_small. lia. }
  destruct (Z.ltb_spec 0 ((af_seq f - prev) mod 2 ^ 32 - 1)); [|cbn; lia].
  destruct (Z.ltb_spec ((af_seq f - prev) mod 2 ^ 32 - 1) 64); cbn [andb]; lia.
Qed.

(** The calls of the decoder that fail: [n] concealments, then the packets. *)
Definition failed {A} (o : option A) : Z := match o with Some _ => 0 | None => 1 end.
Fixpoint conceal_fails (n : nat) (d : Decoder) : Decoder * Z :=
  match n with
  | O => (d, 0)
  | S n =>
      let '(d, plc) := decode_loss d in
      let '(d, m) := conceal_fails n d in (d, failed plc + m)
  end.
Fixpoint decode_fails (last_seq : option Z) (d : Decoder) (fs : list AudioFrame) : Z :=
  match fs with
  | [] => 0
  | f :: fs =>
      let '(d, m) := conceal_fails (lost_frames last_seq (af_seq f)) d in
      match split_frame (af_tag f, af_payload f) with
      | None => m + 1 + decode_fails (Some (af_seq f)) d fs
      | Some (_, opus) =>
          let '(d, samples) := decode d opus in
          m + failed samples + decode_fails (Some (af_seq f)) d fs
      end
  end.

Lemma failed_nonneg {A} (o : option A) : 0 <= failed o <= 1.
Proof. destruct o; cbn; lia. Qed.

Lemma conceal_spec n l : exists l' ef, conceal n l = (l', ef, Some tt) /\
  Z.of_nat (length (played ef)) + (conceal_fails n (ln_decoder l)).2 = Z.of_nat n /\
  ln_decoder l' = (conceal_fails n (ln_decoder l)).1.
Proof.
  revert l. induction n as [|n IH]; intros l; cbn [conceal conceal_fails]; [by exists l, []|]. rewrite run_eff_get.
  destruct (decode_loss (ln_decoder l)) as [d plc]. rewrite run_eff_modify.
  destruct (IH (set_decoder d l)) as (l' & ef & E & Hl & Hd). cbn [set_decoder ln_decoder] in Hl, Hd.
  destruct (conceal_fails n d) as [d' m]. cbn [fst snd] in *. destruct plc as [samples|].
  - rewrite run_eff_effect, E. exists l', (Play samples :: ef). split_and!; [done| |done].
    change (played (Play samples :: ef)) with (samples :: played ef). cbn [length failed]. lia.
  - rewrite run_eff. cbn [mret eff_ret]. rewrite E. exists l', ef. split_and!; [done|cbn [failed]; lia|done].
Qed.

(** The frame is decoded, and played if that succeeds. *)
Lemma play_opus_spec opus u l : exists l' ef, play_opus opus u l = (l', ef, Some tt) /\
  ln_last_seq l' = ln_last_seq l /\ ln_decoder l' = (decode (ln_decoder l) opus).1 /\
  Z.of_nat (length (played ef)) + failed (decode (ln_decoder l) opus).2 = 1.
Proof.
  unfold play_opus. rewrite run_eff_get. destruct (decode (ln_decoder l) opus) as [d [samples|]];
    rewrite run_eff_modify; by do 2 eexists.
Qed.

Lemma listener_frame_plays source f u l :
  exists l' ef go, listener_frame source f u l = (l', ef, go) /\
    ((exists r, AuthFailed source r ∈ ef) \/ go = None \/
     go = Some true /\ ln_last_seq l' = Some (af_seq f) /\
     forall fs, Z.of_nat (length (played ef)) + decode_fails (ln_last_seq l) (ln_decoder l) (f :: fs) =
       Z.of_nat (S (lost_frames (ln_last_seq l) (af_seq f))) +
       decode_fails (Some (af_seq f)) (ln_decoder l') fs).
Proof.
  unfold listener_frame. rewrite run_eff_get, run_eff.
  destruct (conceal_spec (lost_frames (ln_last_seq l) (af_seq f)) l) as (l1 & ef1 & -> & Hn & Hd).
  rewrite run_eff_modify. cbn [decode_fails].
  destruct (conceal_fails _ (ln_decoder l)) as [d1 m]. cbn [fst snd] in Hn, Hd.
  destruct (split_frame (af_tag f, af_payload f)) as [[cp opus]|].
  2: { do 3 eexists. split; [reflexivity|]. right. right. split_and!; [done..|]. intros fs.
       rewrite app_nil_r. cbn [set_last_seq ln_decoder]. rewrite Hd. lia. }
  rewrite run_eff_get. destruct (verify_frame _ _ _ _) as [auth r]. rewrite run_eff_modify.
  set (l2 := set_auth auth _).
  assert (exists l' ef, (_ ← play_opus opus u; mret true) l2 = (l', ef, Some true) /\
    ln_last_seq l' = Some (af_seq f) /\ ln_decoder l' = (decode d1 opus).1 /\
    Z.of_nat (length (played ef)) + failed (decode d1 opus).2 = 1) as (l' & ef & E & Hl & Hd' & Hp).
  { rewrite run_eff. destruct (play_opus_spec opus u l2) as (l' & ef & -> & Hl & Hd' & Hp).
    change (ln_decoder l2) with (ln_decoder l1) in Hd', Hp. rewrite Hd in Hd', Hp.
    exists l', ef. cbn. rewrite app_nil_r. by rewrite Hl. }
  destruct (decode d1 opus) as [d2 samples]. cbn [fst snd] in Hd', Hp.
  destruct r; try (rewrite E; do 3 eexists; split; [reflexivity|]; right; right;
    split_and!; [done..|]; intros fs; rewrite played_app, length_app, Hd'; lia);
    rewrite run_eff; unfold log_arg; destruct (short_id source); do 3 eexists;
    (split; [reflexivity|]); [left|by right; left|left|by right; left];
    eexists; apply elem_of_app; right; apply list_elem_of_here.
Qed.

(** C18: Lost frames do not shift the sound: as long as no gap is longer than 63
    frames and no authentication fails, a listener plays one frame of sound for
    each sequence number that has passed, received or not, except for those that
    the opus decoder rejects and the frames too short to be split. *)
Theorem losses_concealed (source : string) (fs : list AudioFrame) (us : list nat) (l l' : Listener)
    (ef : list ListenEffect)
    (Hus : length us = length fs)
    (Hgaps : small_gaps (ln_last_seq l) fs)
    (Hrun : listener_loop source (zip fs us) l = (l', ef, Some tt))
    (Hno : forall r, AuthFailed source r ∉ ef) :
  Z.of_nat (length (played ef)) =
    elapsed (ln_last_seq l) fs - decode_fails (ln_last_seq l) (ln_decoder l) fs.
Proof.
  revert us l l' ef Hus Hgaps Hrun Hno. induction fs as [|f fs IH]; intros us l l' ef Hus Hgaps Hrun Hno.
  { destruct us; [|done]. injection Hrun as _ <-. done. }
  destruct us as [|u us]; [done|]. injection Hus as Hus. destruct Hgaps as [Hg Hgaps].
  rewrite listener_loop_cons in Hrun. apply eff_bind_inv in Hrun as (l1 & ef1 & go & ef2 & E1 & E2 & ->).
  destruct (listener_frame_plays source f u l) as (l1' & ef1' & go' & E & Hcase). rewrite E in E1.
  injection E1 as -> -> ->. destruct Hcase as [[r Hr]|[?|([= ->] & Hl & Hp)]]; [|done|].
  { exfalso. apply (Hno r), elem_of_app. by left. }
  rewrite <-Hl in Hgaps. specialize (Hp fs). cbn [elapsed]. rewrite <-Hl in Hp |- *.
  rewrite played_app, length_app, Nat2Z.inj_add.
  rewrite (IH us l1 l' ef2); [|done..|by intros r Hr; apply (Hno r), elem_of_app; right].
  pose proof (lost_advance _ f Hg). lia.
Qed.
End listener.

(** ** A speaker *)

Section speaker.
Context `{OpusLib f32, Aec3 f32}.

Definition ends_session (x : SessionInput) : Prop := x = ConnectionLost \/ x = SessionCancelled.

(** From [s] to [s'] the session goes on. *)
Definition goes_on (s : SpeakerSession) (ef : list SessionEffect) (s' : SpeakerSession) : Prop :=
  ss_running s' = true /\ (ss_mic s = false -> ss_mic s' = false) /\ CloseSession ∉ ef.

Lemma session_step_goes_on x s :
  ~ ends_session x -> ss_running s = true -> goes_on s (session_step x s).2 (session_step x s).1.
Proof.
  unfold ends_session, goes_on. intros Hx Hr. destruct x as [rx| | | |id]; cbn [session_step]; rewrite ?Hr;
    try (by destruct Hx; auto); [| |case_decide]; (split_and!; [done..|]); cbn [snd];
    rewrite ?list_elem_of_singleton; first [apply not_elem_of_nil|done].
Qed.
Lemma run_session_goes_on inputs s :
  Forall (fun x => ~ ends_session x) inputs -> ss_running s = true ->
  goes_on s (run_session inputs s).2 (run_session inputs s).1.
Proof.
  intros Hx. revert s. induction Hx as [|x inputs Hx _ IH]; intros s Hr; cbn [run_session].
  { split_and!; [done..|apply not_elem_of_nil]. }
  pose proof (session_step_goes_on x s Hx Hr) as (R1 & M1 & N1). destruct (session_step x s) as [s1 ef1].
  specialize (IH s1 R1). destruct (run_session inputs s1) as [s2 ef2]. destruct IH as (R2 & M2 & N2).
  split_and!; [done|by auto|]. cbn [snd]. by rewrite elem_of_app; intros [?|?].
Qed.
Lemma run_session_app xs ys s :
  run_session (xs ++ ys) s =
    let '(s1, ef1) := run_session xs s in let '(s2, ef2) := run_session ys s1 in (s2, ef1 ++ ef2).
Proof.
  revert s. induction xs as [|x xs IH]; intros s; cbn [app run_session]; [by destruct (run_session ys s)|].
  destruct (session_step x s) as [s1 ef1]. rewrite IH. destruct (run_session xs s1) as [s2 ef2].
  destruct (run_session ys s2) as [s3 ef3]. by rewrite app_assoc.
Qed.

(** A speaker whose microphone stream broke does not notice: until the host's
    connection is lost or the stage is left, the session goes on without a
    microphone and is never closed, so that no other attempt is made. *)
Theorem mic_failure_unnoticed (before after : list SessionInput) :
  Forall (fun x => ~ ends_session x) (before ++ after) ->
  let '(s, ef) := run_session (before ++ MicWriteFails :: after) session_start in
  ss_running s = true /\ ss_mic s = false /\ CloseSession ∉ ef.
Proof.
  intros [Hb Ha]%Forall_app. rewrite run_session_app.
  pose proof (run_session_goes_on before session_start Hb eq_refl) as (R1 & _ & N1).
  destruct (run_session before session_start) as [s1 ef1]. cbn [run_session session_step].
  set (s2 := {| ss_running := _; ss_mic := false; ss_streams := _; ss_next_stream_id := _ |}).
  destruct (run_session_goes_on after s2 Ha R1) as (R2 & M2 & N2).
  destruct (run_session after s2) as [s3 ef3]. split_and!; [done|by apply M2|].
  by rewrite app_nil_l, elem_of_app; intros [?|?].
Qed.

(** ** Muting *)

Definition silent (c : list f32) : Prop := c = silence (length c).

Lemma silent_app a b : silent a -> silent b -> silent (a ++ b).
Proof. unfold silent, silence. intros Ha Hb. rewrite length_app, replicate_add. congruence. Qed.
Lemma silent_drop n c : silent c -> silent (drop n c).
Proof. unfold silent, silence. intros E. rewrite E at 1. by rewrite drop_replicate, length_drop. Qed.
Lemma silent_take n c : silent c -> silent (take n c).
Proof.
  unfold silent, silence. intros E. rewrite E at 1. by rewrite take_replicate, length_take.
Qed.

Lemma capture_muted accepts n aec rounds :
  Forall (fun r => ar_muted r = true) rounds -> Forall silent (speaker_capture f32_zero accepts n aec rounds).
Proof.
  intros Hr. revert n aec. induction Hr as [|r rounds Hm _ IH]; intros n aec; cbn [speaker_capture]; [constructor|].
  unfold aec_round. rewrite Hm. destruct (process_capture _ _) as [aec' [|s cleaned]]; [apply IH|].
  destruct (accepts n); [|constructor]. constructor; [|apply IH]. unfold silent, silence. by rewrite length_replicate.
Qed.

(** A packet of a frame of silence. *)
Definition silent_packet (p : bytes) : Prop := exists e, (encode_float e (silence FRAME_SIZE)).2 = Some p.

Lemma frames_of_silent buf :
  silent buf -> Forall (fun f => f = silence FRAME_SIZE) (frames_of FRAME_SIZE buf).1 /\ silent (frames_of FRAME_SIZE buf).2.
Proof.
  induction buf as [buf Hl|buf Hl IH] using (frames_ind FRAME_SIZE frame_size_pos); intros Hs.
  - by rewrite (frames_of_short _ frame_size_pos).
  - rewrite (frames_of_long _ frame_size_pos) by done. destruct (IH (silent_drop _ _ Hs)) as [I1 I2]. cbn [fst snd].
    split; [|done]. constructor; [|done]. rewrite (silent_take FRAME_SIZE _ Hs), length_take. f_equal. lia.
Qed.
Lemma encode_frames_silent e frames :
  Forall (fun f => f = silence FRAME_SIZE) frames -> Forall silent_packet (encode_frames e frames).2.
Proof.
  intros Hf. revert e. induction Hf as [|f frames -> _ IH]; intros e; [constructor|]. cbn [encode_frames].
  destruct (encode_float e (silence FRAME_SIZE)) as [e1 out] eqn:E1. specialize (IH e1).
  destruct (encode_frames e1 frames) as [e2 packets]. destruct out as [p|]; [|done].
  constructor; [|done]. exists e. by rewrite E1.
Qed.
Lemma push_silent enc c :
  silent (oe_buffer enc) -> silent c ->
  silent (oe_buffer (push_samples enc c).1) /\ Forall silent_packet (push_samples enc c).2.
Proof.
  intros Hb Hc. unfold push_samples. fold (frames_of FRAME_SIZE (extend_capped (FRAME_SIZE * 10) (oe_buffer enc) c)).
  destruct (frames_of_silent (extend_capped (FRAME_SIZE * 10) (oe_buffer enc) c)) as [Hf Hr].
  { unfold extend_capped. by apply silent_drop, silent_app. }
  destruct (frames_of _ _) as [frames rest]. cbn [fst snd] in *.
  pose proof (encode_frames_silent (oe_encoder enc) frames Hf) as Hp. by destruct (encode_frames _ _).
Qed.
Lemma mic_packets_payloads writable seq ts packets (P : bytes -> Prop) :
  Forall P packets -> Forall (fun f => P (af_payload f)) (mic_packets writable seq ts packets).1.1.1.
Proof.
  intros Hp. revert seq ts. induction Hp as [|p packets Hp _ IH]; intros seq ts; cbn [mic_packets]; [constructor|].
  destruct (writable seq); [|constructor]. specialize (IH (add_u32 seq 1) (add_u32 ts (as_u32 SAMPLES_PER_FRAME))).
  destruct (mic_packets _ _ _ _) as [[[fs s] t] ok]. by constructor.
Qed.
Lemma mic_loop_silent writable enc seq ts chunks :
  silent (oe_buffer enc) -> Forall silent chunks ->
  Forall (fun f => silent_packet (af_payload f)) (mic_loop writable enc seq ts chunks).1.
Proof.
  intros Hb Hc. revert enc seq ts Hb. induction Hc as [|c chunks Hc _ IH]; intros enc seq ts Hb; cbn [mic_loop]; [constructor|].
  destruct (push_silent enc c Hb Hc) as [Hb' Hp]. destruct (push_samples enc c) as [enc' packets].
  pose proof (mic_packets_payloads writable seq ts packets _ Hp) as Hf.
  destruct (mic_packets _ _ _ _) as [[[fs s] t] ok]. destruct ok; [|done]. specialize (IH enc' s t Hb').
  destruct (mic_loop _ _ _ _ _) as [fs' cancelled]. by apply Forall_app.
Qed.

(** A muted speaker sends nothing but encoded silence, whatever the microphone
    and the far end deliver. *)
Theorem muted_speaker_silent (accepts : nat -> bool) (aec : EchoCanceller f32) (rounds : list (AecRound (Sample := f32)))
    (encoder : option Encoder) (writable : Z -> bool)
    (Hmuted : Forall (fun r => ar_muted r = true) rounds) :
  Forall (fun f => silent_packet (af_payload f))
    (speaker_mic_send encoder writable (speaker_capture f32_zero accepts 0 aec rounds)).1.
Proof.
  unfold speaker_mic_send. destruct encoder as [e|]; [|constructor].
  apply mic_loop_silent; [done|by apply capture_muted].
Qed.
End speaker.

(** ** Witnesses *)

(** A decoder that plays as many samples as [count_opus] counted. *)
Definition count_decoding : OpusDecoding f32 :=
  {| Decoder := unit; decode_float d p := (d, Some (replicate (Z.to_nat (nth 0 p 0)) f32_one)) |}.
Lemma count_opus_laws : @OpusEncodingLaws count_opus.
Proof. split. intros e frame p [= <-]. cbn. unfold MAX_PACKET_SIZE. lia. Qed.

(** A speaker joins and says two samples; a listener connects through a relay
    that it joins after the first of three frames. *)
Definition one_voice : Received := fun rx => ([[f32_one; f32_one]], false).
Definition no_voice : Received := fun rx => ([], false).
Definition stage_inputs : list MixInput := [AddSpeaker "speaker1" 0; MixTick no_voice; MixTick one_voice; MixTick no_voice].
Definition stage_effects : list MixEffect :=
  (@run_mixer toy_ed25519 toy_sha256 count_opus listed_order stage_inputs
     (@new_mixer toy_ed25519 count_opus "host"%string tt tt)).1.2.
Definition listener_attempt : @Attempt count_decoding :=
  {| at_remote := Some "relay"%string; at_stream := true; at_identified := true;
     at_decoder := Some (tt : @Decoder f32 count_decoding); at_playback := true;
     at_upstream := relay_hops [1%nat] (subscribed (drop 0 (listener_out stage_effects)));
     at_closed := true; at_underruns := fun _ => 0%nat |}.

Lemma stage_audio_delivered_witness :
  length (listener_out stage_effects) = 3%nat /\
  exists packets, listener_out stage_effects =
      number 0 0 (@host_stream toy_ed25519 toy_sha256 (@host_auth_new toy_ed25519 "host"%string) packets) /\
    @run_listener_once toy_ed25519 toy_sha256 count_decoding "krelay" "khost" listener_attempt =
      ([ConnectTo "krelay"; Identify CONN_TYPE_LISTENER] ++ (Play <$> @decode_all count_decoding tt (drop 1 packets)) ++
         [CloseConn], Some tt).
Proof.
  split; [vm_compute; reflexivity|].
  apply (@stage_audio_delivered toy_ed25519 toy_ed25519_laws toy_sha256 toy_sha256_laws count_decoding count_opus
    count_opus_laws listed_order "host"%string tt tt stage_inputs 0 [1%nat] "krelay" "khost" "relay" tt listener_attempt).
  - split_and!; vm_compute; reflexivity.
  - reflexivity.
Defined.

(** Two frames are lost between the two that arrive. *)
Definition lossy_frames : list AudioFrame :=
  [{| af_seq := 2 ^ 32 - 1; af_timestamp := 0; af_tag := TAG_NORMAL; af_payload := [1] |};
   {| af_seq := 2; af_timestamp := 0; af_tag := TAG_NORMAL; af_payload := [1] |}].
Definition fresh_listener : @Listener toy_ed25519 count_decoding :=
  {| ln_auth := @listener_auth_new toy_ed25519 "host"%string; ln_decoder := tt : @Decoder f32 count_decoding;
     ln_last_seq := None; ln_jitter := jitter_new |}.

Lemma losses_concealed_witness :
  Z.of_nat (length (played (@listener_loop toy_ed25519 toy_sha256 count_decoding "host" (zip lossy_frames [0; 0]%nat)
    fresh_listener).1.2)) = 4.
Proof.
  set (run := @listener_loop toy_ed25519 toy_sha256 count_decoding "host" (zip lossy_frames [0; 0]%nat) fresh_listener).
  assert (run = (run.1.1, run.1.2, Some tt)) as E.
  { apply run_returned. vm_compute. reflexivity. }
  assert (run.1.2 = [Play [f32_one]; Play []; Play []; Play [f32_one]]) as Ef by (vm_compute; reflexivity).
  rewrite (@losses_concealed toy_ed25519 toy_sha256 count_decoding "host"%string
    lossy_frames [0; 0]%nat fresh_listener run.1.1 run.1.2); [reflexivity|reflexivity| |exact E|].
  - vm_compute. split_and!; first [exact I|discriminate].
  - rewrite Ef. intros r. by rewrite !elem_of_cons, elem_of_nil; intros [?|[?|[?|[?|?]]]].
Defined.

(** A subscriber joins after three bytes of a frame: the relay forwards a frame
    that nobody sent, and then nothing more. *)
Definition cut_frame : AudioFrame :=
  {| af_seq := 10; af_timestamp := 0; af_tag := TAG_NORMAL; af_payload := [1; 2; 3] |}.
Lemma relay_commands_witness :
  run_relay_commands true [take 3 (write_audio_frame cut_frame); drop 3 (write_audio_frame cut_frame) ++
     write_audio_frame cut_frame] <> [cut_frame; cut_frame] /\
  run_relay_commands true [write_audio_frame cut_frame; write_audio_frame cut_frame ++ []] =
    [cut_frame; cut_frame].
Proof.
  destruct (relay_commands true [cut_frame] cut_frame 3 (write_audio_frame cut_frame)) as [_ H].
  - apply Forall_singleton. vm_compute. split_and!; first [discriminate|reflexivity].
  - apply Forall_singleton. vm_compute. discriminate.
  - vm_compute. discriminate.
  - vm_compute. lia.
  - split; [rewrite H; vm_compute; discriminate|vm_compute; reflexivity].
Defined.

Lemma mic_failure_unnoticed_witness :
  let '(s, ef) := run_session [StreamAccepted 0; MicWriteFails; StreamAccepted 1; StreamEnds 0] session_start in
  ss_running s = true /\ ss_mic s = false /\ CloseSession ∉ ef.
Proof.
  apply (mic_failure_unnoticed [StreamAccepted 0] [StreamAccepted 1; StreamEnds 0]).
  repeat constructor; by intros [|].
Defined.

Definition no_canceller : Aec3 f32 :=
  {| EchoCanceller3 := unit; analyze_render e _ := e; aec_process e f := (e, f) |}.
Definition muted_voice : list (AecRound (Sample := f32)) :=
  replicate 2 {| ar_far := []; ar_raw := replicate 480 f32_one; ar_cancelled := false; ar_muted := true |}.
Definition muted_capture : list (list f32) :=
  @speaker_capture f32 f32_zero no_canceller (fun _ => true) 0
    {| ec_inner := tt : @EchoCanceller3 f32 no_canceller; ec_render_buf := []; ec_capture_buf := [] |} muted_voice.

Lemma muted_speaker_silent_witness :
  let frames := (@speaker_mic_send count_opus (Some tt) (fun _ => true) muted_capture).1 in
  length frames = 1%nat /\ Forall (fun f => @silent_packet count_opus (af_payload f)) frames.
Proof.
  split; [vm_compute; reflexivity|].
  apply (@muted_speaker_silent count_opus no_canceller). repeat constructor.
Defined.
